(* ===== verification/_CoqProject ===== *)
-Q . S2P
Prelude.v
JsNum.v
JsString.v
JsValue.v
Integers.v
ExtCore.v
Fields.v
Settings.v
Register.v
OptionsManager.v
MultiOptionsManager.v
Formatters.v
Collection.v
SortTypes.v
Selection.v
Store.v
TorrentGrid.v
UI.v
Poll.v
Delta.v
GridColumns.v
Sidebar.v
EventsManager.v
Client.v
CreateTorrent.v
Files.v
ConnectionManager.v
AddTorrent.v
FreeSpace.v
DaemonConfig.v
Preferences.v
Details.v
PreferencePages.v
Forms.v
LabelSettings.v
TrackerSettings.v
LabelsPage.v
ListPages.v
Watching.v
TrackerInfo.v
Ledgers.v
EditTrackers.v
StatusBar.v
Connections.v
DetailsPanel.v
DetailsScreen.v
Menus.v
InterfacePage.v
Login.v
