(* ===== verification/Prelude.v ===== *)
(** * redeluge: a verification library for the Web UI

    redeluge is a BitTorrent daemon with a web server, both in Rust, and the
    interface Deluge had for it in the browser, in JavaScript
    ([src/crates/redeluge-web/assets/js]).  This development models the
    interface: its own code ([deluge-all/], below without a path) and the parts
    of ExtJS ([extjs/ext-all-debug.js], "Ext" below) its state rests on, with
    pieces of the server and of the daemon where a theorem is about both ends.

    ** How the parts interact

    [UI] asks the server every two seconds for the list of torrents, by a call
    of [RpcClient]; the answer, the whole list or a difference, is folded into
    what [TorrentGrid] holds and drawn through an Ext store; the filters the
    question carries are those of the [Sidebar], the fields those [Deluge.Keys]
    makes of the columns shown.  [OptionsManager] and [MultiOptionsManager] sit
    between a form and the options it edits.  [EventsManager] asks for the
    server's events in a loop and fires them.  The windows ask and are answered
    on their own.

    ** The files

    - [Prelude]: JavaScript objects as lists of properties, runs of machines.
    - [JsNum], [JsString], [JsValue]: numbers (binary64, [SpecFloat]), strings
      (code units below 256), primitive values, conversions and comparisons;
      [Integers]: the arithmetic and the texts of whole numbers, exact.
    - [ExtCore]: [Ext.apply], [Ext.each], ... and what [Deluge.js] adds.
    - [Fields] (Ext and Spinner fields, [DurationField.js]): what a field holds;
      [Settings]: settings as dictionaries and the class of what keeps them, with
      the pages of the preferences as machines over it; [Forms]: forms built
      from a table, with the class of windows that fill one.
    - [OptionsManager] ([OptionsManager.js]), [MultiOptionsManager]
      ([MultiOptionsManager.js]), [Formatters] ([Formatters.js]).
    - [Collection] (Ext MixedCollection), [SortTypes] (Ext sort types, field
      types, [data/SortTypes.js]), [Store] (Ext Record and Store).
    - [TorrentGrid] and [GridColumns] ([TorrentGrid.js], [Keys.js],
      [grid/BufferView.js]): the list, and its columns and keys.
    - [UI] ([UI.js]): the polling loop with its timers; [Poll]: the loop and
      the list together; [Delta]: the server's differences
      ([json_api.rs], [state.rs]), the network between, and the list.
    - [Sidebar] ([FilterPanel.js], [Sidebar.js], Ext DataView).
    - [EventsManager] ([EventsManager.js], Ext Event), [Client] ([Client.js]).
    - [CreateTorrent] ([CreateTorrentWindow.js]), [Files]
      ([details/FilesTab.js], Ext tree nodes), [ConnectionManager]
      ([ConnectionManager.js], and [web_get_host_status] of [json_api.rs]).
    - [AddTorrent] ([add/AddWindow.js], [add/OptionsPanel.js],
      [add/FilesTab.js], [add/UrlWindow.js]) and [FreeSpace]
      ([add/OptionsTab.js]): what is added, with the files chosen.
    - [DaemonConfig] (Ext.util.JSON, [config.rs] and [core.set_config] of the
      daemon): how what is sent is written down, and what the daemon takes of it.
    - [Preferences] ([preferences/PreferencesWindow.js], and the port of
      [prefs.rs]): what is edited, sent and committed, and the port the daemon
      listens on then.
    - [PreferencePages] ([preferences/DownloadsPage.js], [QueuePage.js],
      [SchedulerPage.js], [BlocklistPage.js], [OtherPage.js],
      [NotificationsPage.js]; [countrydb.rs] for one theorem): the settings that
      pages read and write themselves, as instances of [Settings].
    - [LabelSettings] ([LabelSettingsWindow.js]) and [TrackerSettings]
      ([TrackerSettingsWindow.js]): two instances of [Forms]; [Sweep] in the
      second is what the daemon decides once a minute under a tracker's rules
      ([features/tracker.rs], [features/mod.rs], [features/label.rs],
      [core.rs]), which the preview of the window foretells.
    - [Details] ([details/OptionsTab.js], [details/PeersTab.js],
      [details/DetailsTab.js]): the tabs of the torrent selected;
      [DetailsPanel] ([details/DetailsPanel.js], [details/StatusTab.js], Ext
      RowSelectionModel): the panel that tells the tabs what to show, and the
      tab of the status; [DetailsScreen]: the panel and its five tabs as one
      machine, with the answers each waits for.
    - [Register] ([core.rs], [features/label.rs] of the daemon): the labels that
      exist and the torrents in them, which [LabelsPage]
      ([preferences/LabelsPage.js]) and the menu of labels in [Menus] are run
      against; [Menus] also has what the items of a torrent's menu ask
      ([Menus.js]), [Toolbar.js], [RemoveWindow.js] and [MoveStorage.js].
    - [Selection] (Ext RowSelectionModel and [Store.find]): a grid of one
      selected row, as the pages and windows with a list use it.
    - [ListPages] ([preferences/AutoAddPage.js], [preferences/RssPage.js]):
      watched folders and feeds, as instances of [Settings].
    - [Watching]: the class of windows that ask again while they are shown, with
      its instances [TrackerInfo] ([TrackerInfoWindow.js]) and [Ledgers]
      ([ActivityWindow.js], [PeersWindow.js]).
    - [EditTrackers] ([EditTrackersWindow.js], [EditTrackerWindow.js],
      [AddTrackerWindow.js]): the trackers of a torrent, by their tiers or by the
      header clicked last.
    - [StatusBar] ([Statusbar.js], [StatusbarMenu.js], [OtherLimitWindow.js]): the bar, and its menus of limits.
    - [Connections] ([AddConnectionWindow.js], [EditConnectionWindow.js], and the
      hosts and pins of [json_api.rs]): the windows of a host with the server.
    - [InterfacePage] ([preferences/InterfacePage.js], the web settings of
      [json_api.rs] and [routes.rs], and [preferences/IdentityPage.js]): the
      settings of the interface itself, and what the swarm is told.
    - [Login] ([LoginWindow.js], with [auth.rs] and the calls of [auth] in
      [json_api.rs]): the window, the browser's cookie and the server's sessions
      as one machine, and the server alone under any requests.

    Each component is a Module with its state as a Record, one definition per
    handler, and where it has timers or calls a [step] on events: a timer going
    off, a call answered or lost, a click.  A handler answers the new state and
    what it does outside (calls, events fired, boxes); a [TypeError] is [None]
    or an output [Throw] where the state that is left matters.

    ** What is shown

    - End to end: tabs that poll hold the list the server holds
      while no more than four sessions
      poll ([Delta.tabs_hold_what_was_sent]), and what is drawn is that list
      ([Poll.list_on_screen], [Sidebar.panel_shows_what_was_sent]).
    - Loops and timers: one poll, one question, one timer at a time, and none
      that dies while it should go on ([UI.one_poll_at_a_time],
      [UI.answer_keeps_polling], [EventsManager.events_loop],
      [CreateTorrent.job_watched], [ConnectionManager.one_timer_while_shown]).
    - Edits: what is edited is what is read, for one form and for a form over
      many torrents ([OptionsManager], [MultiOptionsManager]), and what is sent
      ([AddTorrent.choices_are_sent], [Preferences.apply_saves]).
    - Settings: what was read and is shown is written back as it was, through
      every field and its text ([PreferencePages.pages_write_back],
      [LabelSettings.label_settings_kept], [TrackerSettings.rules_kept],
      [Fields.duration_roundtrip]); the greyed fields follow their switches
      ([LabelSettings.switches_govern]); the schedule is always a table, of three
      states as long as no other is read ([PreferencePages.schedule_shown]); the questions about a test
      message end ([PreferencePages.test_ends]).
    - The preview of a tracker's removals is what the daemon does, but for
      torrents the rule is moving ([TrackerSettings.removal_foretold],
      [TrackerSettings.moved_not_removed]).
    - Lists: rows are what was answered last ([Details.rows_are_peers]), by the
      lemmas of [TorrentGrid]; trackers are in the order of their tiers unless a
      header was clicked, and saved as shown ([EditTrackers.trackers_in_order]);
      no tab goes on showing a torrent when none is selected, unless an answer
      comes late ([DetailsScreen.nothing_selected_nothing_shown],
      [DetailsScreen.late_status_drawn]).
    - Both ends: a label that is picked or renamed reaches its torrents in
      whatever order the daemon serves the calls ([Menus.label_reaches_all],
      [LabelsPage.rename_moves]), and is not lost when a rename is cut short
      ([LabelsPage.rename_keeps_labels]); editing a host keeps every pin
      when its calls are answered in turn ([Connections.edits_keep_pins]).
    - Sessions: nobody is served without the password
      ([Login.no_entry_without_password]), one stays logged in
      ([Login.login_lasts]) and is never left without a way in
      ([Login.never_stranded]), short of the case of
      [Login.late_answer_logs_out].
    - Calls: each answer reaches its caller ([Client.answer_reaches_caller]).
    - Trees: updating is building again, and the priorities sent are those of
      the selection ([Files]).
    - Functions: rounding, encoding, keys, sorting, round trips ([Formatters],
      [GridColumns], [Integers], [CreateTorrent.lines_roundtrip]).
    - Behaviour the code has and does not mean to: the theorems of kind error,
      and others such as [LabelSettings.early_ok_resets],
      [TrackerSettings.early_ok_defaults], [TrackerSettings.label_foretold_again],
      [Details.apply_forgets_other_edits],
      [Preferences.edit_while_applying_lost], [Poll.null_list_throws],
      [AddTorrent.removal_shares_choices], [LabelsPage.rename_unlabels],
      [Connections.pin_of_another], [Menus.rows_of_another_removed],
      [InterfacePage.config_of_page],
      [Login.change_keeps_sessions], [Login.lost_logout_strands] and [DetailsPanel.tracker_text_is_markup].

    ** Bounds and parameters

    Recursion is structural, except that [Event.fire] and [val_str] carry fuel:
    one unit per nested firing of the same event (theorems hold for any), and
    one per array of the store, which is enough because an array already on the
    way prints as nothing.  The local time zone, the clock, translations, the
    base address and the columns' widths are parameters.  Strings are code
    units below 256: every separator the code looks for is one.

    ** Not modelled

    Layout, drawing on the page and drag and drop; the prototype chain of
    objects used as dictionaries (a property such as [constructor] of a plain
    object), but for the labels of [TrackerSettings]; what the browser's console
    says; the pages of the preferences that only bind options, and the
    validation of fields; the about box and the
    other windows of one call and no state; ranges of rows selected with shift;
    the daemon and the server but for the pieces named.  [hex::decode], of a
    crate, is a parameter of [Connections]; how an object within what is sent is
    written is one of [DaemonConfig.Wire].
    Which tab is open and what is greyed out is left out of [AddTorrent]. *)

From stdpp Require Import base list strings gmap.
From Stdlib Require Import Lia ZArith.

(** ** Plain objects

    A JavaScript object used as a dictionary is the list of its own
    properties in the order they were created.  Reading a property is the
    first binding of its key; assigning to a property that exists keeps its
    place, and assigning to a new one appends it. *)

Declare Scope js_scope.
Delimit Scope js_scope with js.

Abbreviation obj A := (list (string * A)).

Fixpoint oget {A} (k : string) (o : obj A) : option A :=
  match o with
  | [] => None
  | (k', v) :: o' => if decide (k = k') then Some v else oget k o'
  end.

Fixpoint oset {A} (k : string) (v : A) (o : obj A) : obj A :=
  match o with
  | [] => [(k, v)]
  | (k', v') :: o' =>
      if decide (k = k') then (k, v) :: o' else (k', v') :: oset k v o'
  end.

Fixpoint odel {A} (k : string) (o : obj A) : obj A :=
  match o with
  | [] => []
  | (k', v') :: o' => if decide (k = k') then odel k o' else (k', v') :: odel k o'
  end.

(** An object with no key listed twice, which is what every object is. *)
Definition obj_ok {A} (o : obj A) : Prop := NoDup o.*1.

(** A canonical array index: ["0"], or digits that do not start with a zero,
    below [2^32 - 1].  [for .. in] and [Object.keys] list these first, in
    ascending order. *)
Fixpoint digits_value (acc : Z) (s : string) : option Z :=
  match s with
  | EmptyString => Some acc
  | String c s' =>
      let n := Z.of_nat (Ascii.nat_of_ascii c) in
      if decide (48 <= n <= 57)%Z then digits_value (10 * acc + (n - 48))%Z s' else None
  end.

Definition index_key (s : string) : option Z :=
  match s with
  | EmptyString => None
  | String c s' =>
      if decide (Ascii.nat_of_ascii c = 48 /\ s' <> EmptyString) then None
      else v ← digits_value 0 s; if decide (v < 4294967295)%Z then Some v else None
  end.

Fixpoint index_insert (n : Z) (k : string) (l : list (Z * string)) : list (Z * string) :=
  match l with
  | [] => [(n, k)]
  | (m, k') :: l' =>
      if decide (n < m)%Z then (n, k) :: l else (m, k') :: index_insert n k l'
  end.

Fixpoint index_keys (ks : list string) : list (Z * string) :=
  match ks with
  | [] => []
  | k :: ks' =>
      match index_key k with
      | Some n => index_insert n k (index_keys ks')
      | None => index_keys ks'
      end
  end.

(** The keys of an object in the order [for .. in] visits them. *)
Definition key_order (ks : list string) : list string :=
  (index_keys ks).*2 ++ filter (fun k => index_key k = None) ks.

Definition okeys {A} (o : obj A) : list string := key_order o.*1.

(** ** Lemmas on objects *)

Section objects.
Context {A : Type}.
Implicit Types (o : obj A) (k : string) (v : A).

Lemma oget_oset_eq k v o : oget k (oset k v o) = Some v.
Proof. induction o as [|[k' v'] o IH]; simpl; repeat (case_decide; simpl); congruence. Qed.

Lemma oget_oset_ne k k' v o : k <> k' -> oget k (oset k' v o) = oget k o.
Proof.
  intros Hne. induction o as [|[k1 v1] o IH]; simpl; repeat (case_decide; simpl); congruence.
Qed.

Lemma oget_oset k k' v o :
  oget k (oset k' v o) = if decide (k = k') then Some v else oget k o.
Proof. case_decide; subst; auto using oget_oset_eq, oget_oset_ne. Qed.

Lemma oget_odel_eq k o : oget k (odel k o) = None.
Proof. induction o as [|[k' v'] o IH]; simpl; repeat (case_decide; simpl); congruence. Qed.

Lemma oget_odel_ne k k' o : k <> k' -> oget k (odel k' o) = oget k o.
Proof.
  intros Hne. induction o as [|[k1 v1] o IH]; simpl; repeat (case_decide; simpl); congruence.
Qed.

Lemma oget_odel k k' o :
  oget k (odel k' o) = if decide (k = k') then None else oget k o.
Proof. case_decide; subst; auto using oget_odel_eq, oget_odel_ne. Qed.

Lemma oget_is_Some k o : is_Some (oget k o) <-> k ∈ o.*1.
Proof.
  induction o as [|[k' v'] o IH]; simpl.
  - split; [by intros [? ?] | set_solver].
  - rewrite elem_of_cons. case_decide; subst; naive_solver.
Qed.

Lemma oget_None k o : oget k o = None <-> k ∉ o.*1.
Proof. rewrite <- oget_is_Some, eq_None_not_Some. done. Qed.

Lemma oget_Some_elem k v o : oget k o = Some v -> (k, v) ∈ o.
Proof.
  induction o as [|[k' v'] o IH]; simpl; [done|].
  rewrite elem_of_cons. case_decide; subst; naive_solver.
Qed.

Lemma oget_elem k v o : obj_ok o -> (k, v) ∈ o -> oget k o = Some v.
Proof.
  unfold obj_ok. induction o as [|[k' v'] o IH]; simpl; [set_solver|].
  rewrite NoDup_cons, elem_of_cons. intros [Hk' Hnd] [[= -> ->]|Hin]; case_decide; subst; auto; try done.
  exfalso. apply Hk', list_elem_of_fmap. by exists (k', v).
Qed.

Lemma oset_keys k v o j : j ∈ (oset k v o).*1 <-> j = k \/ j ∈ o.*1.
Proof. rewrite <- !oget_is_Some, oget_oset. case_decide; naive_solver. Qed.

Lemma odel_keys k o j : j ∈ (odel k o).*1 <-> j <> k /\ j ∈ o.*1.
Proof.
  rewrite <- !oget_is_Some, oget_odel. case_decide; [|naive_solver].
  split; [by intros [? ?] | naive_solver].
Qed.

Lemma oset_ok k v o : obj_ok o -> obj_ok (oset k v o).
Proof.
  unfold obj_ok. induction o as [|[k' v'] o IH]; simpl; intros Hnd.
  - apply NoDup_singleton.
  - apply NoDup_cons in Hnd as [Hk' Hnd]. case_decide; subst; simpl; apply NoDup_cons; [done|].
    split; [|auto]. rewrite oset_keys. naive_solver.
Qed.

Lemma odel_ok k o : obj_ok o -> obj_ok (odel k o).
Proof.
  unfold obj_ok. induction o as [|[k' v'] o IH]; simpl; intros Hnd; [done|].
  apply NoDup_cons in Hnd as [Hk' Hnd]. case_decide; subst; simpl; [auto|].
  apply NoDup_cons. split; [|auto]. rewrite odel_keys. naive_solver.
Qed.

Lemma nil_ok : obj_ok (A := A) [].
Proof. apply NoDup_nil_2. Qed.
End objects.

(** ** The order of keys *)

Lemma index_insert_elem n k l p : p ∈ index_insert n k l <-> p = (n, k) \/ p ∈ l.
Proof.
  induction l as [|[m k'] l IH]; simpl; [set_solver|].
  case_decide; rewrite ?elem_of_cons, ?IH; set_solver.
Qed.

Lemma index_keys_elem ks n k : (n, k) ∈ index_keys ks <-> k ∈ ks /\ index_key k = Some n.
Proof.
  induction ks as [|k' ks IH]; simpl; [set_solver|].
  rewrite elem_of_cons. destruct (index_key k') as [n'|] eqn:E.
  - rewrite index_insert_elem, IH. naive_solver.
  - rewrite IH. naive_solver.
Qed.

(** [for .. in] visits exactly the keys the object has. *)
Lemma key_order_elem ks k : k ∈ key_order ks <-> k ∈ ks.
Proof.
  unfold key_order. rewrite elem_of_app, list_elem_of_filter, list_elem_of_fmap.
  split.
  - intros [[[n k'] [-> Hin]]|[_ Hin]]; [|done]. apply index_keys_elem in Hin. naive_solver.
  - intros Hin. destruct (index_key k) as [n|] eqn:E; [left|by right].
    exists (n, k). split; [done|]. by apply index_keys_elem.
Qed.

Lemma okeys_elem {A} (o : obj A) k : k ∈ okeys o <-> is_Some (oget k o).
Proof. unfold okeys. by rewrite key_order_elem, oget_is_Some. Qed.

Lemma index_insert_perm n k l : (index_insert n k l).*2 ≡ₚ k :: l.*2.
Proof.
  induction l as [|[m k'] l IH]; simpl; [done|]. case_decide; simpl; [done|].
  rewrite IH. apply Permutation_swap.
Qed.

Lemma key_order_perm ks : key_order ks ≡ₚ ks.
Proof.
  unfold key_order. induction ks as [|k ks IH]; simpl; [done|].
  rewrite filter_cons. destruct (index_key k) as [n|] eqn:E.
  - rewrite decide_False by done. rewrite index_insert_perm. simpl. by rewrite IH.
  - rewrite decide_True by done. rewrite <- Permutation_middle. by rewrite IH.
Qed.

(** ... and each of them once. *)
Lemma okeys_NoDup {A} (o : obj A) : obj_ok o -> NoDup (okeys o).
Proof. unfold okeys, obj_ok. by rewrite key_order_perm. Qed.

(** ** Lists *)

(** A filter that every element passes keeps the list. *)
Lemma filter_id {A} (P : A -> Prop) `{forall x, Decision (P x)} (l : list A) :
  Forall P l -> filter P l = l.
Proof.
  induction 1 as [|x l Hx _ IH]; [done|]. rewrite filter_cons, decide_True by done. by rewrite IH.
Qed.

(** Filtering keeps the first components apart. *)
Lemma NoDup_filter_fst {A B} (P : A * B -> Prop) `{forall x, Decision (P x)} (l : list (A * B)) :
  NoDup l.*1 -> NoDup (filter P l).*1.
Proof.
  induction l as [|[a b] l IH]; [done|]. rewrite fmap_cons. intros [Ha Hn]%NoDup_cons.
  rewrite filter_cons. case_decide; [|auto]. rewrite fmap_cons. apply NoDup_cons. split; [|auto].
  intros ([a' b'] & E & Hin)%list_elem_of_fmap. apply list_elem_of_filter in Hin as [_ Hin].
  apply Ha, list_elem_of_fmap. by exists (a', b').
Qed.

Lemma NoDup_filter_names {A B} (f : A * B -> bool) (l : list (A * B)) :
  NoDup l.*1 -> NoDup (List.filter f l).*1.
Proof.
  induction l as [|[a b] l IH]; [done|]. rewrite fmap_cons. intros [Ha Hn]%NoDup_cons. simpl.
  destruct (f (a, b)); [|auto]. rewrite fmap_cons. apply NoDup_cons. split; [|auto].
  intros ([a' b'] & E & Hin)%list_elem_of_fmap. apply list_elem_of_In, List.filter_In in Hin as [Hin _].
  apply Ha, list_elem_of_fmap. exists (a', b'). split; [done|]. by apply list_elem_of_In.
Qed.

(** ** Automation *)

Create HintDb js.
#[export] Hint Resolve oset_ok odel_ok nil_ok : js.
#[export] Hint Rewrite @oget_oset_eq @oget_odel_eq : js.
#[export] Hint Rewrite @oget_oset_ne @oget_odel_ne using done : js.

(** Case analysis on the key comparisons of [oget] over [oset] and [odel]. *)
Ltac obj_simpl :=
  repeat (rewrite ?oget_oset, ?oget_odel in *; repeat case_decide; simplify_eq/=; try done).

(** Splits every conjunction of the context and the goal. *)
Ltac split_conj := repeat match goal with
  | H : _ /\ _ |- _ => destruct H
  | |- _ /\ _ => split
  end.

(** Breaks the innermost match or test of the goal. *)
Ltac break_match :=
  match goal with
  | |- context [match ?x with _ => _ end] =>
      lazymatch x with
      | context [match _ with _ => _ end] => fail
      | _ => destruct x eqn:?
      end
  end.

(** ** Runs

    A machine takes a step on an event where it can, and answers what it does
    outside; a run is a list of events, with everything it did. *)
Definition run {S E O} (step : S -> E -> option (S * list O)) (s : S) (es : list E)
    : option (S * list O) :=
  foldl (fun r e => '(s, os) ← r; '(s, os') ← step s e; Some (s, os ++ os')) (Some (s, [])) es.

Section run.
Context {S E O : Type} (step : S -> E -> option (S * list O)).

Lemma run_snoc s es e s' os :
  run step s (es ++ [e]) = Some (s', os) <->
  exists s1 os1 os2, run step s es = Some (s1, os1) /\ step s1 e = Some (s', os2) /\ os = os1 ++ os2.
Proof.
  unfold run. rewrite foldl_app. cbn [foldl].
  destruct (foldl _ _ es) as [[s1 os1]|]; cbn [mbind option_bind].
  - destruct (step s1 e) as [[s2 os2]|] eqn:E1; cbn; split.
    + intros [= <- <-]. eauto 6.
    + intros (? & ? & ? & [= <- <-] & ? & ->). congruence.
    + done.
    + intros (? & ? & ? & [= <- <-] & ? & ->). congruence.
  - split; [done|]. by intros (? & ? & ? & ? & _).
Qed.

Lemma run_app s es es' s' os :
  run step s (es ++ es') = Some (s', os) <->
  exists s1 os1 os2, run step s es = Some (s1, os1) /\ run step s1 es' = Some (s', os2) /\
    os = os1 ++ os2.
Proof.
  revert s' os. induction es' as [|e es' IH] using rev_ind; intros s' os.
  - rewrite app_nil_r. split.
    + intros H. exists s', os, []. by rewrite app_nil_r.
    + intros (s1 & os1 & os2 & H & [= <- <-] & ->). by rewrite app_nil_r.
  - rewrite app_assoc, run_snoc. setoid_rewrite run_snoc. split.
    + intros (s1 & os1 & os2 & H1 & H2 & ->). apply IH in H1 as (s2 & os3 & os4 & H3 & H4 & ->).
      exists s2, os3, (os4 ++ os2). rewrite app_assoc. eauto 8.
    + intros (s1 & os1 & os2 & H1 & (s2 & os3 & os4 & H2 & H3 & ->) & ->).
      exists s2, (os1 ++ os3), os4. rewrite <- app_assoc. split; [|done]. apply IH. eauto 6.
Qed.

(** What every step keeps, a run keeps. *)
Lemma run_ind (P : S -> list E -> list O -> Prop) s :
  P s [] [] ->
  (forall es s1 os1 e s2 os2, run step s es = Some (s1, os1) -> P s1 es os1 -> step s1 e = Some (s2, os2) ->
    P s2 (es ++ [e]) (os1 ++ os2)) ->
  forall es s' os, run step s es = Some (s', os) -> P s' es os.
Proof.
  intros H0 Hs es. induction es as [|e es IH] using rev_ind; intros s' os H.
  - by injection H as <- <-.
  - apply run_snoc in H as (s1 & os1 & os2 & H1 & H2 & ->). eauto.
Qed.
End run.

(** ** Lists of lists *)

Lemma elem_of_concat {A} (x : A) (ls : list (list A)) :
  x ∈ concat ls <-> exists l, x ∈ l /\ l ∈ ls.
Proof.
  induction ls as [|l ls IH]; cbn [concat].
  - split; [by intros ?%elem_of_nil|]. by intros (l & _ & ?%elem_of_nil).
  - rewrite elem_of_app, IH. split.
    + intros [H | (l' & H & Hl)]; [exists l|exists l']; (split; [done|]); [by left|by right].
    + intros (l' & H & [->|Hl]%elem_of_cons); [by left|right; eauto].
Qed.

Lemma omap_unique {A B} (f : A -> option B) l x y i :
  NoDup (omap f l) -> x ∈ l -> y ∈ l -> f x = Some i -> f y = Some i -> x = y.
Proof.
  induction l as [|z l IH]; intros Hn Hx Hy Ex Ey; [by apply elem_of_nil in Hx|].
  cbn in Hn. apply elem_of_cons in Hx as [E1|Hx]; apply elem_of_cons in Hy as [E2|Hy]; subst; try done.
  - rewrite Ex in Hn. apply NoDup_cons in Hn as [Hn _]. destruct Hn. apply list_elem_of_omap. eauto.
  - rewrite Ey in Hn. apply NoDup_cons in Hn as [Hn _]. destruct Hn. apply list_elem_of_omap. eauto.
  - apply IH; try done. destruct (f z); [by apply NoDup_cons in Hn as [_ Hn]|done].
Qed.

(** ** Arrays *)

(** [l[i] = x] of a JavaScript array: past its end it grows, with holes. *)
Definition array_assign {A} (hole : A) (l : list A) (i : nat) (x : A) : list A :=
  if i <? length l then <[i := x]> l else l ++ replicate (i - length l) hole ++ [x].
Definition array_assign_all {A} (hole : A) (l : list A) (xs : list (Z * A)) : list A :=
  foldl (fun l '(i, x) => if decide (i < 0)%Z then l else array_assign hole l (Z.to_nat i) x) l xs.

(** An array that is long enough keeps its length, and holds what was assigned. *)
Lemma array_assign_spec {A} (hole : A) l i x :
  i < length l -> length (array_assign hole l i x) = length l /\
  forall j, array_assign hole l i x !! j = if decide (j = i) then Some x else l !! j.
Proof.
  intros Hi. unfold array_assign. apply Nat.ltb_lt in Hi as Hb. rewrite Hb. split; [apply length_insert|].
  intros j. destruct (decide (j = i)) as [->|Hj]; [by apply list_lookup_insert_eq|by apply list_lookup_insert_ne].
Qed.

Lemma array_assign_at {A} (hole : A) l i x : array_assign hole l i x !! i = Some x.
Proof.
  unfold array_assign. destruct (Nat.ltb_spec i (length l)) as [Hi|Hi]; [by apply list_lookup_insert_eq|].
  rewrite !lookup_app_r; rewrite ?length_replicate; [|lia..].
  by replace (i - length l - (i - length l)) with 0 by lia.
Qed.

Lemma array_assign_all_spec {A} (hole : A) (l : list A) (xs : list (Z * A)) :
  NoDup xs.*1 -> (forall i x, (i, x) ∈ xs -> (0 <= i < Z.of_nat (length l))%Z) ->
  length (array_assign_all hole l xs) = length l /\
  (forall i x, (i, x) ∈ xs -> array_assign_all hole l xs !! Z.to_nat i = Some x).
Proof.
  unfold array_assign_all. induction xs as [|[j q] xs IH] using rev_ind;
    intros Hn Hi; [split; [done|by intros i x ?%elem_of_nil]|].
  rewrite fmap_app in Hn. apply NoDup_app in Hn as (Hn & Hd & _).
  destruct IH as [I1 I2]; [done|intros i x Hx; apply (Hi i x); set_solver|].
  rewrite foldl_app. cbn [foldl]. specialize (Hi j q ltac:(set_solver)) as Hj.
  rewrite decide_False by lia. set (r := foldl _ _ _) in *.
  destruct (array_assign_spec hole r (Z.to_nat j) q) as [A1 A2]; [lia|]. split; [congruence|].
  intros i x [Hx | [= -> ->]%list_elem_of_singleton]%elem_of_app; rewrite A2; [|by rewrite decide_True].
  rewrite decide_False; [by apply I2|].
  assert (i ∈ xs.*1) by (apply list_elem_of_fmap; by exists (i, x)).
  assert (i <> j) by (intros ->; by apply (Hd j); [|set_solver]).
  assert (0 <= i)%Z by (apply (Hi i x); set_solver). lia.
Qed.
