(* ===== verification/JsNum.v ===== *)
(** * Numbers

    A JavaScript number is an IEEE 754 double.  The Standard Library's
    [SpecFloat] gives the arithmetic of such numbers as computable functions
    over a sign, a mantissa and an exponent; this file fixes its two
    parameters to those of a double and adds what the interface asks of
    [Number] and [Math]: [floor], [round], [toFixed], the conversions to and
    from text. *)

From stdpp Require Import base list strings.
From Stdlib Require Import Lia ZArith Floats.SpecFloat.
From S2P Require Import Prelude.

Open Scope Z_scope.

Definition num := spec_float.

#[export] Instance num_eq_dec : EqDecision num.
Proof. solve_decision. Defined.

Definition nan : num := S754_nan.
Definition infinity : num := S754_infinity false.

(** The double nearest to [m * 2 ^ e]. *)
Definition num_norm (m e : Z) : num := binary_normalize 53 1024 m e false.

(** An integer as a number: exact below [2 ^ 53] in size. *)
Definition of_Z (z : Z) : num := num_norm z 0.

Definition num_add (x y : num) : num := SFadd 53 1024 x y.
Definition num_sub (x y : num) : num := SFsub 53 1024 x y.
Definition num_mul (x y : num) : num := SFmul 53 1024 x y.
Definition num_div (x y : num) : num := SFdiv 53 1024 x y.

Definition num_eqb (x y : num) : bool := SFeqb x y.
Definition num_ltb (x y : num) : bool := SFltb x y.
Definition num_leb (x y : num) : bool := SFleb x y.

Definition is_nan (x : num) : bool :=
  match x with S754_nan => true | _ => false end.
Definition is_finite (x : num) : bool :=
  match x with S754_nan | S754_infinity _ => false | _ => true end.

(** [Number.MAX_VALUE] and [Number.MAX_SAFE_INTEGER]. *)
Definition max_value : num := SFmax_float 53 1024.
Definition max_safe_integer : num := of_Z (2 ^ 53 - 1).

(** The integer part of [m * 2 ^ e], rounded down. *)
Definition floor_scaled (m e : Z) : Z :=
  if 0 <=? e then m * 2 ^ e else m / 2 ^ (- e).

Definition signed (s : bool) (m : positive) : Z := if s then Z.neg m else Z.pos m.

(** An integer as a number, with the sign of zero kept. *)
Definition of_Z_signed (s : bool) (z : Z) : num :=
  if z =? 0 then S754_zero s else of_Z z.

(** [Math.floor] *)
Definition num_floor (x : num) : num :=
  match x with
  | S754_finite s m e => of_Z_signed s (floor_scaled (signed s m) e)
  | _ => x
  end.

(** [Math.round]: the nearest integer, a tie going towards positive infinity. *)
Definition num_round (x : num) : num :=
  match x with
  | S754_finite s m e =>
      of_Z_signed s
        (if 0 <=? e then signed s m * 2 ^ e
         else (2 * signed s m + 2 ^ (- e)) / 2 ^ (- e + 1))
  | _ => x
  end.

(** [Math.min] and [Math.max] of two numbers (no zero of each sign is ever
    compared here). *)
Definition num_min (x y : num) : num :=
  if is_nan x || is_nan y then nan else if num_ltb y x then y else x.
Definition num_max (x y : num) : num :=
  if is_nan x || is_nan y then nan else if num_ltb x y then y else x.

(** ** Text *)

Definition digit_char (d : Z) : Ascii.ascii := Ascii.ascii_of_nat (Z.to_nat (48 + d)).

(** The decimal digits of a non-negative integer, by [fuel] divisions. *)
Fixpoint digits_of (fuel : nat) (z : Z) (acc : string) : string :=
  match fuel with
  | O => acc
  | S fuel' =>
      let acc := String.String (digit_char (z mod 10)) acc in
      if z / 10 =? 0 then acc else digits_of fuel' (z / 10) acc
  end.

(** Enough fuel for any integer: it has no more digits than bits. *)
Definition nat_str (z : Z) : string := digits_of (S (Z.to_nat (Z.log2 z))) z "".

Definition Z_str (z : Z) : string :=
  if z <? 0 then "-" +:+ nat_str (- z) else nat_str z.

Fixpoint zeros (n : nat) : string :=
  match n with O => "" | S n' => "0" +:+ zeros n' end.

(** Pads with zeros on the left to [n] characters. *)
Definition pad_zeros (n : nat) (s : string) : string :=
  (zeros (n - String.length s) +:+ s).

(** [m * 2 ^ e * 10 ^ d] rounded to an integer, a tie going up: what [toFixed]
    prints.  [m] is not negative. *)
Definition scaled_round (m e : Z) (d : nat) : Z :=
  let t := m * 10 ^ Z.of_nat d in
  if 0 <=? e then t * 2 ^ e else (2 * t + 2 ^ (- e)) / 2 ^ (- e + 1).

(** An integer [n] written with [d] decimals: [n / 10 ^ d]. *)
Definition fixed_str (d : nat) (n : Z) : string :=
  match d with
  | O => nat_str n
  | S _ =>
      let p := 10 ^ Z.of_nat d in
      nat_str (n / p) +:+ "." +:+ pad_zeros d (nat_str (n mod p))
  end.

(** The significant decimal digits of [m * 2 ^ e], [k] of them, with the power
    of ten they start at: the digits [s] and exponent [n] of
    [s * 10 ^ (n - k)], [s] the nearest such integer. *)
Definition dec_round (m e p : Z) : Z :=
  (* m * 2^e * 10^p to the nearest integer, a tie to even *)
  let num := m * (if 0 <=? e then 2 ^ e else 1) * (if 0 <=? p then 10 ^ p else 1) in
  let den := (if 0 <=? e then 1 else 2 ^ (- e)) * (if 0 <=? p then 1 else 10 ^ (- p)) in
  let q := num / den in
  let r := num mod den in
  match (2 * r ?= den) with
  | Lt => q
  | Gt => q + 1
  | Eq => if Z.even q then q else q + 1
  end.

(** The double nearest to [s * 10 ^ p]. *)
Definition dec_norm (s p : Z) : num :=
  match s with
  | Z0 => S754_zero false
  | Zpos s' =>
      if 0 <=? p then num_norm (s * 10 ^ p) 0
      else
        let '(q, e, l) := SFdiv_core_binary 53 1024 s 0 (10 ^ (- p)) 0 in
        binary_round_aux 53 1024 false q e l
  | Zneg _ => nan
  end.

(** The least [n] such that a positive [m * 2 ^ e] is below [10 ^ n], found by
    counting up from a lower bound. *)
Fixpoint dec_exp (fuel : nat) (m e n : Z) : Z :=
  match fuel with
  | O => n
  | S fuel' =>
      let lhs := m * (if 0 <=? e then 2 ^ e else 1) * (if 0 <=? n then 1 else 10 ^ (- n)) in
      let rhs := (if 0 <=? n then 10 ^ n else 1) * (if 0 <=? e then 1 else 2 ^ (- e)) in
      if lhs <? rhs then n else dec_exp fuel' m e (n + 1)
  end.

(** The fewest digits that read back as the same double. *)
Fixpoint shortest (fuel : nat) (k : Z) (x : num) (m e n : Z) : Z * Z :=
  let s := dec_round m e (k - n) in
  match fuel with
  | O => (s, k)
  | S fuel' =>
      if num_eqb (dec_norm s (n - k)) x then (s, k) else shortest fuel' (k + 1) x m e n
  end.

(** Drops the zeros a rounding up may have left at the end. *)
Fixpoint strip_zeros (fuel : nat) (s k : Z) : Z * Z :=
  match fuel with
  | O => (s, k)
  | S fuel' => if (s mod 10 =? 0) && (1 <? k) then strip_zeros fuel' (s / 10) (k - 1) else (s, k)
  end.

(** The layout of [Number::toString]: digits [ds], [k] of them, the decimal
    point after the [n]-th. *)
Definition layout (ds : string) (k n : Z) : string :=
  if (k <=? n) && (n <=? 21) then ds +:+ zeros (Z.to_nat (n - k))
  else if (0 <? n) && (n <=? 21) then
    String.substring 0 (Z.to_nat n) ds +:+ "." +:+
      String.substring (Z.to_nat n) (Z.to_nat (k - n)) ds
  else if (-6 <? n) && (n <=? 0) then "0." +:+ zeros (Z.to_nat (- n)) +:+ ds
  else
    let exp := (if 0 <=? n - 1 then "e+" else "e-") +:+ nat_str (Z.abs (n - 1)) in
    if k =? 1 then ds +:+ exp
    else String.substring 0 1 ds +:+ "." +:+ String.substring 1 (Z.to_nat (k - 1)) ds +:+ exp.

(** The value of a number that is an integer of at most 53 bits. *)
Definition num_int (x : num) : option Z :=
  match x with
  | S754_zero _ => Some 0
  | S754_finite s m e =>
      if 0 <=? e then None
      else if (Z.pos m mod 2 ^ (- e) =? 0) then Some (signed s m / 2 ^ (- e)) else None
  | _ => None
  end.

(** [String(x)] of a number.  No shorter text than its digits reads back as
    an integer of at most 53 bits, so those are written out; any other finite
    number is searched for. *)
Definition num_str (x : num) : string :=
  match num_int x with Some z => Z_str z | None =>
  match x with
  | S754_nan => "NaN"
  | S754_zero _ => "0"
  | S754_infinity s => if s then "-Infinity" else "Infinity"
  | S754_finite sg m e =>
      let low := (Z.log2 (Z.pos m) + e) * 3 / 10 - 2 in
      let n := dec_exp 8 (Z.pos m) e low in
      let '(s, k) := shortest 16 1 (S754_finite false m e) (Z.pos m) e n in
      (* a rounding up to the next power of ten has one digit more *)
      let '(s, n) := if 10 ^ k <=? s then (s / 10, n + 1) else (s, n) in
      let '(s, k) := strip_zeros 17 s k in
      (if sg then "-" else "") +:+ layout (nat_str s) k n
  end end.

(** [x.toFixed(d)], for the sizes below [10 ^ 21] it prints in full. *)
Definition to_fixed (d : nat) (x : num) : string :=
  match x with
  | S754_zero _ => fixed_str d 0
  | S754_finite s m e =>
      if num_leb (num_norm (10 ^ 21) 0) (S754_finite false m e) then num_str x
      else (if s then "-" else "") +:+ fixed_str d (scaled_round (Z.pos m) e d)
  | _ => num_str x
  end.

(** ** Integers are exact

    An integer of at most 53 bits is stored with its mantissa shifted to 53
    bits, so comparing two of them compares the integers. *)

Lemma digits2_pos_log2 p : Z.pos (digits2_pos p) = Z.log2 (Z.pos p) + 1.
Proof. induction p as [p IH|p IH|]; simpl; try lia; destruct p; simpl in *; lia. Qed.

Lemma digits2_pos_bounds p :
  2 ^ (Z.pos (digits2_pos p) - 1) <= Z.pos p < 2 ^ Z.pos (digits2_pos p).
Proof.
  rewrite digits2_pos_log2, Z.add_simpl_r.
  pose proof (Z.log2_spec (Z.pos p) ltac:(lia)) as H. by rewrite <- Z.add_1_r in H.
Qed.

Lemma iter_xO p k : Z.pos (Pos.iter xO p k) = Z.pos p * 2 ^ Z.pos k.
Proof.
  induction k as [|k IH] using Pos.peano_ind; [cbn [Pos.iter]; lia|].
  rewrite Pos.iter_succ, Pos2Z.inj_succ, Z.pow_succ_r by lia. lia.
Qed.

Lemma iter_xO_digits p k :
  Z.pos (digits2_pos (Pos.iter xO p k)) = Z.pos (digits2_pos p) + Z.pos k.
Proof.
  induction k as [|k IH] using Pos.peano_ind; [cbn [Pos.iter digits2_pos]; lia|].
  rewrite Pos.iter_succ. cbn [digits2_pos]. lia.
Qed.

(** Rounding a mantissa of exactly 53 bits changes nothing. *)
Lemma round_exact s m e :
  Z.pos (digits2_pos m) = 53 -> -1074 <= e <= 971 ->
  binary_round_aux 53 1024 s (Z.pos m) e loc_Exact = S754_finite s m e.
Proof.
  intros Hd He. unfold binary_round_aux, shr_fexp, fexp, emin. cbn [Zdigits2].
  replace (Z.max (Z.pos (digits2_pos m) + e - 53) (3 - 1024 - 53) - e) with 0 by lia.
  cbn [shr shr_record_of_loc shr_m loc_of_shr_record round_nearest_even Zdigits2].
  replace (Z.max (Z.pos (digits2_pos m) + e - 53) (3 - 1024 - 53) - e) with 0 by lia.
  cbn [shr shr_m]. rewrite (proj2 (Z.leb_le e (1024 - 53))) by lia. done.
Qed.

(** The mantissa and exponent of a positive integer. *)
Definition int_mant (p : positive) : positive :=
  match (53 - Z.pos (digits2_pos p))%Z with Z.pos k => Pos.iter xO p k | _ => p end.
Definition int_exp (p : positive) : Z := Z.pos (digits2_pos p) - 53.

Lemma digits_le_53 p : Z.pos p < 2 ^ 53 -> Z.pos (digits2_pos p) <= 53.
Proof.
  intros H. destruct (Z.le_gt_cases (Z.pos (digits2_pos p)) 53) as [|Hgt]; [done|].
  pose proof (digits2_pos_bounds p) as [Hb _].
  assert (2 ^ 53 <= 2 ^ (Z.pos (digits2_pos p) - 1)) by (apply Z.pow_le_mono_r; lia). lia.
Qed.

Lemma int_mant_value p :
  Z.pos p < 2 ^ 53 -> Z.pos (int_mant p) = Z.pos p * 2 ^ (53 - Z.pos (digits2_pos p)).
Proof.
  intros H. pose proof (digits_le_53 p H) as Hd. unfold int_mant.
  destruct (53 - Z.pos (digits2_pos p)) eqn:E; [simpl; lia|apply iter_xO|lia].
Qed.

Lemma round_int s p :
  Z.pos p < 2 ^ 53 -> binary_round 53 1024 s p 0 = S754_finite s (int_mant p) (int_exp p).
Proof.
  intros H. pose proof (digits_le_53 p H) as Hd.
  unfold binary_round, shl_align, fexp, emin, int_mant, int_exp.
  replace (Z.max (Z.pos (digits2_pos p) + 0 - 53) (3 - 1024 - 53) - 0)
    with (- (53 - Z.pos (digits2_pos p))) by lia.
  destruct (53 - Z.pos (digits2_pos p)) as [|k|k] eqn:E; [| |lia].
  - change (- 0) with 0. cbv iota beta. rewrite round_exact by lia. f_equal. lia.
  - change (- Z.pos k) with (Z.neg k). cbv iota beta.
    replace (Z.max (Z.pos (digits2_pos p) + 0 - 53) (3 - 1024 - 53))
      with (Z.pos (digits2_pos p) - 53) by lia.
    apply round_exact; [rewrite iter_xO_digits|]; lia.
Qed.

Definition safe (z : Z) : Prop := Z.abs z < 2 ^ 53.

Lemma of_Z_pos p : Z.pos p < 2 ^ 53 -> of_Z (Z.pos p) = S754_finite false (int_mant p) (int_exp p).
Proof. apply round_int. Qed.

Lemma of_Z_neg p : Z.pos p < 2 ^ 53 -> of_Z (Z.neg p) = S754_finite true (int_mant p) (int_exp p).
Proof. apply round_int. Qed.

(** Comparing two mantissas with their exponents compares the integers. *)
Lemma int_compare p q :
  Z.pos p < 2 ^ 53 -> Z.pos q < 2 ^ 53 ->
  match int_exp p ?= int_exp q with
  | Lt => Lt | Gt => Gt | Eq => Pos.compare_cont Eq (int_mant p) (int_mant q)
  end = (Z.pos p ?= Z.pos q).
Proof.
  intros Hp Hq. pose proof (digits2_pos_bounds p). pose proof (digits2_pos_bounds q).
  unfold int_exp.
  destruct (Z.compare_spec (Z.pos (digits2_pos p) - 53) (Z.pos (digits2_pos q) - 53)) as [E|E|E].
  - change (Pos.compare_cont Eq (int_mant p) (int_mant q)) with (Z.pos (int_mant p) ?= Z.pos (int_mant q)).
    rewrite !int_mant_value by done.
    replace (Z.pos (digits2_pos q)) with (Z.pos (digits2_pos p)) by lia.
    symmetry. apply Zmult_compare_compat_r, Z.lt_gt, Z.pow_pos_nonneg; [lia|].
    pose proof (digits_le_53 p Hp). lia.
  - symmetry. apply Z.compare_lt_iff.
    assert (2 ^ Z.pos (digits2_pos p) <= 2 ^ (Z.pos (digits2_pos q) - 1))
      by (apply Z.pow_le_mono_r; lia). lia.
  - symmetry. apply Z.compare_gt_iff.
    assert (2 ^ Z.pos (digits2_pos q) <= 2 ^ (Z.pos (digits2_pos p) - 1))
      by (apply Z.pow_le_mono_r; lia). lia.
Qed.

Lemma compare_of_Z a b : safe a -> safe b -> SFcompare (of_Z a) (of_Z b) = Some (a ?= b).
Proof.
  unfold safe. intros Ha Hb.
  destruct a as [|p|p], b as [|q|q]; rewrite ?of_Z_pos, ?of_Z_neg by lia; try done;
    cbn [SFcompare of_Z num_norm binary_normalize]; f_equal; rewrite <- ?(int_compare p q) by lia.
  - done.
  - change (Z.neg p ?= Z.neg q) with (CompOpp (Pos.compare p q)).
    change (Pos.compare p q) with (Z.pos p ?= Z.pos q).
    rewrite <- (int_compare p q) by lia. by destruct (int_exp p ?= int_exp q).
Qed.

(** Reading an integer back gives the integer. *)
Lemma int_of_mant p :
  Z.pos p < 2 ^ 52 -> int_exp p < 0 /\
  Z.pos (int_mant p) = Z.pos p * 2 ^ (- int_exp p).
Proof.
  intros H. rewrite int_mant_value by lia. unfold int_exp.
  assert (Hd : Z.pos (digits2_pos p) <= 52).
  { destruct (Z.le_gt_cases (Z.pos (digits2_pos p)) 52) as [|Hgt]; [done|].
    pose proof (digits2_pos_bounds p) as [Hb _].
    assert (2 ^ 52 <= 2 ^ (Z.pos (digits2_pos p) - 1)) by (apply Z.pow_le_mono_r; lia). lia. }
  split; [lia|]. f_equal. f_equal. lia.
Qed.

Lemma num_int_of_Z z : Z.abs z < 2 ^ 52 -> num_int (of_Z z) = Some z.
Proof.
  destruct z as [|p|p]; intros H; [done| |];
    rewrite ?of_Z_pos, ?of_Z_neg by lia; cbn [num_int];
    destruct (int_of_mant p) as [He Hm]; try lia;
    assert (0 < 2 ^ (- int_exp p)) by (apply Z.pow_pos_nonneg; lia);
    rewrite (proj2 (Z.leb_gt 0 (int_exp p)) He), Hm, Z.mod_mul by lia; cbn [Z.eqb]; f_equal; cbn [signed].
  - rewrite Hm. apply Z.div_mul. lia.
  - change (Z.neg (int_mant p)) with (- Z.pos (int_mant p)). rewrite Hm.
    change (Z.neg p) with (- Z.pos p). rewrite <- Z.mul_opp_l. apply Z.div_mul. lia.
Qed.

Lemma num_str_of_Z z : Z.abs z < 2 ^ 52 -> num_str (of_Z z) = Z_str z.
Proof. intros H. unfold num_str. by rewrite num_int_of_Z. Qed.

Lemma eqb_of_Z a b : safe a -> safe b -> num_eqb (of_Z a) (of_Z b) = (a =? b).
Proof.
  intros. unfold num_eqb, SFeqb. rewrite compare_of_Z by done. unfold Z.eqb.
  destruct (Z.compare_spec a b) as [->|H1|H1].
  - by destruct b; rewrite ?Pos.eqb_refl.
  - destruct a, b; try done; symmetry; apply Pos.eqb_neq; lia.
  - destruct a, b; try done; symmetry; apply Pos.eqb_neq; lia.
Qed.

Lemma ltb_of_Z a b : safe a -> safe b -> num_ltb (of_Z a) (of_Z b) = (a <? b).
Proof.
  intros. unfold num_ltb, SFltb. rewrite compare_of_Z by done.
  unfold Z.ltb. by destruct (a ?= b).
Qed.

Lemma leb_of_Z a b : safe a -> safe b -> num_leb (of_Z a) (of_Z b) = (a <=? b).
Proof.
  intros. unfold num_leb, SFleb. rewrite compare_of_Z by done.
  unfold Z.leb. by destruct (a ?= b).
Qed.

Lemma of_Z_not_nan a : safe a -> is_nan (of_Z a) = false.
Proof. unfold safe. destruct a; intros; rewrite ?of_Z_pos, ?of_Z_neg by lia; done. Qed.

(** A number that is not [NaN] equals itself. *)
Lemma num_eqb_refl x : is_nan x = false -> num_eqb x x = true.
Proof.
  unfold num_eqb, SFeqb. destruct x as [[]|[]| |[] m e]; try done; intros _; cbn [SFcompare];
    rewrite Z.compare_refl; change (Pos.compare_cont Eq m m) with (Pos.compare m m);
    by rewrite Pos.compare_refl.
Qed.

Lemma num_eqb_nan_l x : num_eqb nan x = false.
Proof. done. Qed.

Lemma num_ltb_irrefl x : num_ltb x x = false.
Proof.
  unfold num_ltb, SFltb. destruct x as [[]|[]| |[] m e]; try done; cbn [SFcompare];
    rewrite Z.compare_refl; change (Pos.compare_cont Eq m m) with (Pos.compare m m);
    by rewrite Pos.compare_refl.
Qed.

(** ** Dividing by 1024

    A division by a power of two only moves the exponent. *)

Lemma round_even_mant s m e :
  Z.pos (digits2_pos m) = 53 -> -1000 <= e <= 900 ->
  binary_round_aux 53 1024 s (Z.pos m~0) e loc_Exact = S754_finite s m (e + 1).
Proof.
  intros Hd He. unfold binary_round_aux, shr_fexp, fexp, emin. cbn [Zdigits2 digits2_pos].
  rewrite Pos2Z.inj_succ.
  replace (Z.max (Z.succ (Z.pos (digits2_pos m)) + e - 53) (3 - 1024 - 53) - e) with 1 by lia.
  cbn [shr shr_record_of_loc iter_pos shr_1 orb shr_m loc_of_shr_record round_nearest_even Zdigits2].
  replace (Z.max (Z.pos (digits2_pos m) + (e + 1) - 53) (3 - 1024 - 53) - (e + 1)) with 0 by lia.
  cbn [shr shr_m]. rewrite (proj2 (Z.leb_le (e + 1) (1024 - 53))) by lia. done.
Qed.

Lemma num_div_1024 s m e :
  Z.pos (digits2_pos m) = 53 -> -900 <= e <= 900 ->
  num_div (S754_finite s m e) (of_Z 1024) = S754_finite s m (e - 10).
Proof.
  intros Hd He. unfold num_div.
  change (of_Z 1024) with (S754_finite false 4503599627370496 (-42)).
  cbn [SFdiv]. unfold SFdiv_core_binary, fexp, emin.
  change (Zdigits2 4503599627370496) with 53. cbn [Zdigits2]. rewrite Hd.
  replace (Z.min (Z.max (53 + e - (53 + -42) - 53) (3 - 1024 - 53)) (e - -42)) with (e - 11) by lia.
  replace (e - -42 - (e - 11)) with 53 by lia. cbv iota beta.
  assert (Hq : Z.div_eucl (Z.shiftl (Z.pos m) 53) 4503599627370496 = (Z.pos m~0, 0)).
  { rewrite Z.shiftl_mul_pow2 by lia.
    rewrite (surjective_pairing (Z.div_eucl _ _)).
    change (fst (Z.div_eucl ?a ?b)) with (a / b). change (snd (Z.div_eucl ?a ?b)) with (a mod b).
    change (2 ^ 53) with (2 * 4503599627370496). rewrite Z.mul_assoc, Z.div_mul, Z.mod_mul by lia.
    f_equal. lia. }
  rewrite Hq. cbv iota beta. change (new_location 4503599627370496 0) with loc_Exact.
  rewrite round_even_mant by lia. f_equal; [by destruct s|lia].
Qed.

(** Comparisons do not see the exponents moved together. *)
Lemma num_ltb_shift m m' e e' k :
  num_ltb (S754_finite false m (e - k)) (S754_finite false m' (e' - k)) =
  num_ltb (S754_finite false m e) (S754_finite false m' e').
Proof.
  unfold num_ltb, SFltb. cbn [SFcompare].
  replace (e - k ?= e' - k) with (e ?= e'); [done|].
  destruct (Z.compare_spec e e'); symmetry; [apply Z.compare_eq_iff|apply Z.compare_lt_iff|apply Z.compare_gt_iff]; lia.
Qed.

(** A positive integer divided by [1024 ^ k], as a double. *)
Definition int_over (p : positive) (k : Z) : num :=
  S754_finite false (int_mant p) (int_exp p - 10 * k).

Lemma int_mant_digits p : Z.pos p < 2 ^ 53 -> Z.pos (digits2_pos (int_mant p)) = 53.
Proof.
  intros H. pose proof (digits_le_53 p H). unfold int_mant.
  destruct (53 - Z.pos (digits2_pos p)) as [|k|k] eqn:E; [lia| |lia].
  rewrite iter_xO_digits. lia.
Qed.

Lemma int_exp_bounds p : Z.pos p < 2 ^ 53 -> -52 <= int_exp p <= 0.
Proof. intros H. pose proof (digits_le_53 p H). unfold int_exp. lia. Qed.

Lemma int_over_0 p : Z.pos p < 2 ^ 53 -> of_Z (Z.pos p) = int_over p 0.
Proof. intros H. rewrite of_Z_pos by done. unfold int_over. f_equal. lia. Qed.

Lemma int_over_succ p k :
  Z.pos p < 2 ^ 53 -> 0 <= k <= 10 -> num_div (int_over p k) (of_Z 1024) = int_over p (k + 1).
Proof.
  intros H Hk. pose proof (int_exp_bounds p H). unfold int_over.
  rewrite num_div_1024; [f_equal; lia|by apply int_mant_digits|lia].
Qed.

Lemma int_over_ltb p k q r :
  Z.pos p < 2 ^ 53 -> Z.pos q < 2 ^ 53 -> of_Z (Z.pos r) = int_over q k ->
  num_ltb (int_over p k) (of_Z (Z.pos r)) = (Z.pos p <? Z.pos q).
Proof.
  intros Hp Hq ->. unfold int_over. rewrite num_ltb_shift, <- !of_Z_pos by done.
  apply ltb_of_Z; unfold safe; lia.
Qed.

(** One decimal of an integer over [1024 ^ k]: the nearest tenth, a tie up. *)
Lemma int_over_fixed p k :
  Z.pos p < 2 ^ 53 -> 1 <= k <= 10 ->
  to_fixed 1 (int_over p k) =
  fixed_str 1 ((20 * Z.pos p + 2 ^ (10 * k)) / 2 ^ (10 * k + 1)).
Proof.
  intros H Hk. pose proof (int_exp_bounds p H) as He. unfold int_over, to_fixed.
  assert (Hl : num_leb (num_norm (10 ^ 21) 0) (S754_finite false (int_mant p) (int_exp p - 10 * k)) = false).
  { change (num_norm (10 ^ 21) 0) with (S754_finite false 7629394531250000 17).
    unfold num_leb, SFleb. cbn [SFcompare].
    rewrite (proj2 (Z.compare_gt_iff 17 (int_exp p - 10 * k))) by lia. done. }
  rewrite Hl. cbv iota. match goal with |- (_ +:+ ?x) = ?y => change (x = y) end. unfold scaled_round.
  rewrite (proj2 (Z.leb_gt 0 (int_exp p - 10 * k))) by lia.
  f_equal. rewrite int_mant_value by done. unfold int_exp in *.
  set (d := Z.pos (digits2_pos p)) in *.
  replace (- (d - 53 - 10 * k)) with (10 * k + (53 - d)) by lia.
  replace (10 * k + (53 - d) + 1) with (10 * k + 1 + (53 - d)) by lia.
  rewrite !(Z.pow_add_r 2 _ (53 - d)) by lia.
  replace (2 * (Z.pos p * 2 ^ (53 - d) * 10 ^ Z.of_nat 1) + 2 ^ (10 * k) * 2 ^ (53 - d))
    with ((20 * Z.pos p + 2 ^ (10 * k)) * 2 ^ (53 - d)) by (change (10 ^ Z.of_nat 1) with 10; ring).
  apply Z.div_mul_cancel_r; [lia|]. apply Z.neq_sym, Z.lt_neq, Z.pow_pos_nonneg; lia.
Qed.

#[export] Hint Rewrite eqb_of_Z ltb_of_Z leb_of_Z using (unfold safe in *; lia) : js.

(** Every safe integer is below the largest number. *)
Lemma ltb_max_value a :
  safe a -> num_ltb (of_Z a) max_value = true /\ num_ltb max_value (of_Z a) = false.
Proof.
  intros Ha. unfold safe in Ha. destruct a as [|p|p]; [done| |].
  - rewrite of_Z_pos by lia. pose proof (int_exp_bounds p ltac:(lia)) as He.
    change max_value with (S754_finite false 9007199254740991 971).
    unfold num_ltb, SFltb. cbn [SFcompare].
    rewrite (proj2 (Z.compare_lt_iff (int_exp p) 971)), (proj2 (Z.compare_gt_iff 971 (int_exp p))) by lia.
    done.
  - by rewrite of_Z_neg by lia.
Qed.
