(* ===== verification/JsString.v ===== *)
(** * Strings

    The string functions of the language the interface calls, and
    [String.format] of Ext.  A string is a sequence of code units below 256;
    every separator, keyword and markup character the interface tests for is
    one of those. *)

From stdpp Require Import base list strings.
From Stdlib Require Import Lia ZArith.
From S2P Require Import Prelude.

Definition chr (n : nat) : Ascii.ascii := Ascii.ascii_of_nat n.
Definition code (c : Ascii.ascii) : nat := Ascii.nat_of_ascii c.

Definition is_digit (c : Ascii.ascii) : bool := (48 <=? code c) && (code c <=? 57).

(** The white space [trim] removes. *)
Definition is_space (c : Ascii.ascii) : bool :=
  bool_decide (code c ∈ [9; 10; 11; 12; 13; 32; 160]).

Fixpoint str_map (f : Ascii.ascii -> Ascii.ascii) (s : string) : string :=
  match s with
  | EmptyString => EmptyString
  | String.String c s' => String.String (f c) (str_map f s')
  end.

(** Replaces every character by a string. *)
Fixpoint str_flat_map (f : Ascii.ascii -> string) (s : string) : string :=
  match s with
  | EmptyString => EmptyString
  | String.String c s' => f c +:+ str_flat_map f s'
  end.

Fixpoint str_filter (f : Ascii.ascii -> bool) (s : string) : string :=
  match s with
  | EmptyString => EmptyString
  | String.String c s' => if f c then String.String c (str_filter f s') else str_filter f s'
  end.

Fixpoint str_all (f : Ascii.ascii -> bool) (s : string) : bool :=
  match s with
  | EmptyString => true
  | String.String c s' => f c && str_all f s'
  end.

Definition lower_char (c : Ascii.ascii) : Ascii.ascii :=
  let n := code c in
  if ((65 <=? n) && (n <=? 90)) || ((192 <=? n) && (n <=? 222) && negb (n =? 215))
  then chr (n + 32) else c.

Definition upper_char (c : Ascii.ascii) : Ascii.ascii :=
  let n := code c in
  if ((97 <=? n) && (n <=? 122)) || ((224 <=? n) && (n <=? 254) && negb (n =? 247))
  then chr (n - 32) else c.

Definition to_lower : string -> string := str_map lower_char.

Fixpoint trim_left (s : string) : string :=
  match s with
  | String.String c s' => if is_space c then trim_left s' else s
  | EmptyString => EmptyString
  end.

Fixpoint str_rev_app (s acc : string) : string :=
  match s with
  | EmptyString => acc
  | String.String c s' => str_rev_app s' (String.String c acc)
  end.
Definition str_rev (s : string) : string := str_rev_app s "".

(** [s.trim()] *)
Definition trim (s : string) : string := str_rev (trim_left (str_rev (trim_left s))).

(** [s.split(c)] *)
Fixpoint split_on (c : Ascii.ascii) (s : string) : list string :=
  match s with
  | EmptyString => [""]
  | String.String d s' =>
      if decide (d = c) then "" :: split_on c s'
      else match split_on c s' with
           | [] => [String.String d ""]
           | w :: ws => String.String d w :: ws
           end
  end.

(** [s.join(sep)] *)
Fixpoint join (sep : string) (l : list string) : string :=
  match l with
  | [] => ""
  | [s] => s
  | s :: l' => s +:+ sep +:+ join sep l'
  end.

Fixpoint str_drop (n : nat) (s : string) : string :=
  match n, s with
  | S n', String.String _ s' => str_drop n' s'
  | _, _ => s
  end.

(** The position of the first occurrence of [p] in [s], if any. *)
Fixpoint str_find (p s : string) : option nat :=
  if String.prefix p s then Some 0%nat
  else match s with
       | EmptyString => None
       | String.String _ s' => S <$> str_find p s'
       end.

(** [s.indexOf(p) != -1] *)
Definition str_contains (p s : string) : bool := bool_decide (is_Some (str_find p s)).

(** [s.replace(p, r)] with a string pattern: the first occurrence only. *)
Definition replace_first (p r s : string) : string :=
  match str_find p s with
  | Some n => String.substring 0 n s +:+ r +:+ str_drop (n + String.length p) s
  | None => s
  end.

(** The longest prefix of digits and what follows it. *)
Fixpoint span_digits (s : string) : string * string :=
  match s with
  | String.String c s' =>
      if is_digit c then let '(d, r) := span_digits s' in (String.String c d, r) else ("", s)
  | EmptyString => ("", "")
  end.

Fixpoint digits_Z (acc : Z) (s : string) : Z :=
  match s with
  | EmptyString => acc
  | String.String c s' => digits_Z (10 * acc + (Z.of_nat (code c) - 48))%Z s'
  end.

(** [String.format]: each ["{i}"] is replaced by the [i]-th argument, one that
    was not given by ["undefined"]. *)
Fixpoint format_go (fuel : nat) (s : string) (args : list string) : string :=
  match fuel with
  | O => s
  | S fuel' =>
      match s with
      | EmptyString => ""
      | String.String c s' =>
          if decide (c = chr 123) then
            let '(d, r) := span_digits s' in
            match d, r with
            | String.String _ _, String.String e r' =>
                if decide (e = chr 125) then
                  default "undefined" (args !! Z.to_nat (digits_Z 0 d)) +:+
                    format_go fuel' r' args
                else String.String c (format_go fuel' s' args)
            | _, _ => String.String c (format_go fuel' s' args)
            end
          else String.String c (format_go fuel' s' args)
      end
  end.

Definition format (s : string) (args : list string) : string :=
  format_go (S (String.length s)) s args.

(** ** Lemmas *)

Lemma str_app_nil (b : string) : "" +:+ b = b.
Proof. done. Qed.

Lemma str_app_cons c (a b : string) : String.String c a +:+ b = String.String c (a +:+ b).
Proof. done. Qed.

Lemma str_app_assoc (a b c : string) : (a +:+ b) +:+ c = a +:+ (b +:+ c).
Proof. induction a as [|x a IH]; [done|]. by rewrite !str_app_cons, IH. Qed.

Lemma str_app_nil_r (a : string) : a +:+ "" = a.
Proof. induction a as [|x a IH]; [done|]. by rewrite str_app_cons, IH. Qed.

Lemma str_map_length f s : String.length (str_map f s) = String.length s.
Proof. induction s as [|c s IH]; simpl; [done|]. by rewrite IH. Qed.

Lemma str_map_idemp f s : (forall c, f (f c) = f c) -> str_map f (str_map f s) = str_map f s.
Proof. intros Hf. induction s as [|c s IH]; simpl; [done|]. by rewrite Hf, IH. Qed.

Lemma str_map_all f p s : (forall c, p (f c) = true) -> str_all p (str_map f s) = true.
Proof. intros Hf. induction s; simpl; [done|]. by rewrite Hf. Qed.

Lemma str_all_app p a b : str_all p (a +:+ b) = str_all p a && str_all p b.
Proof. induction a as [|x a IH]; [done|]. rewrite str_app_cons. simpl. by rewrite IH, andb_assoc. Qed.

Lemma str_flat_map_app f a b : str_flat_map f (a +:+ b) = str_flat_map f a +:+ str_flat_map f b.
Proof. induction a as [|x a IH]; [done|]. rewrite str_app_cons. simpl. by rewrite IH, str_app_assoc. Qed.

Lemma str_flat_map_all f p s :
  (forall c, str_all p (f c) = true) -> str_all p (str_flat_map f s) = true.
Proof. intros Hf. induction s; simpl; [done|]. by rewrite str_all_app, Hf. Qed.

Lemma str_filter_all f s : str_all f (str_filter f s) = true.
Proof. induction s as [|c s IH]; simpl; [done|]. destruct (f c) eqn:E; simpl; by rewrite ?E. Qed.

(** A property of every character, checked on the 256 of them. *)
Definition all_chars (p : Ascii.ascii -> bool) : bool :=
  forallb (fun n => p (chr n)) (seq 0 256).

Lemma all_chars_spec p : all_chars p = true -> forall c, p c = true.
Proof.
  unfold all_chars. rewrite forallb_forall. intros H c.
  specialize (H (code c)). unfold chr, code in H.
  rewrite Ascii.ascii_nat_embedding in H. apply H.
  apply in_seq. split; [lia|]. apply Ascii.nat_ascii_bounded.
Qed.

(** An equation between characters, checked the same way. *)
Lemma all_chars_eq (f g : Ascii.ascii -> Ascii.ascii) :
  all_chars (fun c => bool_decide (f c = g c)) = true -> forall c, f c = g c.
Proof. intros H c. pose proof (all_chars_spec _ H c) as E. by apply bool_decide_eq_true_1 in E. Qed.

Lemma lower_char_idemp c : lower_char (lower_char c) = lower_char c.
Proof. by apply (all_chars_eq (fun c => lower_char (lower_char c)) lower_char). Qed.

Lemma to_lower_idemp s : to_lower (to_lower s) = to_lower s.
Proof. apply str_map_idemp, lower_char_idemp. Qed.

#[export] Hint Rewrite str_app_nil str_app_cons str_app_assoc str_app_nil_r : js.

(** ** Splitting, joining and trimming *)

Definition str_has (c : Ascii.ascii) (s : string) : bool := negb (str_all (fun d => negb (bool_decide (d = c))) s).

Lemma split_on_nonempty c s : split_on c s <> [].
Proof. destruct s as [|d s]; cbn; [done|]. destruct (decide _); [done|]. by destruct (split_on c s). Qed.

Lemma split_on_none c s : str_has c s = false -> split_on c s = [s].
Proof.
  unfold str_has. rewrite negb_false_iff. induction s as [|d s IH]; [done|]. cbn [str_all split_on].
  rewrite andb_true_iff, negb_true_iff, bool_decide_eq_false. intros [Hd Hs].
  rewrite decide_False by done. by rewrite IH.
Qed.

Lemma split_on_app c a s : str_has c a = false -> split_on c (a +:+ String.String c s) = a :: split_on c s.
Proof.
  unfold str_has. rewrite negb_false_iff. induction a as [|d a IH].
  - intros _. rewrite str_app_nil. cbn [split_on]. by rewrite decide_True.
  - cbn [str_all]. rewrite andb_true_iff, negb_true_iff, bool_decide_eq_false. intros [Hd Hs].
    rewrite str_app_cons. cbn [split_on]. rewrite decide_False by done. by rewrite IH.
Qed.

Lemma split_on_join c ls :
  ls <> [] -> Forall (fun l => str_has c l = false) ls -> split_on c (join (String.String c "") ls) = ls.
Proof.
  intros Hn H. induction H as [|l ls Hl Hls IH]; [done|]. destruct ls as [|m ls].
  - by apply split_on_none.
  - change (join _ _) with (l +:+ String.String c "" +:+ join (String.String c "") (m :: ls)).
    rewrite str_app_cons, str_app_nil, split_on_app by done. by rewrite IH.
Qed.

Lemma split_on_pieces c s : Forall (fun l => str_has c l = false) (split_on c s).
Proof.
  induction s as [|d s IH]; cbn [split_on]; [by repeat constructor|].
  destruct (decide (d = c)) as [->|Hd]; [by constructor|].
  destruct (split_on c s) as [|w ws] eqn:E; [by apply split_on_nonempty in E|]. apply Forall_cons in IH as [Hw Hws].
  constructor; [|done]. unfold str_has in *. cbn [str_all]. rewrite bool_decide_eq_false_2 by done. done.
Qed.

Lemma str_rev_app_spec s acc : str_rev_app s acc = str_rev s +:+ acc.
Proof.
  unfold str_rev. revert acc. induction s as [|c s IH]; intros acc; [done|]. cbn [str_rev_app].
  rewrite (IH (String.String c acc)), (IH (String.String c "")), str_app_assoc. done.
Qed.

Lemma str_rev_cons c s : str_rev (String.String c s) = str_rev s +:+ String.String c "".
Proof. unfold str_rev at 1. cbn [str_rev_app]. apply str_rev_app_spec. Qed.

Lemma str_rev_snoc a c : str_rev (a +:+ String.String c "") = String.String c (str_rev a).
Proof.
  induction a as [|d a IH]; [done|]. rewrite str_app_cons, !str_rev_cons, IH, str_app_cons. done.
Qed.

Lemma str_rev_involutive s : str_rev (str_rev s) = s.
Proof. induction s as [|c s IH]; [done|]. by rewrite str_rev_cons, str_rev_snoc, IH. Qed.

Lemma str_all_rev p s : str_all p (str_rev s) = str_all p s.
Proof.
  induction s as [|c s IH]; [done|]. rewrite str_rev_cons, str_all_app, IH. cbn [str_all].
  rewrite andb_true_r. apply andb_comm.
Qed.

(** Nothing to trim on the left. *)
Definition left_trimmed (s : string) : bool :=
  match s with String.String c _ => negb (is_space c) | EmptyString => true end.

Lemma trim_left_trimmed s : left_trimmed (trim_left s) = true.
Proof. induction s as [|c s IH]; [done|]. cbn [trim_left]. destruct (is_space c) eqn:E; [done|]. cbn. by rewrite E. Qed.

Lemma trim_left_id s : left_trimmed s = true -> trim_left s = s.
Proof. destruct s as [|c s]; [done|]. cbn. by destruct (is_space c). Qed.

Lemma trim_left_all p s : str_all p s = true -> str_all p (trim_left s) = true.
Proof.
  induction s as [|c s IH]; [done|]. cbn [trim_left]. destruct (is_space c); [|done].
  cbn [str_all]. intros [_ H]%andb_true_iff. auto.
Qed.

(** Trimming on the left a text whose last character stays leaves that last. *)
Lemma trim_left_snoc a c :
  is_space c = false -> trim_left (a +:+ String.String c "") = trim_left a +:+ String.String c "".
Proof.
  intros Hc. induction a as [|d a IH]; [rewrite str_app_nil; cbn; by rewrite Hc|].
  rewrite str_app_cons. cbn [trim_left]. by destruct (is_space d).
Qed.

Lemma str_trim_idemp s : trim (trim s) = trim s.
Proof.
  unfold trim. set (u := trim_left s). assert (Hu : left_trimmed u = true) by apply trim_left_trimmed.
  assert (Hl : left_trimmed (str_rev (trim_left (str_rev u))) = true).
  { destruct u as [|c u]; [done|]. cbn in Hu. apply negb_true_iff in Hu.
    rewrite str_rev_cons, trim_left_snoc, str_rev_snoc by done. cbn. by rewrite Hu. }
  rewrite (trim_left_id _ Hl), str_rev_involutive, (trim_left_id (trim_left _)); [done|].
  apply trim_left_trimmed.
Qed.

Lemma trim_all p s : str_all p s = true -> str_all p (trim s) = true.
Proof. intros H. unfold trim. rewrite str_all_rev. apply trim_left_all. rewrite str_all_rev. by apply trim_left_all. Qed.

Lemma trim_has c s : str_has c s = false -> str_has c (trim s) = false.
Proof. unfold str_has. rewrite !negb_false_iff. apply trim_all. Qed.

(** A line that is kept: not empty, trimmed, and one. *)
Definition clean_line (l : string) : Prop := l <> "" /\ trim l = l /\ str_has (chr 10) l = false.

(** Clean lines joined are told apart again. *)
Lemma clean_lines ls :
  Forall clean_line ls ->
  filter (fun l => (0 < String.length l)%nat) (map trim (split_on (chr 10) (join (String.String (chr 10) "") ls))) = ls.
Proof.
  intros H. destruct ls as [|l ls']; [done|]. set (ls := l :: ls') in *.
  rewrite split_on_join; [|done|by eapply Forall_impl; [exact H|intros x (_ & _ & ?)]]. clearbody ls. clear l ls'.
  induction H as [|x xs (Hne & Hx & _) _ IH]; [done|]. cbn [map].
  rewrite Hx, filter_cons_True, IH; [done|]. destruct x; [done|]. cbn. lia.
Qed.
