(* ===== verification/JsValue.v ===== *)
(** * Values

    The primitive values of the language with the conversions and the
    comparisons the interface relies on, and values that may be a reference to
    an array or an object.  An array lives in a store and is compared by
    reference; what it holds matters to [Ext.isEmpty] and to [String]. *)

From stdpp Require Import base list strings gmap.
From Stdlib Require Import Lia ZArith.
From S2P Require Import Prelude JsNum JsString.

Open Scope Z_scope.

Inductive prim :=
  | PUndef
  | PNull
  | PBool (b : bool)
  | PNum (n : num)
  | PStr (s : string).

#[export] Instance prim_eq_dec : EqDecision prim.
Proof. solve_decision. Defined.

(** ** Conversions *)

(** A decimal literal: digits, a fraction, an exponent; the number and what
    follows it.  [None] when it starts with no digit. *)
Definition decimal (s : string) : option (num * string) :=
  let '(ip, r) := span_digits s in
  let '(fp, r) :=
    match r with
    | String.String c r' =>
        if decide (c = chr 46) then let '(f, r'') := span_digits r' in (f, r'')
        else ("", r)
    | EmptyString => ("", r)
    end in
  if decide (ip = "" /\ fp = "") then None
  else
    let m := digits_Z 0 (ip +:+ fp) in
    let p := - Z.of_nat (String.length fp) in
    match r with
    | String.String c r' =>
        if decide (c = chr 101 \/ c = chr 69) then
          let '(sg, r'') :=
            match r' with
            | String.String d r'' =>
                if decide (d = chr 45) then (-1, r'') else if decide (d = chr 43) then (1, r'') else (1, r')
            | EmptyString => (1, r')
            end in
          let '(ep, r3) := span_digits r'' in
          if decide (ep = "") then Some (dec_norm m p, r)
          else Some (dec_norm m (p + sg * digits_Z 0 ep), r3)
        else Some (dec_norm m p, r)
    | EmptyString => Some (dec_norm m p, r)
    end.

Definition num_opp (n : num) : num := SpecFloat.SFopp n.

(** A sign, then [f] of the rest. *)
Definition with_sign (s : string) (f : string -> num) : num :=
  match s with
  | String.String c r =>
      if decide (c = chr 45) then num_opp (f r) else if decide (c = chr 43) then f r else f s
  | EmptyString => f s
  end.

Definition hex_digit (c : Ascii.ascii) : option Z :=
  let n := Z.of_nat (code c) in
  if is_digit c then Some (n - 48)
  else if (97 <=? n) && (n <=? 102) then Some (n - 87)
  else if (65 <=? n) && (n <=? 70) then Some (n - 55)
  else None.

Fixpoint radix_value (r acc : Z) (s : string) : option Z :=
  match s with
  | EmptyString => Some acc
  | String.String c s' =>
      d ← hex_digit c; if d <? r then radix_value r (r * acc + d) s' else None
  end.

Definition radix_num (r : Z) (s : string) : num :=
  if decide (s = "") then nan else match radix_value r 0 s with Some z => of_Z z | None => nan end.

Definition radix_prefix (s : string) : option Z :=
  if String.prefix "0x" s || String.prefix "0X" s then Some 16
  else if String.prefix "0o" s || String.prefix "0O" s then Some 8
  else if String.prefix "0b" s || String.prefix "0B" s then Some 2
  else None.

(** [Number(s)] of a string. *)
Definition str_num (s : string) : num :=
  let s := trim s in
  if decide (s = "") then of_Z 0
  else match radix_prefix s with
       | Some r => radix_num r (str_drop 2 s)
       | None =>
           with_sign s (fun s =>
             if decide (s = "Infinity") then infinity
             else match decimal s with Some (n, "") => n | _ => nan end)
       end.

(** [parseInt(s, 10)] of a string. *)
Definition parse_int (s : string) : num :=
  with_sign (trim_left s) (fun s =>
    let '(d, _) := span_digits s in
    if decide (d = "") then nan else of_Z (digits_Z 0 d)).

(** [parseFloat(s)] of a string. *)
Definition parse_float (s : string) : num :=
  with_sign (trim_left s) (fun s =>
    if String.prefix "Infinity" s then infinity
    else match decimal s with Some (n, _) => n | None => nan end).

(** [Number(v)] *)
Definition to_number (v : prim) : num :=
  match v with
  | PUndef => nan
  | PNull => of_Z 0
  | PBool b => of_Z (if b then 1 else 0)
  | PNum n => n
  | PStr s => str_num s
  end.

(** [String(v)] *)
Definition to_str (v : prim) : string :=
  match v with
  | PUndef => "undefined"
  | PNull => "null"
  | PBool b => if b then "true" else "false"
  | PNum n => num_str n
  | PStr s => s
  end.

Definition is_zero (n : num) : bool := num_eqb n (of_Z 0).

(** Whether a condition holds: [if (v)]. *)
Definition truthy (v : prim) : bool :=
  match v with
  | PUndef | PNull => false
  | PBool b => b
  | PNum n => negb (is_zero n || is_nan n)
  | PStr s => negb (bool_decide (s = ""))
  end.

(** ** Comparisons *)

Definition nullish (v : prim) : bool :=
  match v with PUndef | PNull => true | _ => false end.

(** [a == b] *)
Definition loose_eq (a b : prim) : bool :=
  match a, b with
  | (PUndef | PNull), _ => nullish b
  | _, (PUndef | PNull) => false
  | PStr s, PStr t => bool_decide (s = t)
  | _, _ => num_eqb (to_number a) (to_number b)
  end.

(** [a === b] *)
Definition strict_eq (a b : prim) : bool :=
  match a, b with
  | PUndef, PUndef | PNull, PNull => true
  | PBool x, PBool y => bool_decide (x = y)
  | PNum x, PNum y => num_eqb x y
  | PStr s, PStr t => bool_decide (s = t)
  | _, _ => false
  end.

(** The order of two strings, by code units. *)
Fixpoint str_ltb (s t : string) : bool :=
  match s, t with
  | _, EmptyString => false
  | EmptyString, String.String _ _ => true
  | String.String c s', String.String d t' =>
      if (code c <? code d)%nat then true
      else if (code d <? code c)%nat then false else str_ltb s' t'
  end.

(** [a < b] *)
Definition prim_ltb (a b : prim) : bool :=
  match a, b with
  | PStr s, PStr t => str_ltb s t
  | _, _ => num_ltb (to_number a) (to_number b)
  end.

(** [a <= b] is not [b < a], unless a side is not a number. *)
Definition prim_leb (a b : prim) : bool :=
  match a, b with
  | PStr s, PStr t => negb (str_ltb t s)
  | _, _ => num_leb (to_number a) (to_number b)
  end.

Notation pint z := (PNum (of_Z z)).

(** ** References *)

Definition loc := positive.

Inductive val :=
  | VPrim (p : prim)
  | VArr (l : loc)
  | VObj (l : loc).

#[export] Instance val_eq_dec : EqDecision val.
Proof. solve_decision. Defined.

(** The arrays of the store. *)
Notation store := (gmap loc (list val)).

(** [[..]]: a new array. *)
Definition new_array (items : list val) (h : store) : loc * store :=
  let l := fresh (dom h) in (l, <[l := items]> h).

Definition arr_items (h : store) (l : loc) : list val := default [] (h !! l).

(** [String(v)]: an array is its elements joined with commas, the empty ones
    and an array inside itself left out; an object is ["[object Object]"]. *)
Fixpoint val_str_go (fuel : nat) (h : store) (seen : list loc) (v : val) : string :=
  match v with
  | VPrim p => to_str p
  | VObj _ => "[object Object]"
  | VArr l =>
      match fuel with
      | O => ""
      | S fuel' =>
          if decide (l ∈ seen) then ""
          else join "," (map (fun w => match w with
                                       | VPrim (PUndef | PNull) => ""
                                       | _ => val_str_go fuel' h (l :: seen) w
                                       end) (arr_items h l))
      end
  end.

(** An array nests no deeper than there are arrays. *)
Definition val_str (h : store) (v : val) : string := val_str_go (S (S (size h))) h [] v.

(** The primitive a value is compared as. *)
Definition to_prim (h : store) (v : val) : prim :=
  match v with VPrim p => p | _ => PStr (val_str h v) end.

(** [a == b] of values: references by identity. *)
Definition val_eq (h : store) (a b : val) : bool :=
  match a, b with
  | VPrim p, VPrim q => loose_eq p q
  | VArr l, VArr l' | VObj l, VObj l' => bool_decide (l = l')
  | VArr _, VObj _ | VObj _, VArr _ => false
  | VPrim p, w | w, VPrim p => if nullish p then false else loose_eq p (to_prim h w)
  end.

Definition val_truthy (v : val) : bool := match v with VPrim p => truthy p | _ => true end.

(** The value of a property that may be missing. *)
Definition vget (k : string) (o : obj val) : val := default (VPrim PUndef) (oget k o).
Definition pget (k : string) (o : obj prim) : prim := default PUndef (oget k o).

(** ** Lemmas *)

Definition is_nan_val (v : prim) : bool := match v with PNum n => is_nan n | _ => false end.

Lemma loose_eq_refl v : is_nan_val v = false -> loose_eq v v = true.
Proof.
  destruct v as [| |[]|n|s]; simpl; intros; try done; [by apply num_eqb_refl|].
  by apply bool_decide_eq_true.
Qed.

Lemma strict_eq_refl v : is_nan_val v = false -> strict_eq v v = true.
Proof.
  destruct v as [| |[]|n|s]; simpl; intros; try done; [by apply num_eqb_refl|].
  by apply bool_decide_eq_true.
Qed.

Lemma num_eqb_sym x y : num_eqb x y = num_eqb y x.
Proof.
  unfold num_eqb, SpecFloat.SFeqb.
  destruct x as [[]|[]| |[] m e], y as [[]|[]| |[] m' e']; try done; cbn [SpecFloat.SFcompare];
    rewrite (Z.compare_antisym e e'); destruct (e ?= e'); simpl; try done;
    change (Pos.compare_cont Eq m m') with (Pos.compare m m');
    change (Pos.compare_cont Eq m' m) with (Pos.compare m' m);
    rewrite (Pos.compare_antisym m m'); by destruct (Pos.compare m m').
Qed.

Lemma loose_eq_sym a b : loose_eq a b = loose_eq b a.
Proof.
  destruct a as [| |[]|n|s], b as [| |[]|n'|s']; simpl; try done; try apply num_eqb_sym.
  apply bool_decide_ext; naive_solver.
Qed.

(** Strict equality is finer than loose equality. *)
Lemma strict_loose a b : strict_eq a b = true -> loose_eq a b = true.
Proof. destruct a as [| |[]|n|s], b as [| |[]|n'|s']; simpl; try done. Qed.

Lemma pint_truthy z : safe z -> truthy (pint z) = negb (z =? 0).
Proof.
  intros Hz. simpl. unfold is_zero. rewrite eqb_of_Z, of_Z_not_nan by done || (unfold safe in *; lia).
  by rewrite orb_false_r.
Qed.

Lemma str_ltb_irrefl s : str_ltb s s = false.
Proof. induction s as [|c s IH]; simpl; [done|]. by rewrite Nat.ltb_irrefl. Qed.

Lemma str_ltb_total s t : str_ltb s t = true \/ s = t \/ str_ltb t s = true.
Proof.
  revert t. induction s as [|c s IH]; intros [|d t]; simpl; auto.
  destruct (Nat.ltb_spec (code c) (code d)); [by left|].
  destruct (Nat.ltb_spec (code d) (code c)); [by right; right|].
  assert (c = d) as ->.
  { rewrite <- (Ascii.ascii_nat_embedding c), <- (Ascii.ascii_nat_embedding d).
    f_equal. unfold code in *. lia. }
  destruct (IH t) as [|[->|]]; auto.
Qed.

Lemma str_ltb_trans s t u : str_ltb s t = true -> str_ltb t u = true -> str_ltb s u = true.
Proof.
  revert t u. induction s as [|c s IH]; intros [|d t] [|e u]; simpl; try done.
  destruct (Nat.ltb_spec (code c) (code d)), (Nat.ltb_spec (code d) (code c)); try done; try lia;
  destruct (Nat.ltb_spec (code d) (code e)), (Nat.ltb_spec (code e) (code d)); try done; try lia;
  destruct (Nat.ltb_spec (code c) (code e)), (Nat.ltb_spec (code e) (code c)); try done; try lia;
  eauto.
Qed.

(** [s <= t] as [negb (t < s)] is a total order. *)
Lemma str_leb_total s t : negb (str_ltb t s) = true \/ negb (str_ltb s t) = true.
Proof.
  destruct (str_ltb t s) eqn:E1, (str_ltb s t) eqn:E2; auto.
  pose proof (str_ltb_trans _ _ _ E1 E2) as H. by rewrite str_ltb_irrefl in H.
Qed.

Lemma str_leb_trans s t u :
  negb (str_ltb t s) = true -> negb (str_ltb u t) = true -> negb (str_ltb u s) = true.
Proof.
  rewrite !negb_true_iff. intros H1 H2.
  destruct (str_ltb_total s t) as [H|[->|H]]; [|done|congruence].
  destruct (str_ltb_total t u) as [H'|[->|H']]; [|done|congruence].
  destruct (str_ltb u s) eqn:E; [|done].
  pose proof (str_ltb_trans _ _ _ (str_ltb_trans _ _ _ H H') E) as Hx. by rewrite str_ltb_irrefl in Hx.
Qed.

Lemma str_leb_antisym s t : negb (str_ltb t s) = true -> negb (str_ltb s t) = true -> s = t.
Proof. rewrite !negb_true_iff. intros. destruct (str_ltb_total s t) as [|[|]]; congruence. Qed.

#[export] Hint Resolve loose_eq_refl strict_eq_refl : js.
