(* ===== verification/Integers.v ===== *)
(** * Integers as text, and back

    An integer is printed as its digits, with any number of decimals as its
    digits and zeros, and either text is read back as the integer. *)

From stdpp Require Import base list strings.
From Stdlib Require Import Lia ZArith Floats.SpecFloat.
From S2P Require Import Prelude JsNum JsString JsValue.

Open Scope Z_scope.

(** ** Digits *)

Lemma digit_char_code d : 0 <= d < 10 -> is_digit (digit_char d) = true /\ Z.of_nat (code (digit_char d)) - 48 = d.
Proof.
  intros Hd. unfold digit_char, is_digit, code. rewrite Ascii.nat_ascii_embedding by lia. split; [|lia].
  apply andb_true_iff. split; apply Nat.leb_le; lia.
Qed.

Lemma digits_Z_app a s t : digits_Z a (s +:+ t) = digits_Z (digits_Z a s) t.
Proof. revert a. induction s as [|c s IH]; intros a; [done|]. apply IH. Qed.

Lemma digits_of_spec fuel z acc :
  (0 < fuel)%nat -> 0 <= z < 10 ^ Z.of_nat fuel ->
  exists s, digits_of fuel z acc = s +:+ acc /\ str_all is_digit s = true /\ s <> "" /\
    digits_Z 0 s = z.
Proof.
  revert z acc. induction fuel as [|fuel IH]; intros z acc Hf Hz; [lia|]. cbn [digits_of].
  pose proof (Z.mod_pos_bound z 10 ltac:(lia)) as Hm. pose proof (Z.div_mod z 10 ltac:(lia)) as Hdm.
  destruct (digit_char_code (z mod 10) Hm) as [Hd Hc].
  destruct (Z.eqb_spec (z / 10) 0) as [E|E].
  - exists (String.String (digit_char (z mod 10)) ""). split; [done|]. cbn [str_all digits_Z]. rewrite Hd.
    repeat split; try done. lia.
  - rewrite Nat2Z.inj_succ, Z.pow_succ_r in Hz by lia.
    assert (Hq : 0 <= z / 10 < 10 ^ Z.of_nat fuel) by (split; [apply Z.div_pos; lia|apply Z.div_lt_upper_bound; lia]).
    destruct fuel as [|fuel]; [cbn in Hq; lia|].
    destruct (IH (z / 10) (String.String (digit_char (z mod 10)) acc) ltac:(lia) Hq) as (s & E1 & E2 & E3 & E4).
    exists (s +:+ String.String (digit_char (z mod 10)) ""). split; [rewrite E1, str_app_assoc; done|].
    split; [rewrite str_all_app, E2; cbn [str_all]; by rewrite Hd|]. split; [by destruct s|].
    rewrite digits_Z_app, E4. cbn [digits_Z]. lia.
Qed.

(** The digits of an integer, read as a number, are the integer. *)
Lemma nat_str_spec z :
  0 <= z -> str_all is_digit (nat_str z) = true /\ nat_str z <> "" /\ digits_Z 0 (nat_str z) = z.
Proof.
  intros Hz. unfold nat_str.
  destruct (digits_of_spec (S (Z.to_nat (Z.log2 z))) z "") as (s & E1 & E2 & E3 & E4); [lia| |].
  - split; [done|]. pose proof (Z.log2_nonneg z). rewrite Nat2Z.inj_succ, Z2Nat.id by done.
    destruct (Z.eq_dec z 0) as [->|Hne]; [cbn; lia|].
    pose proof (Z.log2_spec z ltac:(lia)) as [_ Hl]. eapply Z.lt_le_trans; [exact Hl|].
    apply Z.pow_le_mono_l. lia.
  - rewrite E1, str_app_nil_r. done.
Qed.

(** Where the next character is no digit the digits end. *)
Definition no_digit (s : string) : Prop := match s with String.String c _ => is_digit c = false | "" => True end.

Lemma span_digits_app s t : str_all is_digit s = true -> no_digit t -> span_digits (s +:+ t) = (s, t).
Proof.
  intros Hs Ht. induction s as [|c s IH].
  - change ("" +:+ t) with t. destruct t as [|c t]; [done|]. cbn [span_digits no_digit] in *. by rewrite Ht.
  - cbn [str_all] in Hs. apply andb_true_iff in Hs as [Hc Hs]. change (String.String c s +:+ t) with (String.String c (s +:+ t)).
    cbn [span_digits]. by rewrite Hc, IH.
Qed.

Lemma zeros_digits d : str_all is_digit (zeros d) = true /\ String.length (zeros d) = d /\
  forall a, digits_Z a (zeros d) = a * 10 ^ Z.of_nat d.
Proof.
  induction d as [|d (IH1 & IH2 & IH3)]; [split; [done|]; split; [done|]; intros a; cbn; lia|].
  cbn [zeros]. change ("0" +:+ zeros d) with (String.String (chr 48) (zeros d)). cbn [str_all String.length digits_Z].
  split; [exact IH1|]. split; [by rewrite IH2|]. intros a. rewrite IH3, Nat2Z.inj_succ, Z.pow_succ_r by lia.
  change (Z.of_nat (code (chr 48))) with 48. lia.
Qed.

(** ** Rounding nothing *)

Lemma digits2_product p q r :
  Z.pos r = Z.pos p * Z.pos q ->
  Z.pos (digits2_pos p) + Z.pos (digits2_pos q) - 1 <= Z.pos (digits2_pos r) <= Z.pos (digits2_pos p) + Z.pos (digits2_pos q).
Proof.
  intros Hr. pose proof (digits2_pos_bounds p) as [P1 P2]. pose proof (digits2_pos_bounds q) as [Q1 Q2].
  pose proof (digits2_pos_bounds r) as [R1 R2].
  assert (L : 2 ^ (Z.pos (digits2_pos p) - 1 + (Z.pos (digits2_pos q) - 1)) <= Z.pos r).
  { rewrite Hr, Z.pow_add_r by lia. apply Z.mul_le_mono_nonneg; try done; apply Z.pow_nonneg; lia. }
  assert (U : Z.pos r < 2 ^ (Z.pos (digits2_pos p) + Z.pos (digits2_pos q))).
  { rewrite Hr, Z.pow_add_r by lia. apply Z.mul_lt_mono_nonneg; lia. }
  split.
  - assert (2 ^ (Z.pos (digits2_pos p) - 1 + (Z.pos (digits2_pos q) - 1)) < 2 ^ Z.pos (digits2_pos r)) as H by lia.
    apply Z.pow_lt_mono_r_iff in H; lia.
  - assert (2 ^ (Z.pos (digits2_pos r) - 1) < 2 ^ (Z.pos (digits2_pos p) + Z.pos (digits2_pos q))) as H by lia.
    apply Z.pow_lt_mono_r_iff in H; lia.
Qed.

(** An integer with decimals that are zeros is the integer. *)
Lemma dec_norm_int z d : 0 <= z < 2 ^ 53 -> dec_norm (z * 10 ^ Z.of_nat d) (- Z.of_nat d) = of_Z z.
Proof.
  intros Hz. destruct z as [|p|p]; [done| |lia].
  destruct d as [|d]; [cbn [Z.of_nat Z.opp]; rewrite Z.mul_1_r; unfold dec_norm; cbn [Z.leb Z.compare]; by rewrite Z.mul_1_r|].
  assert (Hq : exists q, 10 ^ Z.of_nat (S d) = Z.pos q).
  { pose proof (Z.pow_pos_nonneg 10 (Z.of_nat (S d)) ltac:(lia) ltac:(lia)). destruct (10 ^ _); [lia|eauto|lia]. }
  destruct Hq as [q Hq]. set (k := Z.of_nat (S d)) in *. assert (Hk : 0 < k) by lia.
  rewrite Hq. change (Z.pos p * Z.pos q) with (Z.pos (p * q)). unfold dec_norm.
  rewrite (proj2 (Z.leb_gt 0 (- k))), Z.opp_involutive, Hq by lia.
  pose proof (digits2_product p q (p * q) (Pos2Z.inj_mul p q)) as Hd. pose proof (digits_le_53 p ltac:(lia)) as Hp.
  unfold SFdiv_core_binary, fexp, emin. cbn [Zdigits2].
  set (dp := Z.pos (digits2_pos p)) in *. set (dq := Z.pos (digits2_pos q)) in *. set (dr := Z.pos (digits2_pos (p * q))) in *.
  replace (Z.min (Z.max (dr + 0 - (dq + 0) - 53) (3 - 1024 - 53)) (0 - 0)) with (- (53 - (dr - dq))) by lia.
  replace (0 - 0 - - (53 - (dr - dq))) with (53 - (dr - dq)) by lia.
  assert (Hs : match 53 - (dr - dq) with 0 => Z.pos (p * q) | Z.pos _ => Z.shiftl (Z.pos (p * q)) (53 - (dr - dq)) | Z.neg _ => 0 end
    = Z.pos p * 2 ^ (53 - (dr - dq)) * Z.pos q).
  { destruct (53 - (dr - dq)) eqn:E; [rewrite Z.pow_0_r; lia| |lia]. rewrite Z.shiftl_mul_pow2 by lia. lia. }
  rewrite Hs. rewrite (surjective_pairing (Z.div_eucl _ _)).
  change (fst (Z.div_eucl ?a ?b)) with (a / b). change (snd (Z.div_eucl ?a ?b)) with (a mod b).
  rewrite Z.div_mul, Z.mod_mul by lia.
  assert (Hl : new_location (Z.pos q) 0 = loc_Exact).
  { unfold new_location. destruct (Z.even (Z.pos q)); done. }
  rewrite Hl, of_Z_pos by lia. pose proof (int_mant_value p ltac:(lia)) as Hm.
  destruct (Z.eq_dec (dr - dq) dp) as [E|E].
  - rewrite E. unfold dp. rewrite <- Hm. rewrite round_exact; [|by apply int_mant_digits; lia|lia].
    f_equal. unfold int_exp. lia.
  - assert (dr - dq = dp - 1) as E' by lia. rewrite E'.
    replace (Z.pos p * 2 ^ (53 - (dp - 1))) with (Z.pos (int_mant p)~0).
    + rewrite round_even_mant; [|by apply int_mant_digits; lia|lia]. f_equal. unfold int_exp. lia.
    + change (Z.pos (int_mant p)~0) with (2 * Z.pos (int_mant p)). rewrite Hm. fold dp.
      replace (53 - (dp - 1)) with (Z.succ (53 - dp)) by lia. rewrite Z.pow_succ_r by lia. lia.
Qed.

(** ** Texts read as numbers *)

(** A text that starts with a digit is read from its start. *)
Definition digit_first (s : string) : Prop := match s with String.String c _ => is_digit c = true | "" => False end.

Lemma digit_first_app s t : str_all is_digit s = true -> s <> "" -> digit_first (s +:+ t).
Proof. destruct s as [|c s]; [done|]. intros Hs _. cbn [str_all] in Hs. by apply andb_true_iff in Hs as [Hc _]. Qed.

Lemma digit_code c : is_digit c = true -> (48 <= code c <= 57)%nat.
Proof. unfold is_digit. rewrite andb_true_iff, !Nat.leb_le. lia. Qed.

Lemma digit_not_space c : is_digit c = true -> is_space c = false.
Proof.
  intros Hc. pose proof (digit_code c Hc) as Hr. unfold is_space. apply bool_decide_eq_false.
  rewrite !elem_of_cons, elem_of_nil. lia.
Qed.

Lemma digit_not c n : is_digit c = true -> (n < 48 \/ 57 < n < 256)%nat -> c <> chr n.
Proof.
  intros Hc Hn ->. pose proof (digit_code _ Hc) as Hr. unfold code, chr in Hr.
  rewrite Ascii.nat_ascii_embedding in Hr; lia.
Qed.

Lemma parse_float_digits s :
  digit_first s -> parse_float s = match decimal s with Some (n, _) => n | None => nan end.
Proof.
  destruct s as [|c s]; [done|]. cbn [digit_first]. intros Hc. unfold parse_float.
  cbn [trim_left]. rewrite (digit_not_space c Hc). unfold with_sign.
  rewrite !decide_False by (apply (digit_not c _ Hc); lia).
  cbn [String.prefix]. destruct (Ascii.ascii_dec _ c) as [E|]; [|done].
  exfalso. apply (digit_not c 73 Hc); [lia|by rewrite <- E].
Qed.

(** Digits, and digits after a point, are the number they say. *)
Lemma decimal_digits s :
  str_all is_digit s = true -> s <> "" -> decimal s = Some (dec_norm (digits_Z 0 s) 0, "").
Proof.
  intros Hs Hne. unfold decimal. rewrite <- (str_app_nil_r s) at 1. rewrite span_digits_app by done.
  cbv beta iota. rewrite decide_False by (intros [? _]; done). by rewrite str_app_nil_r.
Qed.

Lemma decimal_point s t :
  str_all is_digit s = true -> s <> "" -> str_all is_digit t = true ->
  decimal (s +:+ "." +:+ t) = Some (dec_norm (digits_Z (digits_Z 0 s) t) (- Z.of_nat (String.length t)), "").
Proof.
  intros Hs Hne Ht. unfold decimal. rewrite span_digits_app by done.
  change ("." +:+ t) with (String.String (chr 46) t). cbv beta iota. rewrite decide_True by done.
  rewrite <- (str_app_nil_r t) at 1. rewrite span_digits_app by done.
  cbv beta iota. rewrite decide_False by (intros [? _]; done). by rewrite digits_Z_app.
Qed.

(** Printed and read, an integer is itself, whatever the decimals. *)
Lemma parse_float_nat z : 0 <= z < 2 ^ 53 -> parse_float (nat_str z) = of_Z z.
Proof.
  intros Hz. destruct (nat_str_spec z ltac:(lia)) as (H1 & H2 & H3).
  rewrite parse_float_digits by (rewrite <- (str_app_nil_r (nat_str z)); by apply digit_first_app).
  rewrite decimal_digits, H3 by done. pose proof (dec_norm_int z 0 Hz) as H. by rewrite Z.mul_1_r in H.
Qed.

Definition decimals (d : nat) : string := match d with O => "" | S _ => "." +:+ zeros d end.

Lemma parse_float_decimals z d : 0 <= z < 2 ^ 53 -> parse_float (nat_str z +:+ decimals d) = of_Z z.
Proof.
  intros Hz. destruct d as [|d]; [by rewrite str_app_nil_r, parse_float_nat|].
  destruct (nat_str_spec z ltac:(lia)) as (H1 & H2 & H3). destruct (zeros_digits (S d)) as (Z1 & Z2 & Z3).
  unfold decimals. rewrite parse_float_digits by by apply digit_first_app.
  by rewrite decimal_point, Z2, Z3, H3, dec_norm_int by done.
Qed.

Lemma zeros_snoc d : zeros d +:+ "0" = zeros (S d).
Proof. induction d as [|d IH]; [done|]. cbn [zeros] in *. by rewrite str_app_assoc, IH. Qed.

Lemma fixed_str_int z d : 0 <= z -> fixed_str d (z * 10 ^ Z.of_nat d) = nat_str z +:+ decimals d.
Proof.
  intros Hz. destruct d as [|d]; [cbn [fixed_str decimals Z.of_nat]; by rewrite Z.mul_1_r, str_app_nil_r|].
  unfold fixed_str, decimals. pose proof (Z.pow_pos_nonneg 10 (Z.of_nat (S d)) ltac:(lia) ltac:(lia)).
  rewrite Z.div_mul, Z.mod_mul by lia. change (nat_str 0) with "0". unfold pad_zeros.
  change (String.length "0") with 1%nat. replace (S d - 1)%nat with d by lia. by rewrite zeros_snoc.
Qed.

(** An integer is printed with zeros for decimals. *)
Lemma to_fixed_int z d : 0 <= z < 2 ^ 53 -> to_fixed d (of_Z z) = nat_str z +:+ decimals d.
Proof.
  intros Hz. destruct z as [|p|p]; [exact (fixed_str_int 0 d ltac:(lia))| |lia].
  pose proof (int_exp_bounds p ltac:(lia)) as He. rewrite of_Z_pos by lia. unfold to_fixed.
  assert (Hl : num_leb (num_norm (10 ^ 21) 0) (S754_finite false (int_mant p) (int_exp p)) = false).
  { change (num_norm (10 ^ 21) 0) with (S754_finite false 7629394531250000 17).
    unfold num_leb, SFleb. cbn [SFcompare]. by rewrite (proj2 (Z.compare_gt_iff 17 (int_exp p))) by lia. }
  rewrite Hl, <- fixed_str_int by lia. cbv iota. change ("" +:+ ?s) with s. f_equal. unfold scaled_round.
  rewrite int_mant_value by lia. replace (53 - Z.pos (digits2_pos p)) with (- int_exp p) by (unfold int_exp; lia).
  destruct (Z.leb_spec 0 (int_exp p)) as [E|E].
  - replace (int_exp p) with 0 by lia. rewrite !Z.mul_1_r. lia.
  - pose proof (Z.pow_pos_nonneg 2 (- int_exp p) ltac:(lia) ltac:(lia)) as H2.
    rewrite (Z.pow_add_r 2 (- int_exp p) 1) by lia. set (w := 2 ^ (- int_exp p)) in *. change (2 ^ 1) with 2.
    set (t := 10 ^ Z.of_nat d). replace (2 * (Z.pos p * w * t) + w) with (w + (Z.pos p * t) * (w * 2)) by ring.
    rewrite Z.div_add by lia. rewrite Z.div_small by lia. lia.
Qed.

Lemma parse_float_to_fixed z d : 0 <= z < 2 ^ 53 -> parse_float (to_fixed d (of_Z z)) = of_Z z.
Proof. intros Hz. by rewrite to_fixed_int, parse_float_decimals. Qed.

Lemma Z_str_nat z : 0 <= z -> Z_str z = nat_str z.
Proof. intros Hz. unfold Z_str. by rewrite (proj2 (Z.ltb_ge z 0)). Qed.

(** Of an integer that is not negative, read from its text. *)
Lemma parse_float_str z : 0 <= z < 2 ^ 52 -> parse_float (num_str (of_Z z)) = of_Z z.
Proof. intros Hz. rewrite num_str_of_Z, Z_str_nat, parse_float_nat; lia || done. Qed.

(** *** Below zero *)

Lemma num_opp_of_Z p : Z.pos p < 2 ^ 53 -> num_opp (of_Z (Z.pos p)) = of_Z (Z.neg p).
Proof. intros Hp. by rewrite of_Z_pos, of_Z_neg. Qed.

Lemma parse_float_minus s : digit_first s -> parse_float ("-" +:+ s) = num_opp (parse_float s).
Proof.
  intros Hs. rewrite (parse_float_digits s Hs). destruct s as [|c s]; [done|]. cbn [digit_first] in Hs.
  change ("-" +:+ String.String c s) with (String.String (chr 45) (String.String c s)).
  unfold parse_float. change (trim_left (String.String (chr 45) (String.String c s))) with (String.String (chr 45) (String.String c s)).
  cbn [with_sign]. rewrite decide_True by done. cbn [String.prefix].
  destruct (Ascii.ascii_dec _ c) as [E|]; [|done]. exfalso. apply (digit_not c 73 Hs); [lia|by rewrite <- E].
Qed.

Lemma nat_str_digit_first z t : 0 <= z -> digit_first (nat_str z +:+ t).
Proof. intros Hz. destruct (nat_str_spec z Hz) as (H1 & H2 & _). by apply digit_first_app. Qed.

Lemma to_fixed_neg p d : Z.pos p < 2 ^ 53 -> to_fixed d (of_Z (Z.neg p)) = "-" +:+ to_fixed d (of_Z (Z.pos p)).
Proof.
  intros Hp. rewrite of_Z_pos, of_Z_neg by done. unfold to_fixed. pose proof (int_exp_bounds p Hp) as He.
  assert (Hl : num_leb (num_norm (10 ^ 21) 0) (S754_finite false (int_mant p) (int_exp p)) = false).
  { change (num_norm (10 ^ 21) 0) with (S754_finite false 7629394531250000 17).
    unfold num_leb, SFleb. cbn [SFcompare]. by rewrite (proj2 (Z.compare_gt_iff 17 (int_exp p))) by lia. }
  by rewrite Hl.
Qed.

(** The text of an integer of either sign, and the one with decimals, are read
    back. *)
Lemma int_str_read z : Z.abs z < 2 ^ 52 -> parse_float (num_str (of_Z z)) = of_Z z.
Proof.
  intros Hz. destruct z as [|p|p]; [by apply parse_float_str|by apply parse_float_str|].
  rewrite num_str_of_Z by done. unfold Z_str. cbn [Z.ltb Z.compare]. change (- Z.neg p) with (Z.pos p).
  rewrite parse_float_minus, parse_float_nat, num_opp_of_Z; [done|lia|lia|].
  rewrite <- (str_app_nil_r (nat_str _)). by apply nat_str_digit_first.
Qed.

Lemma int_fixed_read z d : Z.abs z < 2 ^ 52 -> parse_float (to_fixed d (of_Z z)) = of_Z z.
Proof.
  intros Hz. destruct z as [|p|p]; [by apply parse_float_to_fixed|apply parse_float_to_fixed; lia|].
  rewrite to_fixed_neg, parse_float_minus, parse_float_to_fixed, num_opp_of_Z; [done|lia|lia| |lia].
  rewrite to_fixed_int by lia. by apply nat_str_digit_first.
Qed.

(** ** Arithmetic of integers is exact *)

Lemma iter_pos_shift {A} (f : A -> A) n x : iter_pos f n (f x) = f (iter_pos f n x).
Proof. revert x. induction n as [n IH|n IH|]; intros x; cbn [iter_pos]; by rewrite ?IH. Qed.

Lemma iter_pos_succ {A} (f : A -> A) n x : iter_pos f (Pos.succ n) x = f (iter_pos f n x).
Proof.
  revert x. induction n as [n IH|n IH|]; intros x; simpl; [|by rewrite !iter_pos_shift|done].
  by rewrite !IH, !iter_pos_shift.
Qed.

(** Zeros are shifted out exactly. *)
Lemma shr_zeros m k : iter_pos shr_1 k (Build_shr_record (Z.pos (Pos.iter xO m k)) false false) = Build_shr_record (Z.pos m) false false.
Proof.
  induction k as [|k IH] using Pos.peano_ind; [done|].
  rewrite iter_pos_succ, <- iter_pos_shift, Pos.iter_succ. cbn [shr_1 orb]. exact IH.
Qed.

(** A mantissa of 53 bits with zeros after it loses the zeros. *)
Lemma round_zeros s m k e r :
  Z.pos (digits2_pos m) = 53 -> 0 <= k -> Z.pos r = Z.pos m * 2 ^ k -> -1074 <= e -> e + k <= 971 ->
  binary_round_aux 53 1024 s (Z.pos r) e loc_Exact = S754_finite s m (e + k).
Proof.
  intros Hd Hk Hr He Hek. destruct k as [|k|k]; [|clear Hk|lia].
  - assert (r = m) as -> by lia. rewrite round_exact by lia. f_equal. lia.
  - assert (r = Pos.iter xO m k) as -> by (pose proof (iter_xO m k); lia).
    unfold binary_round_aux, shr_fexp, fexp, emin. cbn [Zdigits2]. rewrite iter_xO_digits, Hd.
    replace (Z.max (53 + Z.pos k + e - 53) (3 - 1024 - 53) - e) with (Z.pos k) by lia.
    cbn [shr shr_record_of_loc]. rewrite shr_zeros.
    cbn [shr_m loc_of_shr_record round_nearest_even Zdigits2]. rewrite Hd.
    replace (Z.max (53 + (e + Z.pos k) - 53) (3 - 1024 - 53) - (e + Z.pos k)) with 0 by lia.
    cbn [shr shr_m]. by rewrite (proj2 (Z.leb_le (e + Z.pos k) (1024 - 53))) by lia.
Qed.

(** The same of an integer: whatever power of two it is written over. *)
Lemma round_over s p j r :
  Z.pos p < 2 ^ 53 -> 53 - Z.pos (digits2_pos p) <= j <= 1000 -> Z.pos r = Z.pos p * 2 ^ j ->
  binary_round_aux 53 1024 s (Z.pos r) (- j) loc_Exact = S754_finite s (int_mant p) (int_exp p).
Proof.
  intros Hp Hj Hr. pose proof (digits_le_53 p Hp) as Hd. unfold int_exp.
  rewrite (round_zeros s (int_mant p) (j - (53 - Z.pos (digits2_pos p)))).
  - f_equal. lia.
  - by apply int_mant_digits.
  - lia.
  - rewrite int_mant_value, <- Z.mul_assoc, <- Z.pow_add_r by lia. rewrite Hr. f_equal. f_equal. lia.
  - lia.
  - lia.
Qed.

Lemma num_norm_over z j : 0 <= z < 2 ^ 53 -> 0 <= j <= 1000 -> num_norm (z * 2 ^ j) (- j) = of_Z z.
Proof.
  intros Hz Hj. destruct z as [|p|p]; [done| |lia]. rewrite of_Z_pos by lia.
  pose proof (digits_le_53 p ltac:(lia)) as Hd. pose proof (digits2_pos_bounds p) as Hb.
  assert (exists r, Z.pos p * 2 ^ j = Z.pos r) as [r Hr].
  { pose proof (Z.pow_pos_nonneg 2 j ltac:(lia) ltac:(lia)). destruct (Z.pos p * 2 ^ j) eqn:E; [lia|eauto|lia]. }
  assert (Hdr : Z.pos (digits2_pos r) = Z.pos (digits2_pos p) + j).
  { rewrite !digits2_pos_log2, <- Hr, Z.log2_mul_pow2 by lia. lia. }
  rewrite Hr. unfold num_norm, binary_normalize, binary_round, shl_align, fexp, emin. rewrite Hdr.
  replace (Z.max (Z.pos (digits2_pos p) + j + - j - 53) (3 - 1024 - 53) - - j) with (- (53 - Z.pos (digits2_pos p) - j)) by lia.
  destruct (53 - Z.pos (digits2_pos p) - j) as [|k|k] eqn:E.
  - change (- 0) with 0. cbv iota beta. apply round_over; lia.
  - change (- Z.pos k) with (Z.neg k). cbv iota beta.
    replace (Z.max (Z.pos (digits2_pos p) + j + - j - 53) (3 - 1024 - 53)) with (- (j + Z.pos k)) by lia.
    apply round_over; [lia|lia|]. rewrite iter_xO, <- Hr, Z.pow_add_r by lia. ring.
  - change (- Z.neg k) with (Z.pos k). cbv iota beta. apply round_over; lia.
Qed.

Lemma num_mul_of_Z a b : 0 <= a -> 0 <= b -> a * b < 2 ^ 53 -> a < 2 ^ 53 -> b < 2 ^ 53 -> num_mul (of_Z a) (of_Z b) = of_Z (a * b).
Proof.
  intros Ha Hb Hab Ha' Hb'. destruct a as [|p|p]; [|clear Ha|lia]; destruct b as [|q|q]; try lia.
  - done.
  - by rewrite of_Z_pos.
  - by rewrite Z.mul_0_r, of_Z_pos.
  - clear Hb. change (Z.pos p * Z.pos q) with (Z.pos (p * q)) in *. rewrite !of_Z_pos by lia.
    unfold num_mul. cbn [SFmul xorb]. pose proof (digits2_product p q (p * q) eq_refl).
    pose proof (digits_le_53 p ltac:(lia)). pose proof (digits_le_53 q ltac:(lia)). pose proof (digits_le_53 (p * q) Hab).
    replace (int_exp p + int_exp q) with (- (53 - Z.pos (digits2_pos p) + (53 - Z.pos (digits2_pos q)))) by (unfold int_exp; lia).
    apply round_over; [done|lia|]. rewrite Pos2Z.inj_mul, !int_mant_value, Z.pow_add_r by lia. lia.
Qed.

Lemma num_div_of_Z a b : 0 <= a -> 0 < b -> a * b < 2 ^ 53 -> b < 2 ^ 53 -> num_div (of_Z (a * b)) (of_Z b) = of_Z a.
Proof.
  intros Ha Hb Hab Hb'. destruct b as [|q|q]; [lia| |lia]. destruct a as [|p|p]; [by rewrite of_Z_pos| |lia].
  change (Z.pos p * Z.pos q) with (Z.pos (p * q)) in *.
  assert (Hp : Z.pos p < 2 ^ 53) by lia. rewrite !of_Z_pos by lia.
  unfold num_div. cbn [SFdiv xorb]. unfold SFdiv_core_binary, fexp, emin. cbn [Zdigits2]. rewrite !int_mant_digits by lia.
  pose proof (digits2_product p q (p * q) eq_refl) as Hd.
  pose proof (digits_le_53 p ltac:(lia)). pose proof (digits_le_53 q ltac:(lia)). pose proof (digits_le_53 (p * q) Hab).
  unfold int_exp. set (dp := Z.pos (digits2_pos p)) in *. set (dq := Z.pos (digits2_pos q)) in *. set (dr := Z.pos (digits2_pos (p * q))) in *.
  replace (Z.min (Z.max (53 + (dr - 53) - (53 + (dq - 53)) - 53) (3 - 1024 - 53)) (dr - 53 - (dq - 53))) with (- (53 + dq - dr)) by lia.
  replace (dr - 53 - (dq - 53) - - (53 + dq - dr)) with 53 by lia. cbv iota beta.
  assert (Hs : Z.shiftl (Z.pos (int_mant (p * q))) 53 = Z.pos (Pos.iter xO p (Z.to_pos (53 + dq - dr))) * Z.pos (int_mant q)).
  { rewrite Z.shiftl_mul_pow2, iter_xO, !int_mant_value, Z2Pos.id by lia. fold dq dr.
    rewrite Pos2Z.inj_mul. replace (53 + dq - dr) with (53 - dr + dq) by lia. rewrite Z.pow_add_r by lia.
    replace (2 ^ 53) with (2 ^ dq * 2 ^ (53 - dq)) by (rewrite <- Z.pow_add_r by lia; f_equal; lia). ring. }
  rewrite Hs, (surjective_pairing (Z.div_eucl _ _)).
  change (fst (Z.div_eucl ?a ?b)) with (a / b). change (snd (Z.div_eucl ?a ?b)) with (a mod b).
  rewrite Z.div_mul, Z.mod_mul by lia. cbv iota beta.
  assert (Hl : forall n, new_location n 0 = loc_Exact) by (intros n; unfold new_location; by destruct (Z.even n)).
  rewrite Hl. apply round_over; [done|lia|]. rewrite iter_xO, Z2Pos.id by lia. done.
Qed.

(** A mantissa moved to an exponent that is not above its own. *)
Lemma shl_align_over p e :
  Z.pos p < 2 ^ 53 -> e <= int_exp p -> Z.pos (fst (shl_align (int_mant p) (int_exp p) e)) = Z.pos p * 2 ^ (- e).
Proof.
  intros Hp He. pose proof (digits_le_53 p Hp) as Hd. unfold shl_align.
  assert (Hm : Z.pos (int_mant p) = Z.pos p * 2 ^ (- int_exp p)) by (rewrite int_mant_value by done; unfold int_exp; do 2 f_equal; lia).
  pose proof (int_exp_bounds p Hp). destruct (e - int_exp p) as [|k|k] eqn:E; [|lia|]; cbn [fst].
  - rewrite Hm. do 2 f_equal. lia.
  - rewrite iter_xO, Hm, <- Z.mul_assoc, <- Z.pow_add_r by lia. do 2 f_equal. lia.
Qed.

Lemma num_add_of_Z a b : 0 <= a -> 0 <= b -> a + b < 2 ^ 53 -> num_add (of_Z a) (of_Z b) = of_Z (a + b).
Proof.
  intros Ha Hb Hab. destruct a as [|p|p]; [|clear Ha|lia]; destruct b as [|q|q]; try lia.
  - done.
  - by rewrite Z.add_0_l, of_Z_pos by lia.
  - by rewrite Z.add_0_r, of_Z_pos by lia.
  - rewrite (of_Z_pos p), (of_Z_pos q) by lia. unfold num_add. cbn [SFadd cond_Zopp].
    pose proof (int_exp_bounds p ltac:(lia)). pose proof (int_exp_bounds q ltac:(lia)).
    rewrite !shl_align_over by lia. rewrite <- Z.mul_add_distr_r.
    rewrite <- (Z.opp_involutive (Z.min _ _)) at 2. apply num_norm_over; lia.
Qed.

Lemma num_sub_of_Z a b : 0 <= b <= a -> a < 2 ^ 53 -> num_sub (of_Z a) (of_Z b) = of_Z (a - b).
Proof.
  intros Hb Ha. destruct b as [|q|q]; [| |lia].
  - rewrite Z.sub_0_r. destruct a as [|p|p]; [done|by rewrite of_Z_pos|lia].
  - destruct a as [|p|p]; [lia| |lia]. rewrite (of_Z_pos p), (of_Z_pos q) by lia. unfold num_sub. cbn [SFsub cond_Zopp].
    pose proof (int_exp_bounds p ltac:(lia)). pose proof (int_exp_bounds q ltac:(lia)).
    rewrite !shl_align_over by lia. rewrite <- Z.mul_sub_distr_r.
    rewrite <- (Z.opp_involutive (Z.min _ _)) at 2. apply num_norm_over; lia.
Qed.

(** Rounding does not look at the sign. *)
Lemma round_opp m e : binary_round 53 1024 true m e = num_opp (binary_round 53 1024 false m e).
Proof.
  unfold binary_round. destruct (shl_align m e _) as [mz ez].
  unfold binary_round_aux. destruct (shr_fexp 53 1024 _ _ _) as [mrs e'].
  destruct (shr_fexp 53 1024 _ e' _) as [mrs' e'']. destruct (shr_m mrs'); try done.
  by destruct (_ <=? _).
Qed.

Lemma num_sub_lt a b : 0 <= a < b -> b < 2 ^ 53 -> num_sub (of_Z a) (of_Z b) = of_Z (a - b).
Proof.
  intros Ha Hb. destruct b as [|q|q]; try lia. destruct a as [|p|p]; [| |lia].
  - rewrite (of_Z_pos q) by done. change (0 - Z.pos q) with (Z.neg q). by rewrite of_Z_neg.
  - rewrite (of_Z_pos p), (of_Z_pos q) by lia. unfold num_sub. cbn [SFsub cond_Zopp].
    pose proof (int_exp_bounds p ltac:(lia)). pose proof (int_exp_bounds q ltac:(lia)).
    rewrite !shl_align_over by lia. rewrite <- Z.mul_sub_distr_r.
    set (e := Z.min _ _). assert (He : 0 < 2 ^ (- e)) by (apply Z.pow_pos_nonneg; lia).
    assert (Hn : num_norm ((Z.pos q - Z.pos p) * 2 ^ (- e)) e = of_Z (Z.pos q - Z.pos p)).
    { rewrite <- (Z.opp_involutive e) at 2. apply num_norm_over; lia. }
    replace ((Z.pos p - Z.pos q) * 2 ^ (- e)) with (- ((Z.pos q - Z.pos p) * 2 ^ (- e))) by lia.
    destruct ((Z.pos q - Z.pos p) * 2 ^ (- e)) as [|m|m] eqn:E; [nia| |nia].
    transitivity (num_opp (num_norm (Z.pos m) e)); [exact (round_opp m e)|].
    rewrite Hn. destruct (Z.pos q - Z.pos p) as [|r|r] eqn:R; [lia| |lia].
    rewrite num_opp_of_Z by lia. f_equal. lia.
Qed.

Lemma num_sub_ints a b : 0 <= a < 2 ^ 53 -> 0 <= b < 2 ^ 53 -> num_sub (of_Z a) (of_Z b) = of_Z (a - b).
Proof. intros. destruct (Z.lt_ge_cases a b); [apply num_sub_lt|apply num_sub_of_Z]; lia. Qed.

(** Rounding an integer changes nothing. *)
Lemma int_mant_exp p : Z.pos p < 2 ^ 53 -> Z.pos (int_mant p) = Z.pos p * 2 ^ (- int_exp p).
Proof. intros Hp. rewrite int_mant_value by done. unfold int_exp. do 2 f_equal. lia. Qed.

Lemma num_floor_of_Z a : 0 <= a < 2 ^ 53 -> num_floor (of_Z a) = of_Z a.
Proof.
  intros Ha. destruct a as [|p|p]; [done| |lia]. pose proof (int_exp_bounds p ltac:(lia)) as He.
  rewrite (of_Z_pos p) at 1 by lia. unfold num_floor, floor_scaled. cbn [signed].
  pose proof (Z.pow_pos_nonneg 2 (- int_exp p) ltac:(lia) ltac:(lia)). rewrite int_mant_exp by lia.
  destruct (Z.leb_spec 0 (int_exp p)).
  - replace (int_exp p) with 0 by lia. by rewrite !Z.mul_1_r.
  - rewrite Z.div_mul by lia. done.
Qed.

Lemma num_round_of_Z a : 0 <= a < 2 ^ 53 -> num_round (of_Z a) = of_Z a.
Proof.
  intros Ha. destruct a as [|p|p]; [done| |lia]. pose proof (int_exp_bounds p ltac:(lia)) as He.
  rewrite (of_Z_pos p) at 1 by lia. unfold num_round. cbn [signed].
  pose proof (Z.pow_pos_nonneg 2 (- int_exp p) ltac:(lia) ltac:(lia)) as Hw. rewrite int_mant_exp by lia.
  destruct (Z.leb_spec 0 (int_exp p)).
  - replace (int_exp p) with 0 by lia. by rewrite !Z.mul_1_r.
  - rewrite Z.pow_add_r by lia. set (w := 2 ^ (- int_exp p)) in *. change (2 ^ 1) with 2.
    replace (2 * (Z.pos p * w) + w) with (w + Z.pos p * (w * 2)) by ring.
    rewrite Z.div_add, Z.div_small by lia. done.
Qed.

(** *** The integer part of a quotient *)

(** What is left of the rounding once the last bit has been decided. *)
Lemma shr_decided x e :
  2 ^ 52 <= x <= 2 ^ 53 -> -1000 <= e <= 900 ->
  exists m e', shr_fexp 53 1024 x e loc_Exact = (Build_shr_record (Z.pos m) false false, e') /\ e <= e' <= e + 1 /\
    Z.pos m * 2 ^ (e' - e) = x.
Proof.
  intros Hx He. destruct x as [|p|p]; try lia. unfold shr_fexp, fexp, emin. cbn [Zdigits2 shr_record_of_loc].
  destruct (Z.eq_dec (Z.pos p) (2 ^ 53)) as [E|E].
  - assert (p = xO (2 ^ 52)) as -> by lia. exists (2 ^ 52)%positive, (e + 1).
    change (Z.pos (digits2_pos (xO (2 ^ 52)))) with 54.
    replace (Z.max (54 + e - 53) (3 - 1024 - 53) - e) with 1 by lia. split; [done|]. split; [lia|].
    replace (e + 1 - e) with 1 by lia. done.
  - assert (Hd : Z.pos (digits2_pos p) = 53).
    { rewrite digits2_pos_log2, (Z.log2_unique (Z.pos p) 52); lia. }
    rewrite Hd. replace (Z.max (53 + e - 53) (3 - 1024 - 53) - e) with 0 by lia.
    exists p, e. split; [done|]. split; [lia|]. rewrite Z.sub_diag. lia.
Qed.

(** Rounding a mantissa of 53 or 54 bits: a last bit is lost, and what is left
    may go up by one. *)
Lemma round_unit q k e l :
  Z.pos (digits2_pos q) = 53 + k -> k = 0 \/ k = 1 -> -900 <= e <= 800 ->
  exists m e', binary_round_aux 53 1024 false (Z.pos q) e l = S754_finite false m e' /\ e + k <= e' <= e + k + 1 /\
    Z.pos q / 2 ^ k <= Z.pos m * 2 ^ (e' - (e + k)) <= Z.pos q / 2 ^ k + 1.
Proof.
  intros Hd Hk He. unfold binary_round_aux.
  assert (exists m r s, shr_fexp 53 1024 (Z.pos q) e l = (Build_shr_record (Z.pos m) r s, e + k) /\
    Z.pos m = Z.pos q / 2 ^ k /\ Z.pos (digits2_pos m) = 53) as (m & r & s & Hs & Hm & Hdm).
  { unfold shr_fexp, fexp, emin. cbn [Zdigits2]. rewrite Hd.
    replace (Z.max (53 + k + e - 53) (3 - 1024 - 53) - e) with k by lia. destruct Hk as [-> | ->]; cbn [shr iter_pos].
    - rewrite Z.add_0_r. change (2 ^ 0) with 1. rewrite Z.div_1_r.
      destruct l as [|[]]; eexists q, _, _; (split; [done|split; lia]).
    - change (2 ^ 1) with 2. rewrite <- Z.div2_div.
      destruct q as [q|q|]; cbn [digits2_pos] in Hd; try lia; destruct l as [|[]]; cbn [shr_record_of_loc shr_1 orb];
        (eexists q, _, _; split; [done|split; [done|lia]]). }
  rewrite Hs. cbn [shr_m]. pose proof (digits2_pos_bounds m) as Hb. rewrite Hdm in Hb. rewrite <- Hm.
  set (x := round_nearest_even _ _).
  assert (Hx : x = Z.pos m \/ x = Z.pos m + 1).
  { unfold x. destruct (loc_of_shr_record _) as [|[]]; cbn [round_nearest_even]; auto. destruct (Z.even _); auto. }
  change (53 - 1) with 52 in Hb. destruct (shr_decided x (e + k)) as (m' & e' & Hs' & He' & Hv); [lia|lia|].
  rewrite Hs'. cbn [shr_m]. rewrite (proj2 (Z.leb_le e' (1024 - 53))) by lia.
  exists m', e'. split; [done|]. split; [done|]. lia.
Qed.

(** A quotient cut to [k] bits after the point, and rounded there, is cut to the
    same integer. *)
Lemma cut_quotient p q w x :
  0 <= p -> 0 < q -> q < w -> p * w / q <= x <= p * w / q + 1 -> x / w = p / q.
Proof.
  intros Hp Hq Hw Hx. pose proof (Z.div_mod p q ltac:(lia)) as Hdm. pose proof (Z.mod_pos_bound p q ltac:(lia)) as Hm.
  set (n := p / q) in *. symmetry. apply (Z.div_unique_pos x w n (x - w * n)); [|lia].
  assert (n * w <= p * w / q) by (apply Z.div_le_lower_bound; nia).
  assert (p * w / q < n * w + w - 1) by (apply Z.div_lt_upper_bound; nia). lia.
Qed.

(** The bits of a quotient of mantissas. *)
Lemma quotient_bits p q :
  let u := 53 - Z.pos (digits2_pos p) + Z.pos (digits2_pos q) in 0 <= u ->
  2 ^ 52 <= Z.pos p * 2 ^ u / Z.pos q < 2 ^ 54.
Proof.
  intros u Hu. pose proof (digits2_pos_bounds p) as [P1 P2]. pose proof (digits2_pos_bounds q) as [Q1 Q2].
  unfold u in *. set (dp := Z.pos (digits2_pos p)) in *. set (dq := Z.pos (digits2_pos q)) in *.
  split.
  - apply Z.div_le_lower_bound; [lia|]. apply (Z.le_trans _ (2 ^ dq * 2 ^ 52)); [nia|].
    rewrite <- Z.pow_add_r by lia. replace (dq + 52) with (dp - 1 + (53 - dp + dq)) by lia.
    rewrite Z.pow_add_r by lia. apply Z.mul_le_mono_nonneg_r; [apply Z.pow_nonneg; lia|done].
  - apply Z.div_lt_upper_bound; [lia|]. apply (Z.lt_le_trans _ (2 ^ dp * 2 ^ (53 - dp + dq))).
    + apply Z.mul_lt_mono_pos_r; [apply Z.pow_pos_nonneg; lia|done].
    + rewrite <- Z.pow_add_r by lia. replace (dp + (53 - dp + dq)) with (dq - 1 + 54) by lia.
      rewrite Z.pow_add_r by lia. apply Z.mul_le_mono_nonneg_r; [lia|done].
Qed.

Lemma digits_le p n : 0 <= n -> Z.pos p < 2 ^ n -> Z.pos (digits2_pos p) <= n.
Proof. intros Hn Hp. rewrite digits2_pos_log2. pose proof (proj1 (Z.log2_lt_pow2 (Z.pos p) n ltac:(lia)) Hp). lia. Qed.

(** The integer part of a quotient of integers is the one of their division:
    rounding never carries a quotient up to the next integer. *)
Lemma num_floor_div a b : 0 <= a < 2 ^ 50 -> 0 < b < 2 ^ 50 -> num_floor (num_div (of_Z a) (of_Z b)) = of_Z (a / b).
Proof.
  intros Ha Hb. destruct b as [|q|q]; [lia| |lia]. destruct a as [|p|p]; [by rewrite of_Z_pos by lia| |lia].
  rewrite !of_Z_pos by lia. unfold num_div. cbn [SFdiv xorb]. unfold SFdiv_core_binary, fexp, emin. cbn [Zdigits2].
  rewrite !int_mant_digits by lia. unfold int_exp.
  pose proof (quotient_bits p q) as Hq. pose proof (digits_le p 50 ltac:(lia) ltac:(lia)) as Hdp.
  pose proof (digits_le q 50 ltac:(lia) ltac:(lia)) as Hdq. pose proof (digits2_pos_bounds q) as [_ Q2].
  pose proof (int_mant_value p ltac:(lia)) as Hmp. pose proof (int_mant_value q ltac:(lia)) as Hmq.
  set (dp := Z.pos (digits2_pos p)) in *. set (dq := Z.pos (digits2_pos q)) in *.
  set (u := 53 - dp + dq) in *. cbv zeta in Hq. specialize (Hq ltac:(lia)).
  replace (Z.min (Z.max (53 + (dp - 53) - (53 + (dq - 53)) - 53) (3 - 1024 - 53)) (dp - 53 - (dq - 53))) with (- u) by lia.
  replace (dp - 53 - (dq - 53) - - u) with 53 by lia. cbv iota beta.
  rewrite (surjective_pairing (Z.div_eucl _ _)). change (fst (Z.div_eucl ?a ?b)) with (a / b). cbv iota beta.
  assert (Hs : Z.shiftl (Z.pos (int_mant p)) 53 / Z.pos (int_mant q) = Z.pos p * 2 ^ u / Z.pos q).
  { rewrite Z.shiftl_mul_pow2, Hmp, Hmq by lia.
    replace (Z.pos p * 2 ^ (53 - dp) * 2 ^ 53) with (Z.pos p * 2 ^ u * 2 ^ (53 - dq))
      by (rewrite <- !Z.mul_assoc, <- !Z.pow_add_r by lia; do 2 f_equal; lia).
    apply Z.div_mul_cancel_r; [lia|]. apply Z.pow_nonzero; lia. }
  rewrite Hs. destruct (Z.pos p * 2 ^ u / Z.pos q) as [|n|n] eqn:En; [lia| |lia].
  set (k := Z.pos (digits2_pos n) - 53).
  assert (Hk : k = 0 \/ k = 1).
  { pose proof (digits_le n 54 ltac:(lia) ltac:(lia)) as H1. pose proof (digits2_pos_bounds n) as [_ H2].
    assert (52 < Z.pos (digits2_pos n)); [|lia]. apply (Z.pow_lt_mono_r_iff 2); lia. }
  destruct (round_unit n k (- u) (new_location (Z.pos (int_mant q)) (snd (Z.div_eucl (Z.shiftl (Z.pos (int_mant p)) 53) (Z.pos (int_mant q))))))
    as (m & e & Hr & He & Hv); [lia|done|lia|].
  rewrite Hr. unfold num_floor, floor_scaled. cbn [signed]. rewrite (proj2 (Z.leb_gt 0 e)) by lia.
  rewrite <- En in Hv.
  assert (Hy : Z.pos p * 2 ^ u / Z.pos q / 2 ^ k = Z.pos p * 2 ^ (u - k) / Z.pos q).
  { rewrite Z.div_div, (Z.mul_comm (Z.pos q)), <- Z.div_div by (lia || (apply Z.pow_pos_nonneg; lia) || (apply Z.pow_nonzero; lia)).
    replace u with (u - k + k) at 1 by lia. rewrite Z.pow_add_r, Z.mul_assoc, Z.div_mul by (lia || (apply Z.pow_nonzero; lia)). done. }
  rewrite Hy in Hv. replace (e - (- u + k)) with (e + (u - k)) in Hv by lia.
  assert (Hw : Z.pos q < 2 ^ (u - k)) by (eapply Z.lt_le_trans; [exact Q2|apply Z.pow_le_mono_r; lia]).
  rewrite <- (cut_quotient (Z.pos p) (Z.pos q) (2 ^ (u - k)) (Z.pos m * 2 ^ (e + (u - k)))) by lia.
  replace (2 ^ (u - k)) with (2 ^ (- e) * 2 ^ (e + (u - k))) by (rewrite <- Z.pow_add_r by lia; f_equal; lia).
  rewrite Z.div_mul_cancel_r by (apply Z.pow_nonzero; lia).
  unfold of_Z_signed. by destruct (Z.eqb_spec (Z.pos m / 2 ^ (- e)) 0) as [-> |].
Qed.

(** *** Remainders *)

(** [x % y]: exact, with the sign of [x]. *)
Definition num_rem (x y : num) : num :=
  match x, y with
  | S754_nan, _ | _, S754_nan | S754_infinity _, _ | _, S754_zero _ => nan
  | S754_zero _, _ | _, S754_infinity _ => x
  | S754_finite s m e, S754_finite _ m' e' =>
      let f := Z.min e e' in
      let r := (Z.pos m * 2 ^ (e - f)) mod (Z.pos m' * 2 ^ (e' - f)) in
      if r =? 0 then S754_zero s else if s then SFopp (num_norm r f) else num_norm r f
  end.

Lemma num_rem_of_Z a b : 0 <= a < 2 ^ 53 -> 0 < b < 2 ^ 53 -> num_rem (of_Z a) (of_Z b) = of_Z (a mod b).
Proof.
  intros Ha Hb. destruct b as [|q|q]; [lia| |lia]. destruct a as [|p|p]; [by rewrite of_Z_pos by lia| |lia].
  rewrite (of_Z_pos p), (of_Z_pos q) by lia. unfold num_rem.
  pose proof (int_exp_bounds p ltac:(lia)). pose proof (int_exp_bounds q ltac:(lia)).
  rewrite !int_mant_exp, <- !Z.mul_assoc, <- !Z.pow_add_r by lia. set (f := Z.min _ _) in *.
  replace (- int_exp p + (int_exp p - f)) with (- f) by lia. replace (- int_exp q + (int_exp q - f)) with (- f) by lia.
  pose proof (Z.pow_pos_nonneg 2 (- f) ltac:(lia) ltac:(lia)) as Hw.
  pose proof (Z.mod_pos_bound (Z.pos p) (Z.pos q) ltac:(lia)) as Hr.
  rewrite Z.mul_mod_distr_r by lia. cbv zeta.
  destruct (Z.eqb_spec (Z.pos p mod Z.pos q * 2 ^ (- f)) 0) as [E|E].
  - assert (Z.pos p mod Z.pos q = 0) as -> by nia. done.
  - rewrite <- (Z.opp_involutive f) at 2. apply num_norm_over; lia.
Qed.
