(* ===== verification/ExtCore.v ===== *)
(** * Ext core and the additions of [Deluge.js]

    The helpers of Ext the interface leans on everywhere ([Ext.apply],
    [Ext.applyIf], [Ext.isEmpty], [Ext.each], [Ext.type], [Ext.value]) and the
    ones [Deluge.js] adds to it ([Ext.isObjectEmpty], [Ext.areObjectsEqual],
    [Ext.keys], [Ext.values], [Ext.splat], [Deluge.number],
    [Deluge.columnWidth], [Deluge.progressBar]). *)

From stdpp Require Import base list strings gmap.
From Stdlib Require Import Lia ZArith.
From S2P Require Import Prelude JsNum JsString JsValue.

Module Ext.

(** [Ext.apply(o, c)]: copies every property of [c] over [o]. *)
Definition apply {A} (o c : obj A) : obj A :=
  foldl (fun o p => match oget p c with Some v => oset p v o | None => o end) o (okeys c).

(** [Ext.applyIf(o, c)]: copies the properties of [c] that [o] does not define. *)
Definition applyIf (o c : obj val) : obj val :=
  foldl (fun o p => if decide (vget p o = VPrim PUndef) then oset p (vget p c) o else o)
    o (okeys c).

(** [Ext.isEmpty(v, allowBlank)] *)
Definition isEmpty (h : store) (v : val) (allowBlank : bool) : bool :=
  match v with
  | VPrim PNull | VPrim PUndef => true
  | VArr l => (length (arr_items h l) =? 0)%nat
  | VPrim (PStr s) => if allowBlank then false else bool_decide (s = "")
  | _ => false
  end.

(** [Ext.type(o)] of a value that is no DOM node: [false] is [None]. *)
Definition type (v : val) : option string :=
  match v with
  | VPrim PUndef | VPrim PNull => None
  | VPrim (PBool _) => Some "boolean"
  | VPrim (PNum _) => Some "number"
  | VPrim (PStr _) => Some "string"
  | VArr _ => Some "array"
  | VObj _ => Some "object"
  end.

(** [Ext.value(v, defaultValue)] *)
Definition value (h : store) (v d : val) : val := if isEmpty h v false then d else v.

(** [Ext.each(array, fn)] of an array: [fn] is called in order until it
    answers [false]; the state is what the calls change. *)
Fixpoint each_go {S A} (i : nat) (l : list A) (fn : S -> A -> nat -> S * bool) (s : S) : S :=
  match l with
  | [] => s
  | x :: l' => let '(s', go) := fn s x i in if go then each_go (i + 1) l' fn s' else s'
  end.
Definition each {S A} (l : list A) (fn : S -> A -> nat -> S * bool) (s : S) : S := each_go 0 l fn s.

(** [Ext.isObjectEmpty(obj)] *)
Definition isObjectEmpty {A} (o : obj A) : bool :=
  match okeys o with [] => true | _ => false end.

(** [Ext.areObjectsEqual(obj1, obj2)]: an object that is missing is equal to
    nothing; otherwise only the properties of the first are compared. *)
Definition areObjectsEqual (h : store) (obj1 obj2 : option (obj val)) : bool :=
  match obj1, obj2 with
  | Some o1, Some o2 => forallb (fun i => val_eq h (vget i o1) (vget i o2)) (okeys o1)
  | _, _ => false
  end.

(** [Ext.keys(obj)] and [Ext.values(obj)] *)
Definition keys {A} (o : obj A) : list string := okeys o.
Definition values (o : obj val) : list val := map (fun k => vget k o) (okeys o).

(** [Ext.splat(obj)]: the elements of an array, one element for a value. *)
Definition splat (h : store) (v : val) : list val :=
  match type v with
  | None => []
  | Some t => if decide (t = "array")
              then match v with VArr l => arr_items h l | _ => [] end
              else [v]
  end.

End Ext.

Module Deluge.

(** [Deluge.number(value, fallback)] *)
Definition number (value : prim) (fallback : num) : num :=
  let parsed := to_number value in
  if bool_decide (value = PStr "") || bool_decide (value = PNull) || is_nan parsed
  then fallback else parsed.

(** The digits after the first ["width"], spaces, a colon and spaces:
    what [/width\s*:\s*(\d+)/] captures. *)
Definition width_digits (s : string) : option string :=
  let s := trim_left s in
  match s with
  | String.String c s' =>
      if decide (c = chr 58) then
        let '(d, _) := span_digits (trim_left s') in
        if decide (d = "") then None else Some d
      else None
  | EmptyString => None
  end.

Fixpoint match_width (s : string) : option string :=
  match (if String.prefix "width" s then width_digits (str_drop 5 s) else None) with
  | Some d => Some d
  | None => match s with String.String _ s' => match_width s' | EmptyString => None end
  end.

(** [Deluge.columnWidth(meta, fallback)], given [meta.style] if there is one. *)
Definition columnWidth (style : option string) (fallback : num) : num :=
  match style with
  | Some s => if decide (s = "") then fallback
              else match match_width s with Some d => parse_int d | None => fallback end
  | None => fallback
  end.

(** The template of a bar; its double quotes are written as single ones here
    and put back by the map. *)
Definition progressTpl : string :=
  str_map (fun c => if decide (c = chr 39) then chr 34 else c) (
  "<div class='x-progress-wrap x-progress-renderered'>" +:+
  "<div class='x-progress-inner'>" +:+
  "<div style='width: {2}px' class='x-progress-bar'>" +:+
  "<div style='z-index: 99; width: {3}px' class='x-progress-text'>" +:+
  "<div style='width: {1}px;'>{0}</div>" +:+
  "</div>" +:+
  "</div>" +:+
  "<div class='x-progress-text x-progress-text-back'>" +:+
  "<div style='width: {1}px;'>{0}</div>" +:+
  "</div>" +:+
  "</div>" +:+
  "</div>").

(** [Deluge.progressBar(progress, width, text, modifier)]: the four values
    the template is filled with. *)
Definition progressBar_args (progress width : num) (text : string) (modifier : option num)
    : string * num * num * num :=
  let modifier := default (of_Z 10) modifier in
  let progressWidth := to_fixed 0 (num_mul (num_div width (of_Z 100)) progress) in
  let barWidth := num_sub (str_num progressWidth) (of_Z 1) in
  let rest := num_sub (str_num progressWidth) modifier in
  let textWidth := if num_ltb (of_Z 0) rest then rest else of_Z 0 in
  (text, width, barWidth, textWidth).

Definition progressBar (progress width : num) (text : string) (modifier : option num) : string :=
  let '(t, w, b, tw) := progressBar_args progress width text modifier in
  format progressTpl [t; num_str w; num_str b; num_str tw].

End Deluge.

(** ** [Ext.apply] and [Ext.applyIf] *)

Lemma foldl_set_get {A} (c : obj A) ks (o : obj A) k :
  NoDup ks ->
  oget k (foldl (fun o p => match oget p c with Some v => oset p v o | None => o end) o ks) =
  if decide (k ∈ ks /\ is_Some (oget k c)) then oget k c else oget k o.
Proof.
  revert o. induction ks as [|p ks IH]; intros o Hnd; cbn [foldl].
  - rewrite decide_False by set_solver. done.
  - apply NoDup_cons in Hnd as [Hp Hnd]. rewrite IH by done.
    destruct (decide (k ∈ ks /\ is_Some (oget k c))) as [[Hk Hs]|Hn].
    + rewrite decide_True by set_solver. done.
    + destruct (oget p c) as [v|] eqn:E.
      * rewrite oget_oset. case_decide as Hkp; subst.
        -- rewrite decide_True by (split; [set_solver|by eexists]). done.
        -- rewrite decide_False by set_solver. done.
      * rewrite decide_False; [done|]. intros [Hin [w Hw]]. set_unfold.
        destruct Hin as [->|Hin]; [congruence|]. apply Hn. split; [done|by eexists].
Qed.

(** What [Ext.apply] reads back: the property of [c] where it has one. *)
Lemma apply_get {A} (o c : obj A) k :
  obj_ok c ->
  oget k (Ext.apply o c) = match oget k c with Some v => Some v | None => oget k o end.
Proof.
  intros Hc. unfold Ext.apply. rewrite foldl_set_get by auto using okeys_NoDup.
  destruct (oget k c) as [v|] eqn:E.
  - rewrite decide_True by (split; [apply okeys_elem; rewrite E|]; by eexists). done.
  - rewrite decide_False by (intros [_ [? ?]]; congruence). done.
Qed.

Lemma apply_ok {A} (o c : obj A) : obj_ok o -> obj_ok (Ext.apply o c).
Proof.
  unfold Ext.apply. generalize (okeys c). intros ks. revert o.
  induction ks as [|p ks IH]; intros o Ho; simpl; [done|].
  apply IH. destruct (oget p c); auto with js.
Qed.

Lemma apply_nil {A} (o : obj A) : Ext.apply o [] = o.
Proof. done. Qed.

Lemma foldl_if_get (c : obj val) ks (o : obj val) k :
  vget k (foldl (fun o p => if decide (vget p o = VPrim PUndef) then oset p (vget p c) o else o) o ks)
  = if decide (vget k o = VPrim PUndef /\ k ∈ ks) then vget k c else vget k o.
Proof.
  revert o. induction ks as [|p ks IH]; intros o; cbn [foldl].
  - rewrite decide_False by set_solver. done.
  - rewrite IH. destruct (decide (k = p)) as [->|Hne].
    + destruct (decide (vget p o = VPrim PUndef)) as [Hu|Hd].
      * assert (E : vget p (oset p (vget p c) o) = vget p c) by (unfold vget at 1; by rewrite oget_oset_eq).
        rewrite E. rewrite (decide_True _ _ (P := vget p o = VPrim PUndef /\ p ∈ p :: ks))
          by (split; [done|apply elem_of_cons; by left]).
        by destruct (decide _).
      * rewrite !decide_False by naive_solver. done.
    + assert (E : vget k (if decide (vget p o = VPrim PUndef) then oset p (vget p c) o else o) = vget k o).
      { destruct (decide (vget p o = VPrim PUndef)); [|done]. unfold vget. by rewrite oget_oset_ne. }
      rewrite E. destruct (decide (vget k o = VPrim PUndef /\ k ∈ ks)) as [[? ?]|Hn].
      * rewrite decide_True by set_solver. done.
      * rewrite decide_False by set_solver. done.
Qed.

(** What [Ext.applyIf] reads back: [c]'s value only where [o] defines none. *)
Lemma applyIf_get (o c : obj val) k :
  vget k (Ext.applyIf o c) = if decide (vget k o = VPrim PUndef) then vget k c else vget k o.
Proof.
  unfold Ext.applyIf. rewrite foldl_if_get. case_decide as Hu.
  - destruct Hu as [Hu Hk]. by rewrite decide_True.
  - case_decide as Hu'; [|done]. rewrite Hu'. unfold vget.
    destruct (oget k c) as [v|] eqn:E; [|done].
    exfalso. apply Hu. split; [done|]. apply okeys_elem. by eexists.
Qed.

(** ** [Ext.each] *)

(** A callback that never answers [false] is a fold. *)
Lemma each_fold_ext {S A} fn (f : S -> A -> S) (l : list A) s :
  (forall s x i, fn s x i = (f s x, true)) -> Ext.each l fn s = foldl f s l.
Proof.
  intros Hf. unfold Ext.each. generalize 0%nat. revert s.
  induction l as [|x l IH]; intros s i; simpl; [done|]. rewrite Hf. apply IH.
Qed.

Lemma each_fold {S A} (f : S -> A -> S) (l : list A) s :
  Ext.each l (fun s x _ => (f s x, true)) s = foldl f s l.
Proof. by apply each_fold_ext. Qed.

(** ** Values *)

Lemma isEmpty_undefined h b : Ext.isEmpty h (VPrim PUndef) b = true.
Proof. done. Qed.

(** An object is empty when it has no property at all. *)
Lemma isObjectEmpty_spec {A} (o : obj A) : Ext.isObjectEmpty o = true <-> o = [].
Proof.
  unfold Ext.isObjectEmpty. split; [|by intros ->].
  destruct o as [|[k v] o]; [done|]. intros H.
  assert (Hk : k ∈ okeys ((k, v) :: o)) by (apply okeys_elem; simpl; rewrite decide_True by done; by eexists).
  destruct (okeys ((k, v) :: o)); [set_solver|done].
Qed.

Lemma areObjectsEqual_spec h o1 o2 :
  Ext.areObjectsEqual h (Some o1) (Some o2) = true <->
  (forall k, is_Some (oget k o1) -> val_eq h (vget k o1) (vget k o2) = true).
Proof.
  simpl. rewrite forallb_forall. split; intros H k Hk.
  - apply H. apply list_elem_of_In, okeys_elem. done.
  - apply H. by apply okeys_elem, list_elem_of_In.
Qed.

(** [Deluge.number] never answers [NaN] unless the fallback is one. *)
Lemma number_not_nan v f : is_nan f = false -> is_nan (Deluge.number v f) = false.
Proof.
  unfold Deluge.number. intros Hf.
  destruct (bool_decide (v = PStr "") || bool_decide (v = PNull) || is_nan (to_number v)) eqn:E; [done|].
  by apply orb_false_iff in E as [_ E].
Qed.

#[export] Hint Resolve apply_ok number_not_nan : js.
