(* ===== verification/Fields.v ===== *)
(** * The fields of a form

    A number with a fixed number of decimals ([Ext.form.NumberField] and the
    [Ext.ux.Spinner] on it), a box, a line of text, a choice, and
    [Deluge.DurationField], which is two numbers read as one.  What a field
    holds is what its input shows, or what it was configured with where it was
    never drawn. *)

From stdpp Require Import base list strings.
From Stdlib Require Import Lia ZArith.
From S2P Require Import Prelude JsNum JsString JsValue Integers ExtCore.

Open Scope Z_scope.

Module NumberField.

(** [decimalPrecision], the two bounds, and the value; decimals and negative
    numbers are allowed and the separator is a point everywhere. *)
Record state := mk { decimalPrecision : nat; minValue : num; maxValue : num; value : prim; disabled : bool }.

Definition with_value (f : state) (v : prim) : state :=
  mk (decimalPrecision f) (minValue f) (maxValue f) v (disabled f).
Definition setDisabled (b : bool) (f : state) : state :=
  mk (decimalPrecision f) (minValue f) (maxValue f) (value f) b.

Definition isNaN (v : prim) : bool := is_nan (to_number v).

(** [parseFloat(v)] of any value *)
Definition parseFloat (v : prim) : num := parse_float (to_str v).

(** [parseValue] *)
Definition parseValue (v : prim) : prim :=
  let value := parseFloat v in if is_nan value then PStr "" else PNum value.

(** [fixPrecision], which the spinner repeats *)
Definition fixPrecision (precision : nat) (value : prim) : prim :=
  let nan := isNaN value in
  if nan || negb (truthy value) then (if nan then PStr "" else value)
  else PNum (parse_float (to_fixed precision (parseFloat value))).

(** [getValue] *)
Definition getValue (f : state) : prim := fixPrecision (decimalPrecision f) (parseValue (value f)).

(** [setValue]; [Ext.isNumber] holds of finite numbers. *)
Definition setValue (v : prim) (f : state) : state :=
  let v := match v with PNum n => if is_finite n then v else PNum (parseFloat v) | _ => PNum (parseFloat v) end in
  let v := fixPrecision (decimalPrecision f) v in
  with_value f (if isNaN v then PStr "" else PStr (to_str v)).

(** [beforeBlur]: what was typed is read and shown again. *)
Definition beforeBlur (f : state) : state :=
  match parseValue (value f) with PNum n => setValue (PNum n) f | _ => f end.

End NumberField.

Module Spinner.

(** [fixBoundries] *)
Definition fixBoundries (f : NumberField.state) (v : num) : prim :=
  let v := if num_ltb v (NumberField.minValue f) then NumberField.minValue f else v in
  let v := if num_ltb (NumberField.maxValue f) v then NumberField.maxValue f else v in
  NumberField.fixPrecision (NumberField.decimalPrecision f) (PNum v).

(** [spin], by [incr]; [defaultValue] is zero. *)
Definition spin (down : bool) (incr : num) (f : NumberField.state) : NumberField.state :=
  let v := NumberField.parseFloat (NumberField.getValue f) in
  let v := if down then num_sub v incr else num_add v incr in
  let v := if is_nan v then of_Z 0 else v in
  NumberField.with_value f (PStr (to_str (fixBoundries f v))).

End Spinner.

Module Checkbox.

Record state := mk { checked : bool; disabled : bool }.

Definition setDisabled (b : bool) (f : state) : state := mk (checked f) b.

(** [setValue] of a box without an input value, and whether [check] is fired. *)
Definition is_checked (v : prim) : bool :=
  match v with
  | PBool b => b
  | v => loose_eq v (PStr "1") || bool_decide (to_lower (to_str v) = "on") || strict_eq v (PStr "true")
  end.
Definition setValue (v : prim) (f : state) : state * bool :=
  (mk (is_checked v) (disabled f), negb (Bool.eqb (checked f) (is_checked v))).
Definition getValue (f : state) : bool := checked f.

End Checkbox.

Module TextField.

(** The text shown where the field is empty, and the text. *)
Record state := mk { emptyText : string; text : string; disabled : bool }.

Definition setDisabled (b : bool) (f : state) : state := mk (emptyText f) (text f) b.

(** A line of text drops the ends of lines, as [value] of the input does. *)
Definition one_line (s : string) : string :=
  str_filter (fun c => negb (bool_decide (c = chr 10)) && negb (bool_decide (c = chr 13))) s.

(** [setValue] of what prints as [s], nothing where it is empty *)
Definition setValue (s : string) (f : state) : state := mk (emptyText f) (one_line s) (disabled f).

(** [getValue] *)
Definition getValue (f : state) : string := if decide (text f = emptyText f) then "" else text f.

End TextField.

Module TextArea.

(** The ends of lines of a text area are line feeds, however they were given. *)
Fixpoint line_feeds (s : string) : string :=
  match s with
  | EmptyString => ""
  | String.String c s' =>
      if decide (c = chr 13) then
        String.String (chr 10) (match s' with
                                | String.String d s'' => if decide (d = chr 10) then line_feeds s'' else line_feeds s'
                                | EmptyString => ""
                                end)
      else String.String c (line_feeds s')
  end.

End TextArea.

Module Duration.

(** [days], [hours] and [lastValue] *)
Record state := mk { days : NumberField.state; hours : NumberField.state; lastValue : option num; disabled : bool }.

Definition maxHours : num := of_Z 87600.

(** [initComponent] *)
Definition create : state :=
  mk (NumberField.mk 0 (of_Z 0) (num_floor (num_div maxHours (of_Z 24))) (pint 0) false)
     (NumberField.mk 1 (of_Z 0) maxHours (pint 0) false) None false.

(** [getValue] *)
Definition getValue (f : state) : num :=
  let total := num_add (num_mul (Deluge.number (NumberField.getValue (days f)) (of_Z 0)) (of_Z 24))
                       (Deluge.number (NumberField.getValue (hours f)) (of_Z 0)) in
  let total := num_div (num_round (num_mul total (of_Z 100))) (of_Z 100) in
  num_min (num_max total (of_Z 0)) maxHours.

(** [setValue] *)
Definition setValue (value : prim) (f : state) : state :=
  let total := num_min (num_max (Deluge.number value (of_Z 0)) (of_Z 0)) maxHours in
  let days' := num_floor (num_div total (of_Z 24)) in
  let hours' := num_div (num_round (num_mul (num_sub total (num_mul days' (of_Z 24))) (of_Z 100))) (of_Z 100) in
  mk (NumberField.setValue (PNum days') (days f)) (NumberField.setValue (PNum hours') (hours f)) (Some total) (disabled f).

(** [onPartChanged]: the new value and the old one where [change] is fired. *)
Definition onPartChanged (f : state) : state * option (num * option num) :=
  let value := getValue f in
  let previous := lastValue f in
  (setValue (PNum value) f,
   if match previous with Some p => num_eqb value p | None => false end then None else Some (value, previous)).

Definition setDisabled (b : bool) (f : state) : state := mk (days f) (hours f) (lastValue f) b.

End Duration.

(** ** Numbers *)

Lemma is_finite_of_Z z : safe z -> is_finite (of_Z z) = true.
Proof. intros Hz. destruct z as [|p|p]; [done| |]; rewrite ?of_Z_pos, ?of_Z_neg by (unfold safe in Hz; lia); done. Qed.

Lemma is_nan_of_Z z : safe z -> NumberField.isNaN (pint z) = false.
Proof. apply of_Z_not_nan. Qed.

(** An integer has no decimals to lose. *)
Lemma fixPrecision_int d z : Z.abs z < 2 ^ 52 -> NumberField.fixPrecision d (pint z) = pint z.
Proof.
  intros Hz. unfold NumberField.fixPrecision. rewrite is_nan_of_Z, pint_truthy by (unfold safe; lia).
  destruct (Z.eqb_spec z 0) as [-> |Hne]; [done|]. cbn [orb negb]. unfold NumberField.parseFloat. cbn [to_str].
  by rewrite int_str_read, int_fixed_read by done.
Qed.

Lemma parseValue_int z : Z.abs z < 2 ^ 52 -> NumberField.parseValue (PStr (num_str (of_Z z))) = pint z.
Proof.
  intros Hz. unfold NumberField.parseValue, NumberField.parseFloat. cbn [to_str]. rewrite int_str_read by done.
  by rewrite of_Z_not_nan by (unfold safe; lia).
Qed.

Lemma number_set z f : Z.abs z < 2 ^ 52 -> NumberField.setValue (pint z) f = NumberField.with_value f (PStr (num_str (of_Z z))).
Proof.
  intros Hz. unfold NumberField.setValue. rewrite is_finite_of_Z by (unfold safe; lia).
  by rewrite fixPrecision_int, is_nan_of_Z by (done || (unfold safe; lia)).
Qed.

(** What a number field was given it answers, whatever its decimals. *)
Lemma number_field_roundtrip z f : Z.abs z < 2 ^ 52 -> NumberField.getValue (NumberField.setValue (pint z) f) = pint z.
Proof.
  intros Hz. rewrite number_set by done. unfold NumberField.getValue. cbn [NumberField.value NumberField.with_value NumberField.decimalPrecision].
  by rewrite parseValue_int, fixPrecision_int.
Qed.

Lemma number_int z d : safe z -> Deluge.number (pint z) d = of_Z z.
Proof. intros Hz. unfold Deluge.number. cbn [to_number]. rewrite of_Z_not_nan by done. done. Qed.

(** Between two integers. *)
Lemma clamp_int z a : 0 <= z <= a -> a < 2 ^ 52 -> num_min (num_max (of_Z z) (of_Z 0)) (of_Z a) = of_Z z.
Proof.
  intros Hz Ha. assert (safe z /\ safe 0 /\ safe a) as (Sz & S0 & Sa) by (unfold safe; lia).
  unfold num_max, num_min. rewrite !of_Z_not_nan, ltb_of_Z by done. cbn [orb].
  rewrite (proj2 (Z.ltb_ge z 0)) by lia. rewrite !of_Z_not_nan, ltb_of_Z by done. cbn [orb].
  by rewrite (proj2 (Z.ltb_ge a z)) by lia.
Qed.

(** A spinner over integers steps by one and stops at its bounds. *)
Lemma bounded_int f v a b :
  NumberField.minValue f = of_Z a -> NumberField.maxValue f = of_Z b -> 0 <= a <= b -> b < 2 ^ 52 -> safe v ->
  Spinner.fixBoundries f (of_Z v) = pint (Z.min (Z.max v a) b).
Proof.
  intros Ha Hb Hab Hb2 Hv. unfold Spinner.fixBoundries. rewrite Ha, Hb.
  assert (Sa : safe a) by (unfold safe; lia). assert (Sb : safe b) by (unfold safe; lia).
  rewrite ltb_of_Z by done. destruct (Z.ltb_spec v a).
  - rewrite ltb_of_Z, (proj2 (Z.ltb_ge b a)), fixPrecision_int by (done || lia). do 2 f_equal. lia.
  - rewrite ltb_of_Z by done. destruct (Z.ltb_spec b v); rewrite fixPrecision_int by lia; do 2 f_equal; lia.
Qed.

Lemma spin_int f z a b down :
  NumberField.getValue f = pint z -> NumberField.minValue f = of_Z a -> NumberField.maxValue f = of_Z b ->
  0 <= a <= b -> b < 2 ^ 51 -> 0 <= z < 2 ^ 51 ->
  NumberField.getValue (Spinner.spin down (of_Z 1) f) = pint (Z.min (Z.max (if down then z - 1 else z + 1) a) b).
Proof.
  intros Hg Ha Hb Hab Hb2 Hz. unfold Spinner.spin. rewrite Hg.
  assert (Hf : NumberField.parseFloat (pint z) = of_Z z) by exact (parse_float_str z ltac:(lia)). rewrite Hf.
  set (v := if down then z - 1 else z + 1).
  assert (Hv : (if down then num_sub (of_Z z) (of_Z 1) else num_add (of_Z z) (of_Z 1)) = of_Z v).
  { unfold v. destruct down; [|by rewrite num_add_of_Z by lia].
    destruct (Z.eq_dec z 0) as [-> |]; [done|]. by rewrite num_sub_of_Z by lia. }
  assert (Sv : safe v) by (unfold safe, v; destruct down; lia).
  cbv zeta. rewrite Hv, of_Z_not_nan by done.
  rewrite (bounded_int f v a b) by (done || lia). cbn [to_str].
  unfold NumberField.getValue. cbn [NumberField.value NumberField.with_value NumberField.decimalPrecision].
  by rewrite parseValue_int, fixPrecision_int by lia.
Qed.

(** ** Text *)

Lemma str_filter_id p s : str_all p s = true -> str_filter p s = s.
Proof. induction s as [|c s IH]; [done|]. cbn [str_all str_filter]. by intros [-> ->%IH]%andb_true_iff. Qed.

(** A text of one line that is not the hint of the empty field is read as it
    was given. *)
Definition line (s : string) : Prop := str_has (chr 10) s = false /\ str_has (chr 13) s = false.

Lemma one_line_id s : line s -> TextField.one_line s = s.
Proof.
  intros [H1 H2]. unfold str_has in *. rewrite negb_false_iff in H1, H2. apply str_filter_id.
  induction s as [|c s IH]; [done|]. cbn [str_all] in *. apply andb_true_iff in H1 as [A1 B1], H2 as [A2 B2].
  rewrite IH by done. unfold bool_decide in *. rewrite andb_true_r. by rewrite A1, A2.
Qed.

Lemma text_field_roundtrip s f : line s -> s <> TextField.emptyText f \/ s = "" -> TextField.getValue (TextField.setValue s f) = s.
Proof.
  intros Hl Hs. unfold TextField.getValue, TextField.setValue. cbn [TextField.text TextField.emptyText].
  rewrite one_line_id by done. destruct (decide _); naive_solver.
Qed.

Lemma line_feeds_id s : str_has (chr 13) s = false -> TextArea.line_feeds s = s.
Proof.
  unfold str_has. rewrite negb_false_iff. induction s as [|c s IH]; [done|]. cbn [str_all TextArea.line_feeds].
  intros [Hc Hs]%andb_true_iff. rewrite decide_False; [by rewrite IH|]. intros ->. done.
Qed.

(** ** Delays *)

Lemma num_min_max_max z a : 0 <= z -> 0 <= a < 2 ^ 52 -> z < 2 ^ 52 -> num_min (num_max (of_Z z) (of_Z 0)) (of_Z a) = of_Z (Z.min z a).
Proof.
  intros Hz Ha Hz'. destruct (Z.le_ge_cases z a) as [H|H]; [rewrite clamp_int by lia; by rewrite Z.min_l|].
  assert (safe z /\ safe 0 /\ safe a) as (Sz & S0 & Sa) by (unfold safe; lia).
  unfold num_max, num_min. rewrite !of_Z_not_nan, ltb_of_Z by done. cbn [orb].
  rewrite (proj2 (Z.ltb_ge z 0)) by lia. rewrite !of_Z_not_nan, ltb_of_Z by done. cbn [orb].
  rewrite Z.min_r by done. destruct (Z.ltb_spec a z); [done|]. f_equal. lia.
Qed.

(** Hundredths of an integer. *)
Lemma hundredths z : 0 <= z < 2 ^ 40 -> num_div (num_round (num_mul (of_Z z) (of_Z 100))) (of_Z 100) = of_Z z.
Proof. intros Hz. rewrite num_mul_of_Z, num_round_of_Z, num_div_of_Z by lia. done. Qed.

(** The two boxes of integers are read as one delay. *)
Lemma duration_read f d h :
  NumberField.getValue (Duration.days f) = pint d -> NumberField.getValue (Duration.hours f) = pint h ->
  0 <= d < 2 ^ 20 -> 0 <= h < 2 ^ 20 -> Duration.getValue f = of_Z (Z.min (d * 24 + h) 87600).
Proof.
  intros Hd Hh Rd Rh. unfold Duration.getValue. rewrite Hd, Hh, !number_int by (unfold safe; lia).
  rewrite num_mul_of_Z, num_add_of_Z, hundredths by lia. unfold Duration.maxHours. apply num_min_max_max; lia.
Qed.

Lemma duration_set f z :
  0 <= z < 2 ^ 52 -> let t := Z.min z 87600 in
  Duration.setValue (pint z) f =
  Duration.mk (NumberField.setValue (pint (t / 24)) (Duration.days f)) (NumberField.setValue (pint (t mod 24)) (Duration.hours f))
    (Some (of_Z t)) (Duration.disabled f).
Proof.
  intros Hz t. unfold Duration.setValue. rewrite number_int by (unfold safe; lia). unfold Duration.maxHours.
  rewrite num_min_max_max by lia. fold t. assert (Ht : 0 <= t <= 87600) by lia.
  pose proof (Z.div_mod t 24 ltac:(lia)). pose proof (Z.mod_pos_bound t 24 ltac:(lia)).
  assert (0 <= t / 24) by (apply Z.div_pos; lia). rewrite num_floor_div by lia.
  rewrite num_mul_of_Z, num_sub_of_Z by lia. replace (t - t / 24 * 24) with (t mod 24) by lia.
  by rewrite hundredths by lia.
Qed.

Lemma duration_parts f z :
  0 <= z <= 87600 ->
  let f' := Duration.setValue (pint z) f in
  NumberField.getValue (Duration.days f') = pint (z / 24) /\ NumberField.getValue (Duration.hours f') = pint (z mod 24).
Proof.
  intros Hz. cbv zeta. rewrite duration_set by lia. rewrite (Z.min_l z) by lia.
  pose proof (Z.div_mod z 24 ltac:(lia)). pose proof (Z.mod_pos_bound z 24 ltac:(lia)).
  assert (0 <= z / 24) by (apply Z.div_pos; lia).
  split; cbn [Duration.days Duration.hours]; apply number_field_roundtrip; lia.
Qed.

Lemma duration_value f z : 0 <= z <= 87600 -> Duration.getValue (Duration.setValue (pint z) f) = of_Z z.
Proof.
  intros Hz. destruct (duration_parts f z Hz) as [Hd Hh].
  pose proof (Z.div_mod z 24 ltac:(lia)). pose proof (Z.mod_pos_bound z 24 ltac:(lia)).
  assert (0 <= z / 24) by (apply Z.div_pos; lia).
  rewrite (duration_read _ (z / 24) (z mod 24)) by (done || lia). f_equal. lia.
Qed.

(** Claim C21.  A delay of a whole number of hours is answered as it was given
    and shown as days and the hours that are left; hours typed that are worth a
    day or more are carried into the days: the delay stays what it was, up to ten
    years, the boxes show it split again, and a change is told if and only if
    there is one. *)
Theorem duration_roundtrip f d h z :
  NumberField.getValue (Duration.days f) = pint d -> NumberField.getValue (Duration.hours f) = pint h ->
  0 <= d < 2 ^ 20 -> 0 <= h < 2 ^ 20 -> 0 <= z <= 87600 ->
  (let f' := Duration.setValue (pint z) f in
   Duration.getValue f' = of_Z z /\
   NumberField.getValue (Duration.days f') = pint (z / 24) /\ NumberField.getValue (Duration.hours f') = pint (z mod 24)) /\
  (let t := Z.min (d * 24 + h) 87600 in
   let '(f', fired) := Duration.onPartChanged f in
   Duration.getValue f' = of_Z t /\
   NumberField.getValue (Duration.days f') = pint (t / 24) /\ NumberField.getValue (Duration.hours f') = pint (t mod 24) /\
   (forall p, 0 <= p < 2 ^ 52 -> Duration.lastValue f = Some (of_Z p) ->
     fired = if decide (p = t) then None else Some (of_Z t, Some (of_Z p)))).
Proof.
  intros Hd Hh Rd Rh Rz. split; cbv zeta; [split; [by apply duration_value|by apply duration_parts]|].
  unfold Duration.onPartChanged. rewrite (duration_read f d h) by done. set (t := Z.min _ _).
  assert (Ht : 0 <= t <= 87600) by lia.
  split; [by apply duration_value|]. destruct (duration_parts f t Ht) as [Pd Ph]. split; [done|]. split; [done|].
  intros p Hp ->. rewrite eqb_of_Z by (unfold safe; lia).
  destruct (Z.eqb_spec t p) as [-> |Hne]; [by rewrite decide_True|by rewrite decide_False].
Qed.

Definition sample_delay : Duration.state :=
  Duration.mk (Duration.days Duration.create) (NumberField.with_value (Duration.hours Duration.create) (PStr "36"))
    (Some (of_Z 5)) false.

Lemma duration_roundtrip_witness :
  Duration.getValue (Duration.setValue (pint 750) sample_delay) = of_Z 750 /\
  NumberField.getValue (Duration.days (Duration.onPartChanged sample_delay).1) = pint 1 /\
  (Duration.onPartChanged sample_delay).2 = Some (of_Z 36, Some (of_Z 5)).
Proof.
  assert (H1 : NumberField.getValue (Duration.days sample_delay) = pint 0) by reflexivity.
  assert (H2 : NumberField.getValue (Duration.hours sample_delay) = pint 36) by reflexivity.
  destruct (duration_roundtrip sample_delay 0 36 750 H1 H2) as [[R _] C]; try lia.
  destruct (Duration.onPartChanged sample_delay) as [f' fired]. destruct C as (_ & C1 & _ & C2).
  split; [exact R|]. split; [exact C1|]. rewrite (C2 5); [reflexivity|lia|reflexivity].
Defined.

(** Half an hour is kept. *)
Example half_an_hour :
  to_str (PNum (Duration.getValue (Duration.setValue (PStr "1.5") Duration.create))) = "1.5".
Proof. vm_compute. reflexivity. Qed.
