(* ===== verification/Settings.v ===== *)
(** * Pages with settings of their own

    The settings of a feature of the daemon are one dictionary under one key of
    its configuration.  A page reads its dictionary the first time it is shown
    and, on Apply, writes the whole of it: [core.set_config] replaces the key.
    This file says what such a page is, as an interface, and what follows from
    it; the pages are in [Pages]. *)

From stdpp Require Import base list strings.
From Stdlib Require Import Lia ZArith.
From S2P Require Import Prelude JsNum JsString JsValue ExtCore.

Local Open Scope nat_scope.

(** ** Dictionaries as they are sent *)

Module Json.

(** A value read from the daemon, or sent to it. *)
Inductive json := JPrim (p : prim) | JArr (l : list json) | JObj (o : list (string * json)).
Notation dict := (obj json).

Definition undef : json := JPrim PUndef.
Definition truthy (v : json) : bool := match v with JPrim p => JsValue.truthy p | _ => true end.

(** [o[k]] of a dictionary *)
Definition get (k : string) (o : dict) : json := default undef (oget k o).

(** [v[k]] of any value but a string; [None] is the [TypeError] on null and
    undefined. *)
Definition prop (k : string) (v : json) : option json :=
  match v with
  | JObj o => Some (get k o)
  | JArr l => Some (default undef (z ← index_key k; l !! Z.to_nat z))
  | JPrim (PUndef | PNull) => None
  | JPrim _ => Some undef
  end.

(** [String(v)], and the primitive a value is converted to *)
Fixpoint str (v : json) : string :=
  match v with
  | JPrim p => to_str p
  | JArr l => join "," (map (fun w => match w with JPrim (PUndef | PNull) => "" | _ => str w end) l)
  | JObj _ => "[object Object]"
  end.
Definition prim_of (v : json) : prim := match v with JPrim p => p | _ => PStr (str v) end.

(** [v || d] *)
Definition or (v d : json) : json := if truthy v then v else d.

(** [Ext.isEmpty] and [Ext.value] *)
Definition isEmpty (v : json) : bool :=
  match v with
  | JPrim (PUndef | PNull) => true
  | JPrim (PStr s) => bool_decide (s = "")
  | JArr [] => true
  | _ => false
  end.
Definition value (v d : json) : json := if isEmpty v then d else v.

(** [Deluge.number] of any value *)
Definition number (v : json) (d : num) : num :=
  match v with
  | JPrim p => Deluge.number p d
  | _ => let n := to_number (prim_of v) in if is_nan n then d else n
  end.

(** [v === true] and [v !== false] *)
Definition is_true (v : json) : bool := match v with JPrim (PBool true) => true | _ => false end.
Definition not_false (v : json) : bool := match v with JPrim (PBool false) => false | _ => true end.

(** [settings || {}]; the daemon keeps a key's type, so that these hold
    dictionaries, and any other value is left out ([None]). *)
Definition dict_of (v : json) : option dict :=
  if truthy v then match v with JObj o => Some o | _ => None end else Some [].

(** Every key of the first dictionary is in the second, with the same value. *)
Definition within (a b : dict) : Prop := forall k v, oget k a = Some v -> oget k b = Some v.

End Json.

Export (notations) Json.
Notation jbool b := (Json.JPrim (PBool b)).
Notation jint z := (Json.JPrim (PNum (of_Z z))).
Notation jnum n := (Json.JPrim (PNum n)).
Notation jstr s := (Json.JPrim (PStr s)).

#[export] Instance within_preorder : PreOrder Json.within.
Proof. split; [by intros a k v|]. intros a b c H1 H2 k v Hv. by apply H2, H1. Qed.

Lemma within_all e o : Forall (fun kv => oget kv.1 o = Some kv.2) e -> Json.within e o.
Proof. intros H k v Hv%oget_Some_elem. rewrite Forall_forall in H. exact (H _ Hv). Qed.

(** What is read under a key of a dictionary that is within another *)
Lemma within_get e o k : Json.within e o -> is_Some (oget k e) -> Json.get k o = Json.get k e.
Proof. intros Ho [v Hv]. unfold Json.get. by rewrite Hv, (Ho k v Hv). Qed.

(** ** Pages *)

(** What a page is: the key it keeps its settings under, its fields as they are
    made, what it does with the settings it is given ([None] where that
    throws), what a failure to read leaves and whether the page will read again
    then, what Apply writes, and its other handlers, which are told whether the
    page has been shown and may write too ([None] where they cannot happen). *)
Class Page (F E : Type) := {
  key : string;
  made : F;
  load : Json.json -> F -> option F;
  failed : F -> F;
  reads_again : bool;
  apply : F -> F * Json.dict;
  handle : bool -> E -> F -> option (F * list Json.dict)
}.

Module Pages.
Section page.
Context {F E : Type} `{Page F E}.

(** The fields, [loaded], and the calls that read the settings in flight. *)
Record state := mk { fields : F; loaded : bool; flight : nat }.

Definition create : state := mk made false 0.

Inductive event := Show | Answered (settings : Json.json) | Failed | Apply | Do (e : E).
Inductive output := Read (k : string) | Sent (k : string) (settings : Json.dict).

(** [onPageShow] *)
Definition onPageShow (p : state) : state * list output :=
  if loaded p then (p, []) else (mk (fields p) true (S (flight p)), [Read key]).

(** The answer to it *)
Definition onGotConfig (settings : Json.json) (p : state) : option state :=
  f ← load settings (fields p); Some (mk f (loaded p) (flight p)).
Definition onFailed (p : state) : state := mk (failed (fields p)) (loaded p && negb reads_again) (flight p).

(** [onApply] *)
Definition onApply (p : state) : state * list output :=
  if loaded p then let '(f, s) := apply (fields p) in (mk f true (flight p), [Sent key s]) else (p, []).

(** Another handler *)
Definition onEvent (e : E) (p : state) : option (state * list output) :=
  '(f, ss) ← handle (loaded p) e (fields p); Some (mk f (loaded p) (flight p), map (Sent key) ss).

Definition take (p : state) : option state :=
  match flight p with O => None | S n => Some (mk (fields p) (loaded p) n) end.

Definition step (p : state) (e : event) : option (state * list output) :=
  match e with
  | Show => Some (onPageShow p)
  | Answered s => p ← take p; p ← onGotConfig s p; Some (p, [])
  | Failed => p ← take p; Some (onFailed p, [])
  | Apply => Some (onApply p)
  | Do e => onEvent e p
  end.
Definition steps : state -> list event -> option (state * list output) := run step.

(** What was written, and how often the settings were asked for. *)
Definition written (os : list output) : list Json.dict :=
  omap (fun o => match o with Sent _ s => Some s | Read _ => None end) os.
Definition reads (os : list output) : nat :=
  length (List.filter (fun o => match o with Read _ => true | _ => false end) os).

End page.
End Pages.
Arguments Pages.state : clear implicits.
Arguments Pages.event : clear implicits.

(** The settings a page shows in full, with the fields it has: given a dictionary
    with these in it, and with whatever else, it writes them back, and nothing
    that was not in it. *)
Class Settings (F E : Type) `{Page F E} := {
  settings : Type;
  encode : settings -> Json.dict;
  fits : F -> settings -> Prop;
  load_apply s o f :
    fits f s -> obj_ok o -> Json.within (encode s) o ->
    exists f', load (Json.JObj o) f = Some f' /\ Json.within (encode s) (apply f').2 /\ Json.within (apply f').2 o
}.

(** A page none of whose handlers writes before it was shown. *)
Class Guarded (F E : Type) `{Page F E} := {
  guarded e f f' ss : handle false e f = Some (f', ss) -> ss = []
}.

Section laws.
Context {F E : Type} `{Page F E}.
Implicit Types (p : Pages.state F) (es : list (Pages.event E)) (os : list Pages.output).

Lemma written_app os os' : Pages.written (os ++ os') = Pages.written os ++ Pages.written os'.
Proof. apply omap_app. Qed.

Lemma reads_app os os' : Pages.reads (os ++ os') = Pages.reads os + Pages.reads os'.
Proof. unfold Pages.reads. by rewrite List.filter_app, length_app. Qed.

Lemma sent_reads ss : Pages.reads (map (Pages.Sent key) ss) = 0.
Proof. unfold Pages.reads. by induction ss. Qed.

(** Whether a call that reads is in flight, or has been, and how many were
    made. *)
Definition read_once p os : Prop :=
  Pages.flight p <= 1 /\ (Pages.flight p = 1 -> Pages.loaded p = true) /\
  (reads_again = false -> Pages.reads os = if Pages.loaded p then 1 else 0).

Lemma step_read_once p os e p' os' :
  Pages.step p e = Some (p', os') -> read_once p os -> read_once p' (os ++ os').
Proof.
  intros Hs (Hf & Hl & Hr). destruct p as [f l n]. cbn [Pages.flight Pages.loaded] in Hf, Hl, Hr.
  unfold read_once. destruct e; cbn [Pages.step] in Hs.
  - unfold Pages.onPageShow in Hs. destruct l; cbn [Pages.loaded Pages.fields Pages.flight] in Hs; injection Hs as <- <-;
      cbn [Pages.loaded Pages.flight]; rewrite reads_app; cbn [Pages.reads List.filter length].
    + rewrite Nat.add_0_r. done.
    + assert (n = 0) as ->.
      { destruct n as [|[|n]]; [done| |lia]. by specialize (Hl eq_refl). }
      split; [done|]. split; [done|]. intros Ha. by rewrite Hr.
  - destruct n as [|n]; [done|]. cbn in Hs. unfold Pages.onGotConfig in Hs. cbn in Hs. destruct (load settings0 f) as [f'|]; [|done]. injection Hs as <- <-.
    cbn [Pages.loaded Pages.flight]. rewrite app_nil_r. split; [lia|]. split; [lia|exact Hr].
  - destruct n as [|n]; [done|]. cbn in Hs. injection Hs as <- <-. unfold Pages.onFailed. cbn [Pages.loaded Pages.flight]. rewrite app_nil_r.
    split; [lia|]. split; [lia|]. intros Ha. rewrite Ha. cbn [negb]. rewrite andb_true_r. auto.
  - unfold Pages.onApply in Hs. destruct l; cbn [Pages.loaded Pages.fields Pages.flight] in Hs; [|injection Hs as <- <-; by rewrite app_nil_r].
    destruct (apply f). injection Hs as <- <-. cbn [Pages.loaded Pages.flight]. rewrite reads_app. cbn. rewrite Nat.add_0_r. done.
  - unfold Pages.onEvent in Hs. cbn [Pages.loaded Pages.fields Pages.flight] in Hs.
    destruct (handle l e f) as [[f' ss]|]; [|done]. cbn [mbind option_bind] in Hs. injection Hs as <- <-.
    cbn [Pages.loaded Pages.flight]. by rewrite reads_app, sent_reads, Nat.add_0_r.
Qed.

(** Over any events at most one call reads the settings at a time, and only one
    ever does of a page that does not read again. *)
Lemma settings_read_once es p os :
  Pages.steps Pages.create es = Some (p, os) ->
  Pages.flight p <= 1 /\ (reads_again = false -> Pages.reads os <= 1).
Proof.
  intros Hs. assert (read_once p os) as (H1 & _ & H2).
  { revert es p os Hs. apply (run_ind Pages.step (fun p _ os => read_once p os)).
    - split; [cbn; lia|]. by split.
    - intros es p1 os1 e p2 os2 _ IH Hs. by eapply step_read_once. }
  split; [done|]. intros Ha. rewrite H2 by done. destruct (Pages.loaded p); lia.
Qed.

(** A page that was not shown writes nothing, whatever else is done with it. *)
Lemma unshown_writes_nothing `{!Guarded F E} es p os :
  Pages.steps Pages.create es = Some (p, os) -> Pages.Show ∉ es -> Pages.written os = [].
Proof.
  intros Hs. enough (Pages.Show ∉ es -> Pages.loaded p = false /\ Pages.written os = []) by tauto.
  revert es p os Hs. apply (run_ind Pages.step (fun p es os => Pages.Show ∉ es -> Pages.loaded p = false /\ Pages.written os = [])).
  - done.
  - intros es [f l n] os1 e p2 os2 _ IH Hs Hn. rewrite elem_of_app, list_elem_of_singleton in Hn.
    destruct IH as [Hl Hw]; [tauto|]. cbn [Pages.loaded] in Hl. subst l. rewrite written_app, Hw. cbn [app].
    destruct e; cbn [Pages.step] in Hs.
    + naive_solver.
    + destruct n as [|n]; [done|]. cbn in Hs. unfold Pages.onGotConfig in Hs. cbn in Hs. destruct (load _ f); [|done]. by injection Hs as <- <-.
    + destruct n as [|n]; [done|]. cbn in Hs. by injection Hs as <- <-.
    + by injection Hs as <- <-.
    + unfold Pages.onEvent in Hs. cbn [Pages.loaded Pages.fields Pages.flight] in Hs.
      pose proof (guarded e f) as Hg. destruct (handle false e f) as [[f' ss]|]; [|done].
      rewrite (Hg f' ss eq_refl) in Hs. by injection Hs as <- <-.
Qed.

(** A page that was shown but has not been answered writes what its fields were
    made with; one that could not read, what that left, unless it reads again. *)
Lemma unread_written :
  (fun r => Pages.written r.2) <$> Pages.steps Pages.create [Pages.Show; Pages.Apply] = Some [(apply made).2] /\
  (fun r => Pages.written r.2) <$> Pages.steps Pages.create [Pages.Show; Pages.Failed; Pages.Apply] =
    Some (if reads_again then [] else [(apply (failed made)).2]).
Proof.
  unfold Pages.steps, run. cbn [foldl mbind option_bind Pages.step Pages.onPageShow Pages.create Pages.loaded Pages.fields Pages.flight Pages.take].
  unfold Pages.onApply, Pages.onFailed. cbn [Pages.loaded Pages.fields Pages.flight].
  split; [by destruct (apply made)|]. destruct reads_again; cbn [andb negb]; [done|]. by destruct (apply (failed made)).
Qed.

(** A page that is shown, answered, shown again any number of times and applied
    writes once: what it shows as it was read, and nothing that was not read. *)
Definition writes_back `{!Settings F E} : Prop :=
  forall s o n, fits made s -> obj_ok o -> Json.within (encode s) o ->
  exists p os s', Pages.steps Pages.create ([Pages.Show; Pages.Answered (Json.JObj o)] ++ replicate n Pages.Show ++ [Pages.Apply]) = Some (p, os) /\
    Pages.written os = [s'] /\ Json.within (encode s) s' /\ Json.within s' o.

Lemma shows_nothing n p : Pages.loaded p = true -> Pages.steps p (replicate n Pages.Show) = Some (p, []).
Proof.
  intros Hl. induction n as [|n IH]; [done|].
  apply (run_app Pages.step p [Pages.Show]). exists p, [], []. split; [|done].
  unfold run. cbn [foldl mbind option_bind Pages.step]. unfold Pages.onPageShow. by rewrite Hl.
Qed.

Lemma settings_write_back `{!Settings F E} : writes_back.
Proof.
  intros s o n Hf Hok Ho. destruct (load_apply s o made Hf Hok Ho) as (f' & Hl & Ha & Hb).
  exists (Pages.mk (apply f').1 true 0), [Pages.Read key; Pages.Sent key (apply f').2], (apply f').2.
  split; [|by split].
  apply run_app. exists (Pages.mk f' true 0), [Pages.Read key], [Pages.Sent key (apply f').2]. split; [|split; [|done]].
  - unfold run. cbn. unfold Pages.onGotConfig. cbn. by rewrite Hl.
  - apply run_app. exists (Pages.mk f' true 0), [], [Pages.Sent key (apply f').2].
    split; [by apply shows_nothing|]. split; [|done]. unfold run. cbn. unfold Pages.onApply. cbn. by destruct (apply f').
Qed.

End laws.
