(* ===== verification/Register.v ===== *)
(** * The daemon's register of labels

    The labels that exist with their settings, and the label of each torrent, as
    the calls of the Label plugin and [core.set_torrent_options] change them
    (core.rs and features/label.rs of the daemon): the other end of the page and
    of the menu that the interface has for labels. *)

From stdpp Require Import base list strings gmap.
From Stdlib Require Import Lia.
From S2P Require Import Prelude JsNum JsString JsValue Fields Settings.

Local Open Scope nat_scope.

Module Register.

(** [normalise_label] *)
Definition is_label_char (c : Ascii.ascii) : bool :=
  let n := code c in
  (bool_decide (97 <= n) && bool_decide (n <= 122)) || (bool_decide (65 <= n) && bool_decide (n <= 90)) || is_digit c ||
  bool_decide (c = chr 95 \/ c = chr 45 \/ c = chr 46).
Definition normalise_label (raw : string) : string := str_filter is_label_char (to_lower (trim raw)).

(** The register, with the settings of each label, and the torrents, with the
    label of each. *)
Record state := mk { labels : gmap string Json.dict; torrents : gmap string string }.

(** What a call is answered: a value, or an error. *)
Inductive reply := Value (v : Json.json) | Error.

Section register.

(** [Options::default] of label.rs *)
Context (default_options : Json.dict).

(** [Settings::add] and [label.add] *)
Definition add_label (l : string) (s : state) : state * bool :=
  match labels s !! l with
  | Some _ => (s, false)
  | None => (mk (<[l := default_options]> (labels s)) (torrents s), true)
  end.
Definition add (raw : string) (s : state) : state * reply :=
  let l := normalise_label raw in
  if decide (l = "") then (s, Error)
  else let '(s, new) := add_label l s in (s, Value (jbool new)).

(** [clear_label] and [label.remove] *)
Definition clear_label (l : string) (s : state) : state :=
  mk (labels s) ((fun k => if decide (k = l) then "" else k) <$> torrents s).
Definition remove (raw : string) (s : state) : state * reply :=
  let l := normalise_label raw in
  match labels s !! l with
  | Some _ => (clear_label l (mk (delete l (labels s)) (torrents s)), Value (jbool true))
  | None => (s, Value (jbool false))
  end.

(** [set_torrent_options] of a label: the register is not looked at. *)
Definition set_option (raw : string) (ids : list string) (s : state) : state * reply :=
  let l := normalise_label raw in
  (mk (labels s) (foldl (fun ts id => match ts !! id with Some _ => <[id := l]> ts | None => ts end) (torrents s) ids),
   Value Json.undef).

(** [label.set_torrent] by [assign_label], which makes the label where there is
    none. *)
Definition set_torrent (id raw : string) (s : state) : state * reply :=
  let l := normalise_label raw in
  let s := if decide (l = "") then s else (add_label l s).1 in
  match torrents s !! id with
  | Some _ => (mk (labels s) (<[id := l]> (torrents s)), Value Json.undef)
  | None => (s, Error)
  end.

(** [get_torrents_status] of the torrents in a label *)
Definition in_label (l : string) (s : state) : list string :=
  (map_to_list (filter (fun kv => kv.2 = l) (torrents s))).*1.

End register.
End Register.

(** ** Normal labels *)

Lemma str_all_impl (p q : Ascii.ascii -> bool) s :
  (forall c, p c = true -> q c = true) -> str_all p s = true -> str_all q s = true.
Proof.
  intros H. induction s as [|c s IH]; [done|]. cbn [str_all]. intros [Hc Hs]%andb_true_iff. by rewrite (H c Hc), IH.
Qed.

Lemma no_space_trim_left s : str_all (fun c => negb (is_space c)) s = true -> trim_left s = s.
Proof. destruct s as [|c s]; [done|]. cbn. by destruct (is_space c). Qed.

Lemma no_space_trim s : str_all (fun c => negb (is_space c)) s = true -> trim s = s.
Proof.
  intros H. unfold trim. rewrite (no_space_trim_left s H), no_space_trim_left, str_rev_involutive; [done|].
  by rewrite str_all_rev.
Qed.

Lemma str_map_id f s : str_all (fun c => bool_decide (f c = c)) s = true -> str_map f s = s.
Proof.
  induction s as [|c s IH]; [done|]. cbn [str_all str_map]. intros [Hc%bool_decide_eq_true Hs]%andb_true_iff.
  by rewrite Hc, IH.
Qed.

Lemma str_filter_sub p q s : str_all q s = true -> str_all q (str_filter p s) = true.
Proof.
  induction s as [|c s IH]; [done|]. cbn [str_all str_filter]. intros [Hc Hs]%andb_true_iff.
  destruct (p c); cbn [str_all]; [rewrite Hc|]; by rewrite IH.
Qed.

(** A label that is normal is read as itself. *)
Definition normal (l : string) : Prop :=
  str_all Register.is_label_char l = true /\ str_all (fun c => bool_decide (lower_char c = c)) l = true.

Lemma label_char_no_space c : Register.is_label_char c = true -> negb (is_space c) = true.
Proof.
  assert (forall c, negb (Register.is_label_char c) || negb (is_space c) = true) as H.
  { apply all_chars_spec. by vm_compute. }
  intros Hc. specialize (H c). rewrite Hc in H. exact H.
Qed.

Lemma normal_normalise raw : normal (Register.normalise_label raw).
Proof.
  split; [apply str_filter_all|]. apply str_filter_sub, str_map_all. intros c. apply bool_decide_eq_true.
  apply lower_char_idemp.
Qed.

Lemma normalise_normal l : normal l -> Register.normalise_label l = l.
Proof.
  intros [Hc Hl]. unfold Register.normalise_label, to_lower.
  rewrite no_space_trim, str_map_id, str_filter_id; [done..|].
  eapply str_all_impl; [apply label_char_no_space|done].
Qed.

Lemma normalise_idemp raw : Register.normalise_label (Register.normalise_label raw) = Register.normalise_label raw.
Proof. apply normalise_normal, normal_normalise. Qed.

(** ** The register and the torrents *)

(** The labels that exist are normal and not empty. *)
Definition register_ok (r : Register.state) : Prop := forall l, is_Some (Register.labels r !! l) -> normal l /\ l <> "".

Section register.
Context (dft : Json.dict).
Implicit Types (r : Register.state) (l raw : string).

Lemma add_labels raw r l :
  is_Some (Register.labels (Register.add dft raw r).1 !! l) <->
  is_Some (Register.labels r !! l) \/ (l = Register.normalise_label raw /\ l <> "").
Proof.
  unfold Register.add, Register.add_label. case_decide as He; cbn.
  - rewrite He. naive_solver.
  - destruct (Register.labels r !! _) eqn:E; cbn.
    + split; [by left|]. intros [H|[-> _]]; [done|]. by rewrite E.
    + rewrite lookup_insert_is_Some. destruct (decide (Register.normalise_label raw = l)); naive_solver.
Qed.

Lemma add_torrents raw r : Register.torrents (Register.add dft raw r).1 = Register.torrents r.
Proof. unfold Register.add, Register.add_label. case_decide; [done|]. by destruct (_ !! _). Qed.

Lemma register_add_ok raw r : register_ok r -> register_ok (Register.add dft raw r).1.
Proof. intros H l [Hl|[-> He]]%add_labels; [by apply H|]. split; [apply normal_normalise|done]. Qed.

Lemma set_option_torrents raw ids r id :
  Register.torrents (Register.set_option raw ids r).1 !! id =
  (fun l => if decide (id ∈ ids) then Register.normalise_label raw else l) <$> Register.torrents r !! id.
Proof.
  unfold Register.set_option. cbn. generalize (Register.torrents r) as ts.
  induction ids as [|i ids IH]; intros ts; cbn [foldl].
  - destruct (ts !! id); [|done]. cbn. by rewrite decide_False by apply not_elem_of_nil.
  - rewrite IH. destruct (ts !! i) as [l|] eqn:E.
    + destruct (decide (i = id)) as [->|Hn].
      * rewrite lookup_insert_eq, E. cbn. rewrite (decide_True (P := id ∈ id :: ids)) by apply list_elem_of_here.
        by case_decide.
      * rewrite lookup_insert_ne by done. destruct (ts !! id); [|done]. cbn. f_equal.
        apply decide_ext. rewrite elem_of_cons. naive_solver.
    + destruct (ts !! id) eqn:E'; [|done]. cbn. f_equal. apply decide_ext. rewrite elem_of_cons.
      split; [by right|]. intros [->|H]; [congruence|done].
Qed.

Lemma remove_labels raw r : register_ok r ->
  Register.labels (Register.remove raw r).1 = delete (Register.normalise_label raw) (Register.labels r).
Proof.
  intros _. unfold Register.remove. destruct (_ !! _) eqn:E; [done|]. cbn. by rewrite delete_id.
Qed.

Lemma remove_torrents raw r id : is_Some (Register.labels r !! Register.normalise_label raw) ->
  Register.torrents (Register.remove raw r).1 !! id =
  (fun l => if decide (l = Register.normalise_label raw) then "" else l) <$> Register.torrents r !! id.
Proof.
  intros [o E]. unfold Register.remove. rewrite E. cbn. apply lookup_fmap.
Qed.

Lemma register_remove_ok raw r : register_ok r -> register_ok (Register.remove raw r).1.
Proof.
  intros H l. rewrite remove_labels by done. rewrite lookup_delete_is_Some. intros [_ Hl]. by apply H.
Qed.

Lemma in_label_elem l r id : id ∈ Register.in_label l r <-> Register.torrents r !! id = Some l.
Proof.
  unfold Register.in_label. rewrite list_elem_of_fmap. split.
  - intros ([i k] & -> & [Hk Hl]%elem_of_map_to_list%map_lookup_filter_Some). by cbn in *; subst.
  - intros H. exists (id, l). split; [done|]. by apply elem_of_map_to_list, map_lookup_filter_Some.
Qed.

End register.
