(* ===== verification/OptionsManager.v ===== *)
(** * Deluge.OptionsManager

    The store behind every preferences page: the options as the server gave
    them, the ones edited since, the form fields bound to each, and the field
    that has the focus.  What an operation does outside the manager is the
    list of effects it answers with: the values it writes into bound fields,
    and the ['changed'] events other listeners see after them. *)

From stdpp Require Import base list strings gmap.
From Stdlib Require Import Lia ZArith.
From S2P Require Import Prelude JsNum JsString JsValue ExtCore.

(** A form field, by identity. *)
Definition field := positive.

(** What the first argument of [set] and [update] may be. *)
Inductive optarg :=
  | OUndef
  | OKey (k : string)
  | OObj (o : obj val).

Inductive effect :=
  | SetValue (f : field) (v : val)
  | FireChanged (option : string) (value oldValue : val).

Notation undef := (VPrim PUndef).

Module OM.

Record state := mk {
  options : obj val;
  changed : obj val;
  binds : obj (list field);
  doption : gmap field string;
  focused : option field
}.

Definition with_options (st : state) o := mk o (changed st) (binds st) (doption st) (focused st).
Definition with_changed (st : state) c := mk (options st) c (binds st) (doption st) (focused st).
Definition with_focused (st : state) f := mk (options st) (changed st) (binds st) (doption st) f.

(** One result after another: the effects in order. *)
Definition andThen (r : state * list effect) (f : state -> state * list effect) :=
  let '(st, es) := r in let '(st', es') := f st in (st', es ++ es').

(** [constructor], given [config.options] *)
Definition create (config : option (obj val)) : state :=
  mk (default [] config) [] [] ∅ None.

(** [addOptions] *)
Definition addOptions (st : state) (o : obj val) : state :=
  with_options st (Ext.applyIf (options st) o).

(** [bind]: the field joins those of the option, and remembers which it is. *)
Definition bind (st : state) (option : string) (f : field) : state :=
  mk (options st) (changed st)
     (oset option (default [] (oget option (binds st)) ++ [f]) (binds st))
     (<[f := option]> (doption st)) (focused st).

(** [reset] *)
Definition reset (st : state) : state := with_changed st [].

(** [commit] *)
Definition commit (st : state) : state :=
  reset (with_options st (Ext.apply (options st) (changed st))).

Definition bool_words (s : string) : bool :=
  let s := to_lower s in bool_decide (s = "true" \/ s = "1" \/ s = "on").

(** [convertValueType] *)
Definition convertValueType (h : store) (oldValue value : val) : val :=
  if decide (Ext.type oldValue = Ext.type value) then value
  else match Ext.type oldValue with
       | Some t =>
           if decide (t = "string") then VPrim (PStr (val_str h value))
           else if decide (t = "number") then VPrim (PNum (to_number (to_prim h value)))
           else if decide (t = "boolean") then
             match value with
             | VPrim (PStr s) => VPrim (PBool (bool_words s))
             | _ => VPrim (PBool (val_truthy value))
             end
           else value
       | None => value
       end.

(** [isDirty] *)
Definition isDirty (h : store) (st : state) (option : string) : bool :=
  negb (Ext.isEmpty h (vget option (changed st)) false).

(** [get] of one option *)
Definition get (h : store) (st : state) (option : string) : val :=
  if isDirty h st option then vget option (changed st) else vget option (options st).

(** [has]: the option's value stands for the answer. *)
Definition has (st : state) (option : string) : val := vget option (options st).

(** [get] of none or several options *)
Definition get_many (h : store) (st : state) (opts : list string) : obj val :=
  Ext.each opts (fun o option _ =>
    ((if val_truthy (has st option) then oset option (get h st option) o else o), true)) [].

Definition getDefault (st : state) (option : string) : val := vget option (options st).
Definition getDirty (st : state) : obj val := changed st.

(** [onChange]: every field of the option but the one being typed in. *)
Definition onChange (st : state) (option : string) (newValue : val) : list effect :=
  match default [] (oget option (binds st)) with
  | [] => []
  | fs => Ext.each fs (fun es b _ =>
            ((if decide (Some b = focused st) then es else es ++ [SetValue b newValue]), true)) []
  end.

(** [fireEvent('changed', ...)]: the manager's own handler, then the others'. *)
Definition fireChanged (st : state) (option : string) (value oldValue : val) : list effect :=
  onChange st option value ++ [FireChanged option value oldValue].

(** [set] *)
Definition set (st : state) (option : optarg) (value : val) : state * list effect :=
  match option with
  | OUndef => (st, [])
  | OObj o =>
      let st' := with_options st (Ext.apply (options st) o) in
      (st', flat_map (fun k => onChange st' k (vget k o)) (okeys o))
  | OKey k =>
      let st' := with_options st (oset k value (options st)) in
      (st', onChange st' k value)
  end.

(** [update] of a key to a value that is defined *)
Definition update1 (h : store) (st : state) (option : string) (value : val) : state * list effect :=
  let defaultValue := getDefault st option in
  let value := convertValueType h defaultValue value in
  let oldValue := get h st option in
  if val_eq h oldValue value then (st, [])
  else if val_eq h defaultValue value then
    let st' := if isDirty h st option then with_changed st (odel option (changed st)) else st in
    (st', fireChanged st' option value oldValue)
  else
    let st' := with_changed st (oset option value (changed st)) in
    (st', fireChanged st' option value oldValue).

(** [for (key in option)] of a string visits its characters by position. *)
Fixpoint update_chars (h : store) (st : state) (i : Z) (s : string) : state * list effect :=
  match s with
  | EmptyString => (st, [])
  | String.String c s' =>
      andThen (update1 h st (nat_str i) (VPrim (PStr (String.String c ""))))
              (fun st' => update_chars h st' (i + 1) s')
  end.

Definition update_key (h : store) (st : state) (k : string) (value : val) : state * list effect :=
  if decide (value = undef) then update_chars h st 0 k else update1 h st k value.

Fixpoint update_all (h : store) (st : state) (ks : list string) (o : obj val) : state * list effect :=
  match ks with
  | [] => (st, [])
  | k :: ks' => andThen (update_key h st k (vget k o)) (fun st' => update_all h st' ks' o)
  end.

(** [update] *)
Definition update (h : store) (st : state) (option : optarg) (value : val) : state * list effect :=
  match option with
  | OUndef => (st, [])
  | OKey k => update_key h st k value
  | OObj o => if decide (value = undef) then update_all h st (okeys o) o
              else update1 h st "[object Object]" value
  end.

(** [onFieldBlur], [onFieldFocus], [onFieldChange] *)
Definition onFieldBlur (st : state) (f : field) : state :=
  if decide (focused st = Some f) then with_focused st None else st.
Definition onFieldFocus (st : state) (f : field) : state := with_focused st (Some f).
Definition onFieldChange (h : store) (st : state) (f : field) (value : val) : state * list effect :=
  match doption st !! f with
  | Some k => update h st (OKey k) value
  | None => update h st OUndef value
  end.

End OM.

(** ** What the manager promises *)

Section options.
Context (h : store).
Implicit Types (st : OM.state) (k : string) (v : val).

(** A value compares equal to itself, as every value but [NaN] does. *)
Definition self_eq (v : val) : Prop := val_eq h v v = true.

Lemma val_eq_refl v : (forall p, v = VPrim p -> is_nan_val p = false) -> self_eq v.
Proof.
  unfold self_eq. destruct v as [p|l|l]; simpl; intros H; [|by rewrite bool_decide_eq_true..].
  by apply loose_eq_refl, H.
Qed.

(** What an option reads after it was recorded as changed. *)
Lemma get_changed st k v :
  Ext.isEmpty h v false = false -> OM.get h (OM.with_changed st (oset k v (OM.changed st))) k = v.
Proof.
  intros He. unfold OM.get, OM.isDirty, vget. simpl. rewrite oget_oset_eq. simpl. by rewrite He.
Qed.

Lemma get_deleted st k :
  OM.get h (OM.with_changed st (odel k (OM.changed st))) k = OM.getDefault st k.
Proof. unfold OM.get, OM.isDirty, vget. simpl. by rewrite oget_odel_eq. Qed.

(** A deletion or an edit of one option leaves the others alone. *)
Lemma get_other st k j c :
  (forall i, i <> k -> oget i c = oget i (OM.changed st)) -> j <> k ->
  OM.get h (OM.with_changed st c) j = OM.get h st j.
Proof.
  intros Hc Hj. unfold OM.get, OM.isDirty, vget. simpl. by rewrite Hc.
Qed.

Lemma update1_options st k v : OM.options (OM.update1 h st k v).1 = OM.options st.
Proof. unfold OM.update1. repeat case_match; done. Qed.

Lemma getDefault_update1 st k v j :
  OM.getDefault (OM.update1 h st k v).1 j = OM.getDefault st j.
Proof. unfold OM.getDefault. by rewrite update1_options. Qed.

Lemma update1_get st k v :
  let cv := OM.convertValueType h (OM.getDefault st k) v in
  Ext.isEmpty h cv false = false -> self_eq cv ->
  val_eq h (OM.get h (OM.update1 h st k v).1 k) cv = true.
Proof.
  intros cv He Hs. unfold OM.update1. fold cv.
  destruct (val_eq h (OM.get h st k) cv) eqn:E1; [done|].
  destruct (val_eq h (OM.getDefault st k) cv) eqn:E2; simpl.
  - destruct (OM.isDirty h st k) eqn:E3; [by rewrite get_deleted|].
    unfold OM.get in E1. rewrite E3 in E1. unfold OM.getDefault in E2. congruence.
  - by rewrite get_changed.
Qed.

Lemma update1_other st k v j : j <> k -> OM.get h (OM.update1 h st k v).1 j = OM.get h st j.
Proof.
  intros Hj. unfold OM.update1.
  repeat case_match; try done; apply (get_other _ k); try done;
    intros i Hi; by rewrite ?oget_odel_ne, ?oget_oset_ne.
Qed.

(** The fields an edit of an option writes into. *)
Lemma onChange_spec st k v e :
  e ∈ OM.onChange st k v <->
  exists f, e = SetValue f v /\ f ∈ default [] (oget k (OM.binds st)) /\ Some f <> OM.focused st.
Proof.
  unfold OM.onChange.
  assert (H : forall fs es, e ∈ foldl (fun es b => if decide (Some b = OM.focused st) then es
                                                else es ++ [SetValue b v]) es fs
            <-> e ∈ es \/ exists f, e = SetValue f v /\ f ∈ fs /\ Some f <> OM.focused st).
  { induction fs as [|b fs IH]; intros es; cbn [foldl]; [set_solver|].
    rewrite IH. case_decide; set_solver. }
  destruct (default [] (oget k (OM.binds st))) as [|f fs] eqn:E; [set_solver|].
  rewrite each_fold, H. set_solver.
Qed.
End options.

(** Every value an option is recorded as changed to differs from the one it
    has without the change. *)
Definition clean (h : store) (st : OM.state) : Prop :=
  forall k v, oget k (OM.changed st) = Some v -> val_eq h (OM.getDefault st k) v = false.

Section invariant.
Context (h : store).

Lemma update1_clean st k v : clean h st -> clean h (OM.update1 h st k v).1.
Proof.
  intros Hc j w. rewrite getDefault_update1. unfold OM.update1.
  destruct (val_eq h (OM.get h st k) _); [apply Hc|].
  destruct (val_eq h (OM.getDefault st k) _) eqn:E; simpl.
  - case_match; simpl; [|apply Hc]. rewrite oget_odel. case_decide; [done|]. apply Hc.
  - rewrite oget_oset. case_decide; subst; [by intros [= <-]|apply Hc].
Qed.

(** Anything [update1] preserves, [update] preserves, whatever it is given. *)
Lemma update_ind (P : OM.state -> Prop) :
  (forall st k v, P st -> P (OM.update1 h st k v).1) ->
  forall st o v, P st -> P (OM.update h st o v).1.
Proof.
  intros H1.
  assert (Hc : forall s i st, P st -> P (OM.update_chars h st i s).1).
  { induction s as [|c s IH]; intros i st Hst; simpl; [done|].
    unfold OM.andThen. pose proof (H1 st (nat_str i) (VPrim (PStr (String.String c ""))) Hst) as Hs.
    destruct (OM.update1 h st _ _) as [st' es]; simpl in *.
    pose proof (IH (i + 1)%Z st' Hs) as Hr. by destruct (OM.update_chars h st' _ s). }
  assert (Hk : forall st k v, P st -> P (OM.update_key h st k v).1).
  { intros st k v Hst. unfold OM.update_key. case_decide; auto. }
  intros st o v Hst. destruct o as [|k|ob]; simpl; auto. case_decide; auto.
  generalize (okeys ob). intros ks. revert st Hst.
  induction ks as [|k ks IH]; intros st Hst; simpl; [done|].
  unfold OM.andThen. pose proof (Hk st k (vget k ob) Hst) as Hs.
  destruct (OM.update_key h st k _) as [st' es]; simpl in *.
  pose proof (IH st' Hs) as Hr. by destruct (OM.update_all h st' ks ob).
Qed.
End invariant.

(** The states a manager with its options reaches by edits of its fields,
    resets and commits. *)
Inductive om_edit (h : store) : OM.state -> OM.state -> Prop :=
  | edit_update st o v : om_edit h st (OM.update h st o v).1
  | edit_field st f v : om_edit h st (OM.onFieldChange h st f v).1
  | edit_focus st f : om_edit h st (OM.onFieldFocus st f)
  | edit_blur st f : om_edit h st (OM.onFieldBlur st f)
  | edit_bind st k f : om_edit h st (OM.bind st k f)
  | edit_reset st : om_edit h st (OM.reset st)
  | edit_commit st : om_edit h st (OM.commit st).

Section properties.
Context (h : store).

(** Claim C5.  After an option is edited, reading it answers the edited
    value, converted to the type the option had: whatever the state was and
    whichever branch the edit took, provided the value is not one [isEmpty]
    calls empty and is not [NaN]; and no other option reads differently. *)
Theorem update_then_get st k v :
  v <> undef ->
  let cv := OM.convertValueType h (OM.getDefault st k) v in
  Ext.isEmpty h cv false = false -> self_eq h cv ->
  let st' := (OM.update h st (OKey k) v).1 in
  val_eq h (OM.get h st' k) cv = true /\ (forall j, j <> k -> OM.get h st' j = OM.get h st j).
Proof.
  intros Hv cv He Hs st'. unfold st', OM.update, OM.update_key. rewrite decide_False by done.
  split; [by apply update1_get|]. intros j Hj. by apply update1_other.
Qed.

(** Repeating an edit changes nothing and tells nobody, which is
    what stops a field that reports its own change from looping. *)
Theorem update_again st k v :
  v <> undef ->
  let cv := OM.convertValueType h (OM.getDefault st k) v in
  Ext.isEmpty h cv false = false -> self_eq h cv ->
  let st' := (OM.update h st (OKey k) v).1 in
  OM.update h st' (OKey k) v = (st', []).
Proof.
  intros Hv cv He Hs st'. unfold st', OM.update, OM.update_key. rewrite !decide_False by done.
  unfold OM.update1 at 1. rewrite getDefault_update1. fold cv. by rewrite update1_get.
Qed.

(** The type of an option never changes under an edit: a string, a
    number or a boolean stays one whatever a field hands over. *)
Theorem convert_keeps_type old v t :
  Ext.type old = Some t -> t = "string" \/ t = "number" \/ t = "boolean" ->
  Ext.type (OM.convertValueType h old v) = Some t.
Proof.
  intros Ht Hk. unfold OM.convertValueType. case_decide as Hd; [congruence|].
  rewrite Ht. destruct Hk as [-> | [-> | ->] ]; simpl; try done.
  by destruct v as [[]|?|?].
Qed.

(** The changed options all differ from what they would be unedited,
    in every state reached from a fresh manager. *)
Theorem edits_stay_clean cfg st : rtc (om_edit h) (OM.create cfg) st -> clean h st.
Proof.
  intros Hr. assert (H0 : clean h (OM.create cfg)) by (intros k v; done).
  induction Hr as [s0|s0 s1 s2 Hs _ IH]; [done|]. apply IH. clear IH.
  destruct Hs as [s0 o v|s0 f v|s0 f|s0 f|s0 k f|s0|s0]; try exact H0; try (intros k v; done).
  - apply update_ind; auto using update1_clean.
  - unfold OM.onFieldChange. case_match; apply update_ind; auto using update1_clean.
  - unfold OM.onFieldBlur. case_decide; exact H0.
Qed.

(** Committing makes every edited option's value its new default and
    leaves nothing edited. *)
Theorem commit_spec st k :
  obj_ok (OM.changed st) ->
  OM.getDirty (OM.commit st) = [] /\
  OM.get h (OM.commit st) k =
    match oget k (OM.changed st) with Some v => v | None => vget k (OM.options st) end.
Proof.
  intros Hok. split; [done|]. unfold OM.get, OM.isDirty, vget. simpl. rewrite apply_get by done.
  by destruct (oget k (OM.changed st)).
Qed.

(** An edit is announced exactly when it changes what the option
    reads, and the values it writes go to the option's fields and no other,
    never to the one with the focus. *)
Theorem update_effects st k v :
  v <> undef ->
  let cv := OM.convertValueType h (OM.getDefault st k) v in
  let es := (OM.update h st (OKey k) v).2 in
  (val_eq h (OM.get h st k) cv = true -> es = []) /\
  (val_eq h (OM.get h st k) cv = false ->
   FireChanged k cv (OM.get h st k) ∈ es /\
   forall f w, SetValue f w ∈ es <->
     w = cv /\ f ∈ default [] (oget k (OM.binds st)) /\ Some f <> OM.focused st).
Proof.
  intros Hv cv es. unfold es, OM.update, OM.update_key. rewrite decide_False by done.
  unfold OM.update1. fold cv. split; intros E; rewrite E; [done|].
  assert (H : forall st', OM.binds st' = OM.binds st -> OM.focused st' = OM.focused st ->
    FireChanged k cv (OM.get h st k) ∈ OM.fireChanged st' k cv (OM.get h st k) /\
    forall f w, SetValue f w ∈ OM.fireChanged st' k cv (OM.get h st k) <->
     w = cv /\ f ∈ default [] (oget k (OM.binds st)) /\ Some f <> OM.focused st).
  { intros st' Hb Hf. unfold OM.fireChanged. split; [set_solver|].
    intros f w. rewrite elem_of_app, onChange_spec, Hb, Hf. set_solver. }
  destruct (val_eq h (OM.getDefault st k) cv); simpl; [destruct (OM.isDirty h st k)|]; by apply H.
Qed.

(** Giving the manager a value with [set] does not undo an edit: an
    option that is being edited still reads as edited afterwards, although
    its fields were written with the new value. *)
Theorem set_keeps_edit st k v :
  OM.isDirty h st k = true ->
  OM.get h (OM.set st (OKey k) v).1 k = vget k (OM.changed st).
Proof. intros Hd. unfold OM.get, OM.isDirty in *. simpl. by rewrite Hd. Qed.

(** Blanking a text option and then typing its value back leaves the
    blank among the changes to be sent, while the option reads, and its
    field shows, the value typed back: a blank is never seen as an edit. *)
Theorem blank_edit_sticks st k s :
  s <> "" -> vget k (OM.options st) = VPrim (PStr s) -> oget k (OM.changed st) = None ->
  let st1 := (OM.update h st (OKey k) (VPrim (PStr ""))).1 in
  let st2 := (OM.update h st1 (OKey k) (VPrim (PStr s))).1 in
  oget k (OM.getDirty st2) = Some (VPrim (PStr "")) /\ OM.get h st2 k = VPrim (PStr s).
Proof.
  intros Hs Ho Hc.
  assert (Hg : OM.get h st k = VPrim (PStr s)).
  { unfold OM.get, OM.isDirty, vget. rewrite Hc. exact Ho. }
  assert (H1 : OM.update h st (OKey k) (VPrim (PStr "")) =
    (OM.with_changed st (oset k (VPrim (PStr "")) (OM.changed st)),
     OM.fireChanged (OM.with_changed st (oset k (VPrim (PStr "")) (OM.changed st))) k
       (VPrim (PStr "")) (VPrim (PStr s)))).
  { simpl. unfold OM.update_key. rewrite decide_False by done. unfold OM.update1.
    rewrite Hg. unfold OM.getDefault, OM.convertValueType. rewrite Ho. simpl.
    rewrite bool_decide_eq_false_2 by done. done. }
  intros st1 st2. unfold st2, st1. rewrite H1. cbn [fst].
  set (sta := OM.with_changed _ _).
  assert (Ha : OM.get h sta k = VPrim (PStr s)).
  { unfold OM.get, OM.isDirty, vget, sta. simpl. by rewrite oget_oset_eq. }
  assert (H2 : OM.update h sta (OKey k) (VPrim (PStr s)) = (sta, [])).
  { simpl. unfold OM.update_key. rewrite decide_False by done. unfold OM.update1.
    rewrite Ha. unfold OM.getDefault, OM.convertValueType. simpl in *. rewrite Ho. simpl.
    by rewrite bool_decide_eq_true_2. }
  rewrite H2. split; [|done]. unfold OM.getDirty, sta. simpl. by rewrite oget_oset_eq.
Qed.
End properties.

(** ** The properties at concrete inputs *)

(** A manager with a number, a text and a flag, and a field bound to the
    number. *)
Definition sample : OM.state :=
  OM.bind (OM.create (Some [("max", VPrim (pint 5)); ("path", VPrim (PStr "/tmp"));
                            ("paused", VPrim (PBool false))])) "max" 1%positive.

Lemma update_then_get_witness :
  let st' := (OM.update ∅ sample (OKey "max") (VPrim (PStr "7"))).1 in
  val_eq ∅ (OM.get ∅ st' "max") (VPrim (pint 7)) = true /\
  (forall j, j <> "max" -> OM.get ∅ st' j = OM.get ∅ sample j).
Proof. apply (update_then_get ∅ sample "max" (VPrim (PStr "7"))); by vm_compute. Defined.

Lemma update_again_witness :
  let st' := (OM.update ∅ sample (OKey "max") (VPrim (PStr "7"))).1 in
  OM.update ∅ st' (OKey "max") (VPrim (PStr "7")) = (st', []).
Proof. apply (update_again ∅ sample "max" (VPrim (PStr "7"))); by vm_compute. Defined.

Lemma convert_keeps_type_witness :
  Ext.type (OM.convertValueType ∅ (VPrim (pint 5)) (VPrim (PStr "x"))) = Some "number".
Proof. apply (convert_keeps_type ∅ (VPrim (pint 5)) (VPrim (PStr "x"))); [done|by right; left]. Defined.

Lemma edits_stay_clean_witness :
  clean ∅ (OM.update ∅ (OM.create (Some [("max", VPrim (pint 5))])) (OKey "max") (VPrim (pint 7))).1.
Proof.
  apply (edits_stay_clean ∅ (Some [("max", VPrim (pint 5))])).
  eapply rtc_l; [apply edit_update|apply rtc_refl].
Defined.

Lemma commit_spec_witness :
  let st := (OM.update ∅ sample (OKey "max") (VPrim (pint 7))).1 in
  OM.getDirty (OM.commit st) = [] /\ OM.get ∅ (OM.commit st) "max" = VPrim (pint 7).
Proof.
  apply (commit_spec ∅ (OM.update ∅ sample (OKey "max") (VPrim (pint 7))).1 "max").
  apply (bool_decide_unpack (NoDup _)). by vm_compute.
Defined.

Lemma update_effects_witness :
  let es := (OM.update ∅ sample (OKey "max") (VPrim (pint 7))).2 in
  FireChanged "max" (VPrim (pint 7)) (VPrim (pint 5)) ∈ es /\
  SetValue 1%positive (VPrim (pint 7)) ∈ es.
Proof.
  pose proof (update_effects ∅ sample "max" (VPrim (pint 7)) ltac:(done)) as [_ H].
  specialize (H ltac:(by vm_compute)) as [H1 H2].
  split; [exact H1|]. apply H2. split; [by vm_compute|]. split; [by left|done].
Defined.

Lemma set_keeps_edit_witness :
  let st := (OM.update ∅ sample (OKey "max") (VPrim (pint 7))).1 in
  OM.get ∅ (OM.set st (OKey "max") (VPrim (pint 9))).1 "max" = VPrim (pint 7).
Proof.
  apply (set_keeps_edit ∅ (OM.update ∅ sample (OKey "max") (VPrim (pint 7))).1 "max" (VPrim (pint 9))).
  by vm_compute.
Defined.

Lemma blank_edit_sticks_witness :
  let st1 := (OM.update ∅ sample (OKey "path") (VPrim (PStr ""))).1 in
  let st2 := (OM.update ∅ st1 (OKey "path") (VPrim (PStr "/tmp"))).1 in
  oget "path" (OM.getDirty st2) = Some (VPrim (PStr "")) /\ OM.get ∅ st2 "path" = VPrim (PStr "/tmp").
Proof. by apply (blank_edit_sticks ∅ sample "path" "/tmp"). Defined.
