(* ===== verification/MultiOptionsManager.v ===== *)
(** * Deluge.MultiOptionsManager

    The options manager of a list of torrents: for the torrent selected, the
    options edited ([changed]), the ones it was given ([stored]), and behind
    both the options of the manager itself. *)

From stdpp Require Import base list strings gmap.
From Stdlib Require Import Lia ZArith.
From S2P Require Import Prelude JsNum JsString JsValue ExtCore OptionsManager.

Module MOM.

Record state := mk {
  options : obj val;
  changed : obj (obj val);
  stored : obj (obj val);
  binds : obj (list field);
  focused : option field;
  currentId : option string
}.

Definition with_changed (st : state) c :=
  mk (options st) c (stored st) (binds st) (focused st) (currentId st).
Definition with_stored (st : state) s :=
  mk (options st) (changed st) s (binds st) (focused st) (currentId st).
Definition with_id (st : state) i :=
  mk (options st) (changed st) (stored st) (binds st) (focused st) i.

(** The property [currentId] names: that of [null] is ["null"]. *)
Definition idkey (st : state) : string := default "null" (currentId st).

(** The same fields, to the inherited handlers. *)
Definition base (st : state) : OM.state := OM.mk (options st) [] (binds st) ∅ (focused st).

(** [constructor] *)
Definition create (config : option (obj val)) : state :=
  mk (default [] config) [] [] [] None None.

(** The edits and the stored options of the selected id, if it has any. *)
Definition changed_of (st : state) : option (obj val) := oget (idkey st) (changed st).
Definition stored_of (st : state) : option (obj val) := oget (idkey st) (stored st).
Definition lookup (o : option (obj val)) (k : string) : val := vget k (default [] o).

(** [isDirty] and [has], as conditions *)
Definition isDirty (h : store) (st : state) (option : string) : bool :=
  match changed_of st with
  | Some c => negb (Ext.isEmpty h (vget option c) false)
  | None => false
  end.
Definition has (h : store) (st : state) (option : string) : bool :=
  match stored_of st with
  | Some s => negb (Ext.isEmpty h (vget option s) false)
  | None => false
  end.

(** [getDefault] *)
Definition getDefault (h : store) (st : state) (option : string) : val :=
  if has h st option then lookup (stored_of st) option else vget option (options st).

(** [get] of one option, of every option, and of several *)
Definition get (h : store) (st : state) (option : string) : val :=
  if isDirty h st option then lookup (changed_of st) option else getDefault h st option.
Definition get_all (h : store) (st : state) : obj val :=
  foldl (fun o k => oset k (get h st k) o) [] (okeys (options st)).
Definition get_many (h : store) (st : state) (opts : list string) : obj val :=
  Ext.each opts (fun o k _ => (oset k (get h st k) o, true)) [].

(** [getDirty] *)
Definition getDirty (st : state) : obj val := default [] (changed_of st).

(** [changeId]: the fields of every option are written with its value under
    the new id, the focused one too. *)
Definition changeId (h : store) (st : state) (id : option string) (dontUpdateBinds : bool)
    : state * list effect * option string :=
  let oldId := currentId st in
  let st' := with_id st id in
  let es :=
    if dontUpdateBinds then []
    else flat_map (fun k => match oget k (binds st') with
                            | Some fs => map (fun f => SetValue f (get h st' k)) fs
                            | None => []
                            end) (okeys (options st')) in
  (st', es, oldId).

(** [reset]: of the selected id *)
Definition reset (st : state) : state :=
  let st1 := match changed_of st with
             | Some _ => with_changed st (odel (idkey st) (changed st))
             | None => st
             end in
  match stored_of st1 with
  | Some _ => with_stored st1 (odel (idkey st1) (stored st1))
  | None => st1
  end.

(** [commit]: the edits are copied over the stored options where the id has
    any, then the id is reset. *)
Definition commit (st : state) : state :=
  let st1 := match stored_of st with
             | Some s => with_stored st (oset (idkey st) (Ext.apply s (default [] (changed_of st))) (stored st))
             | None => st
             end in
  reset st1.

(** [resetAll] *)
Definition resetAll (h : store) (st : state) : state * list effect :=
  let st1 := with_stored (with_changed st []) [] in
  (changeId h st1 None false).1.

(** [setDefault] of a key to a value that is defined *)
Definition setDefault1 (h : store) (st : state) (option : string) (value : val) : state * list effect :=
  let oldValue := getDefault h st option in
  let value := OM.convertValueType h oldValue value in
  if val_eq h oldValue value then (st, [])
  else
    let st' := with_stored st (oset (idkey st) (oset option value (default [] (stored_of st))) (stored st)) in
    (st', if isDirty h st' option then [] else OM.fireChanged (base st') option value oldValue).

(** [update] of a key to a value that is defined *)
Definition update1 (h : store) (st : state) (option : string) (value : val) : state * list effect :=
  let st := match changed_of st with
            | Some _ => st
            | None => with_changed st (oset (idkey st) [] (changed st))
            end in
  let defaultValue := getDefault h st option in
  let value := OM.convertValueType h defaultValue value in
  let oldValue := get h st option in
  if val_eq h oldValue value then (st, [])
  else if val_eq h defaultValue value then
    let st' := if isDirty h st option
               then with_changed st (oset (idkey st) (odel option (default [] (changed_of st))) (changed st))
               else st in
    (st', OM.fireChanged (base st') option value oldValue)
  else
    let st' := with_changed st (oset (idkey st) (oset option value (default [] (changed_of st))) (changed st)) in
    (st', OM.fireChanged (base st') option value oldValue).

Definition andThen (r : state * list effect) (f : state -> state * list effect) :=
  let '(st, es) := r in let '(st', es') := f st in (st', es ++ es').

Section dictionaries.
(** [setDefault] and [update] take one option, or an object of them. *)
Variable one : state -> string -> val -> state * list effect.

Fixpoint over_chars (st : state) (i : Z) (s : string) : state * list effect :=
  match s with
  | EmptyString => (st, [])
  | String.String c s' =>
      andThen (one st (nat_str i) (VPrim (PStr (String.String c ""))))
              (fun st' => over_chars st' (i + 1) s')
  end.
Definition over_key (st : state) (k : string) (v : val) : state * list effect :=
  if decide (v = undef) then over_chars st 0 k else one st k v.
Fixpoint over_all (st : state) (ks : list string) (o : obj val) : state * list effect :=
  match ks with
  | [] => (st, [])
  | k :: ks' => andThen (over_key st k (vget k o)) (fun st' => over_all st' ks' o)
  end.
Definition over_arg (st : state) (option : optarg) (v : val) : state * list effect :=
  match option with
  | OUndef => (st, [])
  | OKey k => over_key st k v
  | OObj o => if decide (v = undef) then over_all st (okeys o) o else one st "[object Object]" v
  end.
End dictionaries.

(** [setDefault] and [update] *)
Definition setDefault (h : store) : state -> optarg -> val -> state * list effect := over_arg (setDefault1 h).
Definition update (h : store) : state -> optarg -> val -> state * list effect := over_arg (update1 h).

End MOM.

(** ** Lemmas *)

Section lemmas.
Context (h : store).
Implicit Types (st : MOM.state) (k : string) (v : val).

(** What [one] preserves on a single option, the whole argument does. *)
Lemma over_arg_ind (one : MOM.state -> string -> val -> MOM.state * list effect)
    (P : MOM.state -> Prop) :
  (forall st k v, P st -> P (one st k v).1) ->
  forall st o v, P st -> P (MOM.over_arg one st o v).1.
Proof.
  intros H1.
  assert (Ht : forall r f, P r.1 -> (forall st, P st -> P (f st).1) -> P (MOM.andThen r f).1).
  { intros [st es] f Hr Hf. simpl. pose proof (Hf st Hr). by destruct (f st). }
  assert (Hc : forall s i st, P st -> P (MOM.over_chars one st i s).1).
  { induction s as [|c s IH]; intros i st Hst; simpl; auto. }
  assert (Hk : forall st k v, P st -> P (MOM.over_key one st k v).1).
  { intros st k v Hst. unfold MOM.over_key. case_decide; auto. }
  intros st o v Hst. destruct o as [|k|ob]; simpl; auto. case_decide; auto.
  generalize (okeys ob). intros ks. revert st Hst.
  induction ks as [|k ks IH]; intros st Hst; simpl; auto.
Qed.

(** The state [update1] works on: one with an object for the selected id. *)
Definition opened (st : MOM.state) : MOM.state :=
  match MOM.changed_of st with
  | Some _ => st
  | None => MOM.with_changed st (oset (MOM.idkey st) [] (MOM.changed st))
  end.

Lemma opened_get st k : MOM.get h (opened st) k = MOM.get h st k.
Proof.
  unfold opened. destruct (MOM.changed_of st) as [c|] eqn:E; [done|].
  unfold MOM.get, MOM.isDirty, MOM.changed_of, MOM.idkey in *. simpl.
  rewrite oget_oset_eq, E. done.
Qed.

Lemma opened_default st k : MOM.getDefault h (opened st) k = MOM.getDefault h st k.
Proof. unfold opened. by destruct (MOM.changed_of st). Qed.

(** Reading after the selected id's edits were replaced. *)
Lemma get_with_edits st c k :
  MOM.get h (MOM.with_changed st (oset (MOM.idkey st) c (MOM.changed st))) k =
  if Ext.isEmpty h (vget k c) false then MOM.getDefault h st k else vget k c.
Proof.
  unfold MOM.get, MOM.isDirty, MOM.lookup, MOM.changed_of, MOM.idkey. simpl.
  rewrite oget_oset_eq. by destruct (Ext.isEmpty h (vget k c) false).
Qed.

Lemma mom_get_not_dirty st k : MOM.isDirty h st k = false -> MOM.get h st k = MOM.getDefault h st k.
Proof. unfold MOM.get. by intros ->. Qed.

Lemma mom_update1_get st k v :
  let cv := OM.convertValueType h (MOM.getDefault h st k) v in
  Ext.isEmpty h cv false = false -> self_eq h cv ->
  val_eq h (MOM.get h (MOM.update1 h st k v).1 k) cv = true.
Proof.
  intros cv He Hs. unfold MOM.update1. fold (opened st).
  rewrite opened_default. fold cv.
  destruct (val_eq h (MOM.get h (opened st) k) cv) eqn:E1; [done|].
  destruct (val_eq h (MOM.getDefault h st k) cv) eqn:E2; cbn [fst].
  - destruct (MOM.isDirty h (opened st) k) eqn:E3.
    + rewrite get_with_edits. unfold vget at 1. rewrite oget_odel_eq. simpl.
      by rewrite opened_default.
    + rewrite mom_get_not_dirty, opened_default in E1 by done. congruence.
  - rewrite get_with_edits. unfold vget. rewrite oget_oset_eq. simpl. by rewrite He.
Qed.

(** Everything the manager keeps for ids other than the selected one. *)
Definition same_elsewhere (st st' : MOM.state) : Prop :=
  MOM.options st' = MOM.options st /\ MOM.currentId st' = MOM.currentId st /\
  forall i, i <> MOM.idkey st ->
    oget i (MOM.changed st') = oget i (MOM.changed st) /\
    oget i (MOM.stored st') = oget i (MOM.stored st).

Lemma same_elsewhere_refl st : same_elsewhere st st.
Proof. by unfold same_elsewhere. Qed.

Lemma same_elsewhere_trans st1 st2 st3 :
  same_elsewhere st1 st2 -> same_elsewhere st2 st3 -> same_elsewhere st1 st3.
Proof.
  unfold same_elsewhere, MOM.idkey. intros (Ho & Hi & H) (Ho' & Hi' & H').
  rewrite Hi in H'. split; [congruence|]. split; [congruence|].
  intros i Hne. destruct (H i Hne), (H' i Hne). split; congruence.
Qed.

Lemma with_changed_elsewhere st c :
  same_elsewhere st (MOM.with_changed st (oset (MOM.idkey st) c (MOM.changed st))).
Proof.
  unfold same_elsewhere. simpl. split; [done|]. split; [done|].
  intros i Hi. by rewrite oget_oset_ne.
Qed.

Lemma with_stored_elsewhere st c :
  same_elsewhere st (MOM.with_stored st (oset (MOM.idkey st) c (MOM.stored st))).
Proof.
  unfold same_elsewhere. simpl. split; [done|]. split; [done|].
  intros i Hi. by rewrite oget_oset_ne.
Qed.

Lemma opened_elsewhere st : same_elsewhere st (opened st).
Proof.
  unfold opened. case_match; first [apply same_elsewhere_refl | apply with_changed_elsewhere].
Qed.

Lemma update1_elsewhere st k v : same_elsewhere st (MOM.update1 h st k v).1.
Proof.
  unfold MOM.update1. fold (opened st).
  eapply same_elsewhere_trans; [apply opened_elsewhere|].
  repeat case_match; first [apply same_elsewhere_refl | apply with_changed_elsewhere].
Qed.

Lemma setDefault1_elsewhere st k v : same_elsewhere st (MOM.setDefault1 h st k v).1.
Proof.
  unfold MOM.setDefault1. case_match; first [apply same_elsewhere_refl | apply with_stored_elsewhere].
Qed.

Lemma update_elsewhere st o v : same_elsewhere st (MOM.update h st o v).1.
Proof.
  apply (over_arg_ind (MOM.update1 h) (same_elsewhere st)); [|apply same_elsewhere_refl].
  intros s j w Hs. eapply same_elsewhere_trans; [exact Hs|apply update1_elsewhere].
Qed.

Lemma setDefault_elsewhere st o v : same_elsewhere st (MOM.setDefault h st o v).1.
Proof.
  apply (over_arg_ind (MOM.setDefault1 h) (same_elsewhere st)); [|apply same_elsewhere_refl].
  intros s j w Hs. eapply same_elsewhere_trans; [exact Hs|apply setDefault1_elsewhere].
Qed.

(** An id reads the same wherever what is kept for it is the same. *)
Lemma same_elsewhere_get st st' id k :
  same_elsewhere st st' -> default "null" id <> MOM.idkey st ->
  MOM.get h (MOM.with_id st' id) k = MOM.get h (MOM.with_id st id) k.
Proof.
  intros (Ho & _ & H) Hne. destruct (H _ Hne) as [Hc Hs].
  unfold MOM.get, MOM.isDirty, MOM.getDefault, MOM.has, MOM.changed_of, MOM.stored_of,
    MOM.idkey, MOM.with_id. simpl. by rewrite Hc, Hs, Ho.
Qed.

Lemma reset_get st k : MOM.get h (MOM.reset st) k = vget k (MOM.options st).
Proof.
  unfold MOM.reset.
  set (st1 := match MOM.changed_of st with Some _ => _ | None => st end).
  assert (H1 : MOM.changed_of st1 = None /\ MOM.options st1 = MOM.options st /\ MOM.idkey st1 = MOM.idkey st).
  { unfold st1. destruct (MOM.changed_of st) eqn:E; [|done].
    unfold MOM.changed_of, MOM.idkey. simpl. by rewrite oget_odel_eq. }
  destruct H1 as (Hc & Ho & Hi).
  assert (Hg : forall st2, MOM.changed_of st2 = None -> MOM.stored_of st2 = None ->
    MOM.get h st2 k = vget k (MOM.options st2)).
  { intros st2 Hc2 Hs2. unfold MOM.get, MOM.isDirty, MOM.getDefault, MOM.has. by rewrite Hc2, Hs2. }
  destruct (MOM.stored_of st1) eqn:E.
  - rewrite Hg; [by rewrite <- Ho|exact Hc|]. unfold MOM.stored_of, MOM.idkey. simpl. apply oget_odel_eq.
  - rewrite Hg; congruence.
Qed.

(** Every option at once reads as one at a time. *)
Lemma get_all_get st k :
  vget k (MOM.get_all h st) = if decide (k ∈ okeys (MOM.options st)) then MOM.get h st k else undef.
Proof.
  unfold MOM.get_all.
  assert (H : forall ks o, vget k (foldl (fun o k => oset k (MOM.get h st k) o) o ks) =
    if decide (k ∈ ks) then MOM.get h st k else vget k o).
  { induction ks as [|j ks IH]; intros o; cbn [foldl]; [by rewrite decide_False by set_solver|].
    rewrite IH. destruct (decide (k ∈ ks)); [by rewrite decide_True by set_solver|].
    unfold vget. rewrite oget_oset. destruct (decide (k = j)) as [->|].
    - by rewrite decide_True by set_solver.
    - by rewrite decide_False by set_solver. }
  apply H.
Qed.

Lemma opened_rest st :
  MOM.options (opened st) = MOM.options st /\ MOM.stored (opened st) = MOM.stored st /\
  MOM.currentId (opened st) = MOM.currentId st /\
  forall i, default [] (oget i (MOM.changed (opened st))) = default [] (oget i (MOM.changed st)).
Proof.
  unfold opened. destruct (MOM.changed_of st) eqn:E; [done|]. repeat split. intros i. cbn.
  rewrite oget_oset. case_decide as Hi; [subst i|done]. unfold MOM.changed_of in E. by rewrite E.
Qed.

(** An edit only writes the edits of the selected id, and of those only the
    option's. *)
Lemma update1_rest st k v :
  MOM.options (MOM.update1 h st k v).1 = MOM.options st /\
  MOM.stored (MOM.update1 h st k v).1 = MOM.stored st /\
  MOM.currentId (MOM.update1 h st k v).1 = MOM.currentId st /\
  forall i j, j <> k ->
    vget j (default [] (oget i (MOM.changed (MOM.update1 h st k v).1))) =
    vget j (default [] (oget i (MOM.changed st))).
Proof.
  destruct (opened_rest st) as (O1 & O2 & O3 & O4).
  assert (Hs : forall c, (forall j, j <> k -> vget j c = vget j (default [] (MOM.changed_of (opened st)))) ->
    forall i j, j <> k -> vget j (default [] (oget i (oset (MOM.idkey (opened st)) c (MOM.changed (opened st))))) =
    vget j (default [] (oget i (MOM.changed st)))).
  { intros c Hc i j Hj. rewrite <- O4, oget_oset. case_decide as Hi; [subst i|done]. apply Hc, Hj. }
  unfold MOM.update1. fold (opened st).
  destruct (val_eq _ _ _); [|destruct (val_eq _ _ _); [destruct (MOM.isDirty _ _ _)|]]; cbn [fst];
    repeat split; try done; intros i j Hj; try (by rewrite O4); cbn [MOM.changed MOM.with_changed];
    apply Hs; try done; intros j' Hj'; unfold vget; by rewrite ?oget_odel_ne, ?oget_oset_ne by done.
Qed.

(** A default that is given is what the option falls back to; the others' are
    kept. *)
Lemma setDefault1_default st k v :
  let cv := OM.convertValueType h (MOM.getDefault h st k) v in
  Ext.isEmpty h cv false = false -> self_eq h cv ->
  val_eq h (MOM.getDefault h (MOM.setDefault1 h st k v).1 k) cv = true /\
  forall j, j <> k -> MOM.getDefault h (MOM.setDefault1 h st k v).1 j = MOM.getDefault h st j.
Proof.
  intros cv He Hs. unfold MOM.setDefault1. fold cv.
  destruct (val_eq h (MOM.getDefault h st k) cv) eqn:E; [done|]. cbn [fst].
  unfold MOM.getDefault, MOM.has, MOM.stored_of, MOM.idkey. cbn. rewrite oget_oset_eq. unfold MOM.lookup, vget. cbn.
  rewrite oget_oset_eq. cbn. rewrite He. split; [exact Hs|]. intros j Hj. rewrite oget_oset_ne by done.
  by destruct (oget _ (MOM.stored st)).
Qed.

Lemma setDefault1_other st k v j : j <> k -> MOM.getDefault h (MOM.setDefault1 h st k v).1 j = MOM.getDefault h st j.
Proof.
  intros Hj. unfold MOM.setDefault1. destruct (val_eq _ _ _); [done|]. cbn [fst].
  unfold MOM.getDefault, MOM.has, MOM.stored_of, MOM.idkey. cbn. rewrite oget_oset_eq. unfold MOM.lookup, vget. cbn.
  rewrite oget_oset_ne by done. by destruct (oget _ (MOM.stored st)).
Qed.

(** An object of defaults sets each of them. *)
Lemma setDefault_object st o k v :
  obj_ok o -> (forall j, j ∈ okeys o -> vget j o <> undef) -> oget k o = Some v ->
  let cv := OM.convertValueType h (MOM.getDefault h st k) v in
  Ext.isEmpty h cv false = false -> self_eq h cv ->
  val_eq h (MOM.getDefault h (MOM.setDefault h st (OObj o) undef).1 k) cv = true.
Proof.
  intros Hok Hd Hk cv He Hs. unfold MOM.setDefault. cbn [MOM.over_arg]. rewrite decide_True by done.
  assert (Hin : k ∈ okeys o) by (apply okeys_elem; eauto).
  pose proof (okeys_NoDup o Hok) as Hn. revert Hd Hin Hn. generalize (okeys o). intros ks.
  assert (Hfst : forall (r : MOM.state * list effect) f, (MOM.andThen r f).1 = (f r.1).1).
  { intros [s es] f. cbn. by destruct (f s). }
  assert (Hrest : forall ks s, (forall j, j ∈ ks -> vget j o <> undef) -> k ∉ ks ->
    MOM.getDefault h (MOM.over_all (MOM.setDefault1 h) s ks o).1 k = MOM.getDefault h s k).
  { clear ks. induction ks as [|j ks IH]; intros s Hd Hni; [done|]. cbn [MOM.over_all]. rewrite Hfst.
    unfold MOM.over_key. rewrite decide_False by (apply Hd; by left).
    rewrite IH by (set_solver). apply setDefault1_other. set_solver. }
  assert (Hgo : forall ks s, MOM.getDefault h s k = MOM.getDefault h st k -> (forall j, j ∈ ks -> vget j o <> undef) ->
    k ∈ ks -> NoDup ks -> val_eq h (MOM.getDefault h (MOM.over_all (MOM.setDefault1 h) s ks o).1 k) cv = true).
  { clear ks. induction ks as [|j ks IH]; intros s Hg Hd Hin Hn; [by apply elem_of_nil in Hin|].
    apply NoDup_cons in Hn as [Hj Hn]. cbn [MOM.over_all]. rewrite Hfst.
    unfold MOM.over_key. rewrite decide_False by (apply Hd; by left).
    destruct (decide (j = k)) as [->|Hjk].
    - rewrite Hrest by (set_solver). unfold vget. rewrite Hk. cbn [default].
      pose proof (setDefault1_default s k v) as H. rewrite Hg in H. by apply H.
    - apply IH; [by rewrite setDefault1_other|set_solver|set_solver|done]. }
  intros Hd Hin Hn. by apply Hgo.
Qed.

(** An array that is given back as it was read is no edit. *)
Lemma update_same st k l :
  MOM.get h st k = VArr l -> Ext.type (MOM.getDefault h st k) = Some "array" ->
  MOM.update h st (OKey k) (VArr l) = (opened st, []).
Proof.
  intros Hg Hd. unfold MOM.update, MOM.over_arg, MOM.over_key. rewrite decide_False by done.
  unfold MOM.update1. fold (opened st). rewrite opened_default. unfold OM.convertValueType.
  rewrite Hd, decide_True by done. rewrite opened_get, Hg. cbn. by rewrite bool_decide_true.
Qed.
End lemmas.

Section properties.
Context (h : store).

(** An edit of the selected torrent's option is what the option then
    reads for that torrent. *)
Theorem multi_update_then_get st k v :
  v <> undef ->
  let cv := OM.convertValueType h (MOM.getDefault h st k) v in
  Ext.isEmpty h cv false = false -> self_eq h cv ->
  val_eq h (MOM.get h (MOM.update h st (OKey k) v).1 k) cv = true.
Proof.
  intros Hv cv He Hs. unfold MOM.update, MOM.over_arg, MOM.over_key.
  rewrite decide_False by done. by apply mom_update1_get.
Qed.

(** Claim C6.  Edits and defaults given for one torrent never show on another:
    whatever is done under the selected id, any other id reads as before. *)
Theorem torrents_do_not_mix st o v o' v' id k :
  default "null" id <> MOM.idkey st ->
  MOM.get h (MOM.with_id (MOM.update h (MOM.setDefault h st o v).1 o' v').1 id) k =
  MOM.get h (MOM.with_id st id) k.
Proof.
  intros Hne. apply (same_elsewhere_get h); [|done].
  eapply same_elsewhere_trans; [apply setDefault_elsewhere|apply update_elsewhere].
Qed.

(** Looking at another torrent's options and coming back, as
    [OptionsPanel.getOptions] does, restores the manager exactly. *)
Theorem changeId_back st id :
  let '(st1, es1, oldId) := MOM.changeId h st id true in
  let '(st2, es2, oldId') := MOM.changeId h st1 oldId true in
  st2 = st /\ es1 = [] /\ es2 = [] /\ oldId' = id.
Proof. by destruct st. Qed.

(** Committing a torrent's edits throws them away with everything
    stored for it: every option then reads as the manager's own default. *)
Theorem multi_commit_forgets st k :
  MOM.get h (MOM.commit st) k = vget k (MOM.options st).
Proof. unfold MOM.commit. rewrite reset_get. by destruct (MOM.stored_of st). Qed.
End properties.

(** ** The properties at concrete inputs *)

(** A manager with one option, its torrent ["aa"] selected. *)
Definition sample_multi : MOM.state :=
  MOM.with_id (MOM.create (Some [("max", VPrim (pint 5))])) (Some "aa").

Lemma multi_update_then_get_witness :
  val_eq ∅ (MOM.get ∅ (MOM.update ∅ sample_multi (OKey "max") (VPrim (PStr "7"))).1 "max")
    (VPrim (pint 7)) = true.
Proof. apply (multi_update_then_get ∅ sample_multi "max" (VPrim (PStr "7"))); by vm_compute. Defined.

Lemma torrents_do_not_mix_witness :
  MOM.get ∅ (MOM.with_id (MOM.update ∅ (MOM.setDefault ∅ sample_multi (OKey "max") (VPrim (pint 6))).1
                           (OKey "max") (VPrim (pint 7))).1 (Some "bb")) "max" = VPrim (pint 5).
Proof.
  apply (torrents_do_not_mix ∅ sample_multi (OKey "max") (VPrim (pint 6)) (OKey "max") (VPrim (pint 7))
           (Some "bb") "max"). by vm_compute.
Defined.
