(* ===== verification/Formatters.v ===== *)
(** * Deluge.Formatters

    The functions that turn a number into the text of a cell: a size, a speed,
    a date, the time something will take; and the two that make a string safe
    to put into markup. *)

From stdpp Require Import base list strings.
From Stdlib Require Import Lia ZArith Floats.SpecFloat.
From S2P Require Import Prelude JsNum JsString JsValue.

Open Scope Z_scope.

Module Fmt.

(** [charToEntity] *)
Definition charToEntity (c : Ascii.ascii) : option string :=
  if decide (c = chr 38) then Some "&amp;"
  else if decide (c = chr 62) then Some "&gt;"
  else if decide (c = chr 60) then Some "&lt;"
  else if decide (c = chr 34) then Some "&quot;"
  else if decide (c = chr 39) then Some "&#39;"
  else None.

(** [htmlEncodeReplaceFn]: what a character is replaced by. *)
Definition htmlEncodeReplaceFn (c : Ascii.ascii) : string :=
  match charToEntity c with Some e => e | None => String.String c "" end.

(** [String(value).replace(charToEntityRegex, htmlEncodeReplaceFn)] *)
Definition html_text (s : string) : string := str_flat_map htmlEncodeReplaceFn s.

(** [htmlEncode] *)
Definition htmlEncode (value : prim) : prim :=
  if truthy value then PStr (html_text (to_str value)) else value.

(** [cssClassEscape] *)
Definition cssClassEscape (value : string) : string := replace_first "." "_" (to_lower value).

(** [size], with the names of its three units *)
Definition size_in (k m g : string) (bytes : prim) (showZero : bool) : string :=
  if negb (truthy bytes) && negb showZero then ""
  else
    let bytes := num_div (to_number bytes) (of_Z 1024) in
    if num_ltb bytes (of_Z 1024) then to_fixed 1 bytes +:+ k
    else
      let bytes := num_div bytes (of_Z 1024) in
      if num_ltb bytes (of_Z 1024) then to_fixed 1 bytes +:+ m
      else
        let bytes := num_div bytes (of_Z 1024) in
        to_fixed 1 bytes +:+ g.

Definition size : prim -> bool -> string := size_in " KiB" " MiB" " GiB".
Definition sizeShort : prim -> bool -> string := size_in " K" " M" " G".

(** [speed] *)
Definition speed (bytes : prim) (showZero : bool) : string :=
  if negb (truthy bytes) && negb showZero then "" else size bytes showZero +:+ "/s".

(** [isNaN(v)] *)
Definition isNaN (v : prim) : bool := is_nan (to_number v).

(** [timeRemaining].  [None] is the [TypeError] of calling [toFixed] on
    something that is not a number. *)
Definition time_units (time : num) : string :=
  (* [time] is what [toFixed(0)] left, read as a number again *)
  let time := num_div time (of_Z 60) in
  if num_ltb time (of_Z 60) then
    let minutes := num_floor time in
    let seconds := num_round (num_mul (of_Z 60) (num_sub time minutes)) in
    if num_ltb (of_Z 0) seconds then num_str minutes +:+ "m " +:+ num_str seconds +:+ "s"
    else num_str minutes +:+ "m"
  else
    let time := num_div time (of_Z 60) in
    if num_ltb time (of_Z 24) then
      let hours := num_floor time in
      let minutes := num_round (num_mul (of_Z 60) (num_sub time hours)) in
      if num_ltb (of_Z 0) minutes then num_str hours +:+ "h " +:+ num_str minutes +:+ "m"
      else num_str hours +:+ "h"
    else
      let time := num_div time (of_Z 24) in
      let days := num_floor time in
      let hours := num_round (num_mul (of_Z 24) (num_sub time days)) in
      if num_ltb (of_Z 0) hours then num_str days +:+ "d " +:+ num_str hours +:+ "h"
      else num_str days +:+ "d".

Definition timeRemaining (time : prim) : option string :=
  if nullish time || isNaN time then Some ""
  else if prim_leb time (pint 0) then Some "&infin;"
  else match time with
       | PNum n =>
           let time := to_fixed 0 n in
           if num_ltb (str_num time) (of_Z 60) then Some (time +:+ "s")
           else Some (time_units (str_num time))
       | _ => None
       end.

(** [plain] *)
Definition plain (value : prim) : prim := value.

(** *** Dates

    The calendar of [Date]: the year, month and day a day number falls on,
    counting from 1970-01-01, by 400-year cycles that start in March. *)
Record civil := { year : Z; month : Z; day : Z }.

Definition civil_of_days (d : Z) : civil :=
  let z := d + 719468 in
  let era := z / 146097 in
  let doe := z mod 146097 in
  let yoe := (doe - doe / 1460 + doe / 36524 - doe / 146096) / 365 in
  let doy := doe - (365 * yoe + yoe / 4 - yoe / 100) in
  let mp := (5 * doy + 2) / 153 in
  let m := if mp <? 10 then mp + 3 else mp - 9 in
  {| year := yoe + era * 400 + (if m <=? 2 then 1 else 0);
     month := m; day := doy - (153 * mp + 2) / 5 + 1 |}.

(** [zeroPad] *)
Definition zeroPad (n : Z) (count : nat) : string := pad_zeros count (Z_str n).

(** The time value of [new Date(t)]: the integer part, if it is in range. *)
Definition time_value (t : num) : option Z :=
  match t with
  | S754_zero _ => Some 0
  | S754_finite s m e =>
      let v := if s then - floor_scaled (Z.pos m) e else floor_scaled (Z.pos m) e in
      if Z.abs v <=? 8640000000000000 then Some v else None
  | _ => None
  end.

Section date.
(** The offset of local time from UTC, in milliseconds, at a time. *)
Variable tz : Z -> Z.

(** The six fields as text: [getDate], [getMonth + 1], [getFullYear],
    [getHours], [getMinutes], [getSeconds] of local time. *)
Definition date_fields (t : Z) : list string :=
  let l := t + tz t in
  let c := civil_of_days (l / 86400000) in
  let ms := l mod 86400000 in
  [zeroPad (day c) 2; zeroPad (month c) 2; Z_str (year c);
   zeroPad (ms / 3600000) 2; zeroPad ((ms / 60000) mod 60) 2; zeroPad ((ms / 1000) mod 60) 2].

(** [date] *)
Definition date (timestamp : prim) : string :=
  if nullish timestamp || isNaN timestamp then ""
  else
    let t := num_mul (to_number timestamp) (of_Z 1000) in
    match time_value t with
    | Some v => format "{0}/{1}/{2} {3}:{4}:{5}" (date_fields v)
    | None => format "{0}/{1}/{2} {3}:{4}:{5}" ["NaN"; "NaN"; "NaN"; "NaN"; "NaN"; "NaN"]
    end.
End date.

End Fmt.

(** ** Markup *)

(** A character that would end a text or an attribute. *)
Definition is_markup (c : Ascii.ascii) : bool :=
  bool_decide (code c ∈ [60; 62; 34; 39]%nat).

(** The replacements are a prefix code: none of them starts another's. *)
Lemma entity_prefix_free c d :
  String.prefix (Fmt.htmlEncodeReplaceFn c) (Fmt.htmlEncodeReplaceFn d) = true -> c = d.
Proof.
  unfold Fmt.htmlEncodeReplaceFn, Fmt.charToEntity.
  repeat case_decide; subst; try done; cbn [String.prefix];
    repeat (match goal with |- context [Ascii.ascii_dec ?a ?b] => destruct (Ascii.ascii_dec a b) end);
    subst; try done; intros _; exfalso; by eauto.
Qed.

Lemma entity_nonempty c : Fmt.htmlEncodeReplaceFn c <> "".
Proof.
  pose proof (all_chars_spec (fun c => negb (bool_decide (Fmt.htmlEncodeReplaceFn c = "")))) as H.
  specialize (H ltac:(by vm_compute) c). cbv beta in H. intros E. by rewrite E in H.
Qed.

(** Two strings that start the same text: one of them starts the other. *)
Lemma app_prefix (a b x y : string) :
  a +:+ x = b +:+ y -> String.prefix a b = true \/ String.prefix b a = true.
Proof.
  revert b. induction a as [|c a IH]; intros b; [left; by destruct b|].
  destruct b as [|d b]; [by right|].
  rewrite !str_app_cons. intros [= <- Hr]. cbn [String.prefix].
  destruct (Ascii.ascii_dec c c); [|done]. by apply IH.
Qed.

Lemma str_app_inj_l (a x y : string) : a +:+ x = a +:+ y -> x = y.
Proof. induction a as [|c a IH]; [done|]. rewrite !str_app_cons. intros [= H]. by apply IH. Qed.

Lemma html_text_inj s t : Fmt.html_text s = Fmt.html_text t -> s = t.
Proof.
  unfold Fmt.html_text. revert t.
  induction s as [|c s IH]; intros [|d t]; cbn [str_flat_map]; [done| | |].
  - intros H. exfalso. apply (entity_nonempty d).
    destruct (Fmt.htmlEncodeReplaceFn d); [done|]. by rewrite str_app_cons in H.
  - intros H. exfalso. apply (entity_nonempty c).
    destruct (Fmt.htmlEncodeReplaceFn c); [done|]. by rewrite str_app_cons in H.
  - intros H. assert (c = d) as ->.
    { destruct (app_prefix _ _ _ _ H) as [Hp|Hp]; by apply entity_prefix_free in Hp. }
    apply str_app_inj_l in H. by rewrite (IH t).
Qed.

(** ** The calendar *)

(** The day number of a date, counting the other way. *)
Definition days_of_civil (y m d : Z) : Z :=
  let y := if m <=? 2 then y - 1 else y in
  let era := y / 400 in
  let yoe := y mod 400 in
  let doy := (153 * (if 2 <? m then m - 3 else m + 9) + 2) / 5 + d - 1 in
  let doe := yoe * 365 + yoe / 4 - yoe / 100 + doy in
  era * 146097 + doe - 719468.

(** The year of a 400-year cycle and the day of that year. *)
Lemma cycle_bounds doe :
  0 <= doe < 146097 ->
  let yoe := (doe - doe / 1460 + doe / 36524 - doe / 146096) / 365 in
  let doy := doe - (365 * yoe + yoe / 4 - yoe / 100) in
  let mp := (5 * doy + 2) / 153 in
  0 <= yoe <= 399 /\ 0 <= doy <= 365 /\ 0 <= mp <= 11 /\ 0 <= doy - (153 * mp + 2) / 5 <= 30.
Proof.
  intros Hd yoe doy mp.
  assert (Hy : 0 <= yoe <= 399) by (subst yoe; Z.to_euclidean_division_equations; lia).
  assert (Hj : 0 <= doy <= 365) by (subst doy yoe; Z.to_euclidean_division_equations; lia).
  split; [done|]. split; [done|]. clearbody doy. subst mp.
  Z.to_euclidean_division_equations; lia.
Qed.

Lemma civil_bounds d :
  let c := Fmt.civil_of_days d in 1 <= Fmt.month c <= 12 /\ 1 <= Fmt.day c <= 31.
Proof.
  unfold Fmt.civil_of_days. cbn [Fmt.month Fmt.day].
  pose proof (cycle_bounds ((d + 719468) mod 146097)) as H.
  specialize (H ltac:(apply Z.mod_pos_bound; lia)). cbv zeta in H. destruct H as (Hy & Hj & Hm & Hd).
  set (mp := (5 * _ + 2) / 153) in *. clearbody mp.
  split; [|lia]. destruct (mp <? 10) eqn:E; lia.
Qed.

Lemma days_of_civil_of_days d :
  let c := Fmt.civil_of_days d in days_of_civil (Fmt.year c) (Fmt.month c) (Fmt.day c) = d.
Proof.
  unfold Fmt.civil_of_days, days_of_civil. cbn [Fmt.year Fmt.month Fmt.day].
  pose proof (cycle_bounds ((d + 719468) mod 146097)) as H.
  specialize (H ltac:(apply Z.mod_pos_bound; lia)). cbv zeta in H.
  pose proof (Z.div_mod (d + 719468) 146097 ltac:(lia)) as Hdm.
  set (era := (d + 719468) / 146097) in *. set (doe := (d + 719468) mod 146097) in *.
  set (yoe := (doe - doe / 1460 + doe / 36524 - doe / 146096) / 365) in *.
  set (doy := doe - (365 * yoe + yoe / 4 - yoe / 100)) in *.
  set (mp := (5 * doy + 2) / 153) in *.
  destruct H as (Hy & Hj & Hm & Hd).
  set (m := if mp <? 10 then mp + 3 else mp - 9).
  assert (Hy' : (if m <=? 2 then yoe + era * 400 + (if m <=? 2 then 1 else 0) - 1
                 else yoe + era * 400 + (if m <=? 2 then 1 else 0)) = yoe + era * 400).
  { destruct (m <=? 2); lia. }
  assert (Hm' : (if 2 <? m then m - 3 else m + 9) = mp).
  { unfold m. destruct (mp <? 10) eqn:E1.
    - rewrite (proj2 (Z.ltb_lt _ _)); lia.
    - rewrite (proj2 (Z.ltb_ge _ _)); lia. }
  rewrite Hy', Hm', Z.div_add, Z.mod_add by lia.
  rewrite (Z.div_small yoe), (Z.mod_small yoe) by lia. subst doy. lia.
Qed.

(** ** The functions *)

(** A byte count in its unit, to the nearest tenth, a tie going up: what
    [size] means. *)
Definition size_spec (kib mib gib : string) (b : Z) : string :=
  if b <? 2 ^ 20 then fixed_str 1 ((20 * b + 2 ^ 10) / 2 ^ 11) +:+ kib
  else if b <? 2 ^ 30 then fixed_str 1 ((20 * b + 2 ^ 20) / 2 ^ 21) +:+ mib
  else fixed_str 1 ((20 * b + 2 ^ 30) / 2 ^ 31) +:+ gib.

Lemma size_in_pos k m g p show :
  Z.pos p < 2 ^ 53 -> Fmt.size_in k m g (pint (Z.pos p)) show = size_spec k m g (Z.pos p).
Proof.
  intros H. unfold Fmt.size_in. rewrite pint_truthy by (unfold safe; lia). cbn [Z.eqb negb andb].
  cbn [to_number]. rewrite int_over_0 by done.
  rewrite !int_over_succ by lia. cbn [Z.add Pos.add Pos.succ].
  rewrite (int_over_ltb p 1 (2 ^ 20)), (int_over_ltb p 2 (2 ^ 30)) by (done || by vm_compute).
  unfold size_spec. rewrite !int_over_fixed by lia. done.
Qed.

Section properties.
(** Claim C26.  A size is shown in KiB below a mebibyte, in MiB below a
    gibibyte and in GiB above, to the nearest tenth of the unit: the three
    divisions of the code lose nothing, for every count of bytes a double
    holds exactly. *)
Theorem size_exact b show :
  0 < b < 2 ^ 53 ->
  Fmt.size (pint b) show = size_spec " KiB" " MiB" " GiB" b /\
  Fmt.sizeShort (pint b) show = size_spec " K" " M" " G" b /\
  Fmt.speed (pint b) show = size_spec " KiB" " MiB" " GiB" b +:+ "/s".
Proof.
  intros [H0 H1]. destruct b as [|p|p]; [lia| |lia].
  unfold Fmt.speed, Fmt.size, Fmt.sizeShort. rewrite !size_in_pos by done.
  rewrite pint_truthy by (unfold safe; lia). done.
Qed.

(** Claim C27.  What [htmlEncode] answers for a string holds no character that
    could end a text or a quoted attribute, and no two strings are encoded
    alike. *)
Theorem html_encode_safe s t :
  str_all (fun c => negb (is_markup c)) (Fmt.html_text s) = true /\
  (Fmt.htmlEncode (PStr s) = Fmt.htmlEncode (PStr t) -> s = t).
Proof.
  split.
  - apply str_flat_map_all. intros c.
    by apply (all_chars_spec (fun c => str_all (fun c => negb (is_markup c)) (Fmt.htmlEncodeReplaceFn c))).
  - unfold Fmt.htmlEncode. cbn [truthy to_str].
    repeat case_bool_decide; cbn [negb]; subst; try done; (intros [=Hx] || intros _);
      first [done | by apply html_text_inj | by apply (html_text_inj "" t)
            | by apply (html_text_inj s "")].
Qed.

(** [timeRemaining] answers for every number, for a missing value
    and for what is not a number; it throws on text that reads as a positive
    number, having tested it as a number before calling [toFixed] on it. *)
Theorem timeRemaining_total n :
  is_Some (Fmt.timeRemaining (PNum n)) /\
  Fmt.timeRemaining PUndef = Some "" /\ Fmt.timeRemaining PNull = Some "" /\
  Fmt.timeRemaining (PNum nan) = Some "" /\
  Fmt.timeRemaining (PStr "5") = None.
Proof.
  split; [|done]. unfold Fmt.timeRemaining.
  destruct (nullish (PNum n) || Fmt.isNaN (PNum n)); [by eexists|].
  destruct (prim_leb (PNum n) (pint 0)); [by eexists|].
  destruct (num_ltb _ _); by eexists.
Qed.

(** The longer times are rounded to the nearest smaller unit without
    carrying it: an hour and fifty-nine and a half minutes reads ["1h 60m"],
    and a second short of two days ["1d 24h"]. *)
Theorem timeRemaining_no_carry :
  Fmt.timeRemaining (pint 7170) = Some "1h 60m" /\
  Fmt.timeRemaining (pint 172799) = Some "1d 24h".
Proof. by vm_compute. Qed.

(** The date drawn is the date of the day: its month and day are
    ones a calendar has, and reading it back gives the day it came from. *)
Theorem date_of_day d :
  let c := Fmt.civil_of_days d in
  1 <= Fmt.month c <= 12 /\ 1 <= Fmt.day c <= 31 /\
  days_of_civil (Fmt.year c) (Fmt.month c) (Fmt.day c) = d.
Proof.
  pose proof (civil_bounds d) as H. cbv zeta in *. destruct H.
  auto using days_of_civil_of_days.
Qed.
End properties.

(** ** The properties at concrete inputs *)

Lemma size_exact_witness :
  Fmt.size (pint 1536) false = "1.5 KiB" /\ Fmt.sizeShort (pint 1536) false = "1.5 K" /\
  Fmt.speed (pint 1536) false = "1.5 KiB/s".
Proof. by apply (size_exact 1536 false). Defined.

Lemma html_encode_safe_witness :
  str_all (fun c => negb (is_markup c)) (Fmt.html_text "<") = true /\
  (Fmt.htmlEncode (PStr "<") = Fmt.htmlEncode (PStr "<") -> "<" = "<").
Proof. exact (html_encode_safe "<" "<"). Defined.
