(* ===== verification/Collection.v ===== *)
(** * Ext.util.MixedCollection

    The ordered collection behind every store: its items, their keys, and the
    map from a key to its item.  A key is a string, or missing.  The events of
    a collection have no listener in the interface and are left out. *)

From stdpp Require Import base list strings sets.
From Stdlib Require Import Lia ZArith Sorting.Sorted.
From S2P Require Import Prelude.

Module MC.

Section collection.
Context {A : Type} `{EqDecision A}.

Record coll := mk {
  items : list A;
  map : obj A;
  keys : list (option string);
  length : nat
}.

(** The constructor, and [clear] *)
Definition empty : coll := mk [] [] [] 0.
Definition clear (c : coll) : coll := mk [] [] [] 0.

(** [Array.indexOf] on the items and on the keys *)
Fixpoint index_of {B} `{EqDecision B} (x : B) (l : list B) : option nat :=
  match l with
  | [] => None
  | y :: l' => if decide (x = y) then Some 0 else S <$> index_of x l'
  end.
Definition indexOf (o : A) (c : coll) : option nat := index_of o (items c).
Definition indexOfKey (k : option string) (c : coll) : option nat := index_of k (keys c).

(** [key] and [itemAt], [containsKey], [contains] *)
Definition key (k : string) (c : coll) : option A := oget k (map c).
Definition itemAt (i : nat) (c : coll) : option A := items c !! i.
Definition containsKey (k : string) (c : coll) : bool := bool_decide (is_Some (oget k (map c))).
Definition contains (o : A) (c : coll) : bool := bool_decide (is_Some (indexOf o c)).
Definition getCount (c : coll) : nat := length c.
Definition first (c : coll) : option A := items c !! 0.
Definition last (c : coll) : option A := items c !! (length c - 1).

(** [push]: the part of [add] that appends. *)
Definition push (k : option string) (o : A) (c : coll) : coll :=
  mk (items c ++ [o]) (match k with Some k => oset k o (map c) | None => map c end)
     (keys c ++ [k]) (length c + 1).

(** [replace] of a key that is there *)
Definition replaceKey (k : string) (o : A) (c : coll) : coll :=
  mk (match indexOfKey (Some k) c with Some i => <[i := o]> (items c) | None => items c end)
     (oset k o (map c)) (keys c) (length c).

(** [add] and [replace]; the two call each other only where they do not. *)
Definition add (k : option string) (o : A) (c : coll) : coll :=
  match k with
  | Some k' => if containsKey k' c then replaceKey k' o c else push k o c
  | None => push k o c
  end.
Definition replace (k : option string) (o : A) (c : coll) : coll :=
  match k with
  | Some k' => if containsKey k' c then replaceKey k' o c else add k o c
  | None => add k o c
  end.

Section keyed.
(** [getKey]: the id of an item. *)
Variable getKey : A -> option string.

(** [addAll] of an array *)
Definition addAll (objs : list A) (c : coll) : coll :=
  foldl (fun c o => add (getKey o) o c) c objs.
End keyed.

(** [removeAt]; out of range it removes nothing. *)
Definition removeAt (i : option nat) (c : coll) : coll :=
  match i with
  | Some i =>
      if decide (i < length c) then
        let k := default None (keys c !! i) in
        mk (delete i (items c)) (match k with Some k => odel k (map c) | None => map c end)
           (delete i (keys c)) (length c - 1)
      else c
  | None => c
  end.
Definition remove (o : A) (c : coll) : coll := removeAt (indexOf o c) c.
Definition removeKey (k : string) (c : coll) : coll := removeAt (indexOfKey (Some k) c) c.

(** [insert] *)
Definition insert (i : nat) (k : option string) (o : A) (c : coll) : coll :=
  let c := match k with
           | Some k' => if containsKey k' c then removeKey k' c else c
           | None => c
           end in
  if decide (length c <= i) then add k o c
  else mk (take i (items c) ++ o :: drop i (items c))
          (match k with Some k => oset k o (map c) | None => map c end)
          (take i (keys c) ++ k :: drop i (keys c)) (length c + 1).

(** [each], over a copy of the items, until the callback answers [false] *)
Fixpoint each_go {S} (l : list A) (fn : S -> A -> S * bool) (s : S) : S :=
  match l with
  | [] => s
  | x :: l' => let '(s', go) := fn s x in if go then each_go l' fn s' else s'
  end.
Definition each {S} (c : coll) (fn : S -> A -> S * bool) (s : S) : S := each_go (items c) fn s.

(** [find] and [findIndexBy] *)
Definition find (fn : A -> bool) (c : coll) : option A := List.find fn (items c).
Fixpoint index_by (fn : A -> bool) (l : list A) (i : nat) : option nat :=
  match l with
  | [] => None
  | x :: l' => if fn x then Some i else index_by fn l' (S i)
  end.
Definition findIndexBy (fn : A -> bool) (start : nat) (c : coll) : option nat :=
  index_by fn (drop start (items c)) start.

(** [getRange] forwards *)
Definition getRange (start : nat) (end_ : option nat) (c : coll) : list A :=
  let e := default (length c - 1) (min (length c - 1) <$> end_) in
  take (e + 1 - start) (drop start (items c)).

(** [_sort]: the pairs of an item, its key and its place are sorted by [fn],
    whose answer is a sign, and by their place where it answers zero.  [leb]
    says whether a pair may stay before another; [Array.prototype.sort] is
    insertion, which for a total order gives the one sorted arrangement. *)
Fixpoint sinsert {B} (leb : B -> B -> bool) (x : B) (l : list B) : list B :=
  match l with
  | [] => [x]
  | y :: l' => if leb x y then x :: l else y :: sinsert leb x l'
  end.
Fixpoint isort {B} (leb : B -> B -> bool) (l : list B) : list B :=
  match l with [] => [] | x :: l' => sinsert leb x (isort leb l') end.

Definition entry : Type := A * option string * nat.
Definition entry_leb (dsc : Z) (fn : A -> A -> Z) (a b : entry) : bool :=
  let v := (fn a.1.1 b.1.1 * dsc)%Z in
  if decide (v = 0)%Z then bool_decide (a.2 <= b.2) else bool_decide (v < 0)%Z.

Definition entries (c : coll) : list entry :=
  zip (zip (items c) (keys c)) (seq 0 (List.length (items c))).

Definition sort (desc : bool) (fn : A -> A -> Z) (c : coll) : coll :=
  let l := isort (entry_leb (if desc then -1 else 1) fn) (entries c) in
  mk (fmap (fun e => e.1.1) l) (map c) (fmap (fun e => e.1.2) l) (length c).

End collection.
Arguments coll A : clear implicits.
Arguments mk {A}.

End MC.

(** ** Well-formed collections *)

Section lemmas.
Context {A : Type} `{EqDecision A}.
Implicit Types (c : MC.coll A) (k : string) (o : A).

(** The three views agree: as many keys as items, no key twice, and the map
    answers a key with the item at its place. *)
Record coll_ok (c : MC.coll A) : Prop := {
  ok_length : MC.length c = length (MC.items c);
  ok_keys : length (MC.keys c) = length (MC.items c);
  ok_nodup : forall i j k, MC.keys c !! i = Some (Some k) -> MC.keys c !! j = Some (Some k) -> i = j;
  ok_map : forall k o, oget k (MC.map c) = Some o <->
    exists i, MC.keys c !! i = Some (Some k) /\ MC.items c !! i = Some o
}.

Lemma index_of_Some {B} `{EqDecision B} (x : B) l i :
  MC.index_of x l = Some i -> l !! i = Some x.
Proof.
  revert i. induction l as [|y l IH]; intros i; simpl; [done|].
  destruct (decide (x = y)) as [->|]; [by intros [= <-]|].
  intros (j & Hj & ->)%fmap_Some. by apply IH.
Qed.

Lemma index_of_elem {B} `{EqDecision B} (x : B) l : is_Some (MC.index_of x l) <-> x ∈ l.
Proof.
  induction l as [|y l IH]; simpl; [split; [by intros [? ?]|set_solver]|].
  rewrite elem_of_cons. destruct (decide (x = y)); [naive_solver|].
  rewrite fmap_is_Some, IH. naive_solver.
Qed.

Lemma empty_ok : coll_ok MC.empty.
Proof.
  split; try done. intros k o. split; [done|]. intros (i & H & _). simpl in H. by rewrite lookup_nil in H.
Qed.

(** A key is there exactly when the map has it. *)
Lemma key_elem c k : coll_ok c -> is_Some (MC.key k c) <-> Some k ∈ MC.keys c.
Proof.
  intros Hc. unfold MC.key. split.
  - intros [o Ho]. apply (ok_map _ Hc) in Ho as (i & Hk & _). by eapply list_elem_of_lookup_2.
  - intros [i Hk]%list_elem_of_lookup_1.
    destruct (lookup_lt_is_Some_2 (MC.items c) i) as [o Ho].
    { rewrite <- (ok_keys _ Hc). by eapply lookup_lt_Some. }
    exists o. apply (ok_map _ Hc). eauto.
Qed.

Lemma push_ok c (ko : option string) o :
  coll_ok c -> (forall k', ko = Some k' -> oget k' (MC.map c) = None) -> coll_ok (MC.push ko o c).
Proof.
  intros Hc Hk.
  assert (Hn : forall k', ko = Some k' -> forall i, MC.keys c !! i <> Some (Some k')).
  { intros k' -> i Hi. specialize (Hk _ eq_refl).
    assert (H : is_Some (MC.key k' c)) by (apply key_elem; [done|by eapply list_elem_of_lookup_2]).
    unfold MC.key in H. rewrite Hk in H. by destruct H. }
  pose proof (ok_keys _ Hc) as Hl.
  split; simpl.
  - rewrite length_app, (ok_length _ Hc). simpl. lia.
  - rewrite !length_app, Hl. done.
  - intros i j k'. rewrite !lookup_snoc_Some, Hl. intros [[Hi H1]|[-> H1]] [[Hj H2]|[-> H2]].
    + by eapply ok_nodup.
    + subst ko. by apply Hn in H1.
    + subst ko. by apply Hn in H2.
    + lia.
  - intros k' o'. destruct ko as [k|].
    + rewrite oget_oset. destruct (decide (k' = k)) as [->|Hne].
      * split.
        -- intros [= <-]. exists (length (MC.items c)).
           by rewrite <- Hl at 1; rewrite !list_lookup_middle by done.
        -- intros (i & H1 & H2). apply lookup_snoc_Some in H1 as [[_ H1]|[-> _]]; [by apply Hn in H1|].
           rewrite Hl, list_lookup_middle in H2 by done. done.
      * rewrite (ok_map _ Hc). split; intros (i & H1 & H2); exists i.
        -- split; apply lookup_app_l_Some; done.
        -- apply lookup_snoc_Some in H1 as [[Hi H1]|[_ H1]]; [|congruence]. split; [done|].
           rewrite lookup_app_l in H2 by lia. done.
    + rewrite (ok_map _ Hc). split; intros (i & H1 & H2); exists i.
      * split; apply lookup_app_l_Some; done.
      * apply lookup_snoc_Some in H1 as [[Hi H1]|[_ H1]]; [|congruence]. split; [done|].
        rewrite lookup_app_l in H2 by lia. done.
Qed.

Lemma replaceKey_ok c k o : coll_ok c -> is_Some (oget k (MC.map c)) -> coll_ok (MC.replaceKey k o c).
Proof.
  intros Hc Hs. unfold MC.replaceKey, MC.indexOfKey.
  assert (Hi : is_Some (MC.index_of (Some k) (MC.keys c))).
  { apply index_of_elem, key_elem; done. }
  destruct Hi as [i Hi]. rewrite Hi. apply index_of_Some in Hi.
  pose proof (ok_keys _ Hc) as Hl.
  split; simpl; rewrite ?length_insert; try apply Hc.
  intros k' o'. rewrite oget_oset. destruct (decide (k' = k)) as [->|Hne].
  - split.
    + intros [= <-]. exists i. split; [done|]. apply list_lookup_insert_eq.
      rewrite <- Hl. by eapply lookup_lt_Some.
    + intros (j & H1 & H2). assert (j = i) as -> by by eapply ok_nodup.
      rewrite list_lookup_insert_eq in H2; [done|]. rewrite <- Hl. by eapply lookup_lt_Some.
  - rewrite (ok_map _ Hc). split; intros (j & H1 & H2); exists j; (split; [done|]);
      assert (i <> j) by (intros ->; congruence); by rewrite list_lookup_insert_ne in *.
Qed.

Lemma add_ok c (ko : option string) o : coll_ok c -> coll_ok (MC.add ko o c).
Proof.
  intros Hc. unfold MC.add, MC.containsKey. destruct ko as [k|].
  - case_bool_decide as Hs; [by apply replaceKey_ok|]. apply push_ok; [done|].
    intros k' [= <-]. by apply eq_None_not_Some.
  - by apply push_ok.
Qed.

Lemma addAll_ok getKey l c : coll_ok c -> coll_ok (MC.addAll getKey l c).
Proof. revert c. induction l as [|o l IH]; intros c Hc; simpl; [done|]. by apply IH, add_ok. Qed.

(** Deleting a place and looking up around it. *)
Lemma delete_lookup_elem {B} (l : list B) i j x :
  delete i l !! j = Some x <-> exists j', j' <> i /\ l !! j' = Some x /\ j = (if decide (j' < i) then j' else j' - 1).
Proof.
  destruct (decide (j < i)) as [Hj|Hj].
  - rewrite list_lookup_delete_lt by done. split.
    + intros H. exists j. rewrite decide_True by done. split_and!; [lia|done|done].
    + intros (j' & Hne & H & ->). case_decide; [done|lia].
  - rewrite list_lookup_delete_ge by lia. split.
    + intros H. exists (S j). rewrite decide_False by lia. split_and!; [lia|done|lia].
    + intros (j' & Hne & H & ->). case_decide; [lia|]. by replace (S (j' - 1)) with j' by lia.
Qed.

Lemma removeAt_ok c i : coll_ok c -> coll_ok (MC.removeAt i c).
Proof.
  intros Hc. destruct i as [i|]; [|done]. simpl. case_decide as Hi; [|done].
  rewrite (ok_length _ Hc) in Hi. pose proof (ok_keys _ Hc) as Hl.
  destruct (lookup_lt_is_Some_2 (MC.keys c) i ltac:(lia)) as [ki Hki]. rewrite Hki. simpl.
  split; simpl.
  - rewrite length_delete by (apply lookup_lt_is_Some; lia). by rewrite (ok_length _ Hc).
  - by rewrite !length_delete, Hl by (apply lookup_lt_is_Some; lia).
  - intros j j' k. rewrite !delete_lookup_elem. intros (a & Ha & H1 & ->) (b & Hb & H2 & ->).
    by rewrite (ok_nodup _ Hc _ _ _ H1 H2).
  - intros k o.
    assert (Hm : oget k (match ki with Some k => odel k (MC.map c) | None => MC.map c end) = Some o
      <-> oget k (MC.map c) = Some o /\ ki <> Some k).
    { destruct ki as [k'|]; [|naive_solver]. rewrite oget_odel. case_decide; naive_solver. }
    rewrite Hm, (ok_map _ Hc). split.
    + intros [(j & H1 & H2) Hne]. assert (j <> i) by (intros ->; congruence).
      exists (if decide (j < i) then j else j - 1). rewrite !delete_lookup_elem. split; exists j; done.
    + intros (j & H1 & H2). apply delete_lookup_elem in H1 as (a & Ha & H1 & ->).
      apply delete_lookup_elem in H2 as (b & Hb & H2 & E).
      assert (a = b) as <- by (repeat case_decide; lia).
      split; [by exists a|]. intros ->. apply Ha. by eapply ok_nodup.
Qed.

(** ** What the operations change *)

Lemma key_push c k o : MC.key k (MC.push (Some k) o c) = Some o.
Proof. apply oget_oset_eq. Qed.

(** After [add], the key answers the new item and no other key changed. *)
Lemma key_add c k j o : MC.key j (MC.add (Some k) o c) = if decide (j = k) then Some o else MC.key j c.
Proof. unfold MC.key, MC.add. case_match; simpl; apply oget_oset. Qed.

Lemma items_add_new c k o : MC.key k c = None -> MC.items (MC.add (Some k) o c) = MC.items c ++ [o].
Proof.
  intros H. unfold MC.add, MC.containsKey. unfold MC.key in H. rewrite H.
  rewrite bool_decide_eq_false_2; [done|]. by intros [? ?].
Qed.

(** Inserting under a new key puts the item at its place. *)
Lemma insert_new_eq c i k o :
  coll_ok c -> MC.key k c = None ->
  MC.insert i (Some k) o c =
  MC.mk (take i (MC.items c) ++ o :: drop i (MC.items c)) (oset k o (MC.map c))
    (take i (MC.keys c) ++ Some k :: drop i (MC.keys c)) (MC.length c + 1).
Proof.
  intros Hc Hk. unfold MC.key in Hk. unfold MC.insert, MC.containsKey. rewrite Hk.
  rewrite bool_decide_eq_false_2 by (by intros [? ?]).
  case_decide as H; [|done]. unfold MC.add, MC.containsKey. rewrite Hk.
  rewrite bool_decide_eq_false_2 by (by intros [? ?]). unfold MC.push.
  rewrite (ok_length _ Hc) in H.
  rewrite !take_ge, !drop_ge by (rewrite ?(ok_keys _ Hc); done). done.
Qed.

Lemma take_drop_lookup {B} (l : list B) i x j y :
  i <= length l ->
  (take i l ++ x :: drop i l) !! j = Some y <->
  (j < i /\ l !! j = Some y) \/ (j = i /\ y = x) \/ (i < j /\ l !! (j - 1) = Some y).
Proof.
  intros Hi. rewrite lookup_app_Some, length_take, Nat.min_l by done.
  rewrite lookup_take_Some, lookup_cons_Some, lookup_drop.
  destruct (decide (j < i)) as [H|H].
  - split; [intros [[? ?]|[? _]]; [by left|lia]|]. intros [[? ?]|[[? _]|[? _]]]; [by left|lia..].
  - split.
    + intros [[? ?]|[_ [[? ->]|[? Hl]]]]; [lia| |].
      * right; left. split; [lia|done].
      * right; right. split; [lia|]. by replace (j - 1) with (i + (j - i - 1)) by lia.
    + intros [[? ?]|[[-> ->]|[? Hl]]]; [lia| |].
      * right. split; [lia|]. left. split; [lia|done].
      * right. split; [lia|]. right. split; [lia|]. by replace (i + (j - i - 1)) with (j - 1) by lia.
Qed.

Lemma insert_new_ok c i k o :
  coll_ok c -> MC.key k c = None -> coll_ok (MC.insert i (Some k) o c).
Proof.
  intros Hc Hk. assert (Hle : exists j, j <= length (MC.items c) /\ MC.insert i (Some k) o c = MC.insert j (Some k) o c).
  { destruct (decide (i <= length (MC.items c))) as [|Hi]; [by exists i|]. exists (length (MC.items c)).
    split; [done|]. rewrite !insert_new_eq by done. pose proof (ok_keys _ Hc).
    f_equal; rewrite !take_ge, !drop_ge by lia; done. }
  destruct Hle as (j & Hi & ->). clear i. rename j into i. rewrite insert_new_eq by done. pose proof (ok_keys _ Hc) as Hl.
  assert (Hno : forall j, MC.keys c !! j <> Some (Some k)).
  { intros j Hj. assert (H : is_Some (MC.key k c)) by (apply key_elem; [done|by eapply list_elem_of_lookup_2]).
    rewrite Hk in H. by destruct H. }
  split; cbn [MC.length MC.items MC.keys MC.map].
  - rewrite (ok_length _ Hc), length_app, length_cons, length_take, length_drop. lia.
  - rewrite !length_app, !length_cons, !length_take, !length_drop. lia.
  - intros a b k'. rewrite !take_drop_lookup by lia.
    intros [[? Ha]|[[-> Ha]|[? Ha]]] [[? Hb]|[[-> Hb]|[? Hb]]]; simplify_eq; try done;
      try (by apply Hno in Ha); try (by apply Hno in Hb);
      pose proof (ok_nodup _ Hc _ _ _ Ha Hb); lia.
  - intros k' o'. rewrite oget_oset. setoid_rewrite take_drop_lookup; [|lia..].
    destruct (decide (k' = k)) as [->|Hne].
    + split; [intros [= <-]; exists i; split; right; left; done|].
      intros (j & [[? Ha]|[[-> Ha]|[? Ha]]] & [[? Hb]|[[? Hb]|[? Hb]]]); simplify_eq; try lia; try done;
        by apply Hno in Ha.
    + rewrite (ok_map _ Hc). split.
      * intros (j & Ha & Hb). destruct (decide (j < i)).
        -- exists j. split; left; done.
        -- exists (S j). rewrite Nat.sub_1_r. cbn [Nat.pred]. split; right; right; (split; [lia|done]).
      * intros (j & [[? Ha]|[[-> Ha]|[? Ha]]] & [[? Hb]|[[? Hb]|[? Hb]]]); simplify_eq; try lia; eauto.
Qed.

(** Removing an item forgets its key and keeps every other. *)
Lemma key_remove c k o :
  coll_ok c -> NoDup (MC.items c) ->
  MC.key k (MC.remove o c) = if decide (MC.key k c = Some o) then None else MC.key k c.
Proof.
  intros Hc Hnd. unfold MC.remove, MC.indexOf, MC.key.
  destruct (MC.index_of o (MC.items c)) as [i|] eqn:Ei.
  - apply index_of_Some in Ei. cbn [MC.removeAt].
    rewrite decide_True by (rewrite (ok_length _ Hc); by eapply lookup_lt_Some).
    cbn [MC.map]. pose proof (ok_keys _ Hc) as Hl.
    destruct (lookup_lt_is_Some_2 (MC.keys c) i) as [ki Hki].
    { rewrite Hl. by eapply lookup_lt_Some. }
    rewrite Hki. cbn [default from_option id].
    assert (Hiff : oget k (MC.map c) = Some o <-> ki = Some k).
    { rewrite (ok_map _ Hc). split.
      - intros (j & H1 & H2). rewrite NoDup_alt in Hnd. rewrite (Hnd _ _ _ H2 Ei) in H1. congruence.
      - intros ->. eauto. }
    destruct ki as [k'|].
    + rewrite oget_odel. destruct (decide (k = k')) as [->|Hne].
      * by rewrite decide_True by (by apply Hiff).
      * rewrite decide_False by (rewrite Hiff; congruence). done.
    + rewrite decide_False by (rewrite Hiff; congruence). done.
  - cbn [MC.removeAt]. rewrite decide_False; [done|]. intros (j & _ & H)%(ok_map _ Hc).
    assert (H' : is_Some (MC.index_of o (MC.items c))) by (apply index_of_elem; by eapply list_elem_of_lookup_2).
    rewrite Ei in H'. by destruct H'.
Qed.

Lemma items_remove c o :
  coll_ok c -> NoDup (MC.items c) -> MC.items (MC.remove o c) = filter (fun x => x <> o) (MC.items c).
Proof.
  intros Hc Hnd. unfold MC.remove, MC.indexOf.
  assert (Hlen := ok_length _ Hc).
  assert (H : MC.items (MC.removeAt (MC.index_of o (MC.items c)) c) =
    match MC.index_of o (MC.items c) with Some i => delete i (MC.items c) | None => MC.items c end).
  { destruct (MC.index_of o (MC.items c)) as [i|] eqn:Ei; [|done]. apply index_of_Some in Ei. simpl.
    rewrite decide_True; [done|]. rewrite Hlen. by eapply lookup_lt_Some. }
  rewrite H. clear H Hc Hlen. induction (MC.items c) as [|x l IH]; [done|].
  apply NoDup_cons in Hnd as [Hx Hnd]. cbn [MC.index_of]. rewrite filter_cons.
  destruct (decide (o = x)) as [<-|Hne].
  - rewrite decide_False by (intros Hoo; congruence). simpl.
    symmetry. apply filter_id. apply Forall_forall. intros y Hy ->. done.
  - rewrite decide_True by congruence. rewrite <- IH by done. by destruct (MC.index_of o l).
Qed.

(** ** Sorting *)

Lemma sinsert_perm {B} (leb : B -> B -> bool) x l : MC.sinsert leb x l ≡ₚ x :: l.
Proof.
  induction l as [|y l IH]; simpl; [done|]. destruct (leb x y); [done|].
  rewrite IH. apply Permutation_swap.
Qed.

Lemma isort_perm {B} (leb : B -> B -> bool) l : MC.isort leb l ≡ₚ l.
Proof. induction l as [|x l IH]; simpl; [done|]. by rewrite sinsert_perm, IH. Qed.

Lemma entries_elem c o ko :
  coll_ok c ->
  (exists n, (o, ko, n) ∈ MC.entries c) <->
  (exists i, MC.keys c !! i = Some ko /\ MC.items c !! i = Some o).
Proof.
  intros Hc. unfold MC.entries. split.
  - intros [n [i Hi]%list_elem_of_lookup_1].
    apply lookup_zip_Some in Hi as [H _]. apply lookup_zip_Some in H as [H1 H2]. eauto.
  - intros (i & H1 & H2). exists i. apply list_elem_of_lookup. exists i.
    rewrite !lookup_zip_Some. split_and!; [done..|]. apply lookup_seq. split; [lia|].
    by eapply lookup_lt_Some.
Qed.

Lemma some_keys_nodup (l : list (option string)) :
  (forall i j k, l !! i = Some (Some k) -> l !! j = Some (Some k) -> i = j) <-> NoDup (omap id l).
Proof.
  induction l as [|[k|] l IH]; cbn [omap list_omap id].
  - split; [intros; apply NoDup_nil_2|intros _ i j k Hi; by rewrite lookup_nil in Hi].
  - rewrite NoDup_cons, <- IH, list_elem_of_omap. split.
    + intros H. split.
      * intros ([k'|] & [i Hi]%list_elem_of_lookup_1 & [= ->]).
        pose proof (H 0 (S i) k eq_refl Hi). lia.
      * intros i j k' Hi Hj. pose proof (H (S i) (S j) k' Hi Hj). lia.
    + intros [Hk H] [|i] [|j] k' Hi Hj; simpl in *; [done| | |f_equal; by eapply H];
        simplify_eq; exfalso; apply Hk; eexists; (split; [by eapply list_elem_of_lookup_2|done]).
  - rewrite <- IH. split.
    + intros H i j k' Hi Hj. pose proof (H (S i) (S j) k' Hi Hj). lia.
    + intros H [|i] [|j] k' Hi Hj; simpl in *; try done. f_equal. by eapply H.
Qed.

Lemma length_entries c : coll_ok c -> length (MC.entries c) = length (MC.items c).
Proof.
  intros Hc. unfold MC.entries. rewrite !length_zip_with, length_seq, (ok_keys _ Hc). lia.
Qed.

Lemma entries_keys c : coll_ok c -> fmap (fun e => e.1.2) (MC.entries c) = MC.keys c.
Proof.
  intros Hc. unfold MC.entries.
  match goal with |- fmap _ ?l = _ => transitivity ((l.*1).*2); [by rewrite <- list_fmap_compose|] end.
  rewrite fst_zip by (rewrite length_zip_with, length_seq, (ok_keys _ Hc); lia).
  apply snd_zip. rewrite (ok_keys _ Hc). lia.
Qed.

Lemma entries_items c : coll_ok c -> fmap (fun e => e.1.1) (MC.entries c) = MC.items c.
Proof.
  intros Hc. unfold MC.entries.
  match goal with |- fmap _ ?l = _ => transitivity ((l.*1).*1); [by rewrite <- list_fmap_compose|] end.
  rewrite fst_zip by (rewrite length_zip_with, length_seq, (ok_keys _ Hc); lia).
  apply fst_zip. rewrite (ok_keys _ Hc). lia.
Qed.

(** Sorting loses no item, and keeps every key on its item. *)
Lemma sort_items c d fn : coll_ok c -> MC.items (MC.sort d fn c) ≡ₚ MC.items c.
Proof.
  intros Hc. unfold MC.sort. cbn [MC.items]. rewrite isort_perm. by rewrite entries_items.
Qed.

Lemma sort_key c d fn k : MC.key k (MC.sort d fn c) = MC.key k c.
Proof. done. Qed.

Lemma sort_ok c d fn : coll_ok c -> coll_ok (MC.sort d fn c).
Proof.
  intros Hc. unfold MC.sort. set (l := MC.isort _ _).
  assert (Hl : l ≡ₚ MC.entries c) by apply isort_perm.
  split; cbn [MC.items MC.keys MC.map MC.length].
  - by rewrite length_fmap, Hl, length_entries, (ok_length _ Hc).
  - by rewrite !length_fmap.
  - apply some_keys_nodup. rewrite Hl, entries_keys by done. apply some_keys_nodup, Hc.
  - intros k o. rewrite (ok_map _ Hc), <- (entries_elem c o (Some k) Hc). split.
    + intros [n Hn]. rewrite <- Hl in Hn. apply list_elem_of_lookup_1 in Hn as [i Hi].
      exists i. by rewrite !list_lookup_fmap, Hi.
    + intros (i & H1 & H2). rewrite !list_lookup_fmap in *.
      apply fmap_Some in H1 as ([[o1 k1] n1] & E1 & H1), H2 as ([[o2 k2] n2] & E2 & H2).
      simpl in *. assert (o1 = o2 /\ n1 = n2) as [-> ->] by (split; congruence). subst k1 o.
      exists n2. rewrite <- Hl. by eapply list_elem_of_lookup_2.
Qed.

(** An order for which a sorted arrangement makes sense. *)
Lemma sinsert_sorted {B} (leb : B -> B -> bool) x l :
  (forall a b, leb a b = true \/ leb b a = true) ->
  (forall a b d, leb a b = true -> leb b d = true -> leb a d = true) ->
  StronglySorted (fun a b => leb a b = true) l ->
  StronglySorted (fun a b => leb a b = true) (MC.sinsert leb x l).
Proof.
  intros Ht Htr. induction 1 as [|y l Hs IH Hf]; simpl; [by repeat constructor|].
  destruct (leb x y) eqn:E.
  - constructor; [by constructor|]. constructor; [done|].
    eapply Forall_impl; [exact Hf|]. eauto.
  - constructor; [done|]. rewrite sinsert_perm. constructor; [|done].
    destruct (Ht x y); congruence.
Qed.

Lemma isort_sorted {B} (leb : B -> B -> bool) l :
  (forall a b, leb a b = true \/ leb b a = true) ->
  (forall a b d, leb a b = true -> leb b d = true -> leb a d = true) ->
  StronglySorted (fun a b => leb a b = true) (MC.isort leb l).
Proof.
  intros Ht Htr. induction l as [|x l IH]; simpl; [constructor|]. by apply sinsert_sorted.
Qed.

Lemma sinsert_ext {B} (leb leb' : B -> B -> bool) x l :
  (forall a b, a ∈ x :: l -> b ∈ x :: l -> leb a b = leb' a b) ->
  MC.sinsert leb x l = MC.sinsert leb' x l.
Proof.
  induction l as [|y l IH]; intros H; simpl; [done|].
  rewrite (H x y) by set_solver. rewrite IH; [done|]. intros a b Ha Hb. apply H; set_solver.
Qed.

Lemma isort_ext {B} (leb leb' : B -> B -> bool) l :
  (forall a b, a ∈ l -> b ∈ l -> leb a b = leb' a b) -> MC.isort leb l = MC.isort leb' l.
Proof.
  induction l as [|x l IH]; intros H; simpl; [done|].
  rewrite IH by (intros; apply H; set_solver). apply sinsert_ext.
  intros a b. rewrite !isort_perm. apply H.
Qed.

(** A comparison that is the sign of a difference of ranks sorts by rank. *)
Definition sign_of (v : Z) (a b : Z) : Prop :=
  ((v < 0 <-> a < b) /\ (v = 0 <-> a = b))%Z.

Lemma sort_ranked c (desc : bool) fn (rank : A -> Z) :
  coll_ok c ->
  (forall a b, a ∈ MC.items c -> b ∈ MC.items c -> sign_of (fn a b) (rank a) (rank b)) ->
  StronglySorted (fun a b => if desc then rank b <= rank a else rank a <= rank b)%Z
    (MC.items (MC.sort desc fn c)).
Proof.
  intros Hc Hfn. unfold MC.sort. cbn [MC.items].
  set (R := fun a : A => (if desc then - rank a else rank a)%Z).
  set (leb' := fun a b : MC.entry (A := A) => bool_decide (
    (R a.1.1 < R b.1.1)%Z \/ (R a.1.1 = R b.1.1 /\ a.2 <= b.2))).
  rewrite (isort_ext _ leb').
  - assert (Hs : StronglySorted (fun a b => leb' a b = true) (MC.isort leb' (MC.entries c))).
    { apply isort_sorted; unfold leb'; setoid_rewrite bool_decide_eq_true; lia. }
    induction Hs as [|e l Hs IH Hf]; simpl; constructor; [done|].
    apply Forall_fmap. eapply Forall_impl; [exact Hf|]. intros e'. simpl. unfold leb'.
    rewrite bool_decide_eq_true. unfold R. destruct desc; lia.
  - assert (Hin : forall e, e ∈ MC.entries c -> e.1.1 ∈ MC.items c).
    { intros e He. rewrite <- (entries_items c Hc). by apply (list_elem_of_fmap_2 (fun e => e.1.1)). }
    intros a b Ha Hb. destruct (Hfn a.1.1 b.1.1 (Hin a Ha) (Hin b Hb)) as [H1 H2].
    unfold MC.entry_leb, leb', R. destruct desc; case_decide; apply bool_decide_ext; lia.
Qed.
End lemmas.
#[export] Hint Resolve empty_ok add_ok addAll_ok removeAt_ok sort_ok : js.
