(* ===== verification/SortTypes.v ===== *)
(** * Sort types, field types and the record definition

    What a store compares two records by: [Ext.data.SortTypes], the sort types
    [Deluge.data.SortTypes] adds, the types of [Ext.data.Types] a field may
    have, and [Ext.data.Field], which picks one. *)

From stdpp Require Import base list strings.
From Stdlib Require Import Lia ZArith.
From S2P Require Import Prelude JsNum JsString JsValue.

Open Scope Z_scope.

Definition to_upper : string -> string := str_map upper_char.

Module ExtSort.

(** [none], [asUCString], [asInt] and [asFloat] of [Ext.data.SortTypes] *)
Definition none (s : prim) : prim := s.
Definition asUCString (s : prim) : prim := PStr (to_upper (to_str s)).
Definition no_commas (s : string) : string := str_filter (fun c => negb (bool_decide (c = chr 44))) s.
Definition asInt (s : prim) : prim :=
  let v := parse_int (no_commas (to_str s)) in PNum (if is_nan v then of_Z 0 else v).
Definition asFloat (s : prim) : prim :=
  let v := parse_float (no_commas (to_str s)) in PNum (if is_nan v then of_Z 0 else v).

End ExtSort.

Module DelugeSort.

(** One group of one to three digits and the character that must follow. *)
Definition octet (s : string) : option (string * string) :=
  let '(d, r) := span_digits s in
  if decide (1 <= Z.of_nat (String.length d) <= 3) then Some (d, r) else None.
Definition char (c : nat) (s : string) : option string :=
  match s with
  | String.String d r => if decide (d = chr c) then Some r else None
  | EmptyString => None
  end.

(** The address at the start of a string: four groups and a port. *)
Definition ip_here (s : string) : option (string * string * string * string) :=
  '(a, r) ← octet s; r ← char 46 r;
  '(b, r) ← octet r; r ← char 46 r;
  '(c, r) ← octet r; r ← char 46 r;
  '(d, r) ← octet r; r ← char 58 r;
  let '(p, _) := span_digits r in
  if decide (p = "") then None else Some (a, b, c, d).

(** The leftmost match, as [match] finds it. *)
Fixpoint ip_match (s : string) : option (string * string * string * string) :=
  match ip_here s with
  | Some m => Some m
  | None => match s with String.String _ s' => ip_match s' | EmptyString => None end
  end.

(** [asIPAddress]; [None] is the [TypeError] of reading an element of no
    match. *)
Definition asIPAddress (value : string) : option num :=
  '(a, b, c, d) ← ip_match value;
  let n (s : string) := str_num s in
  Some (num_add (num_mul (num_add (num_mul (num_add (num_mul (n a) (of_Z 256)) (n b)) (of_Z 256)) (n c))
                   (of_Z 256)) (n d)).

(** [asQueuePosition] *)
Definition asQueuePosition (value : prim) : prim :=
  if prim_ltb (pint (-1)) value then value else PNum max_value.

(** [asName] *)
Definition asName (value : prim) : prim := PStr (to_lower (to_str value)).

End DelugeSort.

Module Field.

(** The types a field of the interface's records has. *)
Inductive ftype := AUTO | STRING | INT | FLOAT | BOOL.

(** [Ext.data.Types[name.toUpperCase()]]; a name it does not have is [AUTO]. *)
Definition ftype_of (name : string) : ftype :=
  let n := to_upper name in
  if decide (n = "STRING") then STRING
  else if decide (n = "INT" \/ n = "INTEGER") then INT
  else if decide (n = "FLOAT" \/ n = "NUMBER") then FLOAT
  else if decide (n = "BOOL" \/ n = "BOOLEAN") then BOOL
  else AUTO.

Definition type_sortType (t : ftype) : prim -> prim :=
  match t with STRING => ExtSort.asUCString | _ => ExtSort.none end.

(** [Ext.data.Types.stripRe] removed from a value's text. *)
Definition stripped (v : prim) : string :=
  str_filter (fun c => negb (bool_decide (code c ∈ [36; 44; 37]%nat))) (to_str v).
Definition given (v : prim) : bool := negb (nullish v) && negb (bool_decide (v = PStr "")).

(** [convert] of a type *)
Definition convert (t : ftype) (v : prim) : prim :=
  match t with
  | AUTO => v
  | STRING => if nullish v then PStr "" else PStr (to_str v)
  | INT => if given v then PNum (parse_int (stripped v)) else pint 0
  | FLOAT => if given v then PNum (parse_float (stripped v)) else pint 0
  | BOOL => PBool (strict_eq v (PBool true) || strict_eq v (PStr "true") || loose_eq v (pint 1))
  end.

(** The configuration of a field, and the field made from it. *)
Record config := { fname : string; ftypename : option string; fsort : option (prim -> prim) }.
Record field := { name : string; type : ftype; sortType : prim -> prim; sortDir : string }.

Definition create (c : config) : field :=
  let t := match ftypename c with Some n => ftype_of n | None => AUTO end in
  {| name := fname c; type := t;
     sortType := match fsort c with Some f => f | None => type_sortType t end;
     sortDir := "ASC" |}.

Definition get (n : string) (fs : list field) : option field :=
  List.find (fun f => bool_decide (name f = n)) fs.

End Field.
