(* ===== verification/Selection.v ===== *)
(** * A grid in which one row can be selected

    The rows of an Ext store by their ids, as a grid with a RowSelectionModel of
    [singleSelect] shows them, and [Store.find], which the windows use to select
    a row again after the store was loaded. *)

From stdpp Require Import base list strings.
From Stdlib Require Import Lia.
From S2P Require Import Prelude JsString SortTypes.

Local Open Scope nat_scope.

Module Grid.
Section grid.
Context {R : Type}.

(** The records with their ids, in the order of the store, and the id of the
    record that is selected. *)
Record state := mk { rows : list (string * R); selected : option string }.
Definition empty : state := mk [] None.

Definition at_id (i : string) (g : state) : option R := (fun p => p.2.2) <$> list_find (fun r => r.1 = i) (rows g).
Definition getSelected (g : state) : option R := i ← selected g; at_id i g.

(** [loadData] with the [onRefresh] it calls: a selected record stays selected
    where its id is still there; whether [selectionchange] is fired. *)
Definition loadData (rs : list (string * R)) (g : state) : state * bool :=
  match selected g with
  | Some i => if decide (i ∈ rs.*1) then (mk rs (Some i), false) else (mk rs None, true)
  | None => (mk rs None, false)
  end.

(** [selectRow], which fires [selectionchange] where there is such a row. *)
Definition selectRow (i : nat) (g : state) : state * bool :=
  match rows g !! i with Some r => (mk (rows g) (Some r.1), true) | None => (g, false) end.

(** [Store.add], [Store.remove] with [onRemove], and [Store.removeAll] *)
Definition add (r : string * R) (g : state) : state := mk (rows g ++ [r]) (selected g).
Definition remove (i : string) (g : state) : state * bool :=
  let rs := filter (fun r => r.1 <> i) (rows g) in
  if decide (selected g = Some i) then (mk rs None, true) else (mk rs (selected g), false).

(** [Store.find]: the first row whose text begins with what is looked for, in
    whatever case. *)
Definition begins (value text : string) : bool := String.prefix (to_upper value) (to_upper text).
Definition find (text : R -> string) (value : string) (g : state) : option nat :=
  if decide (value = "") then None
  else fst <$> list_find (fun r => begins value (text r.2) = true) (rows g).

End grid.
Arguments state R : clear implicits.
End Grid.

(** ** Selecting again *)

Section grid.
Context {R : Type}.
Implicit Types (g : Grid.state R).

(** A selection in a grid is of one of its rows. *)
Definition grid_ok g : Prop := NoDup (Grid.rows g).*1 /\ forall i, Grid.selected g = Some i -> i ∈ (Grid.rows g).*1.

Lemma loadData_ok rs g : NoDup rs.*1 -> grid_ok (Grid.loadData rs g).1.
Proof.
  intros Hnd. unfold Grid.loadData. destruct (Grid.selected g) as [i|]; [destruct (decide _)|]; (split; [done|]); naive_solver.
Qed.

Lemma selectRow_ok i g : grid_ok g -> grid_ok (Grid.selectRow i g).1.
Proof.
  intros [Hnd Hs]. unfold Grid.selectRow. destruct (Grid.rows g !! i) as [[k r]|] eqn:E; [|done].
  split; [done|]. cbn. intros j [= <-]. by apply list_elem_of_lookup_2, (list_elem_of_fmap_2 fst) in E.
Qed.

Lemma at_id_elem g i : NoDup (Grid.rows g).*1 -> i ∈ (Grid.rows g).*1 -> exists r, Grid.at_id i g = Some r /\ (i, r) ∈ Grid.rows g.
Proof.
  intros Hnd Hi. unfold Grid.at_id. apply list_elem_of_fmap in Hi as ([k r] & -> & Hr). cbn.
  destruct (list_find_elem_of (fun r => r.1 = k) (Grid.rows g) (k, r) Hr eq_refl) as [[n [k' r']] Hf].
  rewrite Hf. cbn. apply list_find_Some in Hf as (Hl & Hk & _). cbn in Hk. subst.
  exists r'. split; [done|]. by apply list_elem_of_lookup_2 in Hl.
Qed.

(** What is looked for may be found in a row that only begins with it. *)
Lemma find_first text v g rs k r :
  Grid.rows g = (k, r) :: rs -> v <> "" -> Grid.begins v (text r) = true -> Grid.find text v g = Some 0.
Proof. intros Hr Hv Hb. unfold Grid.find. rewrite decide_False, Hr by done. cbn. by rewrite decide_True. Qed.

End grid.
