(* ===== verification/Store.v ===== *)
(** * Ext.data.Record and Ext.data.Store

    The heap the grid works on: plain objects, and the records that point to
    one.  A record made from an object keeps that object as its data, and an
    object may be reached from elsewhere, so both are references.  A store is
    a collection of records by id, the list of those that were modified, and
    how it is sorted.  The events a store fires repaint the grid, and are left
    out. *)

From stdpp Require Import base list strings gmap sorting sets.
From Stdlib Require Import Lia ZArith.
From S2P Require Import Prelude JsNum JsString JsValue SortTypes Collection.

(** An object of primitive values, by reference. *)
Notation object := (obj prim).

(** The fields of a record: [id], [data], [dirty], [editing], [phantom],
    [modified], and whether it has joined the store. *)
Record record := mkrec {
  id : string;
  data : loc;
  dirty : bool;
  editing : bool;
  phantom : bool;
  modified : option object;
  joined : bool
}.

Record state := mkstate {
  objs : gmap loc object;
  recs : gmap loc record;
  items : MC.coll loc;
  changed : list loc;
  sortInfo : option (string * string);
  sortToggle : obj string
}.

Definition with_objs (st : state) h := mkstate h (recs st) (items st) (changed st) (sortInfo st) (sortToggle st).
Definition with_recs (st : state) r := mkstate (objs st) r (items st) (changed st) (sortInfo st) (sortToggle st).
Definition with_items (st : state) c := mkstate (objs st) (recs st) c (changed st) (sortInfo st) (sortToggle st).
Definition with_changed (st : state) l := mkstate (objs st) (recs st) (items st) l (sortInfo st) (sortToggle st).
Definition with_sort (st : state) i t := mkstate (objs st) (recs st) (items st) (changed st) i t.

Definition object_at (st : state) (l : loc) : object := default [] (objs st !! l).
Definition norec : record := mkrec "" 1%positive false false false None false.
Definition record_at (st : state) (r : loc) : record := default norec (recs st !! r).

(** A new object, a new record. *)
Definition alloc (st : state) (o : object) : loc * state :=
  let l := fresh (dom (objs st)) in (l, with_objs st (<[l := o]> (objs st))).
Definition alloc_rec (st : state) (r : record) : loc * state :=
  let l := fresh (dom (recs st)) in (l, with_recs st (<[l := r]> (recs st))).
Definition upd (st : state) (r : loc) (f : record -> record) : state :=
  with_recs st (<[r := f (record_at st r)]> (recs st)).

(** A store with nothing in it. *)
Definition no_store : state := mkstate ∅ ∅ MC.empty [] None [].

Module Rec.

(** [Ext.data.Record(data)], made without an id, then given one *)
Definition create (st : state) (d : loc) (i : string) : loc * state :=
  alloc_rec st (mkrec i d false false true None false).

(** [join] *)
Definition join (j : bool) (r : record) : record :=
  mkrec (id r) (data r) (dirty r) (editing r) (phantom r) (modified r) j.

(** [get] *)
Definition get (st : state) (r : loc) (name : string) : prim :=
  pget name (object_at st (data (record_at st r))).

(** Whether two values have the same text: [String] of a value that is a
    string, a number or a boolean, and its JSON otherwise. *)
Definition same_text (old value : prim) : bool :=
  match value with
  | PUndef => bool_decide (old = PUndef)
  | PNull => match old with PNull => true | PNum n => negb (is_finite n) | _ => false end
  | _ => bool_decide (to_str old = to_str value)
  end.

(** [Store.afterEdit], called by [Record.afterEdit] of a joined record *)
Definition afterEdit (st : state) (r : loc) : state :=
  if joined (record_at st r) then
    if decide (r ∈ changed st) then st else with_changed st (changed st ++ [r])
  else st.

(** [set] *)
Definition set (st : state) (r : loc) (name : string) (value : prim) : state :=
  let o := record_at st r in
  let old := get st r name in
  if same_text old value then st
  else
    let m := default [] (modified o) in
    let m := if decide (pget name m = PUndef) then oset name old m else m in
    let st := upd st r (fun o => mkrec (id o) (data o) true (editing o) (phantom o) (Some m) (joined o)) in
    let st := with_objs st (<[data o := oset name value (object_at st (data o))]> (objs st)) in
    if editing o then st else afterEdit st r.

(** [beginEdit] and [endEdit] *)
Definition beginEdit (st : state) (r : loc) : state :=
  upd st r (fun o => mkrec (id o) (data o) (dirty o) true (phantom o)
                       (Some (default [] (modified o))) (joined o)).
Definition endEdit (st : state) (r : loc) : state :=
  let st := upd st r (fun o => mkrec (id o) (data o) (dirty o) false (phantom o) (modified o) (joined o)) in
  if dirty (record_at st r) then afterEdit st r else st.

(** [commit], with [Store.afterCommit] *)
Definition commit (st : state) (r : loc) : state :=
  let st := upd st r (fun o => mkrec (id o) (data o) false false (phantom o) None (joined o)) in
  if joined (record_at st r)
  then with_changed st (match MC.index_of r (changed st) with
                        | Some i => delete i (changed st) | None => changed st end)
  else st.

End Rec.

Module Store.

Definition getKey (st : state) (r : loc) : option string := Some (id (record_at st r)).

(** [getById], [getAt], [indexOf], [getCount], [each] *)
Definition getById (st : state) (i : string) : option loc := MC.key i (items st).
Definition getAt (st : state) (i : nat) : option loc := MC.itemAt i (items st).
Definition indexOf (st : state) (r : loc) : option nat := MC.indexOf r (items st).
Definition getCount (st : state) : nat := MC.getCount (items st).
Definition each {S} (st : state) (fn : S -> loc -> S * bool) (s : S) : S := MC.each (items st) fn s.

(** [add] *)
Definition join_new (st : state) (r : loc) : state :=
  let st := upd st r (Rec.join true) in
  if dirty (record_at st r) || phantom (record_at st r)
  then with_changed st (changed st ++ [r]) else st.
Definition add (st : state) (rs : list loc) : state :=
  match rs with
  | [] => st
  | _ => let st := foldl join_new st rs in
         with_items st (MC.addAll (getKey st) rs (items st))
  end.

(** [insert] of one record *)
Definition insert (st : state) (i : nat) (r : loc) : state :=
  let st := with_items st (MC.insert i (getKey st r) r (items st)) in join_new st r.

(** [remove] of one record *)
Definition remove (st : state) (r : loc) : state :=
  match MC.indexOf r (items st) with
  | Some i => let st := upd st r (Rec.join false) in with_items st (MC.removeAt (Some i) (items st))
  | None => st
  end.
Definition removeAt (st : state) (i : nat) : state :=
  match getAt st i with Some r => remove st r | None => st end.

(** [clearData] and [removeAll] *)
Definition clearData (st : state) : state :=
  let st := MC.each (items st) (fun st r => (upd st r (Rec.join false), true)) st in
  with_items st (MC.clear (items st)).
Definition removeAll (st : state) : state := clearData st.

(** [commitChanges] *)
Definition commitChanges (st : state) : state :=
  with_changed (foldl Rec.commit st (changed st)) [].

(** [createSortFunction]: the sign of the comparison, by the field's sort
    type, times the direction. *)
Definition dir_sign (dir : string) : Z := if decide (to_upper dir = "DESC") then (-1)%Z else 1%Z.
Definition compare_by (sortType : prim -> prim) (v1 v2 : prim) : Z :=
  let v1 := sortType v1 in let v2 := sortType v2 in
  if prim_ltb v2 v1 then 1%Z else if prim_ltb v1 v2 then (-1)%Z else 0%Z.
Definition createSortFunction (st : state) (f : Field.field) (dir : string) (r1 r2 : loc) : Z :=
  (dir_sign dir * compare_by (Field.sortType f) (Rec.get st r1 (Field.name f)) (Rec.get st r2 (Field.name f)))%Z.

(** [sortData]: the function made for the direction is multiplied by the
    direction, and sorted in that direction. *)
Definition sortData (st : state) (f : Field.field) (dir : string) : state :=
  let fn r1 r2 := (dir_sign dir * createSortFunction st f dir r1 r2)%Z in
  with_items st (MC.sort (bool_decide (to_upper dir = "DESC")) fn (items st)).

Definition getSortState (st : state) : option (string * string) := sortInfo st.

(** [sort] by one field of the store's [fields]: [singleSort]; an empty
    direction toggles the one the field was last sorted in. *)
Definition toggle (d : string) : string := if decide (d = "ASC") then "DESC" else "ASC".
Definition sort (fields : list Field.field) (st : state) (fieldName dir : string) : state :=
  match Field.get fieldName fields with
  | None => st
  | Some f =>
      let dir :=
        if decide (dir = "") then
          match sortInfo st with
          | Some (f', _) =>
              if decide (f' = fieldName)
              then toggle (match oget fieldName (sortToggle st) with
                           | Some d => if decide (d = "") then "ASC" else d | None => "ASC" end)
              else Field.sortDir f
          | None => Field.sortDir f
          end
        else dir in
      let st := with_sort st (Some (fieldName, dir)) (oset fieldName dir (sortToggle st)) in
      sortData st f dir
  end.

End Store.

(** ** Records *)

Lemma same_text_refl v : Rec.same_text v v = true.
Proof. destruct v; simpl; try done; by apply bool_decide_eq_true. Qed.

(** Two states with the same records, holding the same data under the same
    ids, and the same items: what editing keeps. *)
Record same_refs (st st' : state) : Prop := {
  sr_items : items st' = items st;
  sr_sort : sortInfo st' = sortInfo st;
  sr_recs : forall r, is_Some (recs st' !! r) <-> is_Some (recs st !! r);
  sr_id : forall r, id (record_at st' r) = id (record_at st r);
  sr_data : forall r, data (record_at st' r) = data (record_at st r);
  sr_objs : forall l, is_Some (objs st !! l) -> is_Some (objs st' !! l);
  sr_changed : forall r, r ∈ changed st' -> r ∈ changed st \/ is_Some (recs st !! r)
}.

#[export] Instance same_refs_refl : Reflexive same_refs.
Proof. split; auto. Qed.

#[export] Instance same_refs_trans : Transitive same_refs.
Proof.
  intros a b c [H1 H2 H3 H4 H5 H6 H7] [K1 K2 K3 K4 K5 K6 K7]. split; intros; try congruence.
  - by rewrite K3, H3.
  - by apply K6, H6.
  - destruct (K7 r ltac:(done)) as [|]; [by apply H7|]. right. by apply H3.
Qed.

(** The list of modified records may change, to records there are. *)
Lemma changed_refs st l :
  (forall r, r ∈ l -> r ∈ changed st \/ is_Some (recs st !! r)) -> same_refs st (with_changed st l).
Proof. split; simpl; auto. Qed.

(** Changing the flags of a record. *)
Lemma upd_refs st r f :
  is_Some (recs st !! r) ->
  id (f (record_at st r)) = id (record_at st r) -> data (f (record_at st r)) = data (record_at st r) ->
  same_refs st (upd st r f).
Proof.
  intros Hr Hi Hd. split; simpl; try done.
  - intros r'. destruct (decide (r' = r)) as [->|]; simplify_map_eq; [|done].
    split; intros; [done|by eexists].
  - intros r'. unfold record_at. simpl. destruct (decide (r' = r)) as [->|]; by simplify_map_eq.
  - intros r'. unfold record_at. simpl. destruct (decide (r' = r)) as [->|]; by simplify_map_eq.
  - auto.
Qed.

Lemma afterEdit_refs st r : is_Some (recs st !! r) -> same_refs st (Rec.afterEdit st r).
Proof.
  intros Hr. unfold Rec.afterEdit. repeat case_match; try reflexivity.
  apply changed_refs. intros q. rewrite elem_of_app, list_elem_of_singleton. naive_solver.
Qed.

Lemma afterEdit_objs st r : objs (Rec.afterEdit st r) = objs st.
Proof. unfold Rec.afterEdit. by repeat case_match. Qed.

Lemma beginEdit_refs st r : is_Some (recs st !! r) -> same_refs st (Rec.beginEdit st r).
Proof. intros. by apply upd_refs. Qed.

Lemma endEdit_refs st r : is_Some (recs st !! r) -> same_refs st (Rec.endEdit st r).
Proof.
  intros Hr. unfold Rec.endEdit. set (st1 := upd st r _).
  transitivity st1; [by apply upd_refs|]. case_match; [|reflexivity].
  apply afterEdit_refs. simpl. rewrite lookup_insert_eq. by eexists.
Qed.

Lemma endEdit_objs st r : objs (Rec.endEdit st r) = objs st.
Proof. unfold Rec.endEdit. case_match; by rewrite ?afterEdit_objs. Qed.

(** What [set] does to the data of its record, and that it is all it does to
    the heap. *)
Lemma set_refs st r k v : is_Some (recs st !! r) -> same_refs st (Rec.set st r k v).
Proof.
  intros Hr. unfold Rec.set. case_match; [reflexivity|].
  set (st1 := upd st r _). set (st2 := with_objs st1 _).
  assert (Hs : same_refs st st2).
  { transitivity st1; [by apply upd_refs|]. split; auto. intros l [o Ho]. simpl.
    destruct (decide (l = data (record_at st r))) as [->|]; simplify_map_eq; by eexists. }
  case_match; [done|]. etransitivity; [done|]. apply afterEdit_refs. by apply Hs.
Qed.

Lemma set_objs_ne st r k v l :
  l <> data (record_at st r) -> objs (Rec.set st r k v) !! l = objs st !! l.
Proof.
  intros Hl. unfold Rec.set. case_match; [done|].
  case_match; rewrite ?afterEdit_objs; simpl; by rewrite lookup_insert_ne.
Qed.

Lemma set_get st r k v j :
  is_Some (recs st !! r) ->
  Rec.get (Rec.set st r k v) r j =
    if Rec.same_text (Rec.get st r k) v then Rec.get st r j
    else if decide (j = k) then v else Rec.get st r j.
Proof.
  intros Hr. destruct (Rec.same_text (Rec.get st r k) v) eqn:E; unfold Rec.set; rewrite E; [done|].
  set (st1 := upd st r _). set (st2 := with_objs st1 _).
  assert (Hd : data (record_at st2 r) = data (record_at st r)).
  { unfold st2, st1, upd, with_objs, with_recs, record_at. simpl. by simplify_map_eq. }
  assert (H : Rec.get st2 r j = if decide (j = k) then v else Rec.get st r j).
  { unfold Rec.get. rewrite Hd. unfold object_at at 1. unfold st2. simpl. rewrite lookup_insert_eq.
    simpl. unfold pget. rewrite oget_oset. by case_decide. }
  destruct (editing (record_at st r)); [exact H|]. rewrite <- H. unfold Rec.get.
  rewrite (sr_data _ _ (afterEdit_refs st2 r ltac:(simpl; rewrite lookup_insert_eq; by eexists))). unfold object_at. by rewrite afterEdit_objs.
Qed.

Lemma commit_refs st r : is_Some (recs st !! r) -> same_refs st (Rec.commit st r).
Proof.
  intros Hr. unfold Rec.commit. set (st1 := upd st r _).
  transitivity st1; [by apply upd_refs|]. case_match; [|reflexivity].
  apply changed_refs. intros q Hq. left. case_match; [|done].
  revert Hq. apply sublist_subseteq, sublist_delete.
Qed.

Lemma commit_objs st r : objs (Rec.commit st r) = objs st.
Proof. unfold Rec.commit. by case_match. Qed.

(** ** Well-formed stores *)

(** Every record of the store is there once, under its own id. *)
Record store_ok (st : state) : Prop := {
  so_coll : coll_ok (items st);
  so_nodup : NoDup (MC.items (items st));
  so_keyed : forall r, r ∈ MC.items (items st) -> MC.key (id (record_at st r)) (items st) = Some r;
  so_recs : forall k r, MC.key k (items st) = Some r -> is_Some (recs st !! r) /\ id (record_at st r) = k;
  so_changed : forall r, r ∈ changed st -> is_Some (recs st !! r)
}.

(** What making a record or editing one keeps: the items, and of every record
    that was there its id and its data. *)
Record keeps (st st' : state) : Prop := {
  k_items : items st' = items st;
  k_sort : sortInfo st' = sortInfo st;
  k_recs : forall r, is_Some (recs st !! r) ->
    is_Some (recs st' !! r) /\ id (record_at st' r) = id (record_at st r) /\
    data (record_at st' r) = data (record_at st r);
  k_objs : forall l, is_Some (objs st !! l) -> is_Some (objs st' !! l);
  k_changed : forall r, r ∈ changed st' -> r ∈ changed st \/ is_Some (recs st' !! r)
}.

#[export] Instance keeps_refl : Reflexive keeps.
Proof. split; auto. Qed.

#[export] Instance keeps_trans : Transitive keeps.
Proof.
  intros a b c [H1 H2 H3 H4 H5] [K1 K2 K3 K4 K5]. split; try congruence; auto.
  - intros r Hr. destruct (H3 r Hr) as (Hb & E1 & E2). destruct (K3 r Hb) as (Hc & E3 & E4).
    split_and!; [done|congruence..].
  - intros r Hr. destruct (K5 r Hr) as [Hb|]; [|by right]. destruct (H5 r Hb); [by left|right]. by apply K3.
Qed.

Lemma refs_keeps st st' : same_refs st st' -> keeps st st'.
Proof.
  intros [H1 H2 H3 H4 H5 H6 H7]. split; auto.
  - intros r Hr. split_and!; auto. by apply H3.
  - intros r Hr. destruct (H7 r Hr); [by left|right]. by apply H3.
Qed.

Lemma create_keeps st d i : keeps st (Rec.create st d i).2.
Proof.
  split; simpl; auto. intros r [x Hr]. unfold record_at. simpl.
  assert (r <> fresh (dom (recs st))).
  { intros ->. apply (is_fresh (dom (recs st))). by apply elem_of_dom_2 in Hr. }
  rewrite lookup_insert_ne by done. rewrite Hr. by split_and!.
Qed.

(** A record just made is new, has its id and points to its object. *)
Lemma create_new st d i :
  let '(r, st') := Rec.create st d i in
  recs st !! r = None /\ is_Some (recs st' !! r) /\ id (record_at st' r) = i /\
  data (record_at st' r) = d /\ objs st' = objs st.
Proof.
  simpl. unfold record_at. simpl. rewrite lookup_insert_eq. split_and!; try done.
  apply not_elem_of_dom, is_fresh.
Qed.

Lemma item_key st r :
  store_ok st -> r ∈ MC.items (items st) <-> exists k, MC.key k (items st) = Some r.
Proof.
  intros Hs. split; [intros Hr; eexists; by apply so_keyed|].
  intros [k (i & _ & H)%(ok_map _ (so_coll _ Hs))]. by eapply list_elem_of_lookup_2.
Qed.

Lemma item_recs st r : store_ok st -> r ∈ MC.items (items st) -> is_Some (recs st !! r).
Proof. intros Hs [k Hk]%item_key; [|done]. by apply (so_recs _ Hs) in Hk as [? _]. Qed.

Lemma keeps_ok st st' : keeps st st' -> store_ok st -> store_ok st'.
Proof.
  intros [H1 _ H3 _ H5] Hs. pose proof Hs as [Hc Hn Hk Hr Hch].
  split; rewrite ?H1; try done.
  - intros r Hin. destruct (H3 r (item_recs _ _ Hs Hin)) as (_ & -> & _). by apply Hk.
  - intros k r Hkr. destruct (Hr k r Hkr) as [Hx <-]. destruct (H3 r Hx) as (? & -> & _). done.
  - intros r Hr'. destruct (H5 r Hr') as [Hin|]; [|done]. by apply H3, Hch.
Qed.

(** ** Adding, removing, sorting *)

(** Joining records to the store. *)
Lemma join_new_refs st r : is_Some (recs st !! r) -> same_refs st (Store.join_new st r).
Proof.
  intros Hr. unfold Store.join_new. set (st1 := upd st r _).
  transitivity st1; [by apply upd_refs|]. case_match; [|reflexivity].
  apply changed_refs. intros q. rewrite elem_of_app, list_elem_of_singleton. intros [?| ->]; [by left|right].
  simpl. rewrite lookup_insert_eq. by eexists.
Qed.

Lemma join_new_objs st r : objs (Store.join_new st r) = objs st.
Proof. unfold Store.join_new. by case_match. Qed.

Lemma join_all_refs rs st :
  (forall r, r ∈ rs -> is_Some (recs st !! r)) ->
  same_refs st (foldl Store.join_new st rs) /\ objs (foldl Store.join_new st rs) = objs st.
Proof.
  revert st. induction rs as [|r rs IH]; intros st Hr; simpl; [done|].
  pose proof (join_new_refs st r ltac:(apply Hr; by left)) as H.
  destruct (IH (Store.join_new st r)) as [H1 H2].
  { intros r' Hr'. apply H, Hr. by right. }
  split; [by etransitivity|]. by rewrite H2, join_new_objs.
Qed.

(** Adding items whose ids are new and distinct appends them. *)
Lemma addAll_new (f : loc -> string) rs c :
  NoDup (f <$> rs) -> (forall r, r ∈ rs -> MC.key (f r) c = None) ->
  MC.items (MC.addAll (fun r => Some (f r)) rs c) = MC.items c ++ rs /\
  forall k r, MC.key k (MC.addAll (fun r => Some (f r)) rs c) = Some r <->
    MC.key k c = Some r \/ (r ∈ rs /\ f r = k).
Proof.
  revert c. induction rs as [|r rs IH]; intros c Hn Hk.
  - simpl. rewrite app_nil_r. split; [done|]. set_solver.
  - change (MC.addAll ?g (r :: rs) c) with (MC.addAll g rs (MC.add (g r) r c)). cbv beta.
    apply NoDup_cons in Hn as [Hr Hn].
    assert (Hkr : MC.key (f r) c = None) by (apply Hk; by left).
    destruct (IH (MC.add (Some (f r)) r c) Hn) as [Hi Hkey].
    { intros r' Hr'. rewrite key_add. rewrite decide_False; [apply Hk; by right|].
      intros E. apply Hr. rewrite <- E. by apply list_elem_of_fmap_2. }
    rewrite Hi, items_add_new by done. split; [by rewrite <- app_assoc|].
    intros k r'. rewrite Hkey, key_add, elem_of_cons. destruct (decide (k = f r)) as [->|Hne]; [|naive_solver].
    rewrite Hkr. split; [naive_solver|]. intros [?|[[->|Hin] E]]; [done|by left|].
    exfalso. apply Hr. rewrite <- E. by apply list_elem_of_fmap_2.
Qed.

(** [add] of new records: the store has them under their ids, and what it had. *)
Lemma add_new st rs :
  store_ok st -> NoDup ((fun r => id (record_at st r)) <$> rs) ->
  (forall r, r ∈ rs -> is_Some (recs st !! r) /\ r ∉ MC.items (items st) /\
                       MC.key (id (record_at st r)) (items st) = None) ->
  let st' := Store.add st rs in
  store_ok st' /\ objs st' = objs st /\ sortInfo st' = sortInfo st /\
  (forall r, is_Some (recs st !! r) ->
     is_Some (recs st' !! r) /\ id (record_at st' r) = id (record_at st r) /\
     data (record_at st' r) = data (record_at st r)) /\
  (forall k r, Store.getById st' k = Some r <->
     Store.getById st k = Some r \/ (r ∈ rs /\ id (record_at st r) = k)).
Proof.
  intros Hs Hn Hrs. unfold Store.add, Store.getById. destruct rs as [|r0 rs0].
  { simpl. split_and!; try done. set_solver. }
  set (rs := r0 :: rs0) in *. clearbody rs.
  destruct (join_all_refs rs st) as [H1 H2]; [intros r Hr; by apply Hrs|].
  set (st1 := foldl Store.join_new st rs) in *.
  assert (Hid : forall r, id (record_at st1 r) = id (record_at st r)) by apply H1.
  destruct (addAll_new (fun r => id (record_at st1 r)) rs (items st1)) as [Hi Hk].
  { erewrite list_fmap_ext; [exact Hn|]. intros i r _. by rewrite Hid. }
  { intros r Hr. rewrite Hid, (sr_items _ _ H1). by apply Hrs. }
  rewrite (sr_items _ _ H1) in Hi, Hk.
  pose proof Hs as [Hc Hnd Hkd Hr Hch]. cbn [items objs sortInfo].
  split_and!; [|exact H2|apply H1| |].
  - split; cbn [items with_items].
    + apply addAll_ok. by rewrite (sr_items _ _ H1).
    + change (Store.getKey st1) with (fun r => Some (id (record_at st1 r))).
      rewrite (sr_items _ _ H1), Hi. apply NoDup_app. split_and!; [done| |].
      * intros r Hin Hin'. by apply (Hrs r Hin').
      * by apply NoDup_fmap_1 in Hn.
    + change (Store.getKey st1) with (fun r => Some (id (record_at st1 r))).
      rewrite (sr_items _ _ H1). intros r. rewrite Hi, elem_of_app, Hk. unfold record_at. simpl.
      fold (record_at st1 r). rewrite Hid. intros [Hin|Hin]; [left; by apply Hkd|by right].
    + change (Store.getKey st1) with (fun r => Some (id (record_at st1 r))).
      rewrite (sr_items _ _ H1). intros k r. rewrite Hk. unfold record_at. simpl.
      fold (record_at st1 r). rewrite Hid, (sr_recs _ _ H1).
      intros [Hin|[Hin <-]]; [by apply Hr|]. split; [by apply Hrs|done].
    + intros r Hin. simpl in *. rewrite (sr_recs _ _ H1).
      destruct (sr_changed _ _ H1 r Hin); [by apply Hch|done].
  - intros r Hx. simpl. rewrite (sr_recs _ _ H1). unfold record_at. simpl. fold (record_at st1 r).
    rewrite Hid. split_and!; [done..|]. apply (sr_data _ _ H1).
  - intros k r. cbn [with_items items]. change (Store.getKey st1) with (fun r => Some (id (record_at st1 r))).
    rewrite (sr_items _ _ H1), Hk. by rewrite Hid.
Qed.

(** [remove]: the record's id answers nothing, every other what it did. *)
Lemma remove_spec st r :
  store_ok st ->
  let st' := Store.remove st r in
  store_ok st' /\ objs st' = objs st /\ sortInfo st' = sortInfo st /\
  (forall q, id (record_at st' q) = id (record_at st q) /\ data (record_at st' q) = data (record_at st q)) /\
  (forall k, Store.getById st' k =
     if decide (Store.getById st k = Some r) then None else Store.getById st k) /\
  MC.items (items st') = filter (fun x => x <> r) (MC.items (items st)).
Proof.
  intros Hs. pose proof Hs as [Hc Hnd Hkd Hr Hch].
  unfold Store.remove, Store.getById.
  pose proof (items_remove (items st) r Hc Hnd) as Hi. unfold MC.remove in Hi.
  pose proof (fun k => key_remove (items st) k r Hc Hnd) as Hk. unfold MC.remove in Hk.
  destruct (MC.indexOf r (items st)) as [i|] eqn:E.
  - assert (Hin : r ∈ MC.items (items st)).
    { unfold MC.indexOf in E. apply index_of_Some in E. by eapply list_elem_of_lookup_2. }
    pose proof (upd_refs st r (Rec.join false) (item_recs _ _ Hs Hin) eq_refl eq_refl) as H1.
    set (st1 := upd st r _) in *.
    assert (Hid : forall q, id (record_at st1 q) = id (record_at st q)) by apply H1.
    change (items st1) with (items st). split_and!; try done; [|intros q; split; apply H1].
    split; cbn [with_items items].
    + by apply removeAt_ok.
    + rewrite Hi. by apply NoDup_filter.
    + intros q. rewrite Hi, list_elem_of_filter. intros [Hne Hq]. rewrite Hk.
      change (record_at (with_items st1 ?c) q) with (record_at st1 q). rewrite Hid, Hkd by done.
      rewrite decide_False; [done|]. congruence.
    + intros k q. rewrite Hk. change (record_at (with_items st1 ?c) q) with (record_at st1 q).
      cbn [with_items recs]. rewrite Hid, (sr_recs _ _ H1). case_decide; [done|]. apply Hr.
    + intros q Hq. simpl in Hq. cbn [with_items recs]. rewrite (sr_recs _ _ H1). by apply Hch.
  - split_and!; try done.
Qed.

(** [insert] of a new record: the store has it at its place, under its id. *)
Lemma insert_new st i r :
  store_ok st -> is_Some (recs st !! r) -> r ∉ MC.items (items st) ->
  MC.key (id (record_at st r)) (items st) = None ->
  let st' := Store.insert st i r in
  store_ok st' /\ objs st' = objs st /\
  MC.items (items st') = take i (MC.items (items st)) ++ r :: drop i (MC.items (items st)) /\
  (forall q, id (record_at st' q) = id (record_at st q) /\ data (record_at st' q) = data (record_at st q)) /\
  (forall q, is_Some (recs st' !! q) <-> is_Some (recs st !! q)) /\
  (forall k, Store.getById st' k = if decide (k = id (record_at st r)) then Some r else Store.getById st k).
Proof.
  intros Hs Hr Hn Hk. unfold Store.insert, Store.getById. cbv zeta.
  set (c := MC.insert i (Store.getKey st r) r (items st)). set (st1 := with_items st c).
  pose proof (join_new_refs st1 r Hr) as H1. pose proof (join_new_objs st1 r) as H2.
  set (st' := Store.join_new st1 r) in *.
  assert (Hc : c = _) by exact (insert_new_eq (items st) i (id (record_at st r)) r (so_coll _ Hs) Hk).
  assert (Hok : coll_ok c) by by apply insert_new_ok; [apply Hs|..].
  assert (Hit : MC.items c = take i (MC.items (items st)) ++ r :: drop i (MC.items (items st))) by by rewrite Hc.
  assert (Hkey : forall k, MC.key k c = if decide (k = id (record_at st r)) then Some r else MC.key k (items st)).
  { intros k. rewrite Hc. apply oget_oset. }
  assert (Hid : forall q, id (record_at st' q) = id (record_at st q)) by apply H1.
  assert (Hpe : MC.items c ≡ₚ r :: MC.items (items st)).
  { rewrite Hit, <- Permutation_middle, take_drop. done. }
  pose proof Hs as [_ Hnd Hkd Hrec Hch].
  split_and!.
  - split; rewrite ?(sr_items _ _ H1); try change (items st1) with c.
    + done.
    + rewrite Hpe. by constructor.
    + intros q Hq. rewrite Hid, Hkey. rewrite Hpe in Hq.
      apply elem_of_cons in Hq as [->|Hq]; [by rewrite decide_True|].
      rewrite decide_False; [by apply Hkd|]. intros E. pose proof (Hkd q Hq) as Hx. rewrite E in Hx. congruence.
    + intros k q. rewrite Hkey, Hid, (sr_recs _ _ H1). case_decide as E; [|apply Hrec].
      intros [= <-]. done.
    + intros q Hq. apply (sr_recs _ _ H1). destruct (sr_changed _ _ H1 q Hq); [by apply Hch|done].
  - by rewrite H2.
  - by rewrite (sr_items _ _ H1).
  - intros q. split; [done|apply H1].
  - intros q. apply H1.
  - intros k. by rewrite (sr_items _ _ H1).
Qed.


(** [commitChanges] keeps everything but the flags of the records. *)
Lemma commitChanges_keeps st :
  (forall r, r ∈ changed st -> is_Some (recs st !! r)) ->
  same_refs st (Store.commitChanges st) /\ objs (Store.commitChanges st) = objs st /\
  changed (Store.commitChanges st) = [].
Proof.
  intros Hch. unfold Store.commitChanges.
  assert (H : forall rs st, (forall r, r ∈ rs -> is_Some (recs st !! r)) ->
    same_refs st (foldl Rec.commit st rs) /\ objs (foldl Rec.commit st rs) = objs st).
  { clear. induction rs as [|r rs IH]; intros st Hr; simpl; [done|].
    pose proof (commit_refs st r ltac:(apply Hr; by left)) as H.
    destruct (IH (Rec.commit st r)) as [H1 H2].
    { intros q Hq. apply H, Hr. by right. }
    split; [by etransitivity|]. by rewrite H2, commit_objs. }
  destruct (H _ _ Hch) as [H1 H2]. split_and!; [|done..].
  etransitivity; [exact H1|]. apply changed_refs. intros r Hr. by apply elem_of_nil in Hr.
Qed.

(** [sort] moves the records and changes nothing else. *)
Lemma sort_spec fields st f d :
  store_ok st ->
  let st' := Store.sort fields st f d in
  store_ok st' /\ objs st' = objs st /\ recs st' = recs st /\ changed st' = changed st /\
  (forall k, Store.getById st' k = Store.getById st k) /\
  MC.items (items st') ≡ₚ MC.items (items st).
Proof.
  intros Hs. unfold Store.sort. destruct (Field.get f fields) as [fd|]; [|done].
  set (st1 := with_sort st _ _). unfold Store.sortData.
  set (fn := fun r1 r2 => _). change (items st1) with (items st).
  set (dsc := bool_decide _). clearbody fn dsc.
  pose proof (sort_items (items st) dsc fn (so_coll _ Hs)) as Hp.
  pose proof Hs as [Hc Hnd Hkd Hr Hch].
  split_and!; try done. split; cbn [with_items items].
  - by apply sort_ok.
  - by rewrite Hp.
  - intros r. rewrite Hp, sort_key. apply Hkd.
  - intros k r. rewrite sort_key. apply Hr.
  - done.
Qed.

(** Sorting on a field whose values compare as their ranks orders the records
    by rank, in the direction asked; the direction, which the code multiplies
    in three times, counts once. *)
Lemma sort_by_rank fields st f fd dir (rank : loc -> Z) :
  store_ok st -> Field.get f fields = Some fd -> dir <> "" ->
  (forall r1 r2, r1 ∈ MC.items (items st) -> r2 ∈ MC.items (items st) ->
     sign_of (Store.compare_by (Field.sortType fd) (Rec.get st r1 (Field.name fd)) (Rec.get st r2 (Field.name fd)))
       (rank r1) (rank r2)) ->
  StronglySorted (fun r1 r2 => if bool_decide (to_upper dir = "DESC") then (rank r2 <= rank r1)%Z
                               else (rank r1 <= rank r2)%Z)
    (MC.items (items (Store.sort fields st f dir))).
Proof.
  intros Hs Hf Hd Hr. unfold Store.sort. rewrite Hf, decide_False by done.
  apply sort_ranked; [apply Hs|]. intros r1 r2 H1 H2. unfold Store.createSortFunction.
  match goal with |- sign_of (_ * (_ * ?c)) _ _ =>
    replace (Store.dir_sign dir * (Store.dir_sign dir * c))%Z with c
      by (unfold Store.dir_sign; case_decide; lia)
  end.
  by apply Hr.
Qed.

(** [removeAll] leaves an empty store, and every object as it was. *)
Lemma removeAll_spec st :
  store_ok st ->
  let st' := Store.removeAll st in
  store_ok st' /\ objs st' = objs st /\ (forall k, Store.getById st' k = None) /\
  (forall r, r ∈ changed st' -> is_Some (recs st' !! r)).
Proof.
  intros Hs. unfold Store.removeAll, Store.clearData, MC.each.
  assert (H : forall l st, (forall r, r ∈ l -> is_Some (recs st !! r)) ->
    same_refs st (MC.each_go l (fun st r => (upd st r (Rec.join false), true)) st) /\
    objs (MC.each_go l (fun st r => (upd st r (Rec.join false), true)) st) = objs st).
  { clear. induction l as [|r l IH]; intros st Hr; simpl; [done|].
    pose proof (upd_refs st r (Rec.join false) ltac:(apply Hr; by left) eq_refl eq_refl) as H.
    destruct (IH (upd st r (Rec.join false))) as [H1 H2].
    { intros q Hq. apply H, Hr. by right. }
    split; [by etransitivity|done]. }
  destruct (H (MC.items (items st)) st) as [H1 H2].
  { intros r Hr. by apply item_recs. }
  set (st1 := MC.each_go _ _ _) in *. clearbody st1.
  assert (Hch : forall r, r ∈ changed st1 -> is_Some (recs st1 !! r)).
  { intros r Hr. rewrite (sr_recs _ _ H1).
    destruct (sr_changed _ _ H1 r Hr); [by apply Hs|done]. }
  split_and!; try done. split; cbn [with_items items].
  - apply empty_ok.
  - apply NoDup_nil_2.
  - intros r Hr. by apply elem_of_nil in Hr.
  - done.
  - done.
Qed.
