(* ===== verification/TorrentGrid.v ===== *)
(** * Deluge.TorrentGrid: the list of torrents

    The state behind the grid and what moves it: a poll's answer drawn into
    the store, a difference folded into the list last received, the labels
    hidden from the view, the torrents removed.  The columns and how a cell is
    drawn are in [GridColumns]. *)

From stdpp Require Import base list strings gmap sets.
From Stdlib Require Import Lia ZArith.
From S2P Require Import Prelude JsNum JsString JsValue ExtCore SortTypes Collection Store.

Module Grid.

(** The torrents of an answer: an object per id, by reference. *)
Notation torrents_map := (obj loc).

(** [store]; [torrents], the ids the store has; [lastTorrents]; [hiddenLabels]
    and [labelChoices]. *)
Record state := mk {
  store : Store.state;
  torrents : obj Z;
  lastTorrents : option torrents_map;
  hiddenLabels : obj bool;
  labelChoices : obj bool
}.

Definition with_store (g : state) s := mk s (torrents g) (lastTorrents g) (hiddenLabels g) (labelChoices g).
Definition with_torrents (g : state) t := mk (store g) t (lastTorrents g) (hiddenLabels g) (labelChoices g).
Definition with_last (g : state) l := mk (store g) (torrents g) l (hiddenLabels g) (labelChoices g).
Definition with_hidden (g : state) h c := mk (store g) (torrents g) (lastTorrents g) h c.

(** *** The answer of the server as fresh objects *)

Fixpoint parse (s : Store.state) (answer : obj object) : Store.state * torrents_map :=
  match answer with
  | [] => (s, [])
  | (t, o) :: answer' =>
      let '(l, s) := Store.alloc s o in
      let '(s, m) := parse s answer' in (s, (t, l) :: m)
  end.

(** *** [merge] *)

(** [for (var key in fields) all[id][key] = fields[key]] *)
Definition fold_fields (s : Store.state) (into fields : loc) : Store.state :=
  foldl (fun s key =>
           with_objs s (<[into := oset key (pget key (object_at s fields)) (object_at s into)]> (objs s)))
    s (okeys (object_at s fields)).

Definition merge_one (changed : torrents_map) (sa : Store.state * torrents_map) (id : string)
    : Store.state * torrents_map :=
  let '(s, all) := sa in
  match oget id changed with
  | None => (s, all)
  | Some fields =>
      match oget id all with
      | None => (s, oset id fields all)
      | Some into => (fold_fields s into fields, all)
      end
  end.

(** [merge]: the list last received is changed where it stands, so the grid
    holds the result already if it held a list. *)
Definition merge (g : state) (changed : torrents_map) (removed : list string) : state * torrents_map :=
  let all := default [] (lastTorrents g) in
  let all := Ext.each removed (fun all id _ => (odel id all, true)) all in
  let '(s, all) := foldl (merge_one changed) (store g, all) (okeys changed) in
  let g := with_store g s in
  (match lastTorrents g with Some _ => with_last g (Some all) | None => g end, all).

(** *** [withoutHiddenLabels] *)

(** [torrents[id]['label'] || ''] *)
Definition label_of (s : Store.state) (l : loc) : prim :=
  let v := pget "label" (object_at s l) in if truthy v then v else PStr "".

Definition is_hidden (hidden : obj bool) (label : prim) : bool := default false (oget (to_str label) hidden).

(** Given the label asked for in the sidebar, if one is. *)
Definition withoutHiddenLabels (g : state) (asked : option string) (ts : option torrents_map)
    : option torrents_map :=
  let any := existsb (fun name => default false (oget name (hiddenLabels g))) (okeys (hiddenLabels g)) in
  match ts with
  | Some ts' =>
      if any then
        Some (foldl (fun kept id =>
                match oget id ts' with
                | Some l =>
                    let label := label_of (store g) l in
                    if negb (is_hidden (hiddenLabels g) label)
                       || match asked with Some a => strict_eq label (PStr a) | None => false end
                    then oset id l kept else kept
                | None => kept
                end) [] (okeys ts'))
      else ts
  | None => None
  end.

(** *** [update] *)

(** A torrent that has a record: its fields that differ are set. *)
Definition edit_field (r l : loc) (s : Store.state) (k : string) : Store.state :=
  let v := pget k (object_at s l) in
  if loose_eq (Rec.get s r k) v then s else Rec.set s r k v.
Definition edit (s : Store.state) (r l : loc) : Store.state :=
  let s := Rec.beginEdit s r in
  let s := foldl (edit_field r l) s (okeys (object_at s l)) in
  Rec.endEdit s r.

(** One turn of the loop: the store, the known ids, and the records made.
    [None] is the [TypeError] of a known id that has no record. *)
Definition update_one (ts : torrents_map) (acc : Store.state * obj Z * list loc) (t : string)
    : option (Store.state * obj Z * list loc) :=
  let '(s, known, news) := acc in
  match oget t ts with
  | None => Some acc
  | Some l =>
      match oget t known with
      | Some _ => r ← Store.getById s t; Some (edit s r l, known, news)
      | None => let '(r, s) := Rec.create s l t in Some (s, oset t 1%Z known, news ++ [r])
      end
  end.

Fixpoint update_all (ts : torrents_map) (ids : list string) (acc : Store.state * obj Z * list loc)
    : option (Store.state * obj Z * list loc) :=
  match ids with
  | [] => Some acc
  | t :: ids' => acc ← update_one ts acc t; update_all ts ids' acc
  end.

(** The records of torrents that were not in the answer are removed. *)
Definition remove_one (ts : torrents_map) (sk : Store.state * obj Z) (r : loc) : (Store.state * obj Z) * bool :=
  let '(s, known) := sk in
  let i := Store.id (record_at s r) in
  match oget i ts with
  | Some _ => ((s, known), true)
  | None => ((Store.remove s r, odel i known), true)
  end.

Section update.
(** The fields of the store, and the label the sidebar asks for. *)
Variable fields : list Field.field.
Variable asked : option string.

(** [update]; [None] is a [TypeError]: a known id without a record, or no list
    at all while the store has records. *)
Definition update (g : state) (ts : option torrents_map) (wipe : bool) : option state :=
  let g := with_last g ts in
  let shown := withoutHiddenLabels g asked ts in
  let g := if wipe then with_torrents (with_store g (Store.removeAll (store g))) [] else g in
  let ids := match shown with Some m => okeys m | None => [] end in
  '(s, known, news) ← update_all (default [] shown) ids (store g, torrents g, []);
  let s := Store.add s news in
  if negb (bool_decide (is_Some shown)) && negb (Store.getCount s =? 0)%nat then None
  else
    let '(s, known) := Store.each s (remove_one (default [] shown)) (s, known) in
    let s := Store.commitChanges s in
    let s := match Store.getSortState s with
             | Some (f, d) => Store.sort fields s f d
             | None => s
             end in
    Some (with_torrents (with_store g s) known).

(** The success callback of [loadHiddenLabels]: [labels] says of each label of
    the register whether it is hidden by default. *)
Definition loadHiddenLabels (g : state) (labels : obj bool) : option state :=
  let '(hidden, changed) :=
    foldl (fun '(h, ch) name =>
             if default false (oget name (labelChoices g)) then (h, ch)
             else if default false (oget name labels) && negb (default false (oget name h))
                  then (oset name true h, true) else (h, ch))
      (hiddenLabels g, false) (okeys labels) in
  let g := with_hidden g hidden (labelChoices g) in
  match lastTorrents g with
  | Some _ => if changed then update g (lastTorrents g) true else Some g
  | None => Some g
  end.

(** [setLabelHidden] and [showEveryLabel] *)
Definition redraw (g : state) : option state :=
  match lastTorrents g with Some _ => update g (lastTorrents g) true | None => Some g end.
Definition setLabelHidden (g : state) (name : string) (hidden : bool) : option state :=
  redraw (with_hidden g (if hidden then oset name true (hiddenLabels g) else odel name (hiddenLabels g))
            (oset name true (labelChoices g))).
Definition showEveryLabel (g : state) : option state :=
  redraw (with_hidden g []
            (foldl (fun c name => oset name true c) (labelChoices g) (okeys (hiddenLabels g)))).
End update.

(** [onDisconnect] *)
Definition onDisconnect (g : state) : state := with_torrents (with_store g (Store.removeAll (store g))) [].

(** [onTorrentsRemoved]; the selection is the grid's own. *)
Definition onTorrentsRemoved (g : state) (ids : list string) : state :=
  Ext.each ids (fun g id _ =>
    let s := match Store.getById (store g) id with
             | Some r => Store.remove (store g) r
             | None => store g
             end in
    (with_torrents (with_store g s) (odel id (torrents g)), true)) g.

End Grid.

(** An empty grid, as its constructor leaves it. *)
Definition empty_grid : Grid.state := Grid.mk no_store [] None [] [].

(** ** Editing one record *)

(** A field reads the same, or as close as the code asks: [==] or the same
    text. *)
Definition shown_same (w v : prim) : Prop := loose_eq w v = true \/ Rec.same_text w v = true.

Lemma shown_same_refl v : shown_same v v.
Proof. right. apply same_text_refl. Qed.

Section edit.
Variables (r l : loc).

(** What the loop over an object's fields keeps, and the field it is at. *)
Lemma edit_field_refs st k : is_Some (recs st !! r) -> same_refs st (Grid.edit_field r l st k).
Proof. intros Hr. unfold Grid.edit_field. case_match; [reflexivity|by apply set_refs]. Qed.

Lemma edit_field_objs st k l' :
  l' <> data (record_at st r) -> objs (Grid.edit_field r l st k) !! l' = objs st !! l'.
Proof. intros Hl. unfold Grid.edit_field. case_match; [done|by apply set_objs_ne]. Qed.

(** An object that is the record's own data is left alone. *)
Lemma edit_field_alias st k : l = data (record_at st r) -> Grid.edit_field r l st k = st.
Proof.
  intros ->. unfold Grid.edit_field, Rec.set.
  change (pget k (object_at st (data (record_at st r)))) with (Rec.get st r k).
  by rewrite same_text_refl; case_match.
Qed.

Lemma edit_field_get st k j :
  is_Some (recs st !! r) -> l <> data (record_at st r) ->
  shown_same (Rec.get (Grid.edit_field r l st k) r k) (pget k (object_at st l)) /\
  (j <> k -> Rec.get (Grid.edit_field r l st k) r j = Rec.get st r j) /\
  (shown_same (Rec.get st r j) (pget j (object_at st l)) ->
   shown_same (Rec.get (Grid.edit_field r l st k) r j) (pget j (object_at st l))).
Proof.
  intros Hr Hl. unfold Grid.edit_field, shown_same.
  destruct (loose_eq (Rec.get st r k) (pget k (object_at st l))) eqn:E; [auto|].
  rewrite !set_get by done.
  destruct (Rec.same_text (Rec.get st r k) (pget k (object_at st l))) eqn:E2; [auto|].
  rewrite decide_True by done.
  split_conj; [apply shown_same_refl|..].
  - intros Hj. by rewrite decide_False.
  - intros Hs. destruct (decide (j = k)) as [->|]; [apply shown_same_refl|done].
Qed.

Lemma edit_fold_refs ks st :
  is_Some (recs st !! r) -> same_refs st (foldl (Grid.edit_field r l) st ks).
Proof.
  revert st. induction ks as [|k ks IH]; intros st Hr; simpl; [reflexivity|].
  pose proof (edit_field_refs st k Hr) as H. etransitivity; [exact H|]. apply IH. by apply H.
Qed.

Lemma edit_fold_objs ks st l' :
  is_Some (recs st !! r) -> l' <> data (record_at st r) ->
  objs (foldl (Grid.edit_field r l) st ks) !! l' = objs st !! l'.
Proof.
  revert st. induction ks as [|k ks IH]; intros st Hr Hl; simpl; [done|].
  pose proof (edit_field_refs st k Hr) as H.
  rewrite IH; [by apply edit_field_objs|by apply H|by rewrite (sr_data _ _ H)].
Qed.

Lemma edit_fold_alias ks st : l = data (record_at st r) -> foldl (Grid.edit_field r l) st ks = st.
Proof.
  revert st. induction ks as [|k ks IH]; intros st Hl; simpl; [done|].
  rewrite edit_field_alias by done. by apply IH.
Qed.

Lemma edit_fold_get ks st j :
  is_Some (recs st !! r) -> l <> data (record_at st r) ->
  j ∈ ks \/ shown_same (Rec.get st r j) (pget j (object_at st l)) ->
  shown_same (Rec.get (foldl (Grid.edit_field r l) st ks) r j) (pget j (object_at st l)).
Proof.
  revert st. induction ks as [|k ks IH]; intros st Hr Hl Hj; cbn [foldl]; [set_solver|].
  pose proof (edit_field_refs st k Hr) as H.
  assert (Ho : object_at (Grid.edit_field r l st k) l = object_at st l).
  { unfold object_at. by rewrite edit_field_objs. }
  rewrite <- Ho. apply IH; [by apply H|by rewrite (sr_data _ _ H)|].
  rewrite Ho. destruct (edit_field_get st k j Hr Hl) as (Hk & _ & Hs).
  destruct Hj as [[->|Hj]%elem_of_cons|Hj]; auto.
Qed.
End edit.

(** Editing a record from an object: the records and the other objects are
    kept, and every field the object has reads the same in the record. *)
Lemma edit_refs st r l : is_Some (recs st !! r) -> same_refs st (Grid.edit st r l).
Proof.
  intros Hr. unfold Grid.edit. pose proof (beginEdit_refs st r Hr) as H1.
  set (st1 := Rec.beginEdit st r) in *.
  assert (Hr1 : is_Some (recs st1 !! r)) by by apply H1.
  pose proof (edit_fold_refs r l (okeys (object_at st1 l)) st1 Hr1) as H2.
  etransitivity; [exact H1|]. etransitivity; [exact H2|]. apply endEdit_refs. by apply H2.
Qed.

Lemma edit_objs st r l l' :
  is_Some (recs st !! r) -> l' = l \/ l' <> data (record_at st r) ->
  objs (Grid.edit st r l) !! l' = objs st !! l'.
Proof.
  intros Hr Hl. unfold Grid.edit. rewrite endEdit_objs.
  pose proof (beginEdit_refs st r Hr) as H1.
  destruct (decide (l = data (record_at (Rec.beginEdit st r) r))) as [E|E].
  - by rewrite edit_fold_alias.
  - rewrite (sr_data _ _ H1) in E.
    rewrite edit_fold_objs; [done|by apply H1|rewrite (sr_data _ _ H1)].
    destruct Hl as [->|]; done.
Qed.

Lemma edit_get st r l k :
  is_Some (recs st !! r) -> is_Some (oget k (object_at st l)) ->
  shown_same (Rec.get (Grid.edit st r l) r k) (pget k (object_at st l)).
Proof.
  intros Hr Hk. unfold Grid.edit.
  pose proof (beginEdit_refs st r Hr) as H1. set (st1 := Rec.beginEdit st r) in *.
  assert (Hr1 : is_Some (recs st1 !! r)) by by apply H1.
  pose proof (edit_fold_refs r l (okeys (object_at st1 l)) st1 Hr1) as H2.
  set (st2 := foldl _ _ _) in *.
  assert (E : Rec.get (Rec.endEdit st2 r) r k = Rec.get st2 r k).
  { unfold Rec.get. rewrite (sr_data _ _ (endEdit_refs st2 r ltac:(by apply H2))).
    unfold object_at. by rewrite endEdit_objs. }
  rewrite E. change (object_at st l) with (object_at st1 l).
  destruct (decide (l = data (record_at st1 r))) as [El|El].
  - unfold st2. rewrite edit_fold_alias by done. rewrite El. apply shown_same_refl.
  - apply edit_fold_get; [done|done|]. left. by apply okeys_elem.
Qed.

(** ** The loop over an answer *)

(** Every object belongs to one torrent: [own] says which.  A record's data
    and an answer's objects under an id belong to that id, and the heap has
    them. *)
Definition rec_owned (own : loc -> string) (st : Store.state) (r : loc) : Prop :=
  own (data (record_at st r)) = id (record_at st r) /\ is_Some (objs st !! data (record_at st r)).
Definition owned (own : loc -> string) (st : Store.state) : Prop :=
  forall k r, Store.getById st k = Some r -> rec_owned own st r.
Definition owns (own : loc -> string) (st : Store.state) (ts : obj loc) : Prop :=
  forall t l, oget t ts = Some l -> own l = t /\ is_Some (objs st !! l).

(** Record [r] shows what object [l] holds. *)
Definition shows (st : Store.state) (r l : loc) : Prop :=
  forall k, is_Some (oget k (object_at st l)) ->
    shown_same (Rec.get st r k) (pget k (object_at st l)).

Section loop.
Variable own : loc -> string.
Variable ts : obj loc.
Variable st0 : Store.state.

(** What holds between two turns, [done] being the ids already seen. *)
Record loop_inv (done : list string) (acc : Store.state * obj Z * list loc) : Prop := {
  li_store : store_ok acc.1.1;
  li_items : items acc.1.1 = items st0;
  li_sort : sortInfo acc.1.1 = sortInfo st0;
  li_owned : owned own acc.1.1;
  li_owns : owns own acc.1.1 ts;
  li_objs : forall l, (forall l', oget (own l) ts = Some l' -> l' = l) -> objs acc.1.1 !! l = objs st0 !! l;
  li_dom : forall l, is_Some (objs st0 !! l) -> is_Some (objs acc.1.1 !! l);
  li_known : forall t, is_Some (oget t acc.1.2) <->
    is_Some (Store.getById st0 t) \/ exists r, r ∈ acc.2 /\ id (record_at acc.1.1 r) = t;
  li_news : forall r, r ∈ acc.2 ->
    is_Some (recs acc.1.1 !! r) /\ r ∉ MC.items (items st0) /\
    Store.getById st0 (id (record_at acc.1.1 r)) = None /\
    id (record_at acc.1.1 r) ∈ done /\
    oget (id (record_at acc.1.1 r)) ts = Some (data (record_at acc.1.1 r));
  li_nodup : NoDup ((fun r => id (record_at acc.1.1 r)) <$> acc.2);
  li_new : forall t l, t ∈ done -> oget t ts = Some l -> Store.getById st0 t = None ->
    exists r, r ∈ acc.2 /\ id (record_at acc.1.1 r) = t;
  li_shows : forall t l r, t ∈ done -> oget t ts = Some l -> Store.getById st0 t = Some r ->
    shows acc.1.1 r l
}.

(** What a turn that keeps the store keeps of the invariant about records
    made so far. *)
Lemma news_keeps st st' (news : list loc) :
  keeps st st' -> (forall r, r ∈ news -> is_Some (recs st !! r)) ->
  (fun r => id (record_at st' r)) <$> news = (fun r => id (record_at st r)) <$> news.
Proof.
  intros Hk Hn. apply list_fmap_ext. intros i r Hr. apply (k_recs _ _ Hk).
  apply Hn. by eapply list_elem_of_lookup_2.
Qed.

Lemma owned_keeps st st' : keeps st st' -> store_ok st -> owned own st -> owned own st'.
Proof.
  intros Hk Hs Ho k r. unfold Store.getById. rewrite (k_items _ _ Hk). intros Hr.
  destruct (so_recs _ Hs k r Hr) as [Hx _]. destruct (k_recs _ _ Hk r Hx) as (_ & E1 & E2).
  destruct (Ho k r Hr) as [H1 H2]. unfold rec_owned. rewrite E1, E2. split; [done|].
  by apply (k_objs _ _ Hk).
Qed.

Lemma owns_keeps st st' : keeps st st' -> owns own st ts -> owns own st' ts.
Proof. intros Hk Ho t l H. destruct (Ho t l H). split; [done|]. by apply (k_objs _ _ Hk). Qed.

(** Editing the record of one torrent leaves what another one's shows. *)
Lemma edit_shows_other st r l r' l' :
  is_Some (recs st !! r) ->
  data (record_at st r') <> data (record_at st r) ->
  (l' = l \/ l' <> data (record_at st r)) ->
  shows st r' l' -> shows (Grid.edit st r l) r' l'.
Proof.
  intros Hr Hd Hl Hs k. pose proof (edit_refs st r l Hr) as H.
  assert (E : object_at (Grid.edit st r l) l' = object_at st l').
  { unfold object_at. by rewrite edit_objs. }
  unfold Rec.get. rewrite (sr_data _ _ H), E. unfold object_at at 2.
  rewrite edit_objs by (done || by right). apply Hs.
Qed.

Lemma update_one_inv dn acc t l :
  loop_inv dn acc -> t ∉ dn -> oget t ts = Some l ->
  exists acc', Grid.update_one ts acc t = Some acc' /\ loop_inv (t :: dn) acc'.
Proof.
  intros Hi Ht Hl. destruct acc as [[st known] news]. unfold Grid.update_one. rewrite Hl.
  pose proof Hi as [Hs Hit Hso Hod Hos Hob Hdo Hk Hn Hnd Hnew Hsh]. cbn [fst snd] in *.
  assert (Hnr : forall r, r ∈ news -> is_Some (recs st !! r)) by (intros r Hr; by apply Hn).
  destruct (Store.getById st0 t) as [r|] eqn:Er.
  - assert (Hkn : is_Some (oget t known)) by (apply Hk; left; by rewrite Er).
    destruct Hkn as [z ->]. assert (Er' : Store.getById st t = Some r).
    { unfold Store.getById in *. by rewrite Hit. }
    rewrite Er'. simpl. eexists. split; [done|].
    destruct (so_recs _ Hs t r Er') as [Hr Hid].
    pose proof (edit_refs st r l Hr) as Href. pose proof (refs_keeps _ _ Href) as Hkp.
    assert (Hobj : forall l', (forall l2, oget (own l') ts = Some l2 -> l2 = l') ->
      objs (Grid.edit st r l) !! l' = objs st !! l').
    { intros l' H'. apply edit_objs; [done|]. destruct (decide (own l' = t)) as [Ho'|Hne].
      - left. symmetry. apply H'. by rewrite Ho'.
      - right. intros E. destruct (Hod t r Er') as [E2 _]. congruence. }
    assert (Hnf := news_keeps _ _ news Hkp Hnr).
    split; cbn [fst snd].
    + by apply keeps_ok in Hkp.
    + by rewrite (k_items _ _ Hkp).
    + by rewrite (k_sort _ _ Hkp).
    + by eapply owned_keeps.
    + by eapply owns_keeps.
    + intros l' H'. rewrite (Hobj l' H'). by apply Hob.
    + intros l' H'. by apply (k_objs _ _ Hkp), Hdo.
    + intros t'. rewrite Hk. setoid_rewrite (sr_id _ _ Href). done.
    + intros q Hq. destruct (Hn q Hq) as (H1 & H2 & H3 & H4 & H5).
      rewrite (sr_id _ _ Href), (sr_data _ _ Href), (sr_recs _ _ Href).
      split_and!; try done. by right.
    + by rewrite Hnf.
    + intros t' l' Hin H' Hnone. setoid_rewrite (sr_id _ _ Href).
      apply elem_of_cons in Hin as [->|Hin]; [congruence|]. by eapply Hnew.
    + intros t' l' r' Hin H' Hr'. apply elem_of_cons in Hin as [->|Hin].
      * assert (l' = l) as -> by congruence. assert (r' = r) as -> by congruence. intros k. unfold object_at. rewrite Hobj by (destruct (Hos _ _ H') as [-> _]; congruence).
        fold (object_at st l). by apply edit_get.
      * assert (Hne : t' <> t) by (intros ->; done).
        assert (Er2 : Store.getById st t' = Some r').
        { unfold Store.getById in *. by rewrite Hit. }
        destruct (Hod _ _ Er2) as [Ho2 _]. destruct (Hod _ _ Er') as [Ho1 _].
        destruct (so_recs _ Hs _ _ Er2) as [_ Hid2].
        destruct (Hos _ _ H') as [Hol _].
        apply edit_shows_other; [done|congruence| |by eapply Hsh].
        right. congruence.
  - assert (Hkn : oget t known = None).
    { apply eq_None_not_Some. rewrite Hk. intros [Hx|(q & Hq & E)].
      - rewrite Er in Hx. by destruct Hx.
      - destruct (Hn q Hq) as (_ & _ & _ & H4 & _). congruence. }
    rewrite Hkn. pose proof (create_new st l t) as Hc. pose proof (create_keeps st l t) as Hkp.
    destruct (Rec.create st l t) as [r st'] eqn:Ec. cbn [snd] in Hkp.
    destruct Hc as (Hf & Hr & Hid & Hda & Hobj). eexists. split; [done|].
    assert (Hfresh : r ∉ news).
    { intros Hq. apply Hnr in Hq. rewrite Hf in Hq. by destruct Hq. }
    assert (Hnf := news_keeps _ _ news Hkp Hnr).
    assert (Hidn : forall q, q ∈ news -> id (record_at st' q) = id (record_at st q) /\
                             data (record_at st' q) = data (record_at st q)).
    { intros q Hq. destruct (k_recs _ _ Hkp q (Hnr q Hq)) as (_ & ? & ?). done. }
    split; simpl.
    + by apply keeps_ok in Hkp.
    + by rewrite (k_items _ _ Hkp).
    + by rewrite (k_sort _ _ Hkp).
    + by eapply owned_keeps.
    + by eapply owns_keeps.
    + intros l' H'. rewrite Hobj. by apply Hob.
    + intros l' H'. by apply (k_objs _ _ Hkp), Hdo.
    + intros t'. rewrite oget_oset. destruct (decide (t' = t)) as [->|Hne].
      * split; [|by eexists]. intros _. right. exists r. split; [set_solver|done].
      * rewrite Hk. setoid_rewrite elem_of_app. setoid_rewrite list_elem_of_singleton.
        split; (intros [?|(q & Hq & E)]; [by left|right]).
        -- exists q. split; [by left|]. by destruct (Hidn q Hq) as [-> _].
        -- destruct Hq as [Hq|Hq]; [|congruence].
           exists q. split; [done|]. by destruct (Hidn q Hq) as [<- _].
    + intros q [Hq|Hq%list_elem_of_singleton]%elem_of_app.
      * destruct (Hn q Hq) as (H1 & H2 & H3 & H4 & H5). destruct (Hidn q Hq) as [-> ->].
        split_and!; try done; [by apply (k_recs _ _ Hkp)|by right].
      * subst q. rewrite Hid, Hda. split_and!; try done; [|by left].
        rewrite <- Hit. intros Hin%(item_recs _ _ Hs). rewrite Hf in Hin. by destruct Hin.
    + rewrite fmap_app, Hnf. apply NoDup_app. split_and!; [done| |apply NoDup_singleton].
      intros x (q & -> & Hq)%list_elem_of_fmap Hx. simpl in Hx.
      apply list_elem_of_singleton in Hx. rewrite Hid in Hx.
      destruct (Hn q Hq) as (_ & _ & _ & H4 & _). congruence.
    + intros t' l' Hin H' Hnone. apply elem_of_cons in Hin as [->|Hin].
      * exists r. split; [set_solver|done].
      * destruct (Hnew t' l' Hin H' Hnone) as (q & Hq & E). exists q.
        split; [set_solver|]. by destruct (Hidn q Hq) as [-> _].
    + intros t' l' r' Hin H' Hr'. apply elem_of_cons in Hin as [->|Hin]; [congruence|].
      pose proof (Hsh t' l' r' Hin H' Hr') as Hshow.
      assert (Er2 : Store.getById st t' = Some r').
      { unfold Store.getById in *. by rewrite Hit. }
      destruct (so_recs _ Hs _ _ Er2) as [Hx _].
      intros k. unfold Rec.get, object_at. rewrite Hobj.
      destruct (k_recs _ _ Hkp r' Hx) as (_ & _ & ->). apply Hshow.
Qed.

Lemma update_all_inv ids dn acc :
  loop_inv dn acc -> NoDup ids -> (forall t, t ∈ ids -> t ∉ dn /\ is_Some (oget t ts)) ->
  exists acc', Grid.update_all ts ids acc = Some acc' /\ loop_inv (reverse ids ++ dn) acc'.
Proof.
  revert dn acc. induction ids as [|t ids IH]; intros dn acc Hi Hn Ht; [by exists acc|].
  apply NoDup_cons in Hn as [Hnt Hn].
  destruct (Ht t ltac:(by left)) as [Hd [l Hl]].
  destruct (update_one_inv dn acc t l Hi Hd Hl) as (acc1 & E1 & Hi1).
  simpl. rewrite E1. simpl.
  destruct (IH (t :: dn) acc1 Hi1 Hn) as (acc2 & E2 & Hi2).
  { intros t' Ht'. destruct (Ht t' ltac:(by right)) as [? ?]. split; [|done].
    apply not_elem_of_cons. split; [|done]. intros ->. done. }
  exists acc2. split; [done|]. by rewrite reverse_cons, <- app_assoc.
Qed.
End loop.

(** ** Removing what the answer does not have *)

(** Same ids, data and objects, whatever the store has of them. *)
Definition same_rows (st st' : Store.state) : Prop :=
  objs st' = objs st /\
  forall q, id (record_at st' q) = id (record_at st q) /\ data (record_at st' q) = data (record_at st q).

Lemma same_rows_trans a b c : same_rows a b -> same_rows b c -> same_rows a c.
Proof.
  unfold same_rows. intros (H1 & H3) (K1 & K3). split; [congruence|].
  intros q. destruct (H3 q), (K3 q). split; congruence.
Qed.

Lemma same_rows_shows st st' r l : same_rows st st' -> shows st r l -> shows st' r l.
Proof.
  intros (Ho & H) Hs k. unfold Rec.get, object_at. destruct (H r) as [_ ->]. rewrite Ho. apply Hs.
Qed.

Section removal.
Variable ts : obj loc.

Lemma remove_one_spec st known r :
  store_ok st -> r ∈ MC.items (items st) ->
  (forall t, is_Some (oget t known) <-> is_Some (Store.getById st t)) ->
  let '((st', known'), go) := Grid.remove_one ts (st, known) r in
  go = true /\ store_ok st' /\ same_rows st st' /\
  (forall t, is_Some (oget t known') <-> is_Some (Store.getById st' t)) /\
  (forall q, q ∈ MC.items (items st') <-> q ∈ MC.items (items st) /\ (q = r -> is_Some (oget (id (record_at st r)) ts))) /\
  (forall k, Store.getById st' k =
     if decide (Store.getById st k = Some r /\ oget k ts = None) then None else Store.getById st k).
Proof.
  intros Hs Hr Hk. unfold Grid.remove_one.
  pose proof (so_keyed _ Hs r Hr) as Hkey.
  destruct (oget (id (record_at st r)) ts) as [l|] eqn:E.
  - split_and!; try done.
    + intros q. naive_solver.
    + intros k. rewrite decide_False; [done|]. intros [H1 H2].
      destruct (so_recs _ Hs k r H1) as [_ <-]. congruence.
  - destruct (remove_spec st r Hs) as (H1 & H2 & H3 & H4 & H5 & H6).
    split_and!; try done.
    + intros t. rewrite oget_odel, H5.
      destruct (decide (t = id (record_at st r))) as [->|Hne].
      * rewrite decide_True by done. by split; intros [].
      * rewrite decide_False; [apply Hk|]. intros Hx. by destruct (so_recs _ Hs t r Hx) as [_ ?].
    + intros q. rewrite H6, list_elem_of_filter. split; [naive_solver|].
      intros [Hq Himp]. split; [|done]. intros ->. by destruct (Himp eq_refl).
    + intros k. rewrite H5. apply decide_ext. split; [|naive_solver].
      intros Hx. split; [done|]. by destruct (so_recs _ Hs k r Hx) as [_ <-].
Qed.

Lemma remove_all_spec rs st known :
  store_ok st -> NoDup rs -> (forall r, r ∈ rs -> r ∈ MC.items (items st)) ->
  (forall t, is_Some (oget t known) <-> is_Some (Store.getById st t)) ->
  let '(st', known') := MC.each_go rs (Grid.remove_one ts) (st, known) in
  store_ok st' /\ same_rows st st' /\
  (forall t, is_Some (oget t known') <-> is_Some (Store.getById st' t)) /\
  (forall k, Store.getById st' k =
     match Store.getById st k with
     | Some r => if decide (r ∈ rs /\ oget k ts = None) then None else Some r
     | None => None
     end).
Proof.
  revert st known. induction rs as [|r rs IH]; intros st known Hs Hn Hin Hk.
  { cbn [MC.each_go]. split_and!; try done. intros k. destruct (Store.getById st k); [|done].
    rewrite decide_False; [done|]. intros [H0 _]. by apply elem_of_nil in H0. }
  apply NoDup_cons in Hn as [Hr Hn]. cbn [MC.each_go].
  pose proof (remove_one_spec st known r Hs (Hin r ltac:(by left)) Hk) as H1.
  destruct (Grid.remove_one ts (st, known) r) as [[st1 known1] go].
  destruct H1 as (-> & Hs1 & Hsr & Hk1 & Hi1 & Hg1).
  specialize (IH st1 known1 Hs1 Hn). destruct (MC.each_go rs _ _) as [st2 known2].
  destruct IH as (Hs2 & Hsr2 & Hk2 & Hg2); [|done|].
  { intros q Hq. apply Hi1. split; [apply Hin; by right|]. intros ->. done. }
  split_and!; try done; [by eapply same_rows_trans|].
  intros k. rewrite Hg2, Hg1. destruct (Store.getById st k) as [q|] eqn:Eq.
  - destruct (decide (Some q = Some r /\ oget k ts = None)) as [[[= ->] E]|Hne].
    + rewrite decide_True; [done|]. split; [by left|done].
    + destruct (decide (q ∈ rs /\ oget k ts = None)) as [[? ?]|Hne2].
      * rewrite decide_True; [done|]. split; [by right|done].
      * rewrite decide_False; [done|]. rewrite elem_of_cons. naive_solver.
  - by rewrite decide_False by naive_solver.
Qed.
End removal.

(** ** Hidden labels *)

Section labels.
Variables (g : Grid.state) (asked : option string).

(** Whether a torrent is drawn: its label is not hidden, or is the one asked
    for in the sidebar. *)
Definition visible (l : loc) : bool :=
  let label := Grid.label_of (Grid.store g) l in
  negb (Grid.is_hidden (Grid.hiddenLabels g) label)
  || match asked with Some a => strict_eq label (PStr a) | None => false end.

Lemma filter_fold (p : loc -> bool) (ts : obj loc) ks acc t :
  oget t (foldl (fun kept i => match oget i ts with
                               | Some l => if p l then oset i l kept else kept
                               | None => kept end) acc ks) =
  match oget t ts with
  | Some l => if decide (t ∈ ks /\ p l = true) then Some l else oget t acc
  | None => oget t acc
  end.
Proof.
  revert acc. induction ks as [|k ks IH]; intros acc; cbn [foldl].
  - destruct (oget t ts); [|done]. rewrite decide_False; [done|]. intros [H0 _]. by apply elem_of_nil in H0.
  - rewrite IH. destruct (oget t ts) as [l|] eqn:Et; cycle 1.
    { destruct (oget k ts) as [l'|] eqn:Ek; [|done]. destruct (p l'); [|done].
      rewrite oget_oset_ne; [done|]. intros ->. congruence. }
    destruct (decide (t ∈ ks /\ p l = true)) as [[H1 H2]|Hn].
    + rewrite decide_True; [done|]. split; [by right|done].
    + destruct (decide (t = k)) as [->|Hne].
      * rewrite Et. destruct (p l) eqn:Ep.
        -- rewrite oget_oset_eq, decide_True; [done|]. split; [by left|done].
        -- rewrite decide_False by naive_solver. done.
      * rewrite (decide_False (P := t ∈ k :: ks /\ _)) by (rewrite elem_of_cons; naive_solver).
        destruct (oget k ts); [|done]. destruct (p l0); [|done]. by rewrite oget_oset_ne.
Qed.

Lemma filter_fold_ok (p : loc -> bool) (ts : obj loc) ks acc :
  obj_ok acc -> obj_ok (foldl (fun kept i => match oget i ts with
                               | Some l => if p l then oset i l kept else kept
                               | None => kept end) acc ks).
Proof.
  revert acc. induction ks as [|k ks IH]; intros acc Ha; [done|]. cbn [foldl]. apply IH.
  repeat case_match; auto with js.
Qed.

(** What is drawn of an answer, whichever way it was decided. *)
Lemma withoutHiddenLabels_spec ts :
  exists shown, Grid.withoutHiddenLabels g asked (Some ts) = Some shown /\
  (forall t, oget t shown = match oget t ts with Some l => if visible l then Some l else None | None => None end) /\
  (obj_ok ts -> obj_ok shown).
Proof.
  unfold Grid.withoutHiddenLabels. case_match eqn:E.
  - eexists. split; [reflexivity|]. split.
    + intros t. rewrite (filter_fold visible). destruct (oget t ts) as [l|] eqn:Et; [|done].
      destruct (visible l) eqn:Ev.
      * rewrite decide_True; [done|]. split; [|done]. apply okeys_elem. by eexists.
      * by rewrite decide_False by naive_solver.
    + intros _. apply (filter_fold_ok visible). apply nil_ok.
  - eexists. split; [reflexivity|]. split; [|done].
    intros t. destruct (oget t ts) as [l|]; [|done].
    assert (Hv : visible l = true); [|by rewrite Hv]. unfold visible, Grid.is_hidden.
    destruct (oget (to_str (Grid.label_of (Grid.store g) l)) (Grid.hiddenLabels g)) as [[]|] eqn:Eh; try done.
    exfalso. rewrite <- not_true_iff_false, existsb_exists in E. apply E.
    eexists. split; [apply list_elem_of_In, okeys_elem; by eexists|]. by rewrite Eh.
Qed.
End labels.

(** ** The grid *)

(** What holds of the grid between two calls: a well-formed store, whose ids
    are the ones the grid knows, and a list last received whose objects are
    not another torrent's. *)
Record grid_ok (own : loc -> string) (g : Grid.state) : Prop := {
  go_store : store_ok (Grid.store g);
  go_known : forall t, is_Some (oget t (Grid.torrents g)) <-> is_Some (Store.getById (Grid.store g) t);
  go_owned : owned own (Grid.store g);
  go_last : forall m, Grid.lastTorrents g = Some m -> obj_ok m /\ owns own (Grid.store g) m
}.

(** The rows drawn are the torrents that are visible, each row showing its
    torrent. *)
Definition draws (g0 g : Grid.state) (asked : option string) (ts : obj loc) : Prop :=
  forall t, match oget t ts with
            | Some l => if visible g0 asked l
                        then exists r, Store.getById (Grid.store g) t = Some r /\ shows (Grid.store g) r l
                        else Store.getById (Grid.store g) t = None
            | None => Store.getById (Grid.store g) t = None
            end.

Lemma wiped_ok own g :
  grid_ok own g -> grid_ok own (Grid.with_torrents (Grid.with_store g (Store.removeAll (Grid.store g))) []).
Proof.
  intros [Hs Hk Ho Hl]. destruct (removeAll_spec _ Hs) as (H1 & H2 & H3 & H4).
  split; simpl; [exact H1| | |].
  - intros t. unfold Store.getById in *. rewrite H3. by split; intros [].
  - intros k r Hr. by rewrite H3 in Hr.
  - intros m Hm. destruct (Hl m Hm) as [? Hw]. split; [done|]. intros t l Ht. rewrite H2. by apply Hw.
Qed.

Lemma with_last_ok own g ts :
  grid_ok own g -> obj_ok ts -> owns own (Grid.store g) ts -> grid_ok own (Grid.with_last g (Some ts)).
Proof. intros [Hs Hk Ho Hl] Hok Hw. split; simpl; try done. by intros m [= <-]. Qed.

Section update_spec.
Context (fields : list Field.field) (own : loc -> string).

Lemma loop_start g shown :
  grid_ok own g -> owns own (Grid.store g) shown ->
  loop_inv own shown (Grid.store g) [] (Grid.store g, Grid.torrents g, []).
Proof.
  intros [Hs Hk Ho Hl] Hw. split; simpl; try done.
  - intros t. rewrite Hk. split; [by left|]. intros [?|(q & Hq & _)]; [done|by apply elem_of_nil in Hq].
  - intros r Hr. by apply elem_of_nil in Hr.
  - apply NoDup_nil_2.
  - intros t l Ht. by apply elem_of_nil in Ht.
  - intros t l r Ht. by apply elem_of_nil in Ht.
Qed.

(** After the records made are added: every torrent of the answer has a row,
    every row shows its torrent. *)
Lemma added g shown st known news dn :
  loop_inv own shown (Grid.store g) dn (st, known, news) ->
  (forall t l, oget t shown = Some l -> t ∈ dn) ->
  let st' := Store.add st news in
  store_ok st' /\ sortInfo st' = sortInfo (Grid.store g) /\
  owned own st' /\ owns own st' shown /\
  (forall l, (forall l', oget (own l) shown = Some l' -> l' = l) -> objs st' !! l = objs (Grid.store g) !! l) /\
  (forall l, is_Some (objs (Grid.store g) !! l) -> is_Some (objs st' !! l)) /\
  (forall t, is_Some (oget t known) <-> is_Some (Store.getById st' t)) /\
  (forall t l, oget t shown = Some l -> exists r, Store.getById st' t = Some r /\ shows st' r l).
Proof.
  intros [Hs Hit Hso Hod Hos Hob Hdo Hk Hn Hnd Hnew Hsh] Hdn. cbn [fst snd] in *.
  destruct (add_new st news Hs Hnd) as (H1 & H2 & H3 & H4 & H5).
  { intros r Hr. destruct (Hn r Hr) as (? & ? & ? & _ & _). unfold Store.getById in *. by rewrite Hit. }
  assert (Hg0 : forall k, Store.getById st k = Store.getById (Grid.store g) k).
  { intros k. unfold Store.getById. by rewrite Hit. }
  split_and!; [done|congruence| | | | | |].
  - intros k r Hr. apply H5 in Hr as [Hr|[Hr E]].
    + destruct (so_recs _ Hs k r Hr) as [Hx _]. destruct (H4 r Hx) as (_ & E1 & E2).
      destruct (Hod k r Hr) as [Ho1 Ho2]. unfold rec_owned. by rewrite E1, E2, H2.
    + destruct (Hn r Hr) as (Hx & _ & _ & _ & Hl). destruct (H4 r Hx) as (_ & E1 & E2).
      destruct (Hos _ _ Hl) as [Ho1 Ho2]. unfold rec_owned. by rewrite E1, E2, H2.
  - intros t l Ht. rewrite H2. by apply Hos.
  - intros l Hl. rewrite H2. by apply Hob.
  - intros l Hl. rewrite H2. by apply Hdo.
  - intros t. rewrite Hk, <- Hg0. split.
    + intros [[r Hr]|(r & Hr & E)]; exists r; apply H5; auto.
    + intros [r Hr]. apply H5 in Hr as [Hr|[Hr E]]; [left; by exists r|right; by exists r].
  - intros t l Ht. destruct (Store.getById (Grid.store g) t) as [r|] eqn:Er.
    + exists r. split; [apply H5; left; by rewrite Hg0|].
      assert (Hr : Store.getById st t = Some r) by by rewrite Hg0.
      destruct (so_recs _ Hs t r Hr) as [Hx _]. destruct (H4 r Hx) as (_ & _ & E2).
      intros k. unfold Rec.get, object_at. rewrite E2, H2. by apply (Hsh t l r (Hdn t l Ht)).
    + destruct (Hnew t l (Hdn t l Ht) Ht Er) as (r & Hr & E). exists r.
      split; [apply H5; by right|]. destruct (Hn r Hr) as (Hx & _ & _ & _ & Hl).
      destruct (H4 r Hx) as (_ & _ & E2). intros k _. unfold Rec.get, object_at. rewrite E2.
      assert (data (record_at st r) = l) as -> by congruence. apply shown_same_refl.
Qed.

(** The last steps: what is not in the answer goes, changes are committed and
    the rows sorted. *)
Lemma finished st known shown :
  store_ok st -> (forall t, is_Some (oget t known) <-> is_Some (Store.getById st t)) ->
  let '(st1, known1) := Store.each st (Grid.remove_one shown) (st, known) in
  let st2 := Store.commitChanges st1 in
  let st3 := match Store.getSortState st2 with
             | Some (f, d) => Store.sort fields st2 f d | None => st2 end in
  store_ok st3 /\ objs st3 = objs st /\
  (forall q, id (record_at st3 q) = id (record_at st q) /\ data (record_at st3 q) = data (record_at st q)) /\
  (forall t, is_Some (oget t known1) <-> is_Some (Store.getById st3 t)) /\
  (forall k, Store.getById st3 k =
     if decide (oget k shown = None) then None else Store.getById st k).
Proof.
  intros Hs Hk. unfold Store.each, MC.each.
  pose proof (remove_all_spec shown (MC.items (items st)) st known Hs (so_nodup _ Hs) ltac:(done) Hk) as H.
  destruct (MC.each_go _ _ _) as [st1 known1]. destruct H as (Hs1 & (Ho1 & Hr1) & Hk1 & Hg1).
  destruct (commitChanges_keeps st1 (so_changed _ Hs1)) as (Hc & Hco & _).
  set (st2 := Store.commitChanges st1) in *.
  assert (Hs2 : store_ok st2) by (eapply keeps_ok; [by apply refs_keeps|done]).
  assert (Hg2 : forall k, Store.getById st2 k = Store.getById st1 k).
  { intros k. unfold Store.getById. by rewrite (sr_items _ _ Hc). }
  set (st3 := match Store.getSortState st2 with Some (f, d) => Store.sort fields st2 f d | None => st2 end).
  assert (H3 : store_ok st3 /\ objs st3 = objs st2 /\
    (forall q, record_at st3 q = record_at st2 q) /\
    (forall k, Store.getById st3 k = Store.getById st2 k)).
  { unfold st3. destruct (Store.getSortState st2) as [[f d]|]; [|done].
    destruct (sort_spec fields st2 f d Hs2) as (? & ? & Hrec & _ & ? & _). split_and!; try done.
    intros q. unfold record_at. by rewrite Hrec. }
  clearbody st3. destruct H3 as (Hs3 & Ho3 & Hr3 & Hg3). split_and!; try done.
  - congruence.
  - intros q. rewrite Hr3, (sr_id _ _ Hc), (sr_data _ _ Hc). apply Hr1.
  - intros t. by rewrite Hg3, Hg2.
  - intros k. rewrite Hg3, Hg2, Hg1. destruct (Store.getById st k) as [r|] eqn:Er.
    + assert (Hin : r ∈ MC.items (items st)) by (apply item_key; [done|by exists k]).
      apply decide_ext. naive_solver.
    + by case_decide.
Qed.

(** A poll's answer drawn: it is never refused, and the rows are the visible
    torrents of the answer. *)
Lemma update_draws g asked ts wipe :
  grid_ok own g -> obj_ok ts -> owns own (Grid.store g) ts ->
  exists g', Grid.update fields asked g (Some ts) wipe = Some g' /\ grid_ok own g' /\
    Grid.lastTorrents g' = Some ts /\ draws g g' asked ts /\
    (forall t l, oget t ts = Some l -> objs (Grid.store g') !! l = objs (Grid.store g) !! l) /\
    Grid.hiddenLabels g' = Grid.hiddenLabels g.
Proof.
  intros Hg Hok Hw. unfold Grid.update.
  destruct (withoutHiddenLabels_spec (Grid.with_last g (Some ts)) asked ts) as (shown & E & Hv & Hsok).
  rewrite E. cbv zeta.
  set (g1 := if wipe then _ else Grid.with_last g (Some ts)).
  assert (Hg1 : grid_ok own g1 /\ objs (Grid.store g1) = objs (Grid.store g) /\
    Grid.lastTorrents g1 = Some ts /\ Grid.hiddenLabels g1 = Grid.hiddenLabels g).
  { assert (grid_ok own (Grid.with_last g (Some ts))) by by apply with_last_ok.
    unfold g1. destruct wipe; [|done]. split; [by apply wiped_ok|]. split; [|done].
    simpl. by destruct (removeAll_spec _ (go_store _ _ Hg)) as (_ & ? & _). }
  clearbody g1. destruct Hg1 as (Hg1 & Hob & Hl1 & Hh1).
  assert (Hvis : forall t, oget t shown = match oget t ts with
    | Some l => if visible g asked l then Some l else None | None => None end) by exact Hv.
  clear Hv E.
  assert (Hsub : forall t l, oget t shown = Some l -> oget t ts = Some l).
  { intros t l. rewrite Hvis. destruct (oget t ts) as [l'|]; [|done]. by case_match. }
  assert (Hw1 : owns own (Grid.store g1) shown).
  { intros t l Ht. rewrite Hob. by apply Hw, Hsub. }
  destruct (update_all_inv own shown (Grid.store g1) (okeys shown) []
    (Grid.store g1, Grid.torrents g1, []) (loop_start _ _ Hg1 Hw1)) as ([[st known] news] & E1 & Hi).
  { apply okeys_NoDup. by apply Hsok. }
  { intros t Ht. split; [apply not_elem_of_nil|]. by apply okeys_elem. }
  cbn [default from_option]. unfold Datatypes.id. rewrite E1. cbn [mbind option_bind].
  assert (Hdn : forall t l, oget t shown = Some l -> t ∈ reverse (okeys shown) ++ []).
  { intros t l Ht. rewrite app_nil_r, elem_of_reverse. apply okeys_elem. by eexists. }
  destruct (added _ _ _ _ _ _ Hi Hdn) as (Hs' & _ & Hod' & Hos' & Hobj & Hdo' & Hk' & Hrow).
  set (st' := Store.add st news) in *. clearbody st'. clear Hi E1 Hdn.
  rewrite bool_decide_eq_true_2 by done. cbn [negb andb].
  pose proof (finished st' known shown Hs' Hk') as Hf. cbv zeta in Hf.
  destruct (Store.each _ _ _) as [st1 known1].
  set (st3 := match Store.getSortState (Store.commitChanges st1) with
    Some (f, d) => Store.sort fields (Store.commitChanges st1) f d | None => _ end) in *. clearbody st3.
  destruct Hf as (Hs3 & Ho3 & Hr3 & Hk3 & Hg3).
  assert (Hun : forall t l, oget t ts = Some l -> objs st3 !! l = objs (Grid.store g) !! l).
  { intros t l Ht. rewrite Ho3, <- Hob. apply Hobj. destruct (Hw t l Ht) as [-> _].
    intros l' Hl'. apply Hsub in Hl'. congruence. }
  eexists. split; [reflexivity|]. split; [|split_and!].
  - split; simpl; [done|done| |].
    + intros k r. rewrite Hg3. destruct (decide _); [done|]. intros Hr.
      destruct (Hod' k r Hr) as [H1 H2]. unfold rec_owned. destruct (Hr3 r) as [-> ->]. by rewrite Ho3.
    + rewrite Hl1. intros m [= <-]. split; [done|]. intros t l Ht. rewrite (Hun t l Ht). by apply Hw.
  - done.
  - intros t. simpl. rewrite Hg3, Hvis. destruct (oget t ts) as [l|] eqn:Et; [|done].
    pose proof (Hvis t) as Hvt. rewrite Et in Hvt.
    destruct (visible g asked l); [|done].
    destruct (Hrow t l Hvt) as (r & Hr & Hs). rewrite decide_False by done.
    exists r. split; [done|]. by apply (same_rows_shows st').
  - done.
  - done.
Qed.
End update_spec.

(** ** [merge] against what it means *)

(** What a list of torrents holds: the object of each id. *)
Definition deref (st : Store.state) (m : obj loc) : obj object :=
  map (fun p => (p.1, object_at st p.2)) m.

(** A difference folded into a list of objects that share nothing: the ids
    removed go, a torrent that is not held is taken whole, the fields of the
    others are written over. *)
Definition merge_spec (all changed : obj object) (removed : list string) : obj object :=
  foldl (fun all id =>
           match oget id changed with
           | None => all
           | Some fields =>
               match oget id all with
               | None => oset id fields all
               | Some into => oset id (Ext.apply into fields) all
               end
           end) (foldl (fun all id => odel id all) all removed) (okeys changed).

Lemma deref_get st m t : oget t (deref st m) = object_at st <$> oget t m.
Proof. induction m as [|[k l] m IH]; simpl; [done|]. by case_decide. Qed.

Lemma deref_set st m t l : deref st (oset t l m) = oset t (object_at st l) (deref st m).
Proof. induction m as [|[k l'] m IH]; simpl; [done|]. case_decide; simpl; by rewrite ?IH. Qed.

Lemma deref_del st m t : deref st (odel t m) = odel t (deref st m).
Proof. induction m as [|[k l'] m IH]; simpl; [done|]. case_decide; simpl; by rewrite ?IH. Qed.

Lemma deref_keys st m : okeys (deref st m) = okeys m.
Proof. unfold okeys, deref. f_equal. induction m as [|[k l] m IH]; simpl; [done|]. by f_equal. Qed.

Lemma deref_ext st st' m :
  (forall t l, (t, l) ∈ m -> objs st' !! l = objs st !! l) -> deref st' m = deref st m.
Proof.
  intros H. apply map_ext_in. intros [t l] Hin. unfold object_at. simpl.
  rewrite (H t l); [done|]. by apply list_elem_of_In.
Qed.

(** Writing one torrent's object. *)
Lemma deref_write st m t l o :
  obj_ok m -> (forall t' l', (t', l') ∈ m -> t' <> t -> l' <> l) -> oget t m = Some l ->
  deref (with_objs st (<[l := o]> (objs st))) m = oset t o (deref st m).
Proof.
  unfold obj_ok. induction m as [|[k l'] m IH]; intros Hok Hd Hg; [done|].
  apply NoDup_cons in Hok as [Hk Hok]. cbn [oget deref map oset fst snd] in *.
  destruct (decide (t = k)) as [->|Hne].
  - simplify_eq. unfold object_at at 1. simpl. rewrite lookup_insert_eq. f_equal.
    apply deref_ext. intros t' l' Hin. simpl. apply lookup_insert_ne.
    intros ->. apply (Hd t' l'); [by right| |done]. intros ->.
    apply Hk, list_elem_of_fmap. by exists (k, l').
  - fold (deref st m). rewrite <- IH; [|done| |done].
    + f_equal. unfold object_at. simpl. rewrite lookup_insert_ne; [done|].
      intros ->. by apply (Hd k l'); [left|congruence|].
    + intros t' l2 Hin. apply Hd. by right.
Qed.

Lemma fold_fields_spec st into fields :
  into <> fields -> is_Some (objs st !! into) ->
  objs (Grid.fold_fields st into fields) =
    <[into := Ext.apply (object_at st into) (object_at st fields)]> (objs st).
Proof.
  intros Hne Hs. unfold Grid.fold_fields, Ext.apply.
  set (c := object_at st fields). generalize (okeys_elem c).
  generalize (okeys c). intros ks Hks.
  assert (H : forall ks st1 o, (forall k, k ∈ ks -> is_Some (oget k c)) ->
    object_at st1 fields = c -> objs st1 !! into = Some o ->
    objs (foldl (fun s key =>
      with_objs s (<[into := oset key (pget key (object_at s fields)) (object_at s into)]> (objs s))) st1 ks)
    = <[into := foldl (fun o p => match oget p c with Some v => oset p v o | None => o end) o ks]> (objs st1)).
  { clear Hks ks. induction ks as [|k ks IH]; intros st1 o Hk Hc Ho; cbn [foldl].
    - by rewrite insert_id.
    - destruct (Hk k ltac:(by left)) as [v Hv].
      assert (Hin : object_at st1 into = o) by (unfold object_at; by rewrite Ho).
      rewrite Hc, Hin. unfold pget at 2. rewrite Hv. cbn [default from_option].
      erewrite IH.
      + simpl. by rewrite insert_insert_eq.
      + intros k' Hk'. apply Hk. by right.
      + unfold object_at. simpl. by rewrite lookup_insert_ne.
      + simpl. by rewrite lookup_insert_eq. }
  destruct Hs as [o Ho]. rewrite (H ks st o); [|by intros k Hk; apply Hks|done|done].
  unfold object_at. by rewrite Ho.
Qed.

Section merge.
Variable own : loc -> string.

Definition owned_map (st : Store.state) (m : obj loc) : Prop := obj_ok m /\ owns own st m.

Lemma owned_elem st m t l : owned_map st m -> (t, l) ∈ m -> own l = t /\ is_Some (objs st !! l).
Proof. intros [Hok Hw] Hin. apply Hw. by apply oget_elem. Qed.

(** Only objects changed, and none was lost. *)
Definition heap_only (st st' : Store.state) : Prop :=
  recs st' = recs st /\ items st' = items st /\ sortInfo st' = sortInfo st /\
  changed st' = changed st /\ forall l, is_Some (objs st !! l) -> is_Some (objs st' !! l).

Lemma heap_only_trans a b c : heap_only a b -> heap_only b c -> heap_only a c.
Proof.
  unfold heap_only. intros (H1 & H2 & H3 & H4 & H5) (K1 & K2 & K3 & K4 & K5).
  split_and!; try congruence. auto.
Qed.

Lemma owned_map_heap st st' m :
  (forall l, is_Some (objs st !! l) -> is_Some (objs st' !! l)) -> owned_map st m -> owned_map st' m.
Proof. intros H [Hok Hw]. split; [done|]. intros t l Ht. destruct (Hw t l Ht). auto. Qed.

Lemma fold_fields_heap st into fields :
  into <> fields -> is_Some (objs st !! into) -> heap_only st (Grid.fold_fields st into fields).
Proof.
  intros Hne Hs. pose proof (fold_fields_spec st into fields Hne Hs) as H.
  assert (Hr : forall ks st1, let st2 := foldl (fun s key =>
      with_objs s (<[into := oset key (pget key (object_at s fields)) (object_at s into)]> (objs s))) st1 ks in
    recs st2 = recs st1 /\ items st2 = items st1 /\ sortInfo st2 = sortInfo st1 /\ changed st2 = changed st1).
  { induction ks as [|k ks IH]; intros st1; cbn [foldl]; [done|].
    exact (IH (with_objs st1 _)). }
  destruct (Hr (okeys (object_at st fields)) st) as (H1 & H2 & H3 & H4).
  split_and!; try done. intros l Hl. rewrite H. destruct (decide (l = into)) as [->|].
  - rewrite lookup_insert_eq. by eexists.
  - by rewrite lookup_insert_ne.
Qed.

Lemma merge_one_spec chg st all t :
  owned_map st all -> owned_map st chg ->
  (forall l, oget t all = Some l -> oget t chg <> Some l) ->
  let '(st', all') := Grid.merge_one chg (st, all) t in
  deref st' all' =
    match oget t (deref st chg) with
    | None => deref st all
    | Some f => match oget t (deref st all) with
                | None => oset t f (deref st all)
                | Some o => oset t (Ext.apply o f) (deref st all) end
    end /\
  deref st' chg = deref st chg /\ owned_map st' all' /\ heap_only st st' /\
  (forall i, i <> t -> oget i all' = oget i all).
Proof.
  intros Ha Hc Hd. unfold Grid.merge_one. rewrite !deref_get.
  destruct (oget t chg) as [f|] eqn:Ef; cbn [fmap option_fmap option_map].
  - destruct (oget t all) as [into|] eqn:Ei; cbn [fmap option_fmap option_map].
    + assert (Hne : into <> f) by (intros ->; by apply (Hd f)).
      destruct (proj2 Ha t into Ei) as [Hoi Hsi].
      pose proof (fold_fields_spec st into f Hne Hsi) as Hobj.
      pose proof (fold_fields_heap st into f Hne Hsi) as Hh.
      split_and!; try done.
      * erewrite <- deref_write; [|apply Ha| |exact Ei].
        -- apply deref_ext. intros t' l' _. by rewrite Hobj.
        -- intros t' l' Hin Hnt ->. destruct (owned_elem _ _ _ _ Ha Hin). congruence.
      * apply deref_ext. intros t' l' Hin. rewrite Hobj. apply lookup_insert_ne.
        intros <-. destruct (owned_elem _ _ _ _ Hc Hin) as [E _].
        assert (t' = t) as -> by congruence. apply oget_elem in Hin; [|apply Hc]. congruence.
      * eapply owned_map_heap; [apply Hh|done].
    + rewrite deref_set. split_and!; try done.
      * split; [apply oset_ok, Ha|]. intros t' l'. rewrite oget_oset. case_decide; subst.
        -- intros [= <-]. by apply Hc.
        -- apply Ha.
      * intros i Hi. by apply oget_oset_ne.
  - by split_and!.
Qed.

Lemma merge_loop chg ks st all :
  owned_map st all -> owned_map st chg -> NoDup ks ->
  (forall t l, t ∈ ks -> oget t all = Some l -> oget t chg <> Some l) ->
  let '(st', all') := foldl (Grid.merge_one chg) (st, all) ks in
  deref st' all' =
    foldl (fun a t => match oget t (deref st chg) with
                      | None => a
                      | Some f => match oget t a with
                                  | None => oset t f a
                                  | Some o => oset t (Ext.apply o f) a end
                      end) (deref st all) ks /\
  owned_map st' all' /\ heap_only st st'.
Proof.
  revert st all. induction ks as [|t ks IH]; intros st all Ha Hc Hn Hd; cbn [foldl]; [done|].
  apply NoDup_cons in Hn as [Ht Hn].
  pose proof (merge_one_spec chg st all t Ha Hc ltac:(intros l; apply Hd; by left)) as H.
  destruct (Grid.merge_one chg (st, all) t) as [st1 all1].
  destruct H as (Hv & Hcv & Ha1 & Hh & Ho).
  specialize (IH st1 all1 Ha1).
  destruct (foldl (Grid.merge_one chg) (st1, all1) ks) as [st2 all2].
  destruct IH as (Hv2 & Ha2 & Hh2).
  - eapply owned_map_heap; [apply Hh|done].
  - done.
  - intros t' l Hin. rewrite Ho by (intros ->; done). apply Hd. by right.
  - rewrite Hcv in Hv2. rewrite Hv2, Hv. split_and!; try done. by eapply heap_only_trans.
Qed.

(** A difference folded into the list the grid holds is what [merge_spec] says
    of what the two hold, and the grid stays well-formed. *)
Lemma merge_refines g chg removed :
  grid_ok own g -> owned_map (Grid.store g) chg ->
  (forall t l all, Grid.lastTorrents g = Some all -> oget t all = Some l -> oget t chg <> Some l) ->
  let '(g', all') := Grid.merge g chg removed in
  deref (Grid.store g') all' =
    merge_spec (deref (Grid.store g) (default [] (Grid.lastTorrents g)))
               (deref (Grid.store g) chg) removed /\
  grid_ok own g' /\ owned_map (Grid.store g') all' /\
  Grid.hiddenLabels g' = Grid.hiddenLabels g.
Proof.
  intros Hg Hc Hd. unfold Grid.merge. set (all0 := default [] (Grid.lastTorrents g)).
  rewrite (each_fold (fun all id => odel id all)).
  assert (Ha0 : owned_map (Grid.store g) all0).
  { unfold all0. destruct (Grid.lastTorrents g) eqn:E; [by apply (go_last _ _ Hg)|].
    split; [apply nil_ok|]. by intros ??. }
  assert (Hdel : forall ids all, owned_map (Grid.store g) all ->
    owned_map (Grid.store g) (foldl (fun all id => odel id all) all ids) /\
    deref (Grid.store g) (foldl (fun all id => odel id all) all ids) =
      foldl (fun all id => odel id all) (deref (Grid.store g) all) ids /\
    forall t l, oget t (foldl (fun all id => odel id all) all ids) = Some l -> oget t all = Some l).
  { induction ids as [|i ids IH]; intros all Ha; cbn [foldl]; [done|].
    destruct (IH (odel i all)) as (H1 & H2 & H3).
    - split; [apply odel_ok, Ha|]. intros t l. rewrite oget_odel. case_decide; [done|]. apply Ha.
    - split_and!; [done|by rewrite H2, deref_del|].
      intros t l H. apply H3 in H. rewrite oget_odel in H. by case_decide. }
  destruct (Hdel removed all0 Ha0) as (Ha1 & Hv1 & Hs1).
  set (all1 := foldl (fun all id => odel id all) all0 removed) in *.
  pose proof (merge_loop chg (okeys chg) (Grid.store g) all1 Ha1 Hc) as H.
  destruct (foldl (Grid.merge_one chg) (Grid.store g, all1) (okeys chg)) as [st' all'].
  destruct H as (Hv & Ha' & Hh).
  { apply okeys_NoDup, Hc. }
  { intros t l _ Hl. apply Hs1 in Hl. unfold all0 in Hl.
    destruct (Grid.lastTorrents g) eqn:E; [by eapply Hd|done]. }
  assert (Hr : deref st' all' = merge_spec (deref (Grid.store g) all0) (deref (Grid.store g) chg) removed).
  { rewrite Hv, Hv1. unfold merge_spec. by rewrite deref_keys. }
  destruct Hh as (H1 & H2 & H3 & H4 & H5).
  assert (Hg' : grid_ok own (Grid.with_store g st')).
  { destruct Hg as [Hs Hk Ho Hl]. split; simpl.
    - destruct Hs as [? ? ? ? ?]. split; rewrite ?H2; try done; unfold record_at; by rewrite H1, ?H4.
    - unfold Store.getById. by rewrite H2.
    - intros k r. unfold Store.getById. rewrite H2. intros Hr'.
      destruct (Ho k r Hr') as [? ?]. unfold rec_owned, record_at in *. rewrite H1. auto.
    - intros m Hm. destruct (Hl m Hm). by apply (owned_map_heap (Grid.store g)). }
  change (Grid.lastTorrents (Grid.with_store g st')) with (Grid.lastTorrents g).
  destruct (Grid.lastTorrents g) eqn:E; (split; [exact Hr|split; [|exact (conj Ha' eq_refl)]]); [|exact Hg'].
  destruct Hg' as [? ? ? _]. split; simpl; try done. by intros m [= <-].
Qed.
End merge.

(** ** Answers *)

Section answer.

Lemma alloc_spec own g o t :
  grid_ok own g ->
  let '(l, s') := alloc (Grid.store g) o in
  let own' := fun x => if decide (x = l) then t else own x in
  grid_ok own' (Grid.with_store g s') /\ objs (Grid.store g) !! l = None /\ own' l = t /\
  object_at s' l = o /\ is_Some (objs s' !! l) /\
  (forall x, is_Some (objs (Grid.store g) !! x) ->
     own' x = own x /\ objs s' !! x = objs (Grid.store g) !! x).
Proof.
  intros Hg. simpl. set (l := fresh (dom (objs (Grid.store g)))).
  assert (Hl : objs (Grid.store g) !! l = None) by apply not_elem_of_dom, is_fresh.
  assert (Hx : forall x, is_Some (objs (Grid.store g) !! x) -> x <> l).
  { intros x Hx ->. rewrite Hl in Hx. by destruct Hx. }
  assert (Ho : forall x, is_Some (objs (Grid.store g) !! x) ->
    (if decide (x = l) then t else own x) = own x /\
    <[l := o]> (objs (Grid.store g)) !! x = objs (Grid.store g) !! x).
  { intros x H. specialize (Hx x H). by rewrite decide_False, lookup_insert_ne. }
  split_and!; try done.
  - destruct Hg as [Hs Hk Hod Hla]. split; simpl; [|done| |].
    + by destruct Hs as [? ? ? ? ?].
    + intros k r Hr. destruct (Hod k r Hr) as [H1 H2]. destruct (Ho _ H2) as [E1 E2].
      split; [exact (eq_trans E1 H1)|]. change (record_at (with_objs ?s ?h) r) with (record_at s r).
      simpl. by rewrite E2.
    + intros m Hm. destruct (Hla m Hm) as [? Hw]. split; [done|]. intros t' l' Ht.
      destruct (Hw t' l' Ht) as [H1 H2]. destruct (Ho _ H2) as [E1 E2]. simpl. by rewrite E1, E2.
  - by rewrite decide_True.
  - unfold object_at. simpl. by rewrite lookup_insert_eq.
  - simpl. rewrite lookup_insert_eq. by eexists.
Qed.

(** An answer arrives as new objects, in its order, holding what it said. *)
Lemma parse_spec answer own g :
  grid_ok own g -> obj_ok answer ->
  let '(s', m) := Grid.parse (Grid.store g) answer in
  exists own', grid_ok own' (Grid.with_store g s') /\ owned_map own' s' m /\ deref s' m = answer /\
  m.*1 = answer.*1 /\
  (forall t l, (t, l) ∈ m -> objs (Grid.store g) !! l = None) /\
  (forall x, is_Some (objs (Grid.store g) !! x) ->
     own' x = own x /\ objs s' !! x = objs (Grid.store g) !! x).
Proof.
  revert own g. induction answer as [|[t o] answer IH]; intros own g Hg Hok.
  { simpl. exists own. split; [by destruct g|]. split; [by split; [apply nil_ok|]|].
    split_and!; try done. intros t l Ht. by apply elem_of_nil in Ht. }
  apply NoDup_cons in Hok as [Ht Hok]. cbn [Grid.parse].
  pose proof (alloc_spec own g o t Hg) as Ha.
  destruct (alloc (Grid.store g) o) as [l s1]. cbv zeta in Ha.
  set (own1 := fun x => if decide (x = l) then t else own x) in *.
  destruct Ha as (Hg1 & Hnew & Hol & Hob & Hs1 & Hx1). clearbody own1.
  specialize (IH own1 (Grid.with_store g s1) Hg1 Hok). cbn [Grid.with_store Grid.store] in IH.
  destruct (Grid.parse s1 answer) as [s2 m]. destruct IH as (own2 & Hg2 & [Hmok Hmw] & Hd & Hk & Hfr & Hx2).
  destruct (Hx2 l Hs1) as [El Eo].
  exists own2. split; [exact Hg2|]. split; [split|split_and!].
  - unfold obj_ok. rewrite fmap_cons. apply NoDup_cons. split; [|exact Hmok]. by rewrite Hk.
  - intros t' l'. cbn [oget]. destruct (decide (t' = t)) as [->|].
    + intros [= <-]. by rewrite El, Hol, Eo.
    + apply Hmw.
  - simpl. rewrite Hd. unfold object_at in *. by rewrite Eo, Hob.
  - by rewrite !fmap_cons, Hk.
  - intros t' l' [[= -> ->]|Hin]%elem_of_cons; [done|].
    specialize (Hfr _ _ Hin). apply eq_None_not_Some. intros Hs. destruct (Hx1 _ Hs) as [_ E].
    rewrite E in Hfr. rewrite Hfr in Hs. by destruct Hs.
  - intros x Hx. destruct (Hx1 x Hx) as [E1 E2]. destruct (Hx2 x) as [E3 E4]; [by rewrite E2|].
    split; congruence.
Qed.
End answer.
