(* ===== verification/UI.v ===== *)
(** * deluge.ui: the poll loop

    The controller that asks the server for the list every few seconds, one
    question at a time, and draws what comes back.  The model has the
    controller's own fields, the browser's pending timers, whether the tab is
    hidden, and the grid it draws into.  A question to the server and every
    other thing a handler starts is an output. *)

From stdpp Require Import base list strings gmap sets.
From Stdlib Require Import Lia ZArith.
From S2P Require Import Prelude JsNum JsString JsValue ExtCore SortTypes Collection Store TorrentGrid.

Module UI.

(** What a timer calls when it fires. *)
Inductive timer := TUpdate | TCheck | THeartbeat.

#[global] Instance timer_eq_dec : EqDecision timer.
Proof. solve_decision. Defined.

Record state := mk {
  errorCount : Z;
  filters : option (obj val);
  oldFilters : option (obj val);
  epoch : Z;
  running : option nat;
  inFlight : bool;
  wanted : bool;
  checking : option nat;
  heartbeat : option nat;
  grid : Grid.state;
  (* the browser *)
  timers : list (nat * timer);
  nextTimer : nat;
  hidden : bool
}.

(** What a handler starts: a poll, the other calls to the server, and the
    windows it opens. *)
Inductive output :=
  | AskUpdate (keys : list string) (filters : obj val) (epoch : Z)
  | AskConnected
  | AskSession
  | UpdateDetails
  | ShowLostConnection
  | ShowConnectionManager
  | DrawStatus.

(** What a handler reads around it: the sidebar's filters, the search box and
    the keys the grid's columns need; the label the sidebar has selected when
    the grid is drawn; and how often drawing the sidebar selects another
    filter, which asks for an update each time. *)
Record inputs := {
  sidebar : obj val;
  search : string;
  keys : list string;
  asked_label : option string;
  reselected : nat
}.

(** An answer to a poll: [connected], [epoch || 0], [delta], [torrents] and
    [removed]. *)
Record answer := {
  connected : bool;
  aepoch : Z;
  delta : bool;
  torrents : option (obj object);
  removed : list string
}.

Definition with_timers s t n :=
  mk (errorCount s) (filters s) (oldFilters s) (epoch s) (running s) (inFlight s) (wanted s)
     (checking s) (heartbeat s) (grid s) t n (hidden s).
Definition with_running s r :=
  mk (errorCount s) (filters s) (oldFilters s) (epoch s) r (inFlight s) (wanted s)
     (checking s) (heartbeat s) (grid s) (timers s) (nextTimer s) (hidden s).
Definition with_flight s f w :=
  mk (errorCount s) (filters s) (oldFilters s) (epoch s) (running s) f w
     (checking s) (heartbeat s) (grid s) (timers s) (nextTimer s) (hidden s).
Definition with_epoch s e :=
  mk (errorCount s) (filters s) (oldFilters s) e (running s) (inFlight s) (wanted s)
     (checking s) (heartbeat s) (grid s) (timers s) (nextTimer s) (hidden s).
Definition with_filters s f o :=
  mk (errorCount s) f o (epoch s) (running s) (inFlight s) (wanted s)
     (checking s) (heartbeat s) (grid s) (timers s) (nextTimer s) (hidden s).
Definition with_errors s e :=
  mk e (filters s) (oldFilters s) (epoch s) (running s) (inFlight s) (wanted s)
     (checking s) (heartbeat s) (grid s) (timers s) (nextTimer s) (hidden s).
Definition with_checking s c :=
  mk (errorCount s) (filters s) (oldFilters s) (epoch s) (running s) (inFlight s) (wanted s)
     c (heartbeat s) (grid s) (timers s) (nextTimer s) (hidden s).
Definition with_heartbeat s h :=
  mk (errorCount s) (filters s) (oldFilters s) (epoch s) (running s) (inFlight s) (wanted s)
     (checking s) h (grid s) (timers s) (nextTimer s) (hidden s).
Definition with_grid s g :=
  mk (errorCount s) (filters s) (oldFilters s) (epoch s) (running s) (inFlight s) (wanted s)
     (checking s) (heartbeat s) g (timers s) (nextTimer s) (hidden s).
Definition with_hidden s h :=
  mk (errorCount s) (filters s) (oldFilters s) (epoch s) (running s) (inFlight s) (wanted s)
     (checking s) (heartbeat s) (grid s) (timers s) (nextTimer s) h.

(** [setTimeout] and [clearTimeout] *)
Definition clearTimeout (id : nat) (s : state) : state :=
  with_timers s (filter (fun t => t.1 <> id) (timers s)) (nextTimer s).
Definition setTimeout (k : timer) (s : state) : nat * state :=
  (nextTimer s, with_timers s (timers s ++ [(nextTimer s, k)]) (S (nextTimer s))).

(** [pollInterval]: the configured interval if it is positive. *)
Definition pollInterval (configured : option prim) : prim :=
  match configured with
  | Some c => if prim_ltb (pint 0) c then c else pint 2000
  | None => pint 2000
  end.

(** [if (this.running) { clearTimeout(this.running); this.running = undefined }] *)
Definition clearRunning (s : state) : state :=
  match running s with Some id => with_running (clearTimeout id s) None | None => s end.

(** [schedule] *)
Definition schedule (s : state) : state :=
  let s := clearRunning s in
  if hidden s then s
  else let '(id, s) := setTimeout TUpdate s in with_running s (Some id).

(** [keepSessionAlive], and what its timer does *)
Definition keepSessionAlive (s : state) : state :=
  let s := match heartbeat s with Some id => clearTimeout id s | None => s end in
  let '(id, s) := setTimeout THeartbeat s in with_heartbeat s (Some id).
Definition onHeartbeat (s : state) : state * list output :=
  let s := with_heartbeat s None in
  if negb (hidden s) then (s, []) else (s, [AskSession]).

(** [checkConnection] *)
Definition checkConnection (s : state) : state * list output := (s, [AskConnected]).

(** [update] *)
Definition questionOf (i : inputs) : obj val :=
  if bool_decide (search i = "") then sidebar i
  else oset "keyword" (VPrim (PStr (search i))) (sidebar i).

Definition update (i : inputs) (s : state) : state * list output :=
  let s := clearRunning s in
  if inFlight s then (with_flight s true true, [])
  else
    let s := with_flight s true false in
    let f := questionOf i in
    let s := with_filters s (Some f) (filters s) in
    let s := if negb (Ext.areObjectsEqual ∅ (filters s) (oldFilters s)) then with_epoch s 0 else s in
    (s, [AskUpdate (keys i) f (epoch s); UpdateDetails]).

(** [onVisibilityChanged], the tab being hidden or shown *)
Definition onVisibilityChanged (i : inputs) (s : state) : state * list output :=
  if hidden s then (keepSessionAlive (clearRunning s), [])
  else
    let s := match heartbeat s with
             | Some id => with_heartbeat (clearTimeout id s) None
             | None => s
             end in
    update i s.

(** [stop] and [onDisconnect]; what firing ['disconnect'] does to the grid and
    to the loop, in the order the two listen. *)
Definition stop (s : state) : state :=
  match running s with
  | Some id =>
      let s := with_running (clearTimeout id s) None in
      with_grid s (Grid.with_store (grid s) (Store.removeAll (Grid.store (grid s))))
  | None => s
  end.
Definition onDisconnect (s : state) : state := stop s.
Definition fireDisconnect (s : state) : state := onDisconnect (with_grid s (Grid.onDisconnect (grid s))).

(** [onConnectionError] and [onConnectionSuccess] *)
Definition clearChecking (s : state) : state :=
  match checking s with Some id => clearTimeout id s | None => s end.
Definition onConnectionError (s : state) : state :=
  let s := clearChecking s in
  let '(id, s) := setTimeout TCheck s in with_checking s (Some id).
Definition onConnectionSuccess (i : inputs) (result : bool) (s : state) : state * list output :=
  let s := match checking s with
           | Some id => with_checking (clearTimeout id s) None
           | None => s
           end in
  let '(s, os) := update i s in
  (s, os ++ DrawStatus :: (if result then [] else [ShowConnectionManager])).

(** [onUpdateError] *)
Definition onUpdateError (s : state) : state * list output :=
  let s := with_flight s false (wanted s) in
  let s := with_epoch s 0 in
  let s := with_flight s (inFlight s) false in
  let '(s, os) :=
    if decide (errorCount s = 2) then
      let s := fireDisconnect s in
      let '(id, s) := setTimeout TCheck s in
      (with_checking s (Some id), [ShowLostConnection; DrawStatus])
    else (s, []) in
  let s := with_errors s (errorCount s + 1) in
  (clearRunning s, os).

(** The end of [onUpdate], once the list is drawn: the sidebar is, a filter it
    selects asks for an update, and so does a refresh that was wanted. *)
Definition settle (i : inputs) (s : state) : state * list output :=
  let '(s, os) :=
    Nat.iter (reselected i) (fun r => let '(s, os) := update i r.1 in (s, r.2 ++ os)) (s, [DrawStatus]) in
  let s := with_errors s 0 in
  if wanted s then let '(s, os') := update i s in (s, os ++ os') else (s, os).

Section draw.
(** The fields of the grid's store. *)
Variable fields : list Field.field.

(** The list an answer makes: its torrents as new objects, and a difference
    folded into the list last received. *)
Definition received (a : answer) (g : Grid.state) : Grid.state * option (obj loc) :=
  match torrents a with
  | None => if delta a then let '(g, all) := Grid.merge g [] (removed a) in (g, Some all) else (g, None)
  | Some o =>
      let '(s, ts) := Grid.parse (Grid.store g) o in
      let g := Grid.with_store g s in
      if delta a then let '(g, all) := Grid.merge g ts (removed a) in (g, Some all)
      else (g, Some ts)
  end.

(** [onUpdate]; the last component says a [TypeError] left it early. *)
Definition onUpdate (i : inputs) (a : answer) (s : state) : state * list output * bool :=
  let s := with_flight s false (wanted s) in
  let s := clearRunning s in
  if negb (connected a) then (fireDisconnect s, [ShowConnectionManager], false)
  else
    let s := schedule s in
    let s := with_epoch s (aepoch a) in
    if delta a && negb (bool_decide (is_Some (Grid.lastTorrents (grid s)))) then
      let '(s, os) := update i (with_epoch s 0) in (s, os, false)
    else
      let '(g, ts) := received a (grid s) in
      let wipe := negb (Ext.areObjectsEqual ∅ (filters s) (oldFilters s)) in
      match Grid.update fields (asked_label i) g ts wipe with
      | None => (with_grid s (Grid.with_last g ts), [], true)
      | Some g => let '(s, os) := settle i (with_grid s g) in (s, os, false)
      end.
End draw.

(** [onConnect] *)
Definition onConnect (i : inputs) (s : state) : state * list output :=
  match running s with Some _ => (s, []) | None => update i s end.

End UI.

(** ** The loop and what surrounds it *)

Module Loop.

(** The controller and the calls it is waiting for: polls, checks of the
    connection and of the session. *)
Record world := W { ui : UI.state; polls : nat; checks : nat; sessions : nat }.

(** What may happen to it. *)
Inductive event :=
  | Update (i : UI.inputs)                    (** somebody calls [update] *)
  | Timer (id : nat) (i : UI.inputs)          (** a timer fires *)
  | Answer (i : UI.inputs) (a : UI.answer)    (** a poll is answered *)
  | Failure                                   (** a poll fails *)
  | Visibility (hide : bool) (i : UI.inputs)  (** the tab is hidden or shown *)
  | Connect (i : UI.inputs)                   (** ['connect'] is fired *)
  | Disconnect                                (** ['disconnect'] is fired *)
  | Connected (result : bool) (i : UI.inputs) (** the connection check answers *)
  | NotConnected                              (** the connection check fails *)
  | SessionChecked.                           (** the session check answers or fails *)

Definition is_poll (o : UI.output) : bool := match o with UI.AskUpdate _ _ _ => true | _ => false end.
Definition is_check (o : UI.output) : bool := match o with UI.AskConnected => true | _ => false end.
Definition is_session (o : UI.output) : bool := match o with UI.AskSession => true | _ => false end.
Definition count (p : UI.output -> bool) (os : list UI.output) : nat := length (List.filter p os).

(** The calls a handler starts join the ones waited for. *)
Definition run (w : world) (r : UI.state * list UI.output) : world :=
  W r.1 (polls w + count is_poll r.2) (checks w + count is_check r.2) (sessions w + count is_session r.2).

Section step.
Variable fields : list Field.field.

(** One event; [None] when it cannot happen: a timer that is not pending, an
    answer to a call that was not made. *)
Definition step (w : world) (e : event) : option world :=
  match e with
  | Update i => Some (run w (UI.update i (ui w)))
  | Timer id i =>
      match list_find (fun t => t.1 = id) (UI.timers (ui w)) with
      | None => None
      | Some (_, (_, k)) =>
          let s := UI.clearTimeout id (ui w) in
          Some (run w match k with
                      | UI.TUpdate => UI.update i s
                      | UI.TCheck => UI.checkConnection s
                      | UI.THeartbeat => UI.onHeartbeat s
                      end)
      end
  | Answer i a =>
      match polls w with
      | O => None
      | S n => Some (run (W (ui w) n (checks w) (sessions w)) (UI.onUpdate fields i a (ui w)).1)
      end
  | Failure =>
      match polls w with
      | O => None
      | S n => Some (run (W (ui w) n (checks w) (sessions w)) (UI.onUpdateError (ui w)))
      end
  | Visibility h i => Some (run w (UI.onVisibilityChanged i (UI.with_hidden (ui w) h)))
  | Connect i => Some (run w (UI.onConnect i (ui w)))
  | Disconnect => Some (run w (UI.fireDisconnect (ui w), []))
  | Connected r i =>
      match checks w with
      | O => None
      | S n => Some (run (W (ui w) (polls w) n (sessions w)) (UI.onConnectionSuccess i r (ui w)))
      end
  | NotConnected =>
      match checks w with
      | O => None
      | S n => Some (run (W (ui w) (polls w) n (sessions w)) (UI.onConnectionError (ui w), []))
      end
  | SessionChecked =>
      match sessions w with
      | O => None
      | S n => Some (run (W (ui w) (polls w) (checks w) n) (UI.keepSessionAlive (ui w), []))
      end
  end.

Definition steps (w : world) (es : list event) : option world :=
  foldl (fun w e => w ← w; step w e) (Some w) es.
End step.

(** The controller as the script creates it. *)
Definition start (g : Grid.state) : world :=
  W (UI.mk 0 None None 0 None false false None None g [] 1 false) 0 0 0.

End Loop.

(** ** Timers *)

(** The pending timers of a kind. *)
Definition pending (k : UI.timer) (s : UI.state) : list nat :=
  (List.filter (fun t => bool_decide (t.2 = k)) (UI.timers s)).*1.

(** A timer that the field naming it knows, or none: the discipline of
    [running] and of [heartbeat]. *)
Record timers_ok (s : UI.state) : Prop := {
  to_fresh : forall id k, (id, k) ∈ UI.timers s -> (id < UI.nextTimer s)%nat;
  to_nodup : NoDup (UI.timers s).*1;
  to_running : forall id, (id, UI.TUpdate) ∈ UI.timers s -> UI.running s = Some id;
  to_heartbeat : forall id, (id, UI.THeartbeat) ∈ UI.timers s -> UI.heartbeat s = Some id
}.

(** The part of the controller the discipline is about. *)
Lemma timers_ok_ext s s' :
  UI.timers s' = UI.timers s -> UI.nextTimer s' = UI.nextTimer s ->
  UI.running s' = UI.running s -> UI.heartbeat s' = UI.heartbeat s ->
  timers_ok s -> timers_ok s'.
Proof. intros E1 E2 E3 E4 [? ? ? ?]. split; by rewrite ?E1, ?E2, ?E3, ?E4. Qed.

Lemma clear_elem id s t : t ∈ UI.timers (UI.clearTimeout id s) <-> t.1 <> id /\ t ∈ UI.timers s.
Proof. simpl. by rewrite list_elem_of_filter. Qed.

Lemma clear_ok id s : timers_ok s -> timers_ok (UI.clearTimeout id s).
Proof.
  intros [H1 H2 H3 H4]. split.
  - intros j k [_ H]%clear_elem. by eapply H1.
  - by apply NoDup_filter_fst.
  - intros j [_ H]%clear_elem. by apply H3.
  - intros j [_ H]%clear_elem. by apply H4.
Qed.

Lemma set_elem k s t :
  t ∈ UI.timers (UI.setTimeout k s).2 <-> t ∈ UI.timers s \/ t = (UI.nextTimer s, k).
Proof. simpl. by rewrite elem_of_app, list_elem_of_singleton. Qed.

(** A new timer, once nothing pending has the kind it replaces. *)
Lemma set_fresh_ok k s r h c :
  timers_ok s ->
  (forall id, (id, UI.TUpdate) ∈ UI.timers s -> r = Some id) ->
  (forall id, (id, UI.THeartbeat) ∈ UI.timers s -> h = Some id) ->
  (k = UI.TUpdate -> r = Some (UI.nextTimer s)) ->
  (k = UI.THeartbeat -> h = Some (UI.nextTimer s)) ->
  timers_ok (UI.with_checking (UI.with_heartbeat (UI.with_running (UI.setTimeout k s).2 r) h) c).
Proof.
  intros [H1 H2 H3 H4] Hr Hh Hkr Hkh. split; simpl.
  - intros id k' [H|H%list_elem_of_singleton]%elem_of_app; [specialize (H1 _ _ H); lia|].
    simplify_eq. lia.
  - rewrite fmap_app. apply NoDup_app. split_and!; [done| |apply NoDup_singleton].
    intros id ([id' k'] & -> & Hin)%list_elem_of_fmap Hx. simpl in Hx.
    apply list_elem_of_singleton in Hx. apply H1 in Hin. simpl in *. lia.
  - intros id [H|H%list_elem_of_singleton]%elem_of_app; [by apply Hr|]. simplify_eq. by apply Hkr.
  - intros id [H|H%list_elem_of_singleton]%elem_of_app; [by apply Hh|]. simplify_eq. by apply Hkh.
Qed.

Lemma clearRunning_ok s :
  timers_ok s -> timers_ok (UI.clearRunning s) /\
  UI.running (UI.clearRunning s) = None /\
  (forall id, (id, UI.TUpdate) ∉ UI.timers (UI.clearRunning s)).
Proof.
  intros Hs. unfold UI.clearRunning. destruct (UI.running s) as [id|] eqn:E.
  - pose proof (clear_ok id s Hs) as [H1 H2 H3 H4].
    assert (Hn : forall j, (j, UI.TUpdate) ∉ UI.timers (UI.clearTimeout id s)).
    { intros j [Hne Hj]%clear_elem. apply (to_running _ Hs) in Hj. simpl in *. congruence. }
    split_and!; [|done|done]. split; try done. intros j Hj. by apply Hn in Hj.
  - split_and!; [done|done|]. intros j Hj. apply (to_running _ Hs) in Hj. congruence.
Qed.

(** ** The handlers keep the discipline *)

Local Open Scope nat_scope.

(** What every handler is shown to do: keep the timers in order, and poll only
    where none is in flight. *)
Record handled (s : UI.state) (r : UI.state * list UI.output) : Prop := {
  h_timers : timers_ok r.1;
  h_polls : (if UI.inFlight s then 1 else 0) + Loop.count Loop.is_poll r.2
            = (if UI.inFlight r.1 then 1 else 0)
}.

Ltac ext_ok :=
  match goal with
  | H : timers_ok _ |- timers_ok _ => eapply timers_ok_ext; [..|exact H]; reflexivity
  end.

Lemma schedule_ok s :
  timers_ok s -> timers_ok (UI.schedule s) /\ UI.inFlight (UI.schedule s) = UI.inFlight s /\
  (if UI.hidden s then pending UI.TUpdate (UI.schedule s) = []
   else exists id, (id, UI.TUpdate) ∈ UI.timers (UI.schedule s)).
Proof.
  intros Hs. unfold UI.schedule. destruct (clearRunning_ok s Hs) as (H1 & H2 & H3).
  assert (Hf : UI.inFlight (UI.clearRunning s) = UI.inFlight s /\ UI.hidden (UI.clearRunning s) = UI.hidden s).
  { unfold UI.clearRunning. by case_match. }
  destruct Hf as [Hf Hh]. rewrite Hh. destruct (UI.hidden s).
  - split_and!; [done|done|]. unfold pending.
    destruct (List.filter _ (UI.timers (UI.clearRunning s))) as [|[id k] l] eqn:E; [done|].
    exfalso. assert (Hin : In (id, k) (List.filter (fun t => bool_decide (t.2 = UI.TUpdate)) (UI.timers (UI.clearRunning s)))).
    { rewrite E. by left. }
    apply List.filter_In in Hin as [Hin Hk]. apply bool_decide_eq_true in Hk. simpl in Hk. subst k.
    apply (H3 id). by apply list_elem_of_In.
  - set (s1 := UI.clearRunning s) in *.
    split_and!; [|exact Hf|].
    + eapply timers_ok_ext; [..|eapply (set_fresh_ok UI.TUpdate s1 (Some (UI.nextTimer s1)) (UI.heartbeat s1) (UI.checking s1))]; try done.
      * intros id Hid. by apply H3 in Hid.
      * apply H1.
    + eexists. simpl. apply elem_of_app. right. by left.
Qed.

Lemma update_handled i s : timers_ok s -> handled s (UI.update i s) /\ UI.inFlight (UI.update i s).1 = true.
Proof.
  intros Hs. destruct (clearRunning_ok s Hs) as (H1 & H2 & H3).
  assert (Hf : UI.inFlight (UI.clearRunning s) = UI.inFlight s) by (unfold UI.clearRunning; by case_match).
  unfold UI.update. rewrite Hf. destruct (UI.inFlight s) eqn:E.
  - split; [|done]. split; [by ext_ok|]. simpl. rewrite E. done.
  - cbv zeta. set (s1 := UI.with_filters _ _ _).
    set (s2 := if negb _ then UI.with_epoch s1 0 else s1).
    assert (H : timers_ok s2 /\ UI.inFlight s2 = true).
    { unfold s2. destruct (negb _); (split; [by ext_ok|done]). }
    clearbody s2. destruct H as [H F]. split; [|done]. split; [done|].
    cbn [fst snd]. by rewrite F, E.
Qed.

(** Handlers one after the other. *)
Lemma handled_then s r r' :
  handled s r -> handled r.1 r' -> handled s (r'.1, r.2 ++ r'.2).
Proof.
  intros [H1 H2] [H3 H4]. split; [done|]. cbn [fst snd]. unfold Loop.count in *.
  rewrite List.filter_app, length_app. lia.
Qed.

(** The updates a redrawn sidebar asks for. *)
Definition reselects (i : UI.inputs) (n : nat) (s : UI.state) : UI.state * list UI.output :=
  Nat.iter n (fun r => let '(s, os) := UI.update i r.1 in (s, r.2 ++ os)) (s, [UI.DrawStatus]).

Lemma reselects_S i n s :
  reselects i (S n) s =
  ((UI.update i (reselects i n s).1).1, (reselects i n s).2 ++ (UI.update i (reselects i n s).1).2).
Proof. unfold reselects. cbn [Nat.iter nat_rect]. by destruct (UI.update i _). Qed.

Lemma settle_eq i s :
  UI.settle i s =
  let r := reselects i (UI.reselected i) s in
  let s := UI.with_errors r.1 0 in
  if UI.wanted s then ((UI.update i s).1, r.2 ++ (UI.update i s).2) else (s, r.2).
Proof.
  unfold UI.settle. fold (reselects i (UI.reselected i) s).
  destruct (reselects i (UI.reselected i) s) as [s1 os]. cbn [fst snd].
  destruct (UI.wanted _); [|done]. by destruct (UI.update i _).
Qed.

Lemma settle_handled i s : timers_ok s -> handled s (UI.settle i s).
Proof.
  intros Hs. rewrite settle_eq. cbv zeta.
  assert (H : handled s (reselects i (UI.reselected i) s)).
  { induction (UI.reselected i) as [|n IH]; [split; [done|]; apply Nat.add_0_r|].
    rewrite reselects_S. apply handled_then; [done|]. apply update_handled, IH. }
  destruct (UI.wanted _).
  - apply handled_then; [done|].
    assert (Ht : timers_ok (UI.with_errors (reselects i (UI.reselected i) s).1 0)).
    { destruct H as [H _]. by ext_ok. }
    destruct (update_handled i _ Ht) as [[H1 H2] _]. by split.
  - destruct H as [H1 H2]. split; [by ext_ok|done].
Qed.

Lemma keepSessionAlive_ok s :
  timers_ok s -> timers_ok (UI.keepSessionAlive s) /\ UI.inFlight (UI.keepSessionAlive s) = UI.inFlight s.
Proof.
  intros Hs. unfold UI.keepSessionAlive.
  set (s1 := match UI.heartbeat s with Some id => _ | None => s end).
  assert (H1 : timers_ok s1 /\ UI.inFlight s1 = UI.inFlight s /\ forall id, (id, UI.THeartbeat) ∉ UI.timers s1).
  { unfold s1. destruct (UI.heartbeat s) as [h|] eqn:E.
    - split_and!; [by apply clear_ok|done|]. intros id [Hne Hid]%clear_elem.
      apply (to_heartbeat _ Hs) in Hid. simpl in *. congruence.
    - split_and!; [done|done|]. intros id Hid. apply (to_heartbeat _ Hs) in Hid. congruence. }
  clearbody s1. destruct H1 as (H1 & H2 & H3). split; [|exact H2].
  eapply timers_ok_ext; [..|eapply (set_fresh_ok UI.THeartbeat s1 (UI.running s1) (Some (UI.nextTimer s1)) (UI.checking s1))]; try done.
  - apply H1.
  - intros id Hid. by apply H3 in Hid.
Qed.

Lemma clearRunning_flight s : UI.inFlight (UI.clearRunning s) = UI.inFlight s.
Proof. unfold UI.clearRunning. by case_match. Qed.

Lemma fireDisconnect_ok s :
  timers_ok s -> timers_ok (UI.fireDisconnect s) /\ UI.inFlight (UI.fireDisconnect s) = UI.inFlight s.
Proof.
  intros Hs. unfold UI.fireDisconnect, UI.onDisconnect, UI.stop.
  set (s1 := UI.with_grid s _). assert (H1 : timers_ok s1) by by ext_ok.
  destruct (UI.running s1) as [id|] eqn:E; [|done].
  destruct (clearRunning_ok s1 H1) as (H2 & _). unfold UI.clearRunning in H2. rewrite E in H2.
  split; [|done]. by ext_ok.
Qed.

Lemma setCheck_ok s :
  timers_ok s -> timers_ok (UI.with_checking (UI.setTimeout UI.TCheck s).2 (Some (UI.nextTimer s))).
Proof.
  intros Hs.
  eapply timers_ok_ext; [..|eapply (set_fresh_ok UI.TCheck s (UI.running s) (UI.heartbeat s))]; try done; apply Hs.
Qed.

(** A failed poll, where one was in flight. *)
Lemma onUpdateError_ok s :
  timers_ok s -> timers_ok (UI.onUpdateError s).1 /\ UI.inFlight (UI.onUpdateError s).1 = false /\
  Loop.count Loop.is_poll (UI.onUpdateError s).2 = 0.
Proof.
  intros Hs. unfold UI.onUpdateError. cbv zeta.
  set (s1 := UI.with_flight (UI.with_epoch _ _) _ _).
  assert (H1 : timers_ok s1) by by ext_ok.
  destruct (decide (UI.errorCount s1 = 2%Z)).
  - destruct (fireDisconnect_ok s1 H1) as [H2 H3].
    pose proof (setCheck_ok _ H2) as H4. cbn [UI.setTimeout fst snd] in *.
    set (s2 := UI.with_checking _ _) in *. split_and!; [| |done].
    + cbn [fst]. refine (proj1 (clearRunning_ok _ _)). by ext_ok.
    + cbn [fst]. rewrite clearRunning_flight. exact H3.
  - split_and!; [| |done].
    + cbn [fst]. refine (proj1 (clearRunning_ok _ _)). by ext_ok.
    + cbn [fst]. by rewrite clearRunning_flight.
Qed.

(** An answered poll. *)
Lemma onUpdate_ok fields i a s :
  timers_ok s ->
  timers_ok (UI.onUpdate fields i a s).1.1 /\
  Loop.count Loop.is_poll (UI.onUpdate fields i a s).1.2 =
    (if UI.inFlight (UI.onUpdate fields i a s).1.1 then 1 else 0)%nat.
Proof.
  intros Hs. unfold UI.onUpdate. cbv zeta.
  set (s1 := UI.clearRunning (UI.with_flight s false (UI.wanted s))).
  assert (H1 : timers_ok s1 /\ UI.inFlight s1 = false).
  { unfold s1. rewrite clearRunning_flight. split; [|done]. refine (proj1 (clearRunning_ok _ _)). by ext_ok. }
  clearbody s1. destruct H1 as [H1 F1].
  destruct (negb (UI.connected a)).
  { destruct (fireDisconnect_ok s1 H1) as [H2 F2]. cbn [fst snd]. rewrite F2, F1. done. }
  destruct (schedule_ok s1 H1) as (H2 & F2 & _). rewrite F1 in F2.
  set (s2 := UI.with_epoch (UI.schedule s1) (UI.aepoch a)).
  assert (H3 : timers_ok s2) by by ext_ok.
  assert (F3 : UI.inFlight s2 = false) by done. clearbody s2.
  assert (Hup : forall s, timers_ok s -> UI.inFlight s = false ->
    timers_ok (UI.update i s).1 /\ Loop.count Loop.is_poll (UI.update i s).2 = 1%nat /\
    UI.inFlight (UI.update i s).1 = true).
  { intros s3 H F. destruct (update_handled i s3 H) as [[Ht Hp] Hi]. rewrite F, Hi in Hp. done. }
  destruct (UI.delta a && _).
  { destruct (Hup (UI.with_epoch s2 0)) as (H4 & C4 & F4); [by ext_ok|done|].
    destruct (UI.update i (UI.with_epoch s2 0)) as [s4 os4]. cbn [fst snd] in *. by rewrite F4. }
  destruct (UI.received a (UI.grid s2)) as [g ts].
  destruct (Grid.update fields (UI.asked_label i) g ts _) as [g'|]; cycle 1.
  { cbn [fst snd]. split; [by ext_ok|]. simpl. by rewrite F3. }
  set (s4 := UI.with_grid s2 g').
  assert (H4 : timers_ok s4) by by ext_ok. assert (F4 : UI.inFlight s4 = false) by done. clearbody s4.
  destruct (settle_handled i s4 H4) as [H5 C5]. rewrite F4 in C5.
  destruct (UI.settle i s4) as [s5 os5]. done.
Qed.

(** ** Every reachable state *)

(** The loop is in order: timers known by name, and as many polls waited for
    as [inFlight] says. *)
Definition loop_ok (w : Loop.world) : Prop :=
  timers_ok (Loop.ui w) /\ Loop.polls w = (if UI.inFlight (Loop.ui w) then 1 else 0)%nat.

Lemma run_ok w r :
  Loop.polls w = (if UI.inFlight (Loop.ui w) then 1 else 0)%nat -> handled (Loop.ui w) r -> loop_ok (Loop.run w r).
Proof. intros Hp [Ht Hc]. split; [done|]. simpl. by rewrite Hp. Qed.

(** A heartbeat that fired was the only one. *)
Lemma onHeartbeat_ok id s :
  timers_ok s -> (id, UI.THeartbeat) ∈ UI.timers s ->
  handled s (UI.onHeartbeat (UI.clearTimeout id s)).
Proof.
  intros Hs Hin. pose proof (to_heartbeat _ Hs _ Hin) as Hh.
  assert (Hno : forall j, (j, UI.THeartbeat) ∉ UI.timers (UI.clearTimeout id s)).
  { intros j [Hne Hj]%clear_elem. apply (to_heartbeat _ Hs) in Hj. simpl in *. congruence. }
  destruct (clear_ok id s Hs) as [H1 H2 H3 H4].
  assert (Hc : timers_ok (UI.with_heartbeat (UI.clearTimeout id s) None)).
  { split; try done. intros j Hj. by apply Hno in Hj. }
  unfold UI.onHeartbeat. cbv zeta.
  destruct (negb _); (split; [exact Hc|cbn; apply Nat.add_0_r]).
Qed.

Lemma onVisibility_ok i s : timers_ok s -> handled s (UI.onVisibilityChanged i s).
Proof.
  intros Hs. unfold UI.onVisibilityChanged. destruct (UI.hidden s).
  - destruct (clearRunning_ok s Hs) as (H1 & _). destruct (keepSessionAlive_ok _ H1) as [H2 F2].
    split; [done|]. cbn [fst snd]. rewrite F2, clearRunning_flight. apply Nat.add_0_r.
  - destruct (UI.heartbeat s) as [id|] eqn:E; [|by apply update_handled].
    change (UI.inFlight s) with (UI.inFlight (UI.with_heartbeat (UI.clearTimeout id s) None)).
    assert (Hc : timers_ok (UI.with_heartbeat (UI.clearTimeout id s) None)).
    { destruct (clear_ok id s Hs) as [H1 H2 H3 H4]. split; try done.
      intros j [Hne Hj]%clear_elem. apply (to_heartbeat _ Hs) in Hj. simpl in *. congruence. }
    destruct (update_handled i _ Hc) as [[H1 H2] _]. by split.
Qed.

Lemma onConnectionError_ok s :
  timers_ok s -> timers_ok (UI.onConnectionError s) /\ UI.inFlight (UI.onConnectionError s) = UI.inFlight s.
Proof.
  intros Hs. unfold UI.onConnectionError, UI.clearChecking. cbn [UI.setTimeout].
  destruct (UI.checking s) as [id|]; (split; [|done]);
    [apply (setCheck_ok (UI.clearTimeout id s)), clear_ok, Hs|by apply (setCheck_ok s)].
Qed.

Lemma onConnectionSuccess_ok i r s : timers_ok s -> handled s (UI.onConnectionSuccess i r s).
Proof.
  intros Hs. unfold UI.onConnectionSuccess.
  set (s1 := match UI.checking s with Some id => _ | None => s end).
  assert (H1 : timers_ok s1 /\ UI.inFlight s1 = UI.inFlight s).
  { unfold s1. destruct (UI.checking s) as [id|]; [|done]. split; [|done].
    pose proof (clear_ok id s Hs). by ext_ok. }
  clearbody s1. destruct H1 as [H1 F1].
  destruct (update_handled i s1 H1) as [[H2 H3] _].
  destruct (UI.update i s1) as [s2 os]. rewrite F1 in H3. cbn [fst snd] in *.
  split; [done|]. cbn [fst snd]. unfold Loop.count in *.
  rewrite List.filter_app, length_app. destruct r; simpl; by rewrite Nat.add_0_r.
Qed.

Lemma step_ok fields w e w' : loop_ok w -> Loop.step fields w e = Some w' -> loop_ok w'.
Proof.
  intros [Ht Hp]. destruct e as [i|id i|i a| |h i|i| |r i| |]; cbn [Loop.step].
  - intros [= <-]. apply run_ok; [done|]. by apply update_handled.
  - destruct (list_find _ _) as [[n [j k]]|] eqn:E; [|done]. intros [= <-].
    apply list_find_Some in E as (E1 & E2 & _). simpl in E2. subst j.
    pose proof (clear_ok id _ Ht) as Hc. destruct k.
    + destruct (update_handled i _ Hc) as [[H1 H2] _]. apply run_ok; [done|by split].
    + apply run_ok; [done|]. split; [done|]. apply Nat.add_0_r.
    + apply run_ok; [done|]. apply onHeartbeat_ok; [done|]. by eapply list_elem_of_lookup_2.
  - destruct (Loop.polls w); [done|]. intros [= <-].
    destruct (onUpdate_ok fields i a _ Ht) as [H1 H2]. split; [done|]. simpl in *.
    rewrite H2. destruct (UI.inFlight (Loop.ui w)); simplify_eq. done.
  - destruct (Loop.polls w); [done|]. intros [= <-].
    destruct (onUpdateError_ok _ Ht) as (H1 & H2 & H3). split; [done|]. simpl in *.
    rewrite H2, H3. destruct (UI.inFlight (Loop.ui w)); simplify_eq. done.
  - intros [= <-]. apply run_ok; [done|].
    destruct (onVisibility_ok i (UI.with_hidden (Loop.ui w) h)) as [H1 H2]; [by ext_ok|]. by split.
  - intros [= <-]. apply run_ok; [done|]. unfold UI.onConnect.
    destruct (UI.running (Loop.ui w)); [|by apply update_handled]. split; [done|]. apply Nat.add_0_r.
  - intros [= <-]. destruct (fireDisconnect_ok _ Ht) as [H1 H2]. apply run_ok; [done|].
    split; [done|]. cbn [fst snd]. rewrite H2. apply Nat.add_0_r.
  - destruct (Loop.checks w); [done|]. intros [= <-]. apply (run_ok (Loop.W _ _ _ _)); [done|].
    by apply onConnectionSuccess_ok.
  - destruct (Loop.checks w); [done|]. intros [= <-].
    destruct (onConnectionError_ok _ Ht) as [H1 H2]. apply (run_ok (Loop.W _ _ _ _)); [done|].
    split; [done|]. cbn [fst snd]. rewrite H2. apply Nat.add_0_r.
  - destruct (Loop.sessions w); [done|]. intros [= <-].
    destruct (keepSessionAlive_ok _ Ht) as [H1 H2]. apply (run_ok (Loop.W _ _ _ _)); [done|].
    split; [done|]. cbn [fst snd]. rewrite H2. apply Nat.add_0_r.
Qed.

Lemma steps_ok fields es w w' : loop_ok w -> Loop.steps fields w es = Some w' -> loop_ok w'.
Proof.
  unfold Loop.steps. revert w. induction es as [|e es IH]; intros w Hw; cbn [foldl].
  - by intros [= <-].
  - cbn [mbind option_bind]. destruct (Loop.step fields w e) as [w1|] eqn:E.
    + apply IH. by eapply step_ok.
    + intros H. exfalso. clear IH. revert H. induction es as [|e' es IH]; [done|exact IH].
Qed.

Lemma start_ok g : loop_ok (Loop.start g).
Proof.
  split; [|done]. split; simpl; try (intros; by match goal with H : _ ∈ [] |- _ => apply elem_of_nil in H end).
  apply NoDup_nil_2.
Qed.

(** ** Properties *)

Lemma pending_one k s r :
  NoDup (UI.timers s).*1 -> (forall id, (id, k) ∈ UI.timers s -> r = Some id) ->
  length (pending k s) <= 1.
Proof.
  unfold pending. induction (UI.timers s) as [|[id k'] l IH]; [simpl; lia|].
  rewrite fmap_cons, NoDup_cons. intros [Hn Hnd] Hr. cbn [List.filter snd].
  destruct (bool_decide (k' = k)) eqn:E.
  - apply bool_decide_eq_true in E as ->.
    assert (List.filter (fun t => bool_decide (t.2 = k)) l = []) as ->; [|simpl; lia].
    destruct (List.filter _ l) as [|[j k2] l2] eqn:E2; [done|]. exfalso.
    assert (Hin : In (j, k2) (List.filter (fun t => bool_decide (t.2 = k)) l)) by (rewrite E2; by left).
    apply List.filter_In in Hin as [Hin Hk]. apply bool_decide_eq_true in Hk. simpl in Hk. subst k2.
    apply list_elem_of_In in Hin.
    assert (Some id = Some j) as [= <-].
    { rewrite <- (Hr id), <- (Hr j); [done|by right|by left]. }
    apply Hn, list_elem_of_fmap. by exists (id, k).
  - apply IH; [done|]. intros j Hj. apply Hr. by right.
Qed.

Lemma pending_nil k s : (forall id, (id, k) ∉ UI.timers s) -> pending k s = [].
Proof.
  intros H. unfold pending. destruct (List.filter _ _) as [|[j k2] l2] eqn:E; [done|]. exfalso.
  assert (Hin : In (j, k2) (List.filter (fun t => bool_decide (t.2 = k)) (UI.timers s))) by (rewrite E; by left).
  apply List.filter_In in Hin as [Hin Hk]. apply bool_decide_eq_true in Hk. simpl in Hk. subst k2.
  by apply (H j), list_elem_of_In.
Qed.

(** Claim C3.  However clicks, timers, answers, failures, reconnections and the
    tab being hidden interleave, at most one poll is waiting for its answer,
    [inFlight] says exactly whether one is, and at most one poll is scheduled. *)
Theorem one_poll_at_a_time fields g es w :
  Loop.steps fields (Loop.start g) es = Some w ->
  Loop.polls w = (if UI.inFlight (Loop.ui w) then 1 else 0) /\
  length (pending UI.TUpdate (Loop.ui w)) <= 1 /\
  length (pending UI.THeartbeat (Loop.ui w)) <= 1.
Proof.
  intros H. destruct (steps_ok _ _ _ _ (start_ok g) H) as [[H1 H2 H3 H4] Hp].
  split; [done|]. split; by eapply pending_one.
Qed.

(** A list drawn either leaves a poll in flight, or had none wanted. *)
Lemma settle_asks i s :
  UI.inFlight s = false ->
  (forall s, UI.inFlight s = false ->
    UI.inFlight (UI.update i s).1 = true /\
    exists e, UI.AskUpdate (UI.keys i) (UI.questionOf i) e ∈ (UI.update i s).2) ->
  let r := UI.settle i s in
  (UI.inFlight r.1 = true /\
   (UI.wanted s = true -> exists e, UI.AskUpdate (UI.keys i) (UI.questionOf i) e ∈ r.2)) \/
  (UI.wanted s = false /\ UI.timers r.1 = UI.timers s).
Proof.
  intros Hf Hup. cbv zeta. rewrite settle_eq. cbv zeta.
  assert (Hfl : forall s, UI.inFlight s = true -> UI.inFlight (UI.update i s).1 = true).
  { intros s' F. unfold UI.update. by rewrite clearRunning_flight, F. }
  assert (H : UI.reselected i <> 0 ->
    UI.inFlight (reselects i (UI.reselected i) s).1 = true /\
    exists e, UI.AskUpdate (UI.keys i) (UI.questionOf i) e ∈ (reselects i (UI.reselected i) s).2).
  { induction (UI.reselected i) as [|n IH]; [done|]. intros _. rewrite reselects_S. cbn [fst snd].
    setoid_rewrite elem_of_app. destruct (decide (n = 0)) as [->|Hn].
    - destruct (Hup s Hf) as (? & e & ?). eauto.
    - destruct (IH Hn) as (? & e & ?). eauto. }
  destruct (decide (UI.reselected i = 0)) as [E|E].
  - rewrite E. cbn [reselects Nat.iter nat_rect fst snd]. change (UI.wanted (UI.with_errors s 0)) with (UI.wanted s).
    destruct (UI.wanted s); [left|by right].
    destruct (Hup (UI.with_errors s 0) Hf) as (? & e & ?). split; [done|]. intros _. exists e. by right.
  - destruct (H E) as (F & e & He). left. destruct (UI.wanted _); cbn [fst snd].
    + split; [by apply Hfl|]. intros _. exists e. apply elem_of_app. by left.
    + split; [done|]. intros _. by exists e.
Qed.

(** What [onUpdate] leaves of the loop, the list drawn or not, and of a refresh
    that was wanted once it is drawn. *)
Lemma onUpdate_asks fields i a s :
  timers_ok s -> UI.connected a = true ->
  let r := (UI.onUpdate fields i a s).1 in
  (UI.hidden s = false -> UI.inFlight r.1 = true \/ exists id, (id, UI.TUpdate) ∈ UI.timers r.1) /\
  ((UI.onUpdate fields i a s).2 = false -> UI.wanted s = true -> UI.inFlight r.1 = true /\
     exists e, UI.AskUpdate (UI.keys i) (UI.questionOf i) e ∈ r.2).
Proof.
  intros Hs Hc. unfold UI.onUpdate. cbv zeta. rewrite Hc. cbn [negb].
  set (s1 := UI.clearRunning (UI.with_flight s false (UI.wanted s))).
  assert (H1 : timers_ok s1 /\ UI.inFlight s1 = false /\ UI.wanted s1 = UI.wanted s /\ UI.hidden s1 = UI.hidden s).
  { unfold s1. rewrite clearRunning_flight. split_and!; try done.
    - refine (proj1 (clearRunning_ok _ _)). by ext_ok.
    - unfold UI.clearRunning. by case_match.
    - unfold UI.clearRunning. by case_match. }
  clearbody s1. destruct H1 as (H1 & F1 & W1 & D1).
  destruct (schedule_ok s1 H1) as (H2 & F2 & T2).
  assert (W2 : UI.wanted (UI.schedule s1) = UI.wanted s).
  { rewrite <- W1. unfold UI.schedule, UI.clearRunning. destruct (UI.running s1); simpl; by destruct (UI.hidden s1). }
  rewrite F1 in F2. rewrite D1 in T2.
  set (s2 := UI.with_epoch (UI.schedule s1) (UI.aepoch a)).
  assert (S2 : UI.inFlight s2 = false /\ UI.wanted s2 = UI.wanted s) by done.
  assert (T3 : UI.hidden s = false -> exists id, (id, UI.TUpdate) ∈ UI.timers s2).
  { intros E. by rewrite E in T2. }
  clearbody s2. destruct S2 as [F3 W3].
  assert (Hup : forall s, UI.inFlight s = false ->
    UI.inFlight (UI.update i s).1 = true /\
    exists e, UI.AskUpdate (UI.keys i) (UI.questionOf i) e ∈ (UI.update i s).2).
  { intros s3 F. unfold UI.update. rewrite clearRunning_flight, F. cbn [fst snd].
    split; [by destruct (negb _)|]. eexists. by left. }
  destruct (UI.delta a && _).
  { destruct (Hup (UI.with_epoch s2 0) F3) as (F4 & e & He).
    destruct (UI.update i (UI.with_epoch s2 0)) as [s4 os4]. cbn [fst snd] in *.
    split; [by left|]. eauto. }
  destruct (UI.received a (UI.grid s2)) as [g ts].
  destruct (Grid.update fields (UI.asked_label i) g ts _) as [g'|]; cbn [fst snd].
  2: { split; [|done]. intros Hd. right. apply (T3 Hd). }
  set (s4 := UI.with_grid s2 g').
  assert (S4 : UI.inFlight s4 = false /\ UI.wanted s4 = UI.wanted s /\ UI.timers s4 = UI.timers s2) by done.
  clearbody s4. destruct S4 as (F4 & W4 & T4).
  destruct (settle_asks i s4 F4 Hup) as [[Ha He]|Ha];
    destruct (UI.settle i s4) as [s5 os5]; cbn [fst snd] in *.
  - split; [by left|]. intros _ Hw. rewrite W4 in He. by split; [|apply He].
  - destruct Ha as [Hw Ht]. rewrite W4 in Hw. rewrite Hw. split; [|done]. intros Hd. right.
    destruct (T3 Hd) as [id Hid]. exists id. by rewrite Ht, T4.
Qed.

(** Claim C4.  While the tab is looked at, an answer from a connected server
    always leaves the loop running, whether or not drawing it threw: a poll is
    scheduled, or one is in flight already.  A refresh asked for while the answer
    was awaited is sent at once, with the filters selected now, unless drawing
    the list threw. *)
Theorem answer_keeps_polling fields g es w i a :
  Loop.steps fields (Loop.start g) es = Some w ->
  UI.connected a = true -> UI.hidden (Loop.ui w) = false ->
  let '(s, os, threw) := UI.onUpdate fields i a (Loop.ui w) in
  (UI.inFlight s = true \/ exists id, (id, UI.TUpdate) ∈ UI.timers s) /\
  (threw = false -> UI.wanted (Loop.ui w) = true ->
   exists e, UI.AskUpdate (UI.keys i) (UI.questionOf i) e ∈ os).
Proof.
  intros H Hc Hd. destruct (steps_ok _ _ _ _ (start_ok g) H) as [Ht _].
  pose proof (onUpdate_asks fields i a _ Ht Hc) as [H1 H2].
  destruct (UI.onUpdate fields i a (Loop.ui w)) as [[s os] threw]. cbn [fst snd] in *.
  split; [by apply H1|]. intros E Hw. by apply H2.
Qed.

(** Claim C28.  A poll that fails, unless it is the third in a row, leaves nothing
    behind that would poll again: none in flight, none scheduled, no
    connection check started.  The reconnection the handler counts on is only
    reached if something else asks for two more polls. *)
Theorem failure_stops_polling fields g es w :
  Loop.steps fields (Loop.start g) es = Some w -> UI.errorCount (Loop.ui w) <> 2%Z ->
  let '(s, os) := UI.onUpdateError (Loop.ui w) in
  UI.inFlight s = false /\ pending UI.TUpdate s = [] /\ os = [] /\
  (forall id, (id, UI.TCheck) ∈ UI.timers s -> (id, UI.TCheck) ∈ UI.timers (Loop.ui w)).
Proof.
  intros H He. destruct (steps_ok _ _ _ _ (start_ok g) H) as [Ht _].
  unfold UI.onUpdateError. cbv zeta.
  set (s1 := UI.with_flight (UI.with_epoch _ _) _ _).
  change (UI.errorCount s1) with (UI.errorCount (Loop.ui w)). rewrite decide_False by done.
  set (s2 := UI.with_errors s1 _). assert (H2 : timers_ok s2) by by ext_ok.
  destruct (clearRunning_ok s2 H2) as (_ & _ & Hn).
  split_and!; [by rewrite clearRunning_flight|by apply pending_nil|done|].
  intros id. unfold UI.clearRunning. destruct (UI.running s2) as [r|]; [|done].
  intros Hin. apply (clear_elem r s2) in Hin. apply Hin.
Qed.

(** After a failed poll, and whenever a filter differs from the one
    before, the next question asks for the whole list. *)
Theorem whole_list_after_change i s :
  UI.epoch (UI.onUpdateError s).1 = 0%Z /\
  (UI.inFlight s = false -> Ext.areObjectsEqual ∅ (Some (UI.questionOf i)) (UI.filters s) = false ->
   (UI.update i s).2 = [UI.AskUpdate (UI.keys i) (UI.questionOf i) 0; UI.UpdateDetails]).
Proof.
  split.
  - unfold UI.onUpdateError. cbv zeta. set (s1 := UI.with_flight _ _ false).
    assert (E : UI.epoch s1 = 0%Z) by done. clearbody s1.
    assert (Hc : forall s, UI.epoch (UI.clearRunning s) = UI.epoch s).
    { intros s'. unfold UI.clearRunning. by case_match. }
    destruct (decide _); cbn [fst snd UI.setTimeout]; rewrite Hc; [|done]. simpl. unfold UI.fireDisconnect, UI.onDisconnect, UI.stop.
    by case_match.
  - intros Hf Hne. unfold UI.update. rewrite clearRunning_flight, Hf.
    assert (E : UI.filters (UI.clearRunning s) = UI.filters s) by (unfold UI.clearRunning; by case_match).
    cbn [UI.filters UI.oldFilters UI.with_filters UI.with_flight]. rewrite E, Hne. done.
Qed.

(** Taking a filter away is not seen as a change of the question:
    when the search box is cleared, the question that follows keeps its epoch. *)
Theorem cleared_search_keeps_epoch i s q :
  UI.inFlight s = false -> UI.search i = "" -> oget "keyword" (UI.sidebar i) = None ->
  (forall k v, oget k (UI.sidebar i) = Some v -> exists t, v = VPrim (PStr t)) ->
  UI.filters s = Some (oset "keyword" (VPrim (PStr q)) (UI.sidebar i)) ->
  (UI.update i s).2 = [UI.AskUpdate (UI.keys i) (UI.sidebar i) (UI.epoch s); UI.UpdateDetails].
Proof.
  intros Hf Hs Hk Hv Hq. unfold UI.update. rewrite clearRunning_flight, Hf.
  assert (E : UI.filters (UI.clearRunning s) = UI.filters s /\ UI.epoch (UI.clearRunning s) = UI.epoch s).
  { unfold UI.clearRunning. by case_match. }
  destruct E as [E1 E2].
  assert (Hqn : UI.questionOf i = UI.sidebar i) by (unfold UI.questionOf; by rewrite Hs).
  cbn [UI.filters UI.oldFilters UI.with_filters UI.with_flight]. rewrite E1, Hqn, Hq.
  assert (Heq : Ext.areObjectsEqual ∅ (Some (UI.sidebar i))
                  (Some (oset "keyword" (VPrim (PStr q)) (UI.sidebar i))) = true).
  { apply areObjectsEqual_spec. intros k [v Hkv]. destruct (Hv k v Hkv) as [t ->].
    assert (Hne : k <> "keyword") by congruence.
    unfold vget. rewrite oget_oset_ne, Hkv by done. simpl. by apply bool_decide_eq_true. }
  rewrite Heq. cbn [negb fst snd]. by rewrite <- E2.
Qed.

(** ** The properties at concrete inputs *)

Definition sample_inputs : UI.inputs :=
  {| UI.sidebar := [("state", VPrim (PStr "All"))]; UI.search := ""; UI.keys := ["name"; "state"];
     UI.asked_label := None; UI.reselected := 0 |}.
Definition sample_answer : UI.answer :=
  {| UI.connected := true; UI.aepoch := 1; UI.delta := false;
     UI.torrents := Some [("aa", [("name", PStr "first")])]; UI.removed := [] |}.

(** A click, a second one while the first is in flight, and the answer. *)
Definition sample_events : list Loop.event :=
  [Loop.Update sample_inputs; Loop.Update sample_inputs; Loop.Answer sample_inputs sample_answer].

Lemma one_poll_at_a_time_witness :
  match Loop.steps [] (Loop.start empty_grid) sample_events with
  | Some w => Loop.polls w = 1 /\ length (pending UI.TUpdate (Loop.ui w)) <= 1
  | None => False
  end.
Proof.
  destruct (Loop.steps [] (Loop.start empty_grid) sample_events) as [w|] eqn:E.
  - destruct (one_poll_at_a_time [] empty_grid sample_events w E) as (H1 & H2 & _).
    split; [|exact H2]. rewrite H1. vm_compute in E. by injection E as <-.
  - by vm_compute in E.
Defined.

(** The loop after the two clicks. *)
Definition two_clicks : Loop.world :=
  default (Loop.start empty_grid)
    (Loop.steps [] (Loop.start empty_grid) [Loop.Update sample_inputs; Loop.Update sample_inputs]).

Lemma answer_keeps_polling_witness :
  let '(s, os, threw) := UI.onUpdate [] sample_inputs sample_answer (Loop.ui two_clicks) in
  (UI.inFlight s = true \/ exists id, (id, UI.TUpdate) ∈ UI.timers s) /\
  (threw = false -> UI.wanted (Loop.ui two_clicks) = true ->
   exists e, UI.AskUpdate (UI.keys sample_inputs) (UI.questionOf sample_inputs) e ∈ os).
Proof.
  by apply (answer_keeps_polling [] empty_grid [Loop.Update sample_inputs; Loop.Update sample_inputs]
              two_clicks sample_inputs sample_answer).
Defined.

Lemma failure_stops_polling_witness :
  let '(s, os) := UI.onUpdateError (Loop.ui two_clicks) in
  UI.inFlight s = false /\ pending UI.TUpdate s = [] /\ os = [] /\
  (forall id, (id, UI.TCheck) ∈ UI.timers s -> (id, UI.TCheck) ∈ UI.timers (Loop.ui two_clicks)).
Proof.
  by apply (failure_stops_polling [] empty_grid [Loop.Update sample_inputs; Loop.Update sample_inputs]).
Defined.

Lemma whole_list_after_change_witness :
  (UI.update sample_inputs (Loop.ui (Loop.start empty_grid))).2 =
  [UI.AskUpdate ["name"; "state"] [("state", VPrim (PStr "All"))] 0; UI.UpdateDetails].
Proof.
  by apply (whole_list_after_change sample_inputs (Loop.ui (Loop.start empty_grid))).
Defined.

(** The loop holding an epoch, after a search. *)
Definition searched : UI.state :=
  UI.mk 0 (Some [("state", VPrim (PStr "All")); ("keyword", VPrim (PStr "debian"))]) None 7 None false false
    None None empty_grid [] 1 false.

Lemma cleared_search_keeps_epoch_witness :
  (UI.update sample_inputs searched).2 =
  [UI.AskUpdate ["name"; "state"] [("state", VPrim (PStr "All"))] 7; UI.UpdateDetails].
Proof.
  apply (cleared_search_keeps_epoch sample_inputs searched "debian"); try done.
  intros k v. simpl. destruct (decide (k = "state")); [|done]. intros [= <-]. by eexists.
Defined.
