(* ===== verification/Poll.v ===== *)
(** * The list on screen

    The grid under the poll loop: whatever happens to the loop, an answer that
    carries a list is drawn, and the rows are then the torrents of the list
    the grid holds, less the hidden labels. *)

From stdpp Require Import base list strings gmap sets.
From Stdlib Require Import Lia ZArith.
From S2P Require Import Prelude JsNum JsString JsValue ExtCore SortTypes Collection Store TorrentGrid UI.

Local Open Scope nat_scope.

(** ** The grid's operations keep it well-formed *)

Definition grid_inv (g : Grid.state) : Prop := exists own, grid_ok own g.

(** The list the grid holds, as values. *)
Definition held (g : Grid.state) : option (obj object) := deref (Grid.store g) <$> Grid.lastTorrents g.

(** A torrent's row: a record under its id whose fields read what the torrent
    has. *)
Definition row_shows (s : Store.state) (t : string) (o : object) : Prop :=
  exists r, Store.getById s t = Some r /\
    forall k v, oget k o = Some v -> shown_same (Rec.get s r k) v.

(** Whether a torrent is drawn, from its fields. *)
Definition object_visible (hidden : obj bool) (asked : option string) (o : object) : bool :=
  let label := let v := pget "label" o in if truthy v then v else PStr "" in
  negb (Grid.is_hidden hidden label)
  || match asked with Some a => strict_eq label (PStr a) | None => false end.

(** The rows are the visible torrents of the list held. *)
Definition rows_match (g : Grid.state) (asked : option string) : Prop :=
  exists all, held g = Some all /\
  forall t, match oget t all with
            | Some o => if object_visible (Grid.hiddenLabels g) asked o
                        then row_shows (Grid.store g) t o
                        else Store.getById (Grid.store g) t = None
            | None => Store.getById (Grid.store g) t = None
            end.

Section grid.
Variable fields : list Field.field.

Lemma update_some g asked ts wipe own :
  grid_ok own g -> owned_map own (Grid.store g) ts ->
  exists g', Grid.update fields asked g (Some ts) wipe = Some g' /\ grid_ok own g' /\
    held g' = Some (deref (Grid.store g) ts) /\ rows_match g' asked /\
    Grid.hiddenLabels g' = Grid.hiddenLabels g.
Proof.
  intros Hg [Hok Hw].
  destruct (update_draws fields own g asked ts wipe Hg Hok Hw) as (g' & E & Hg' & Hl & Hd & Hob & Hh).
  assert (Hobj : forall t l, oget t ts = Some l -> object_at (Grid.store g') l = object_at (Grid.store g) l).
  { intros t l Ht. unfold object_at. by rewrite (Hob t l Ht). }
  assert (Hheld : held g' = Some (deref (Grid.store g) ts)).
  { unfold held. rewrite Hl. simpl. f_equal. apply deref_ext. intros t l Hin.
    eapply Hob. by apply oget_elem. }
  exists g'. split_and!; try done. exists (deref (Grid.store g) ts). split; [done|]. intros t.
  rewrite deref_get. specialize (Hd t). destruct (oget t ts) as [l|] eqn:Et; [|done].
  cbn [fmap option_fmap option_map]. rewrite Hh.
  change (object_visible (Grid.hiddenLabels g) asked (object_at (Grid.store g) l)) with (visible g asked l).
  destruct (visible g asked l); [|done]. destruct Hd as (r & Hr & Hs). exists r. split; [done|].
  intros k v Hk. specialize (Hs k). rewrite (Hobj t l Et) in Hs. unfold pget in Hs.
  rewrite Hk in Hs. apply Hs. by eexists.
Qed.

(** No list at all: refused if there are rows, else nothing to draw. *)
Lemma update_none g asked wipe own :
  grid_ok own g ->
  match Grid.update fields asked g None wipe with
  | Some g' => grid_ok own g' /\ Grid.lastTorrents g' = None
  | None => True
  end.
Proof.
  intros Hg. unfold Grid.update. cbn [Grid.withoutHiddenLabels].
  set (g1 := if wipe then _ else _).
  assert (H1 : grid_ok own g1 /\ Grid.lastTorrents g1 = None).
  { assert (H : grid_ok own (Grid.with_last g None)).
    { destruct Hg. by split. }
    unfold g1. destruct wipe; [|done]. split; [by apply (wiped_ok own (Grid.with_last g None))|done]. }
  clearbody g1. destruct H1 as [H1 H2]. cbn [default from_option Grid.update_all].
  cbn [mbind option_bind]. change (Store.add (Grid.store g1) []) with (Grid.store g1).
  rewrite bool_decide_eq_false_2 by (by intros []). cbn [negb andb].
  destruct (Store.getCount (Grid.store g1) =? 0) eqn:E; [|done]. cbn [negb].
  pose proof (finished fields own (Grid.store g1) (Grid.torrents g1) [] (go_store _ _ H1) (go_known _ _ H1)) as Hf.
  cbv zeta in Hf. change (default [] None) with (@nil (string * loc)).
  destruct (Store.each _ _ _) as [st1 known1].
  set (st3 := match Store.getSortState (Store.commitChanges st1) with
    Some (f, d) => Store.sort fields (Store.commitChanges st1) f d | None => _ end) in *. clearbody st3.
  destruct Hf as (Hs3 & Ho3 & Hr3 & Hk3 & Hg3). split; [|done]. split; simpl; [done|done| |].
  - intros k r. by rewrite Hg3.
  - rewrite H2. done.
Qed.

Lemma received_ok a g own :
  grid_ok own g -> (forall o, UI.torrents a = Some o -> obj_ok o) ->
  (UI.delta a = true -> is_Some (Grid.lastTorrents g)) ->
  let '(g1, ts) := UI.received a g in
  exists own', grid_ok own' g1 /\ Grid.hiddenLabels g1 = Grid.hiddenLabels g /\
  (forall m, ts = Some m -> owned_map own' (Grid.store g1) m) /\
  deref (Grid.store g1) <$> ts =
    (if UI.delta a then Some (merge_spec (default [] (held g)) (default [] (UI.torrents a)) (UI.removed a))
     else UI.torrents a).
Proof.
  intros Hg Ho Hd. unfold UI.received. destruct (UI.torrents a) as [o|].
  - pose proof (parse_spec o own g Hg (Ho o eq_refl)) as Hp.
    destruct (Grid.parse (Grid.store g) o) as [s' m].
    destruct Hp as (own' & Hg' & Hm & Hdm & _ & Hfresh & Hold).
    destruct (UI.delta a); cycle 1.
    { exists own'. split_and!; [done|done| |by rewrite <- Hdm]. by intros m' [= <-]. }
    destruct (Hd eq_refl) as [all Hall].
    pose proof (merge_refines own' (Grid.with_store g s') m (UI.removed a) Hg' Hm) as Hr.
    destruct (Grid.merge (Grid.with_store g s') m (UI.removed a)) as [g1 all1].
    destruct Hr as (Hv & Hg1 & Hm1 & Hh1).
    { intros t l all2 Hl2 Ht2 Htm. apply oget_Some_elem in Htm. apply Hfresh in Htm.
      destruct (go_last _ _ Hg all2 Hl2) as [_ Hw]. destruct (Hw t l Ht2) as [_ Hx].
      rewrite Htm in Hx. by destruct Hx. }
    exists own'. split_and!; [done|done| |].
    + by intros m' [= <-].
    + simpl in *. rewrite Hv, Hdm. do 2 f_equal. unfold held. rewrite Hall. simpl.
      apply deref_ext. intros t l Hin. apply Hold.
      destruct (go_last _ _ Hg all Hall) as [Hok Hw]. eapply Hw. by apply oget_elem.
  - destruct (UI.delta a); cycle 1.
    { exists own. split_and!; done. }
    destruct (Hd eq_refl) as [all Hall].
    pose proof (merge_refines own g [] (UI.removed a) Hg) as Hr.
    destruct (Grid.merge g [] (UI.removed a)) as [g1 all1].
    destruct Hr as (Hv & Hg1 & Hm1 & Hh1).
    { split; [apply nil_ok|by intros ??]. }
    { by intros. }
    exists own. split_and!; [done|done| |].
    + by intros m' [= <-].
    + simpl. rewrite Hv. unfold held. by rewrite Hall.
Qed.
End grid.

(** ** The other operations of the grid *)

Section operations.
Variable fields : list Field.field.

Lemma with_hidden_ok own g h c : grid_ok own g -> grid_ok own (Grid.with_hidden g h c).
Proof. intros [? ? ? ?]. by split. Qed.

Lemma redraw_ok asked g own :
  grid_ok own g -> exists g', Grid.redraw fields asked g = Some g' /\ grid_ok own g' /\
    (is_Some (Grid.lastTorrents g) -> held g' = held g /\ rows_match g' asked) /\
    Grid.hiddenLabels g' = Grid.hiddenLabels g.
Proof.
  intros Hg. unfold Grid.redraw. destruct (Grid.lastTorrents g) as [m|] eqn:E.
  - destruct (update_some fields g asked m true own Hg) as (g' & E1 & H1 & H2 & H3 & H4).
    { split; by apply (go_last _ _ Hg). }
    exists g'. split; [exact E1|]. split; [done|]. split; [|done]. intros _. split; [|done].
    rewrite H2. unfold held. by rewrite E.
  - exists g. split_and!; try done.
Qed.

Lemma loadHiddenLabels_ok asked g labels own :
  grid_ok own g -> exists g', Grid.loadHiddenLabels fields asked g labels = Some g' /\ grid_ok own g'.
Proof.
  intros Hg. unfold Grid.loadHiddenLabels.
  destruct (foldl _ _ _) as [h ch]. pose proof (with_hidden_ok own g h (Grid.labelChoices g) Hg) as H.
  set (g1 := Grid.with_hidden g h (Grid.labelChoices g)) in *.
  destruct (Grid.lastTorrents g1) as [m|] eqn:E; [|eauto]. destruct ch; [|eauto].
  destruct (redraw_ok asked g1 own H) as (g' & E1 & H1 & _). unfold Grid.redraw in E1.
  rewrite E in E1. eauto.
Qed.

Lemma torrentsRemoved_ok own ids g :
  grid_ok own g -> grid_ok own (Grid.onTorrentsRemoved g ids).
Proof.
  unfold Grid.onTorrentsRemoved.
  set (f := fun g (id : string) =>
    Grid.with_torrents (Grid.with_store g (match Store.getById (Grid.store g) id with
      | Some r => Store.remove (Grid.store g) r | None => Grid.store g end)) (odel id (Grid.torrents g))).
  change (Ext.each ids _ g) with (Ext.each ids (fun g id _ => (f g id, true)) g).
  rewrite each_fold. revert g. induction ids as [|i ids IH]; intros g Hg; [done|]. cbn [foldl].
  apply IH. unfold f. pose proof Hg as [Hs Hk Ho Hl].
  destruct (Store.getById (Grid.store g) i) as [r|] eqn:Er.
  - destruct (remove_spec _ r Hs) as (H1 & H2 & _ & H4 & H5 & _).
    destruct (so_recs _ Hs i r Er) as [_ Hid].
    split; simpl; [exact H1| | |].
    + intros t. rewrite oget_odel, H5. destruct (decide (t = i)) as [->|Hne].
      * rewrite decide_True by done. by split; intros [].
      * rewrite decide_False; [apply Hk|]. intros Hx. destruct (so_recs _ Hs t r Hx). congruence.
    + intros k q. rewrite H5. destruct (decide _); [done|]. intros Hq.
      destruct (Ho k q Hq) as [Ho1 Ho2]. unfold rec_owned. destruct (H4 q) as [-> ->]. by rewrite H2.
    + intros m Hm. destruct (Hl m Hm) as [? Hw]. split; [done|]. intros t l Ht. rewrite H2. by apply Hw.
  - split; simpl; [done| |done|done].
    intros t. rewrite oget_odel. destruct (decide (t = i)) as [->|]; [|apply Hk].
    rewrite Er. by split; intros [].
Qed.

Lemma disconnect_ok own g : grid_ok own g -> grid_ok own (Grid.onDisconnect g).
Proof. apply wiped_ok. Qed.

(** The grid when ['disconnect'] has been fired: emptied, perhaps twice. *)
Lemma fireDisconnect_grid own s :
  grid_ok own (UI.grid s) -> grid_ok own (UI.grid (UI.fireDisconnect s)).
Proof.
  intros Hg. apply disconnect_ok in Hg. unfold UI.fireDisconnect, UI.onDisconnect, UI.stop.
  case_match; simpl; [|done]. exact (wiped_ok own (Grid.onDisconnect (UI.grid s)) Hg).
Qed.
End operations.

(** ** Everything that may happen *)

Module Screen.

(** An event of the loop, or something done to the grid: a label shown or
    hidden, every label shown, the labels hidden by default read, torrents
    removed.  [asked] is the label selected in the sidebar. *)
Inductive event :=
  | Ev (e : Loop.event)
  | SetLabel (asked : option string) (name : string) (hide : bool)
  | ShowEvery (asked : option string)
  | LoadLabels (asked : option string) (labels : obj bool)
  | TorrentsRemoved (ids : list string).

Section step.
Variable fields : list Field.field.

Definition on_grid (w : Loop.world) (g : option Grid.state) : option Loop.world :=
  g ← g; Some (Loop.W (UI.with_grid (Loop.ui w) g) (Loop.polls w) (Loop.checks w) (Loop.sessions w)).

Definition step (w : Loop.world) (e : event) : option Loop.world :=
  let g := UI.grid (Loop.ui w) in
  match e with
  | Ev e => Loop.step fields w e
  | SetLabel asked name hide => on_grid w (Grid.setLabelHidden fields asked g name hide)
  | ShowEvery asked => on_grid w (Grid.showEveryLabel fields asked g)
  | LoadLabels asked labels => on_grid w (Grid.loadHiddenLabels fields asked g labels)
  | TorrentsRemoved ids => on_grid w (Some (Grid.onTorrentsRemoved g ids))
  end.
End step.

(** The answers of the server are objects: no id twice. *)
Definition event_ok (e : event) : Prop :=
  match e with
  | Ev (Loop.Answer _ a) => forall o, UI.torrents a = Some o -> obj_ok o
  | _ => True
  end.

(** The states reached from a start. *)
Inductive reachable (fields : list Field.field) (g0 : Grid.state) : Loop.world -> Prop :=
  | reach_start : reachable fields g0 (Loop.start g0)
  | reach_step w e w' :
      reachable fields g0 w -> event_ok e -> step fields w e = Some w' -> reachable fields g0 w'.

End Screen.

Lemma empty_grid_ok own : grid_ok own empty_grid.
Proof.
  split; [|by intros t; split; intros []|by intros k r|by intros m].
  split; simpl; [apply empty_ok|apply NoDup_nil_2| |by intros k r|];
    intros r Hr; by apply elem_of_nil in Hr.
Qed.

(** What [update] and the timers leave of the grid: all of it. *)
Lemma clearRunning_grid s : UI.grid (UI.clearRunning s) = UI.grid s.
Proof. unfold UI.clearRunning. by case_match. Qed.

Lemma update_grid i s : UI.grid (UI.update i s).1 = UI.grid s.
Proof.
  unfold UI.update. destruct (UI.inFlight (UI.clearRunning s)); cbn [fst]; [apply clearRunning_grid|].
  cbv zeta. destruct (negb _); simpl; apply clearRunning_grid.
Qed.

Lemma schedule_grid s : UI.grid (UI.schedule s) = UI.grid s.
Proof. unfold UI.schedule. destruct (UI.hidden _); simpl; apply clearRunning_grid. Qed.

Section screen.
Variable fields : list Field.field.

(** The list an answer leaves, and the number to send back. *)
Definition listed (a : UI.answer) (h : option (obj object)) : option (obj object) :=
  if UI.delta a
  then match h with
       | Some h => Some (merge_spec h (default [] (UI.torrents a)) (UI.removed a))
       | None => None
       end
  else UI.torrents a.
Definition numbered (a : UI.answer) (h : option (obj object)) : Z :=
  if UI.delta a && negb (bool_decide (is_Some h)) then 0%Z else UI.aepoch a.

Lemma update_epoch i s : UI.epoch (UI.update i s).1 = UI.epoch s \/ UI.epoch (UI.update i s).1 = 0%Z.
Proof.
  assert (Hc : UI.epoch (UI.clearRunning s) = UI.epoch s) by (unfold UI.clearRunning; by case_match).
  unfold UI.update. destruct (UI.inFlight (UI.clearRunning s)); cbn [fst]; [by left|].
  cbv zeta. destruct (negb _); simpl; [by right|by left].
Qed.

(** Drawing the sidebar keeps the grid, and the number or resets it. *)
Lemma settle_keeps i s :
  UI.grid (UI.settle i s).1 = UI.grid s /\
  (UI.epoch (UI.settle i s).1 = UI.epoch s \/ UI.epoch (UI.settle i s).1 = 0%Z).
Proof.
  rewrite settle_eq. cbv zeta.
  assert (H : UI.grid (reselects i (UI.reselected i) s).1 = UI.grid s /\
    (UI.epoch (reselects i (UI.reselected i) s).1 = UI.epoch s \/
     UI.epoch (reselects i (UI.reselected i) s).1 = 0%Z)).
  { induction (UI.reselected i) as [|n [IH1 IH2]]; [by split; [|left]|]. rewrite reselects_S. cbn [fst].
    rewrite update_grid. split; [done|].
    destruct (update_epoch i (reselects i n s).1) as [->|]; [done|by right]. }
  destruct (reselects i (UI.reselected i) s) as [s1 os]. cbn [fst snd] in *. destruct H as [H1 H2].
  destruct (UI.wanted _); cbn [fst]; [|done]. rewrite update_grid. split; [done|].
  destruct (update_epoch i (UI.with_errors s1 0)) as [->|]; [done|by right].
Qed.

(** What an answer does, the grid being well-formed. *)
Lemma onUpdate_grid i a s own :
  grid_ok own (UI.grid s) -> (forall o, UI.torrents a = Some o -> obj_ok o) ->
  let '(s', _, threw) := UI.onUpdate fields i a s in
  grid_inv (UI.grid s') /\
  (UI.connected a = true ->
   held (UI.grid s') = listed a (held (UI.grid s)) /\
   (UI.epoch s' = numbered a (held (UI.grid s)) \/ UI.epoch s' = 0%Z) /\
   (is_Some (UI.torrents a) \/ UI.delta a = true ->
    (UI.delta a = true -> is_Some (held (UI.grid s))) ->
    threw = false /\ rows_match (UI.grid s') (UI.asked_label i))).
Proof.
  intros Hg Hok. unfold UI.onUpdate. cbv zeta.
  set (s1 := UI.clearRunning (UI.with_flight s false (UI.wanted s))).
  assert (E1 : UI.grid s1 = UI.grid s) by (unfold s1; by rewrite clearRunning_grid). clearbody s1.
  destruct (UI.connected a); cbn [negb]; cycle 1.
  { split; [|done]. exists own. apply fireDisconnect_grid. by rewrite E1. }
  set (s2 := UI.with_epoch (UI.schedule s1) (UI.aepoch a)).
  assert (E2 : UI.grid s2 = UI.grid s) by (simpl; by rewrite schedule_grid).
  assert (N2 : UI.epoch s2 = UI.aepoch a) by done.
  clearbody s2. rewrite <- E2 in Hg |- *. clear E1 E2.
  assert (Hb : bool_decide (is_Some (Grid.lastTorrents (UI.grid s2))) = bool_decide (is_Some (held (UI.grid s2)))).
  { apply bool_decide_ext. unfold held. by rewrite fmap_is_Some. }
  destruct (UI.delta a && negb (bool_decide (is_Some (Grid.lastTorrents (UI.grid s2))))) eqn:Ed.
  { pose proof (update_grid i (UI.with_epoch s2 0)) as Hu.
    pose proof (update_epoch i (UI.with_epoch s2 0)) as Hv.
    destruct (UI.update i (UI.with_epoch s2 0)) as [s3 os]. cbn [fst] in Hu, Hv. rewrite Hu.
    split; [by exists own|]. intros _. unfold listed, numbered. rewrite Hb in Ed. rewrite Ed.
    apply andb_true_iff in Ed as [Ed1 Ed2]. apply negb_true_iff, bool_decide_eq_false in Ed2.
    rewrite Ed1. destruct (held (UI.grid s2)) eqn:Eh; cbn [UI.grid UI.with_epoch]; rewrite Eh.
    - by destruct Ed2.
    - split_and!; [done|tauto|]. intros _ Hd. by destruct (Hd eq_refl). }
  assert (Hd : UI.delta a = true -> is_Some (Grid.lastTorrents (UI.grid s2))).
  { intros E. rewrite E in Ed. cbn [andb] in Ed. by apply negb_false_iff, bool_decide_eq_true in Ed. }
  assert (Hnum : numbered a (held (UI.grid s2)) = UI.aepoch a) by (unfold numbered; by rewrite <- Hb, Ed).
  pose proof (received_ok a (UI.grid s2) own Hg Hok Hd) as Hr.
  destruct (UI.received a (UI.grid s2)) as [g ts]. destruct Hr as (own' & Hg' & _ & Hm & Hv).
  assert (Hlist : deref (Grid.store g) <$> ts = listed a (held (UI.grid s2))).
  { rewrite Hv. unfold listed. destruct (UI.delta a); [|done].
    destruct (Hd eq_refl) as [m Hm']. unfold held. by rewrite Hm'. }
  clear Hv. rewrite Hnum, <- Hlist.
  destruct ts as [m|].
  - destruct (update_some fields g (UI.asked_label i) m
      (negb (Ext.areObjectsEqual ∅ (UI.filters s2) (UI.oldFilters s2))) own' Hg' (Hm m eq_refl))
      as (g' & E & H1 & H2 & H3 & _).
    rewrite E. set (s4 := UI.with_grid s2 g').
    assert (N4 : UI.epoch s4 = UI.aepoch a) by done.
    destruct (settle_keeps i s4) as [Hu He]. rewrite N4 in He.
    destruct (UI.settle i s4) as [s5 os]. cbn [fst] in Hu, He. rewrite Hu.
    split; [by exists own'|]. intros _. by split_and!.
  - pose proof (update_none fields g (UI.asked_label i)
      (negb (Ext.areObjectsEqual ∅ (UI.filters s2) (UI.oldFilters s2))) own' Hg') as Hn.
    assert (Hno : UI.delta a = false /\ UI.torrents a = None).
    { unfold listed in Hlist. destruct (UI.delta a); [|by simpl in Hlist].
      destruct (Hd eq_refl) as [m Hm']. unfold held in Hlist. by rewrite Hm' in Hlist. }
    destruct Hno as [Hdf Htn]. rewrite Hdf, Htn.
    assert (Hend : forall s5 : UI.state, (is_Some (@None (obj object)) \/ false = true ->
      (false = true -> is_Some (held (UI.grid s2))) -> False)) by (intros _ [[? ?]|?]; done).
    destruct (Grid.update fields _ g None _) as [g'|].
    + destruct Hn as [Hn Hl]. set (s4 := UI.with_grid s2 g').
      assert (N4 : UI.epoch s4 = UI.aepoch a) by done.
      assert (Hh : held g' = None) by (unfold held; by rewrite Hl).
      destruct (settle_keeps i s4) as [Hu He]. rewrite N4 in He.
      destruct (UI.settle i s4) as [s5 os]. cbn [fst] in Hu, He. rewrite Hu.
      split; [by exists own'|]. intros _. split_and!; [done|done|]. intros H1 H2. by destruct (Hend s2 H1 H2).
    + split.
      * exists own'. destruct Hg'. by split.
      * intros _. split_and!; [done|by left|]. intros H1 H2. by destruct (Hend s2 H1 H2).
Qed.

Lemma handler_grid_step w e w' own :
  grid_ok own (UI.grid (Loop.ui w)) -> Screen.event_ok e -> Screen.step fields w e = Some w' ->
  grid_inv (UI.grid (Loop.ui w')).
Proof.
  intros Hg He. destruct e as [e|asked name hide|asked|asked labels|ids]; cbn [Screen.step].
  - destruct e as [i|id i|i a| |h i|i| |r i| |]; cbn [Loop.step].
    + intros [= <-]. exists own. simpl. by rewrite update_grid.
    + destruct (list_find _ _) as [[n [j k]]|]; [|done]. intros [= <-]. exists own. simpl.
      destruct k; simpl; rewrite ?update_grid; try done.
      unfold UI.onHeartbeat. by case_match.
    + destruct (Loop.polls w); [done|]. intros [= <-].
      pose proof (onUpdate_grid i a (Loop.ui w) own Hg He) as H.
      destruct (UI.onUpdate fields i a (Loop.ui w)) as [[s' os] threw]. by destruct H.
    + destruct (Loop.polls w); [done|]. intros [= <-]. exists own. simpl.
      unfold UI.onUpdateError. cbv zeta. set (s1 := UI.with_flight _ _ false).
      assert (H1 : grid_ok own (UI.grid s1)) by done. clearbody s1.
      destruct (decide _); cbn [fst snd UI.setTimeout]; rewrite clearRunning_grid; [|done].
      simpl. by apply fireDisconnect_grid.
    + intros [= <-]. exists own. simpl. unfold UI.onVisibilityChanged.
      destruct (UI.hidden _); cbn [fst].
      * unfold UI.keepSessionAlive. cbn [UI.setTimeout]. simpl.
        case_match; simpl; by rewrite clearRunning_grid.
      * rewrite update_grid. by case_match.
    + intros [= <-]. exists own. simpl. unfold UI.onConnect. case_match; [done|by rewrite update_grid].
    + intros [= <-]. exists own. simpl. by apply fireDisconnect_grid.
    + destruct (Loop.checks w); [done|]. intros [= <-]. exists own. simpl. unfold UI.onConnectionSuccess.
      set (s1 := match UI.checking (Loop.ui w) with Some id => _ | None => _ end).
      assert (H1 : UI.grid s1 = UI.grid (Loop.ui w)) by (unfold s1; by case_match). clearbody s1.
      pose proof (update_grid i s1) as Hu. destruct (UI.update i s1) as [s2 os]. simpl in *.
      by rewrite Hu, H1.
    + destruct (Loop.checks w); [done|]. intros [= <-]. exists own. simpl.
      unfold UI.onConnectionError, UI.clearChecking. by case_match.
    + destruct (Loop.sessions w); [done|]. intros [= <-]. exists own. simpl.
      unfold UI.keepSessionAlive. by case_match.
  - unfold Grid.setLabelHidden. set (g1 := Grid.with_hidden _ _ _).
    destruct (redraw_ok fields asked g1 own) as (g' & E & H & _); [by apply with_hidden_ok|].
    rewrite E. intros [= <-]. by exists own.
  - unfold Grid.showEveryLabel. set (g1 := Grid.with_hidden _ _ _).
    destruct (redraw_ok fields asked g1 own) as (g' & E & H & _); [by apply with_hidden_ok|].
    rewrite E. intros [= <-]. by exists own.
  - destruct (loadHiddenLabels_ok fields asked _ labels own Hg) as (g' & E & H).
    rewrite E. intros [= <-]. by exists own.
  - intros [= <-]. exists own. by apply torrentsRemoved_ok.
Qed.

Lemma reachable_grid w : Screen.reachable fields empty_grid w -> grid_inv (UI.grid (Loop.ui w)).
Proof.
  induction 1 as [|w e w' Hr [own Hg] He Hs].
  - exists (fun _ => ""). apply empty_grid_ok.
  - by eapply handler_grid_step.
Qed.
End screen.

(** ** Properties *)

Section properties.
Variable fields : list Field.field.

(** Claim C2.  In every state the interface can reach, an answer from a connected
    server that carries a list, whole or, while a list is held, as a difference,
    is drawn without an exception.  The list held is then the one sent, or the
    one held with the difference folded in; and the rows are exactly its torrents
    less the hidden labels, every field of a torrent reading the same in its row,
    up to what [record.get(k) != torrent[k]] takes for no change. *)
Theorem list_on_screen w i a :
  Screen.reachable fields empty_grid w ->
  UI.connected a = true -> is_Some (UI.torrents a) -> (forall o, UI.torrents a = Some o -> obj_ok o) ->
  (UI.delta a = true -> is_Some (held (UI.grid (Loop.ui w)))) ->
  let '(s', _, threw) := UI.onUpdate fields i a (Loop.ui w) in
  threw = false /\ rows_match (UI.grid s') (UI.asked_label i) /\
  held (UI.grid s') =
    if UI.delta a
    then match held (UI.grid (Loop.ui w)) with
         | Some h => Some (merge_spec h (default [] (UI.torrents a)) (UI.removed a))
         | None => None
         end
    else UI.torrents a.
Proof.
  intros Hr Hc Ht Hok Hd. destruct (reachable_grid fields w Hr) as [own Hg].
  pose proof (onUpdate_grid fields i a (Loop.ui w) own Hg Hok) as H.
  destruct (UI.onUpdate fields i a (Loop.ui w)) as [[s' os] threw].
  destruct H as [_ H]. destruct (H Hc) as (H1 & _ & H3).
  destruct (H3 (or_introl Ht) Hd) as [H4 H5]. by split_and!.
Qed.

(** An answer from a connected server that carries no list at all, as when the
    call of the daemon failed, under the filters asked for before: where there
    are rows it throws once the list held was forgotten, and the rows stay. *)
Theorem null_list_throws i a s :
  UI.connected a = true -> UI.torrents a = None -> UI.delta a = false ->
  Ext.areObjectsEqual ∅ (UI.filters s) (UI.oldFilters s) = true -> Store.getCount (Grid.store (UI.grid s)) <> 0 ->
  let '(s', os, threw) := UI.onUpdate fields i a s in
  threw = true /\ os = [] /\ held (UI.grid s') = None /\ Grid.store (UI.grid s') = Grid.store (UI.grid s).
Proof.
  intros Hc Ht Hd He Hn. unfold UI.onUpdate. rewrite Hc, Hd. cbn [negb andb].
  set (s1 := UI.clearRunning _). set (s2 := UI.with_epoch (UI.schedule s1) _).
  assert (Hg : UI.grid s2 = UI.grid s).
  { unfold s2. cbn [UI.grid UI.with_epoch]. rewrite schedule_grid. unfold s1. by rewrite clearRunning_grid. }
  assert (Hf : UI.filters s2 = UI.filters s /\ UI.oldFilters s2 = UI.oldFilters s).
  { assert (Hk : forall s, UI.filters (UI.clearRunning s) = UI.filters s /\ UI.oldFilters (UI.clearRunning s) = UI.oldFilters s).
    { intros s'. unfold UI.clearRunning. by case_match. }
    destruct (Hk s1) as [F1 O1], (Hk (UI.with_flight s false (UI.wanted s))) as [F0 O0].
    unfold s2, UI.schedule. destruct (UI.hidden (UI.clearRunning s1)); cbn; rewrite F1, O1; by split. }
  clearbody s2. destruct Hf as [-> ->]. rewrite He. unfold UI.received. rewrite Ht, Hd. cbn [negb]. unfold Grid.update.
  cbn [Grid.withoutHiddenLabels default from_option Grid.update_all mbind option_bind].
  change (Grid.store (Grid.with_last (UI.grid s2) None)) with (Grid.store (UI.grid s2)). rewrite Hg.
  change (Store.add (Grid.store (UI.grid s)) []) with (Grid.store (UI.grid s)).
  rewrite bool_decide_eq_false_2 by (by intros []). cbn [negb andb].
  rewrite (proj2 (Nat.eqb_neq _ _) Hn). cbn [negb]. by split_and!.
Qed.

(** Hiding or showing a label, or showing them all, redraws the list
    already held: it never throws, keeps the list, and the rows follow the
    labels. *)
Theorem labels_redraw w asked name hide :
  Screen.reachable fields empty_grid w ->
  let g := UI.grid (Loop.ui w) in
  is_Some (held g) ->
  (exists g', Grid.setLabelHidden fields asked g name hide = Some g' /\ held g' = held g /\
     rows_match g' asked /\
     oget name (Grid.hiddenLabels g') = if hide then Some true else None) /\
  (exists g', Grid.showEveryLabel fields asked g = Some g' /\ held g' = held g /\
     rows_match g' asked /\ Grid.hiddenLabels g' = []).
Proof.
  intros Hr g Hh. destruct (reachable_grid fields w Hr) as [own Hg]. fold g in Hg.
  assert (Hl : is_Some (Grid.lastTorrents g)) by (unfold held in Hh; by rewrite fmap_is_Some in Hh).
  split.
  - unfold Grid.setLabelHidden. set (g1 := Grid.with_hidden g _ _).
    destruct (redraw_ok fields asked g1 own) as (g' & E & _ & H & Hhid); [by apply with_hidden_ok|].
    destruct (H Hl) as [H1 H2]. exists g'. split_and!; try done. rewrite Hhid. simpl.
    destruct hide; [apply oget_oset_eq|apply oget_odel_eq].
  - unfold Grid.showEveryLabel. set (g1 := Grid.with_hidden g _ _).
    destruct (redraw_ok fields asked g1 own) as (g' & E & _ & H & Hhid); [by apply with_hidden_ok|].
    destruct (H Hl) as [H1 H2]. exists g'. by split_and!.
Qed.

End properties.

(** ** The properties at concrete inputs *)

(** The loop with one poll in flight, which is what an answer comes to. *)
Definition polling : Loop.world :=
  default (Loop.start empty_grid) (Screen.step [] (Loop.start empty_grid) (Screen.Ev (Loop.Update sample_inputs))).

Lemma polling_reachable : Screen.reachable [] empty_grid polling.
Proof.
  apply (Screen.reach_step [] empty_grid (Loop.start empty_grid) (Screen.Ev (Loop.Update sample_inputs)));
    [apply Screen.reach_start|done|reflexivity].
Qed.

Lemma list_on_screen_witness :
  let '(s', _, threw) := UI.onUpdate [] sample_inputs sample_answer (Loop.ui polling) in
  threw = false /\ rows_match (UI.grid s') None /\
  held (UI.grid s') = Some [("aa", [("name", PStr "first")])].
Proof.
  apply (list_on_screen [] polling sample_inputs sample_answer).
  - apply polling_reachable.
  - done.
  - by eexists.
  - intros o [= <-]. apply (bool_decide_unpack (NoDup _)). by vm_compute.
  - done.
Defined.

(** After an answer: a list is held. *)
Definition listing : Loop.world :=
  default polling (Screen.step [] polling (Screen.Ev (Loop.Answer sample_inputs sample_answer))).

Lemma labels_redraw_witness :
  exists g', Grid.setLabelHidden [] None (UI.grid (Loop.ui listing)) "linux" true = Some g' /\
    held g' = held (UI.grid (Loop.ui listing)) /\ oget "linux" (Grid.hiddenLabels g') = Some true.
Proof.
  destruct (labels_redraw [] listing None "linux" true) as [(g' & E & H1 & _ & H2) _].
  - apply (Screen.reach_step [] empty_grid polling (Screen.Ev (Loop.Answer sample_inputs sample_answer)));
      [apply polling_reachable| |reflexivity].
    intros o [= <-]. apply (bool_decide_unpack (NoDup _)). by vm_compute.
  - apply (bool_decide_unpack (is_Some _)). by vm_compute.
  - exact (ex_intro _ g' (conj E (conj H1 H2))).
Defined.
