(* ===== verification/Delta.v ===== *)
(** * Differences between two answers

    The server sends a browser session what changed since the list it last
    sent it ([crates/redeluge-web/src/json_api.rs], [state.rs]); the interface
    folds it into the list it holds.  Both ends are modelled, with the tabs of
    a session that share what the server remembers, answers that are lost and
    requests that arrive late. *)

From stdpp Require Import base list strings gmap sets.
From Stdlib Require Import Lia ZArith.
From S2P Require Import Prelude JsNum JsString JsValue ExtCore Collection Store TorrentGrid UI Poll.

Local Open Scope Z_scope.

Module Server.

(** [Rows]: the torrents of an answer by id, in the order the map iterates. *)
Notation rows := (obj object).

(** *** [changes_between] *)

(** The fields of a torrent that moved. *)
Definition moved (was fields : object) : object :=
  filter (fun p => oget p.1 was <> Some p.2) fields.

Definition changed_one (before : rows) (changed : rows) (p : string * object) : rows :=
  let '(id, fields) := p in
  match oget id before with
  | None => oset id fields changed
  | Some was =>
      let m := moved was fields in
      if decide (m = []) then changed else oset id m changed
  end.

(** A torrent that lost a field is sent whole. *)
Definition lost_one (now : rows) (changed : rows) (p : string * object) : rows :=
  let '(id, was) := p in
  match oget id now with
  | Some fields =>
      if existsb (fun key => negb (bool_decide (is_Some (oget key fields)))) was.*1
      then oset id fields changed else changed
  | None => changed
  end.

Definition changes_between (before now : rows) : rows * list string :=
  let changed := foldl (changed_one before) [] now in
  let changed := foldl (lost_one now) changed before in
  let removed := filter (fun id => oget id now = None) before.*1 in
  (changed, removed).

(** *** [Baseline] and [Baselines] *)

Section baselines.
(** What is asked: the keys and the filters, which the server compares. *)
Context {question : Type} `{EqDecision question}.

Record baseline := mkbase { bepoch : Z; asked : question; torrents : rows }.

(** The entries with the moment each was last used, and the clock. *)
Record state := mk { entries : obj (nat * baseline); clock : nat }.

Definition MAX_BASELINES : nat := 4.

(** [get]: using an entry is being seen. *)
Definition get (session : string) (s : state) : option baseline * state :=
  match oget session (entries s) with
  | Some (_, b) => (Some b, mk (oset session (clock s, b) (entries s)) (S (clock s)))
  | None => (None, s)
  end.

(** The entry seen longest ago. *)
Definition oldest (es : obj (nat * baseline)) : option string :=
  match es with
  | [] => None
  | (k, (t, _)) :: es' =>
      Some (foldl (fun m e => if (e.2.1 <? m.2)%nat then (e.1, e.2.1) else m) (k, t) es').1
  end.
Fixpoint evict (fuel : nat) (es : obj (nat * baseline)) : obj (nat * baseline) :=
  match fuel with
  | O => es
  | S fuel' =>
      if decide (length es <= MAX_BASELINES)%nat then es
      else match oldest es with Some k => evict fuel' (odel k es) | None => es end
  end.
Definition put (session : string) (b : baseline) (s : state) : state :=
  let es := oset session (clock s, b) (entries s) in
  mk (evict (length es) es) (S (clock s)).
Definition forget (session : string) (s : state) : state := mk (odel session (entries s)) (clock s).

(** *** [narrow_to_changes] *)

Inductive answer :=
  | Whole (torrents : option (obj (option object))) (epoch : option Z)
  | Changes (changed : rows) (removed : list string) (epoch : Z).

(** [wrapping_add(1).max(1)] on 64 bits *)
Definition next_epoch (e : Z) : Z := Z.max ((e + 1) mod 2 ^ 64) 1.

(** The torrents of an answer that are objects. *)
Definition rows_of (current : obj (option object)) : rows :=
  omap (fun p => (fun o => (p.1, o)) <$> p.2) current.

(** [narrow_to_changes]: [on] is the setting, [sent] the daemon's answer if
    it was an object, [from] the epoch the browser sent, if positive. *)
Definition narrow (on : bool) (sent : option (obj (option object))) (q : question)
    (from : option Z) (session : string) (s : state) : answer * state :=
  match sent with
  | None => (Whole None None, s)
  | Some current =>
      if negb on then (Whole (Some current) None, forget session s)
      else
        let rows := rows_of current in
        if negb (length rows =? length current)%nat then (Whole (Some current) None, s)
        else
          let '(b, s) := get session s in
          match b with
          | Some b =>
              if bool_decide (asked b = q) && bool_decide (from = Some (bepoch b)) then
                let '(changed, removed) := changes_between (torrents b) rows in
                let e := next_epoch (bepoch b) in
                (Changes changed removed e,
                 mk (oset session (match oget session (entries s) with
                                   | Some (t, _) => t | None => clock s end, mkbase e (asked b) rows) (entries s))
                    (clock s))
              else
                let e := next_epoch (bepoch b) in
                (Whole (Some current) (Some e), put session (mkbase e q rows) s)
          | None =>
              let e := next_epoch 0 in
              (Whole (Some current) (Some e), put session (mkbase e q rows) s)
          end
  end.
End baselines.
Arguments baseline question : clear implicits.
Arguments state question : clear implicits.

End Server.

(** ** A difference folded back *)

(** What the interface holds of a list the server remembers: the same
    torrents, and of each at least the fields sent, with their values. *)
Definition covers (held base : obj object) : Prop :=
  forall t, match oget t base, oget t held with
            | Some b, Some h => forall k v, oget k b = Some v -> oget k h = Some v
            | None, None => True
            | _, _ => False
            end.

(** ... and no others: the same list. *)
Definition same_list (held base : obj object) : Prop :=
  forall t, match oget t base, oget t held with
            | Some b, Some h => forall k, oget k h = oget k b
            | None, None => True
            | _, _ => False
            end.

Definition rows_ok (r : obj object) : Prop := obj_ok r /\ forall t o, oget t r = Some o -> obj_ok o.

(** *** Lookups in the two folds *)

Lemma changed_fold_get before now acc t :
  obj_ok now ->
  oget t (foldl (Server.changed_one before) acc now) =
  match oget t now with
  | None => oget t acc
  | Some fields =>
      match oget t before with
      | None => Some fields
      | Some was => if decide (Server.moved was fields = []) then oget t acc
                    else Some (Server.moved was fields)
      end
  end.
Proof.
  unfold obj_ok. revert acc. induction now as [|[id fields] now IH]; intros acc Hok; [done|].
  rewrite fmap_cons in Hok. apply NoDup_cons in Hok as [Hn Hok].
  cbn [foldl]. rewrite IH by done. cbn [oget].
  destruct (decide (t = id)) as [->|Hne].
  - assert (oget id now = None) as -> by by apply oget_None.
    unfold Server.changed_one. destruct (oget id before) as [was|]; [|apply oget_oset_eq].
    cbv zeta. destruct (decide (Server.moved was fields = [])); [done|apply oget_oset_eq].
  - assert (E : oget t (Server.changed_one before acc (id, fields)) = oget t acc).
    { unfold Server.changed_one. destruct (oget id before); [|by apply oget_oset_ne]. cbv zeta.
      destruct (decide _); [done|by apply oget_oset_ne]. }
    rewrite E. done.
Qed.

(** A torrent that lost a field. *)
Definition loses (was fields : object) : bool :=
  existsb (fun key => negb (bool_decide (is_Some (oget key fields)))) was.*1.

Lemma lost_fold_get before now acc t :
  obj_ok before ->
  oget t (foldl (Server.lost_one now) acc before) =
  match oget t before, oget t now with
  | Some was, Some fields => if loses was fields then Some fields else oget t acc
  | _, _ => oget t acc
  end.
Proof.
  unfold obj_ok. revert acc. induction before as [|[id was] before IH]; intros acc Hok; [done|].
  rewrite fmap_cons in Hok. apply NoDup_cons in Hok as [Hn Hok].
  cbn [foldl]. rewrite IH by done. cbn [oget].
  destruct (decide (t = id)) as [->|Hne].
  - assert (oget id before = None) as -> by by apply oget_None.
    unfold Server.lost_one, loses. destruct (oget id now) as [fields|]; [|done].
    destruct (existsb _ _); [apply oget_oset_eq|done].
  - assert (E : oget t (Server.lost_one now acc (id, was)) = oget t acc).
    { unfold Server.lost_one. destruct (oget id now); [|done]. destruct (existsb _ _); [by apply oget_oset_ne|done]. }
    by rewrite E.
Qed.

(** What is sent of a torrent. *)
Lemma changes_get before now t :
  obj_ok before -> obj_ok now ->
  oget t (Server.changes_between before now).1 =
  match oget t now with
  | None => None
  | Some fields =>
      match oget t before with
      | None => Some fields
      | Some was =>
          if loses was fields then Some fields
          else if decide (Server.moved was fields = []) then None
          else Some (Server.moved was fields)
      end
  end.
Proof.
  intros Hb Hn. simpl. rewrite lost_fold_get, changed_fold_get by done.
  destruct (oget t before) as [was|], (oget t now) as [fields|]; done.
Qed.

Lemma removed_elem before now t :
  t ∈ (Server.changes_between before now).2 <-> is_Some (oget t before) /\ oget t now = None.
Proof. simpl. rewrite list_elem_of_filter, oget_is_Some. naive_solver. Qed.

Lemma moved_get was fields k :
  obj_ok fields ->
  oget k (Server.moved was fields) =
    match oget k fields with
    | Some v => if decide (oget k was = Some v) then None else Some v
    | None => None
    end.
Proof.
  unfold obj_ok, Server.moved. induction fields as [|[k' v] fields IH]; intros Hok; [done|].
  rewrite fmap_cons in Hok. apply NoDup_cons in Hok as [Hn Hok]. rewrite filter_cons. cbn [fst snd oget].
  destruct (decide (k = k')) as [->|Hne].
  - assert (Hf : oget k' fields = None) by by apply oget_None.
    destruct (decide (oget k' was <> Some v)) as [Hd|Hd].
    + cbn [oget]. rewrite decide_True by done. by rewrite decide_False.
    + rewrite IH, Hf by done. rewrite decide_True; [done|]. by apply dec_stable.
  - destruct (decide (oget k' was <> Some v)); cbn [oget]; [rewrite decide_False by done|]; by apply IH.
Qed.

(** *** [merge_spec], torrent by torrent *)

Lemma merge_spec_get all changed removed t :
  obj_ok changed ->
  oget t (merge_spec all changed removed) =
  let old := if decide (t ∈ removed) then None else oget t all in
  match oget t changed with
  | None => old
  | Some f => match old with None => Some f | Some o => Some (Ext.apply o f) end
  end.
Proof.
  intros Hok. unfold merge_spec. cbv zeta.
  assert (Hdel : forall ids (all : obj object), oget t (foldl (fun all id => odel id all) all ids) =
    if decide (t ∈ ids) then None else oget t all).
  { induction ids as [|i ids IH]; intros a; cbn [foldl].
    - rewrite decide_False; [done|]. apply not_elem_of_nil.
    - rewrite IH, oget_odel. destruct (decide (t ∈ ids)) as [Hin|Hin].
      + rewrite decide_True; [done|by right].
      + destruct (decide (t = i)) as [->|Hne].
        * rewrite decide_True; [done|by left].
        * rewrite decide_False; [done|]. rewrite elem_of_cons. naive_solver. }
  rewrite <- Hdel. set (a0 := foldl _ all removed). clearbody a0. clear Hdel.
  assert (H : forall ks (a : obj object), NoDup ks ->
    oget t (foldl (fun a id => match oget id changed with
                     | None => a
                     | Some f => match oget id a with None => oset id f a
                                 | Some o => oset id (Ext.apply o f) a end end) a ks) =
    if decide (t ∈ ks) then
      match oget t changed with
      | None => oget t a
      | Some f => match oget t a with None => Some f | Some o => Some (Ext.apply o f) end
      end
    else oget t a).
  { induction ks as [|k ks IH]; intros a Hnd; cbn [foldl].
    - rewrite decide_False; [done|]. apply not_elem_of_nil.
    - apply NoDup_cons in Hnd as [Hk Hnd]. rewrite IH by done.
      destruct (decide (t = k)) as [->|Hne].
      + rewrite decide_False by done. rewrite decide_True by (by left).
        destruct (oget k changed); [|done]. destruct (oget k a); apply oget_oset_eq.
      + assert (E : oget t (match oget k changed with None => a
           | Some f => match oget k a with None => oset k f a | Some o => oset k (Ext.apply o f) a end end)
           = oget t a).
        { destruct (oget k changed); [|done]. destruct (oget k a); by apply oget_oset_ne. }
        rewrite E. apply decide_ext. rewrite elem_of_cons. naive_solver. }
  rewrite H by (by apply okeys_NoDup). destruct (decide (t ∈ okeys changed)) as [Hin|Hin]; [done|].
  assert (oget t changed = None) as ->; [|done].
  apply eq_None_not_Some. by rewrite <- okeys_elem.
Qed.

Lemma changes_ok before now : rows_ok now -> obj_ok (Server.changes_between before now).1.
Proof.
  intros [Hn _]. simpl.
  assert (H1 : forall l acc, obj_ok acc -> obj_ok (foldl (Server.changed_one before) acc l)).
  { induction l as [|[id f] l IH]; intros acc Ha; [done|]. cbn [foldl]. apply IH. simpl.
    destruct (oget id before); [|by apply oset_ok]. case_decide; [done|by apply oset_ok]. }
  assert (H2 : forall l acc, obj_ok acc -> obj_ok (foldl (Server.lost_one now) acc l)).
  { induction l as [|[id f] l IH]; intros acc Ha; [done|]. cbn [foldl]. apply IH. simpl.
    destruct (oget id now); [|done]. destruct (existsb _ _); [by apply oset_ok|done]. }
  apply H2, H1, nil_ok.
Qed.

(** What a torrent's fields become once the difference is folded in. *)
Lemma folded_fields was fields h k v :
  obj_ok fields -> (forall k v, oget k was = Some v -> oget k h = Some v) ->
  oget k fields = Some v ->
  oget k (Ext.apply h (Server.moved was fields)) = Some v.
Proof.
  intros Hok Hh Hk. rewrite apply_get.
  - rewrite moved_get by done. rewrite Hk. destruct (decide (oget k was = Some v)); [by apply Hh|done].
  - unfold Server.moved. by apply NoDup_filter_fst.
Qed.

Lemma merge_covers held before now :
  rows_ok before -> rows_ok now -> covers held before ->
  let '(changed, removed) := Server.changes_between before now in
  covers (merge_spec held changed removed) now.
Proof.
  intros [Hb Hbf] [Hn Hnf] Hc.
  pose proof (fun t => changes_get before now t Hb Hn) as Hg.
  pose proof (removed_elem before now) as Hr.
  pose proof (changes_ok before now (conj Hn Hnf)) as Hok.
  destruct (Server.changes_between before now) as [ch rm]. cbn [fst snd] in *.
  intros t. rewrite merge_spec_get by done. cbv zeta. rewrite Hg. specialize (Hc t).
  destruct (oget t now) as [fields|] eqn:En.
  - assert (Ht : t ∉ rm) by (rewrite Hr; naive_solver). rewrite decide_False by done.
    destruct (oget t before) as [was|] eqn:Eb, (oget t held) as [h|] eqn:Eh; try done.
    destruct (loses was fields) eqn:El.
    + intros k v Hk. rewrite apply_get by eauto. by rewrite Hk.
    + destruct (decide (Server.moved was fields = [])) as [Em|Em].
      * intros k v Hk. rewrite <- (folded_fields was fields h k v) by eauto.
        by rewrite Em.
      * intros k v Hk. apply folded_fields; eauto.
  - destruct (oget t before) as [was|] eqn:Eb.
    + rewrite decide_True; [done|]. apply Hr. by rewrite Eb.
    + rewrite decide_False; [|rewrite Hr; rewrite Eb; by intros [[? ?] _]].
      by destruct (oget t held).
Qed.

(** Folding back exactly: if no torrent lost a field, the list is the same. *)
Lemma merge_same held before now :
  rows_ok before -> rows_ok now -> same_list held before ->
  (forall t was fields, oget t before = Some was -> oget t now = Some fields -> loses was fields = false) ->
  let '(changed, removed) := Server.changes_between before now in
  same_list (merge_spec held changed removed) now.
Proof.
  intros [Hb Hbf] [Hn Hnf] Hc Hl.
  pose proof (fun t => changes_get before now t Hb Hn) as Hg.
  pose proof (removed_elem before now) as Hr.
  pose proof (changes_ok before now (conj Hn Hnf)) as Hok.
  destruct (Server.changes_between before now) as [ch rm]. cbn [fst snd] in *.
  intros t. rewrite merge_spec_get by done. cbv zeta. rewrite Hg. specialize (Hc t).
  destruct (oget t now) as [fields|] eqn:En.
  - assert (Ht : t ∉ rm) by (rewrite Hr; naive_solver). rewrite decide_False by done.
    destruct (oget t before) as [was|] eqn:Eb, (oget t held) as [h|] eqn:Eh; try done.
    rewrite (Hl t was fields Eb En).
    assert (Hf : forall k, oget k (Ext.apply h (Server.moved was fields)) = oget k fields).
    { intros k. rewrite apply_get by (by apply NoDup_filter_fst, (Hnf t)).
      rewrite moved_get by eauto. destruct (oget k fields) as [v|] eqn:Ek.
      - destruct (decide (oget k was = Some v)); [|done]. by rewrite Hc.
      - rewrite Hc. apply eq_None_not_Some. intros Hs. pose proof (Hl t was fields Eb En) as Hno.
        unfold loses in Hno. rewrite <- not_true_iff_false, existsb_exists in Hno. apply Hno.
        exists k. split; [apply list_elem_of_In, oget_is_Some, Hs|]. rewrite Ek.
        by rewrite bool_decide_eq_false_2 by (by intros []). }
    destruct (decide (Server.moved was fields = [])) as [Em|Em]; [|exact Hf].
    intros k. rewrite <- (Hf k), Em. by rewrite apply_nil.
  - destruct (oget t before) as [was|] eqn:Eb.
    + rewrite decide_True; [done|]. apply Hr. by rewrite Eb.
    + rewrite decide_False; [|rewrite Hr; rewrite Eb; by intros [[? ?] _]].
      by destruct (oget t held).
Qed.

(** ** What the server remembers *)

Section server.
Context {question : Type} `{EqDecision question}.
Implicit Types (s : Server.state question) (ses : string).

Definition base s ses : option (Server.baseline question) := snd <$> oget ses (Server.entries s).

(** No more sessions than the server keeps, all among [known]. *)
Definition few (known : list string) s : Prop :=
  obj_ok (Server.entries s) /\ (length known <= Server.MAX_BASELINES)%nat /\
  forall k, is_Some (oget k (Server.entries s)) -> k ∈ known.

Lemma few_length known s : few known s -> (length (Server.entries s) <= Server.MAX_BASELINES)%nat.
Proof.
  intros (Hok & Hl & Hk). rewrite <- (length_fmap fst).
  etransitivity; [|exact Hl]. apply submseteq_length, NoDup_submseteq; [exact Hok|].
  intros k Hin. apply Hk. by apply oget_is_Some.
Qed.

Lemma put_few known ses b s :
  few known s -> ses ∈ known ->
  Server.entries (Server.put ses b s) = oset ses (Server.clock s, b) (Server.entries s) /\
  few known (Server.put ses b s).
Proof.
  intros Hf Hin.
  assert (H : few known (Server.mk (oset ses (Server.clock s, b) (Server.entries s)) (S (Server.clock s)))).
  { destruct Hf as (Hok & Hl & Hk). split_and!; [by apply oset_ok|done|]. simpl. intros k Hs.
    apply oget_is_Some, oset_keys in Hs as [->|Hs]; [done|]. apply Hk. by apply oget_is_Some. }
  pose proof (few_length _ _ H) as Hlen. simpl in Hlen.
  assert (E : forall n (es : obj (nat * Server.baseline question)),
    (length es <= Server.MAX_BASELINES)%nat -> Server.evict n es = es).
  { intros [|n] es He; [done|]. cbn [Server.evict]. by rewrite decide_True. }
  unfold Server.put. rewrite E by done. by split.
Qed.

Lemma get_spec known ses s :
  few known s ->
  (Server.get ses s).1 = base s ses /\ few known (Server.get ses s).2 /\
  forall x, base (Server.get ses s).2 x = base s x.
Proof.
  intros Hf. unfold Server.get, base. destruct (oget ses (Server.entries s)) as [[t b]|] eqn:E; [|done].
  cbn [fst snd Server.entries]. split; [done|]. split.
  - destruct Hf as (Hok & Hl & Hk). split_and!; [by apply oset_ok|done|]. simpl. intros k Hs.
    apply Hk. apply oget_is_Some, oset_keys in Hs as [->|Hs]; [by rewrite E|by apply oget_is_Some].
  - intros x. rewrite oget_oset. case_decide; subst; [by rewrite E|done].
Qed.

Definition some_rows (r : obj object) : obj (option object) := map (fun p => (p.1, Some p.2)) r.

Lemma rows_of_some r : Server.rows_of (some_rows r) = r.
Proof. induction r as [|[t o] r IH]; [done|]. simpl. f_equal. exact IH. Qed.

(** One well-formed list through [narrow_to_changes]: the session's entry is
    then the list with the next number; the answer is the difference where the
    question and the number were the entry's, and the whole list otherwise. *)
Lemma narrow_spec known rows q from ses s :
  few known s -> ses ∈ known ->
  let '(a, s') := Server.narrow true (Some (some_rows rows)) q from ses s in
  let e := Server.next_epoch (match base s ses with Some b => Server.bepoch b | None => 0 end) in
  few known s' /\
  (forall x, x <> ses -> base s' x = base s x) /\
  (exists q', base s' ses = Some (Server.mkbase e q' rows)) /\
  (a = Server.Whole (Some (some_rows rows)) (Some e) \/
   exists b, base s ses = Some b /\ from = Some (Server.bepoch b) /\
     a = Server.Changes (Server.changes_between (Server.torrents b) rows).1
           (Server.changes_between (Server.torrents b) rows).2 e).
Proof.
  intros Hf Hin. unfold Server.narrow. cbn [negb]. rewrite rows_of_some.
  assert (Hlen : (length rows =? length (some_rows rows))%nat = true).
  { unfold some_rows. rewrite length_map. apply Nat.eqb_refl. }
  rewrite Hlen. cbn [negb].
  destruct (get_spec known ses s Hf) as (Hg & Hf1 & Hb1).
  destruct (Server.get ses s) as [b s1]. cbn [fst snd] in *. rewrite <- Hg.
  destruct b as [b|].
  - destruct (bool_decide (Server.asked b = q) && bool_decide (from = Some (Server.bepoch b))) eqn:E.
    + apply andb_true_iff in E as [_ E]. apply bool_decide_eq_true in E.
      destruct (Server.changes_between (Server.torrents b) rows) as [ch rm] eqn:Ec. cbv zeta.
      split_and!.
      * destruct Hf1 as (Hok & Hl & Hk). split_and!; [by apply oset_ok|done|]. simpl. intros k Hs.
        apply oget_is_Some, oset_keys in Hs as [->|Hs]; [done|]. apply Hk. by apply oget_is_Some.
      * intros x Hx. rewrite <- (Hb1 x). unfold base. simpl. by rewrite oget_oset_ne.
      * eexists. unfold base. simpl. by rewrite oget_oset_eq.
      * right. exists b. by rewrite Ec.
    + cbv zeta. destruct (put_few known ses (Server.mkbase (Server.next_epoch (Server.bepoch b)) q rows) s1 Hf1 Hin)
        as [He Hf2].
      split_and!; [done| | |by left].
      * intros x Hx. rewrite <- (Hb1 x). unfold base. by rewrite He, oget_oset_ne.
      * eexists. unfold base. by rewrite He, oget_oset_eq.
  - cbv zeta. destruct (put_few known ses (Server.mkbase (Server.next_epoch 0) q rows) s1 Hf1 Hin)
      as [He Hf2].
    split_and!; [done| | |by left].
    + intros x Hx. rewrite <- (Hb1 x). unfold base. by rewrite He, oget_oset_ne.
    + eexists. unfold base. by rewrite He, oget_oset_eq.
Qed.
End server.

(** ** Tabs, requests and lost answers *)

Module Net.

Section net.
Context {question : Type} `{EqDecision question}.

(** A tab between polls, waiting for the server, or with an answer on its way
    to it. *)
Inductive phase :=
  | Idle
  | Asked (q : question) (from : option Z)
  | Answered (a : Server.answer).

(** What a tab has of it: its session, the list last received, the epoch. *)
Record tab := mktab { session : string; list_held : option (obj object); epoch : Z; at_ : phase }.

Record state := mkstate {
  tabs : gmap nat tab;
  server : Server.state question;
  late : list (string * question * option Z)
}.

(** The answer as [onUpdate] reads it: [data['epoch'] || 0] and the rest. *)
Definition list_of (r : obj (option object)) : obj object := Server.rows_of r.
Definition as_answer (a : Server.answer) : UI.answer :=
  match a with
  | Server.Whole r e =>
      {| UI.connected := true; UI.aepoch := default 0 e; UI.delta := false;
         UI.torrents := list_of <$> r; UI.removed := [] |}
  | Server.Changes c r e =>
      {| UI.connected := true; UI.aepoch := e; UI.delta := true; UI.torrents := Some c; UI.removed := r |}
  end.

(** What receiving an answer does to the list and the epoch. *)
Definition receive (a : Server.answer) (h : option (obj object)) (e : Z) : option (obj object) * Z :=
  let a := as_answer a in
  if UI.delta a then
    match h with
    | None => (None, 0)
    | Some h => (Some (merge_spec h (default [] (UI.torrents a)) (UI.removed a)), UI.aepoch a)
    end
  else (UI.torrents a, UI.aepoch a).

(** What may happen.  [fresh] says the interface dropped its epoch before
    asking, as it does when its filters changed.  A request that failed for
    the browser may still reach the server. *)
Inductive event :=
  | Open (i : nat) (session : string)
  | Close (i : nat)
  | Ask (i : nat) (q : question) (fresh : bool)
  | Serve (i : nat) (rows : obj object)
  | Deliver (i : nat)
  | Fail (i : nat)
  | ServeLate (n : nat) (rows : obj object).

Definition serve (s : state) (ses : string) (q : question) (from : option Z) (rows : obj object)
    : Server.answer * Server.state question :=
  Server.narrow true (Some (some_rows rows)) q from ses (server s).

Definition late_of (t : tab) : list (string * question * option Z) :=
  match at_ t with Asked q from => [(session t, q, from)] | _ => [] end.

Definition step (s : state) (e : event) : option state :=
  match e with
  | Open i ses =>
      match tabs s !! i with
      | Some _ => None
      | None => Some (mkstate (<[i := mktab ses None 0 Idle]> (tabs s)) (server s) (late s))
      end
  | Close i =>
      t ← tabs s !! i; Some (mkstate (delete i (tabs s)) (server s) (late s ++ late_of t))
  | Ask i q fresh =>
      t ← tabs s !! i;
      match at_ t with
      | Idle =>
          let e := if fresh then 0 else epoch t in
          let from := if decide (0 < e) then Some e else None in
          Some (mkstate (<[i := mktab (session t) (list_held t) e (Asked q from)]> (tabs s)) (server s) (late s))
      | _ => None
      end
  | Serve i rows =>
      t ← tabs s !! i;
      match at_ t with
      | Asked q from =>
          let '(a, srv) := serve s (session t) q from rows in
          Some (mkstate (<[i := mktab (session t) (list_held t) (epoch t) (Answered a)]> (tabs s)) srv (late s))
      | _ => None
      end
  | Deliver i =>
      t ← tabs s !! i;
      match at_ t with
      | Answered a =>
          let '(h, e) := receive a (list_held t) (epoch t) in
          Some (mkstate (<[i := mktab (session t) h e Idle]> (tabs s)) (server s) (late s))
      | _ => None
      end
  | Fail i =>
      t ← tabs s !! i;
      match at_ t with
      | Idle => None
      | _ => Some (mkstate (<[i := mktab (session t) (list_held t) 0 Idle]> (tabs s)) (server s)
                     (late s ++ late_of t))
      end
  | ServeLate n rows =>
      '(ses, q, from) ← late s !! n;
      Some (mkstate (tabs s) (serve s ses q from rows).2 (delete n (late s)))
  end.

Definition steps (s : state) (es : list event) : option state :=
  foldl (fun s e => s ← s; step s e) (Some s) es.

Definition start : state := mkstate ∅ (Server.mk [] 0) [].

(** The lists the daemon answers with are objects; the sessions are among the
    ones known. *)
Definition event_ok (known : list string) (e : event) : Prop :=
  match e with
  | Open _ ses => ses ∈ known
  | Serve _ rows | ServeLate _ rows => rows_ok rows
  | _ => True
  end.
End net.
Arguments event question : clear implicits.
Arguments state question : clear implicits.
Arguments tab question : clear implicits.

End Net.

(** ** The list on both sides *)

Section protocol.
Context {question : Type} `{EqDecision question}.
Variable known : list string.

(** A tab that holds the number the server last gave its session holds the
    list the server remembers. *)
Definition agrees (b : option (Server.baseline question)) (h : option (obj object)) (e : Z) : Prop :=
  0 <= e /\
  match b with
  | None => e = 0
  | Some b => e <= Server.bepoch b /\
              (0 < e -> e = Server.bepoch b -> exists l, h = Some l /\ covers l (Server.torrents b))
  end.

(** ... and so it will once an answer on its way has arrived. *)
Definition tab_agrees (b : option (Server.baseline question)) (t : Net.tab question) : Prop :=
  match Net.at_ t with
  | Net.Idle => agrees b (Net.list_held t) (Net.epoch t)
  | Net.Asked _ from =>
      from = (if decide (0 < Net.epoch t) then Some (Net.epoch t) else None) /\
      agrees b (Net.list_held t) (Net.epoch t)
  | Net.Answered a =>
      let '(h, e) := Net.receive a (Net.list_held t) (Net.epoch t) in agrees b h e
  end.

Record net_inv (n : Z) (s : Net.state question) : Prop := {
  ni_few : few known (Net.server s);
  ni_tabs : forall i t, Net.tabs s !! i = Some t ->
    Net.session t ∈ known /\ tab_agrees (base (Net.server s) (Net.session t)) t;
  ni_late : forall ses q from, (ses, q, from) ∈ Net.late s -> ses ∈ known;
  ni_base : forall ses b, base (Net.server s) ses = Some b ->
    1 <= Server.bepoch b <= n /\ rows_ok (Server.torrents b)
}.

(** A number the server moved past says nothing any more. *)
Lemma agrees_older b b' h e :
  agrees b h e -> match b with Some b0 => Server.bepoch b0 < Server.bepoch b' | None => 1 <= Server.bepoch b' end ->
  agrees (Some b') h e.
Proof. intros [He Hb] Hlt. split; [done|]. destruct b; split; intros; lia. Qed.

Lemma tab_agrees_older b b' t :
  tab_agrees b t -> match b with Some b0 => Server.bepoch b0 < Server.bepoch b' | None => 1 <= Server.bepoch b' end ->
  tab_agrees (Some b') t.
Proof.
  unfold tab_agrees. intros Ht Hlt. destruct (Net.at_ t).
  - by eapply agrees_older.
  - destruct Ht. split; [done|]. by eapply agrees_older.
  - destruct (Net.receive _ _ _). by eapply agrees_older.
Qed.

Lemma next_epoch_small e : 0 <= e -> e + 1 < 2 ^ 64 -> Server.next_epoch e = e + 1.
Proof. intros H1 H2. unfold Server.next_epoch. rewrite Z.mod_small by lia. lia. Qed.

(** The number the server gives next. *)
Definition current (b : option (Server.baseline question)) : Z :=
  match b with Some b => Server.bepoch b | None => 0 end.

(** What serving a request does to what the server remembers: a new number,
    above every one given before. *)
Lemma serve_inv n s ses q from rows :
  net_inv n s -> ses ∈ known -> rows_ok rows -> 0 <= n -> n + 1 < 2 ^ 64 ->
  let '(a, srv) := Net.serve s ses q from rows in
  few known srv /\
  (forall x, x <> ses -> base srv x = base (Net.server s) x) /\
  (exists b', base srv ses = Some b' /\ Server.torrents b' = rows /\
     Server.bepoch b' = current (base (Net.server s) ses) + 1 /\
     Server.bepoch b' <= n + 1 /\
     (forall h e, agrees (base (Net.server s) ses) h e ->
        from = (if decide (0 < e) then Some e else None) ->
        let '(h', e') := Net.receive a h e in agrees (Some b') h' e')).
Proof.
  intros Hi Hin Hr Hn0 Hn. unfold Net.serve.
  pose proof (narrow_spec known rows q from ses (Net.server s) (ni_few _ _ Hi) Hin) as Hs.
  destruct (Server.narrow true (Some (some_rows rows)) q from ses (Net.server s)) as [a srv].
  destruct Hs as (Hf & Ho & [q' Hb] & Ha).
  fold (current (base (Net.server s) ses)) in *. set (c := current (base (Net.server s) ses)) in *.
  assert (Hc : 0 <= c <= n).
  { unfold c, current. destruct (base (Net.server s) ses) as [b|] eqn:E; [|lia].
    destruct (ni_base _ _ Hi _ _ E). lia. }
  rewrite next_epoch_small in Hb, Ha by lia.
  split; [done|]. split; [done|]. eexists. split; [exact Hb|]. cbn [Server.torrents Server.bepoch].
  split_and!; [done|done|lia|].
  intros h e Hag Hfrom. destruct Ha as [->|(b & Eb & Hfb & ->)].
  - cbn [Net.receive Net.as_answer UI.delta UI.torrents UI.aepoch default from_option].
    unfold Datatypes.id. split; [lia|]. cbn [Server.bepoch Server.torrents]. split; [lia|]. intros _ _.
    unfold Net.list_of. cbn [fmap option_fmap option_map]. rewrite rows_of_some. exists rows.
    split; [done|]. intros t. by destruct (oget t rows).
  - rewrite Eb in Hag. destruct Hag as [He Hag].
    assert (E : 0 < e /\ e = Server.bepoch b) by (rewrite Hfb in Hfrom; case_decide; simplify_eq; split; [lia|done]).
    destruct E as [E1 E2]. destruct Hag as [_ Hag]. destruct (Hag E1 E2) as (l & -> & Hcov).
    cbn [Net.receive Net.as_answer UI.delta UI.torrents UI.aepoch UI.removed default from_option].
    unfold Datatypes.id. split; [lia|]. cbn [Server.bepoch Server.torrents]. split; [lia|]. intros _ _.
    eexists. split; [done|]. destruct (ni_base _ _ Hi _ _ Eb) as [_ Hrb].
    pose proof (merge_covers l (Server.torrents b) rows Hrb Hr Hcov) as Hm.
    by destruct (Server.changes_between (Server.torrents b) rows).
Qed.

(** Every tab of the session still agrees after a request was served. *)
Lemma served_tabs n s ses q from rows a srv :
  net_inv n s -> ses ∈ known -> rows_ok rows -> 0 <= n -> n + 1 < 2 ^ 64 ->
  Net.serve s ses q from rows = (a, srv) ->
  (forall i t, Net.tabs s !! i = Some t -> tab_agrees (base srv (Net.session t)) t) /\
  few known srv /\
  (forall x b, base srv x = Some b -> 1 <= Server.bepoch b <= n + 1 /\ rows_ok (Server.torrents b)).
Proof.
  intros Hi Hin Hr Hn0 Hn E. pose proof (serve_inv n s ses q from rows Hi Hin Hr Hn0 Hn) as H.
  rewrite E in H. destruct H as (Hf & Ho & b' & Hb & Ht & He & Hle & _).
  split; [|split; [done|]].
  - intros i t Hit. destruct (ni_tabs _ _ Hi i t Hit) as [_ Hag].
    destruct (decide (Net.session t = ses)) as [Es|Hne]; [|by rewrite Ho].
    rewrite Es in Hag |- *. rewrite Hb. eapply tab_agrees_older; [exact Hag|].
    unfold current in He. destruct (base (Net.server s) ses); lia.
  - intros x b Hx. destruct (decide (x = ses)) as [->|Hne].
    + rewrite Hb in Hx. injection Hx as <-. split; [|by rewrite Ht].
      assert (0 <= current (base (Net.server s) ses)); [|lia].
      unfold current. destruct (base (Net.server s) ses) as [b0|] eqn:E0; [|lia].
      destruct (ni_base _ _ Hi _ _ E0). lia.
    + rewrite Ho in Hx by done. destruct (ni_base _ _ Hi _ _ Hx). split; [lia|done].
Qed.

Lemma net_step n s e s' :
  net_inv n s -> 0 <= n -> n + 1 < 2 ^ 64 -> Net.event_ok known e -> Net.step s e = Some s' ->
  net_inv (n + 1) s'.
Proof.
  intros Hi Hn0 Hn Hok. pose proof Hi as [Hf Ht Hl Hb].
  assert (Hb1 : forall ses b, base (Net.server s) ses = Some b ->
    1 <= Server.bepoch b <= n + 1 /\ rows_ok (Server.torrents b)).
  { intros ses b E. destruct (Hb _ _ E). split; [lia|done]. }
  assert (Hlate : forall i t, Net.tabs s !! i = Some t ->
    forall ses q from, (ses, q, from) ∈ Net.late s ++ Net.late_of t -> ses ∈ known).
  { intros i t E ses q from [Hx|Hx]%elem_of_app; [by eapply Hl|].
    unfold Net.late_of in Hx. destruct (Net.at_ t); try by apply elem_of_nil in Hx.
    apply list_elem_of_singleton in Hx. simplify_eq. by apply (Ht i t E). }
  assert (Hone : forall i t srv lt, (forall ses q from, (ses, q, from) ∈ lt -> ses ∈ known) ->
    few known srv ->
    (forall ses b, base srv ses = Some b -> 1 <= Server.bepoch b <= n + 1 /\ rows_ok (Server.torrents b)) ->
    (forall j t', Net.tabs s !! j = Some t' -> tab_agrees (base srv (Net.session t')) t') ->
    Net.session t ∈ known -> tab_agrees (base srv (Net.session t)) t ->
    net_inv (n + 1) (Net.mkstate (<[i := t]> (Net.tabs s)) srv lt)).
  { intros i t srv lt H1 H2 H3 H4 H5 H6. split; simpl; [done| |done|done].
    intros j t' Hj. destruct (decide (j = i)) as [->|Hne]; simplify_map_eq; [done|].
    split; [by apply (Ht j t')|by eapply H4]. }
  destruct e as [i ses|i|i q fresh|i rows|i|i|k rows]; cbn [Net.step].
  - destruct (Net.tabs s !! i); [done|]. intros [= <-]. apply Hone; try done.
    + intros j t' Hj. by apply (Ht j t').
    + unfold tab_agrees. simpl. split; [done|].
      destruct (base (Net.server s) ses) as [b|] eqn:E; [|done]. destruct (Hb _ _ E). split; [lia|]. lia.
  - destruct (Net.tabs s !! i) as [t|] eqn:E; [|done]. intros [= <-].
    split; simpl; [done| |by eapply Hlate|done].
    intros j t' Hj. apply lookup_delete_Some in Hj as [_ Hj]. by apply (Ht j t').
  - destruct (Net.tabs s !! i) as [t|] eqn:E; [|done]. cbn [mbind option_bind].
    destruct (Ht i t E) as [Hses Hag]. unfold tab_agrees in Hag.
    destruct (Net.at_ t) as [| |]; try done. intros [= <-]. apply Hone; try done.
    + intros j t' Hj. by apply (Ht j t').
    + unfold tab_agrees. simpl. split; [done|]. destruct fresh; [|done].
      split; [done|]. destruct (base (Net.server s) (Net.session t)) as [b|] eqn:E0; [|done].
      destruct (Hb _ _ E0). split; lia.
  - destruct (Net.tabs s !! i) as [t|] eqn:E; [|done]. cbn [mbind option_bind].
    destruct (Ht i t E) as [Hses Hag]. unfold tab_agrees in Hag.
    destruct (Net.at_ t) as [|q from|] eqn:Ea; try done.
    destruct (Net.serve s (Net.session t) q from rows) as [a srv] eqn:Es. intros [= <-].
    destruct (served_tabs n s _ _ _ _ _ _ Hi Hses Hok Hn0 Hn Es) as (H1 & H2 & H3).
    pose proof (serve_inv n s (Net.session t) q from rows Hi Hses Hok Hn0 Hn) as H.
    rewrite Es in H. destruct H as (_ & _ & b' & Hb' & _ & _ & _ & Hrec).
    destruct Hag as [Hfrom Hag].
    apply Hone; try done.
    unfold tab_agrees. cbn [Net.at_ Net.session Net.list_held Net.epoch]. rewrite Hb'. by apply Hrec.
  - destruct (Net.tabs s !! i) as [t|] eqn:E; [|done]. cbn [mbind option_bind].
    destruct (Ht i t E) as [Hses Hag]. unfold tab_agrees in Hag.
    destruct (Net.at_ t) as [| |a]; try done.
    destruct (Net.receive a (Net.list_held t) (Net.epoch t)) as [h e]. intros [= <-].
    apply Hone; try done. intros j t' Hj. by apply (Ht j t').
  - destruct (Net.tabs s !! i) as [t|] eqn:E; [|done]. cbn [mbind option_bind].
    destruct (Ht i t E) as [Hses _]. intros Hst.
    assert (s' = Net.mkstate (<[i := Net.mktab (Net.session t) (Net.list_held t) 0 Net.Idle]> (Net.tabs s))
              (Net.server s) (Net.late s ++ Net.late_of t)) as -> by (destruct (Net.at_ t); congruence).
    apply Hone; try done; [by eapply Hlate| |].
    + intros j t' Hj. by apply (Ht j t').
    + unfold tab_agrees. simpl. split; [done|].
      destruct (base (Net.server s) (Net.session t)) as [b|] eqn:E0; [|done].
      destruct (Hb _ _ E0). split; lia.
  - destruct (Net.late s !! k) as [[[ses q] from]|] eqn:E; [|done]. cbn [mbind option_bind].
    intros [= <-]. assert (Hses : ses ∈ known) by (eapply Hl; by eapply list_elem_of_lookup_2).
    destruct (Net.serve s ses q from rows) as [a srv] eqn:Es.
    destruct (served_tabs n s _ _ _ _ _ _ Hi Hses Hok Hn0 Hn Es) as (H1 & H2 & H3).
    split; simpl; [done| | |done].
    + intros j t Hj. split; [by apply (Ht j t)|by eapply H1].
    + intros ses' q' from' Hin. eapply Hl. by eapply sublist_subseteq; [apply sublist_delete|].
Qed.

Lemma net_start : net_inv 0 (Net.start (question := question)) \/ (length known > Server.MAX_BASELINES)%nat.
Proof.
  destruct (decide (length known <= Server.MAX_BASELINES)%nat); [left|right; lia].
  split; simpl.
  - split_and!; [apply nil_ok|done|]. by intros k [].
  - done.
  - intros ses q from Hin. by apply elem_of_nil in Hin.
  - done.
Qed.

Lemma net_steps es n s s' :
  net_inv n s -> 0 <= n -> n + Z.of_nat (length es) < 2 ^ 64 -> Forall (Net.event_ok known) es ->
  Net.steps s es = Some s' -> net_inv (n + Z.of_nat (length es)) s'.
Proof.
  unfold Net.steps. revert n s. induction es as [|e es IH]; intros n s Hi Hn0 Hn Hok; cbn [foldl].
  - intros [= <-]. by rewrite Z.add_0_r.
  - apply Forall_cons in Hok as [He Hok]. cbn [mbind option_bind]. cbn [length] in *.
    destruct (Net.step s e) as [s1|] eqn:E.
    + intros Hs. replace (n + Z.of_nat (S (length es))) with (n + 1 + Z.of_nat (length es)) by lia.
      apply (IH (n + 1) s1); [eapply net_step; eauto; lia|lia|lia|done|done].
    + intros H. exfalso. clear IH Hok Hn. revert H. induction es as [|e' es IH]; [done|exact IH].
Qed.
End protocol.

(** ** The interface receives as [Net] says *)

Section properties.

(** Claim C1.  While no more than [MAX_BASELINES], four, sessions poll, so that the
    server forgets the list of none, and fewer than [2 ^ 64] events have happened:
    whatever is lost, late or reordered, and however many tabs share a session, a
    tab that waits for nothing and holds the number the server last gave its
    session holds every torrent the server remembers sending, no other, and of
    each every field with the value sent; a difference is never folded into the
    wrong list.  With a fifth session this fails ([number_given_twice]). *)
Theorem tabs_hold_what_was_sent {question} `{EqDecision question} (known : list string)
    (es : list (Net.event question)) s i t b :
  (length known <= Server.MAX_BASELINES)%nat -> Z.of_nat (length es) < 2 ^ 64 ->
  Forall (Net.event_ok known) es -> Net.steps Net.start es = Some s ->
  Net.tabs s !! i = Some t -> Net.at_ t = Net.Idle -> 0 < Net.epoch t ->
  base (Net.server s) (Net.session t) = Some b -> Net.epoch t = Server.bepoch b ->
  exists l, Net.list_held t = Some l /\ covers l (Server.torrents b).
Proof.
  intros Hk Hlen Hok Hs Hi Ha He Hb Heq.
  destruct (net_start (question := question) known) as [H0|]; [|lia].
  pose proof (net_steps known es 0 _ _ H0 ltac:(lia) ltac:(lia) Hok Hs) as [_ Ht _ _].
  destruct (Ht i t Hi) as [_ Hag]. unfold tab_agrees in Hag. rewrite Ha, Hb in Hag.
  destruct Hag as [_ [_ Hag]]. by apply Hag.
Qed.

(** [onUpdate] is that receiver: in every reachable state, what the
    interface holds after an answer, and the number it will send back, are the
    ones of the protocol; a chained question can only reset the number. *)
Theorem onUpdate_receives fields w i a :
  Screen.reachable fields empty_grid w ->
  (forall o, UI.torrents (Net.as_answer a) = Some o -> obj_ok o) ->
  let '(s', _, _) := UI.onUpdate fields i (Net.as_answer a) (Loop.ui w) in
  let '(h, e) := Net.receive a (held (UI.grid (Loop.ui w))) (UI.epoch (Loop.ui w)) in
  held (UI.grid s') = h /\ (UI.epoch s' = e \/ UI.epoch s' = 0).
Proof.
  intros Hr Hok. destruct (reachable_grid fields w Hr) as [own Hg].
  pose proof (onUpdate_grid fields i (Net.as_answer a) (Loop.ui w) own Hg Hok) as H.
  destruct (UI.onUpdate fields i (Net.as_answer a) (Loop.ui w)) as [[s' os] threw].
  destruct H as [_ H]. destruct (H ltac:(by destruct a)) as (H1 & H2 & _).
  unfold Net.receive. unfold listed, numbered in *.
  destruct (UI.delta (Net.as_answer a)); [|done].
  destruct (held (UI.grid (Loop.ui w))); [done|]. split; [done|]. simpl in H2. tauto.
Qed.

(** A torrent that loses a field is sent whole so that the field goes;
    the interface folds it in like any other difference, so the field stays,
    with its old value. *)
Theorem lost_field_stays before now held t was fields h k v :
  rows_ok before -> rows_ok now ->
  oget t before = Some was -> oget t now = Some fields -> oget t held = Some h ->
  oget k was = Some v -> oget k fields = None -> oget k h = Some v ->
  let '(changed, removed) := Server.changes_between before now in
  oget t changed = Some fields /\
  exists h', oget t (merge_spec held changed removed) = Some h' /\ oget k h' = Some v.
Proof.
  intros Hrb Hrn Eb En Eh Hk Hf Hh.
  pose proof (changes_get before now t (proj1 Hrb) (proj1 Hrn)) as Hg.
  pose proof (removed_elem before now t) as Hr.
  pose proof (changes_ok before now Hrn) as Hok.
  destruct (Server.changes_between before now) as [ch rm]. cbn [fst snd] in *.
  assert (Hl : loses was fields = true).
  { unfold loses. apply existsb_exists. exists k. split.
    - apply list_elem_of_In, oget_is_Some. by exists v.
    - rewrite Hf. by rewrite bool_decide_eq_false_2 by (by intros []). }
  rewrite En, Eb, Hl in Hg. split; [done|].
  rewrite merge_spec_get, Hg by done. cbv zeta.
  rewrite decide_False by (rewrite Hr, En; by intros [_ ?]). rewrite Eh.
  eexists. split; [done|]. rewrite apply_get by (by apply (proj2 Hrn t)). by rewrite Hf.
Qed.

(** *** A number given twice *)

(** Two tabs of one session, and four other sessions. *)
Definition list1 : obj object := [("t1", [("name", PStr "first")])].
Definition list2 : obj object := [("t2", [("name", PStr "second")])].
Definition poll (i : nat) (l : obj object) : list (Net.event nat) :=
  [Net.Ask i 0%nat false; Net.Serve i l; Net.Deliver i].
Definition trace : list (Net.event nat) :=
  [Net.Open 0 "A"; Net.Open 1 "A"; Net.Open 2 "B"; Net.Open 3 "C"; Net.Open 4 "D"; Net.Open 5 "E"]
  ++ poll 0 list1 ++ poll 2 list1 ++ poll 3 list1 ++ poll 4 list1 ++ poll 5 list1
  ++ poll 1 list2 ++ poll 0 list2.

(** With a fifth session the promise breaks.  The server forgets the
    session that was quiet longest and starts its numbers again at one, so a
    tab that still holds one from before is sent a difference against a list
    it has never seen: it ends holding the number the server last gave, and a
    torrent that is not there instead of the one that is. *)
Theorem number_given_twice :
  exists s t b, Net.steps Net.start trace = Some s /\ Net.tabs s !! 0%nat = Some t /\
    Net.at_ t = Net.Idle /\ base (Net.server s) "A" = Some b /\
    Net.epoch t = Server.bepoch b /\ Net.list_held t = Some list1 /\ Server.torrents b = list2 /\
    ~ covers list1 list2.
Proof.
  destruct (Net.steps Net.start trace) as [s|] eqn:E; [|by vm_compute in E].
  destruct (Net.tabs s !! 0%nat) as [t|] eqn:Et; [|by vm_compute in E; injection E as <-; vm_compute in Et].
  destruct (base (Net.server s) "A") as [b|] eqn:Eb; [|by vm_compute in E; injection E as <-; vm_compute in Eb].
  vm_compute in E. injection E as <-. vm_compute in Et, Eb. injection Et as <-. injection Eb as <-.
  eexists _, _, _. split_and!; try reflexivity.
  intros H. specialize (H "t1"). done.
Qed.
End properties.

(** ** The properties at concrete inputs *)

(** One session, two tabs, three polls. *)
Definition small_trace : list (Net.event nat) :=
  [Net.Open 0 "A"; Net.Open 1 "A"] ++ poll 0 list1 ++ poll 0 list2.
Definition small_net : Net.state nat := default Net.start (Net.steps Net.start small_trace).

Lemma tabs_hold_what_was_sent_witness :
  exists l, Net.list_held (Net.mktab "A" (Some list2) 2 (Net.Idle (question := nat))) = Some l /\ covers l list2.
Proof.
  refine (tabs_hold_what_was_sent ["A"] small_trace small_net 0 _ (Server.mkbase 2 0%nat list2)
            _ _ _ _ _ _ _ _ _); try (by vm_compute).
  - simpl. unfold Server.MAX_BASELINES. lia.
  - repeat constructor; simpl; try set_solver; try (by apply NoDup_singleton);
      intros t o; case_decide; simplify_eq/=; intros; simplify_eq; apply NoDup_singleton.
Defined.

Lemma onUpdate_receives_witness :
  let a := Server.Whole (Some [("aa", Some [("name", PStr "first")])]) (Some 1) in
  let '(s', _, _) := UI.onUpdate [] sample_inputs (Net.as_answer a) (Loop.ui polling) in
  held (UI.grid s') = Some [("aa", [("name", PStr "first")])] /\
  (UI.epoch s' = 1 \/ UI.epoch s' = 0).
Proof.
  apply (onUpdate_receives [] polling sample_inputs
           (Server.Whole (Some [("aa", Some [("name", PStr "first")])]) (Some 1))).
  - apply polling_reachable.
  - intros o [= <-]. apply (bool_decide_unpack (NoDup _)). by vm_compute.
Defined.

Lemma lost_field_stays_witness :
  let before := [("t", [("label", PStr "x")])] in
  let now := [("t", [("name", PStr "n")])] in
  let '(changed, removed) := Server.changes_between before now in
  oget "t" changed = Some [("name", PStr "n")] /\
  exists h', oget "t" (merge_spec before changed removed) = Some h' /\ oget "label" h' = Some (PStr "x").
Proof.
  apply (lost_field_stays [("t", [("label", PStr "x")])] [("t", [("name", PStr "n")])]
           [("t", [("label", PStr "x")])] "t" [("label", PStr "x")] [("name", PStr "n")] [("label", PStr "x")]
           "label" (PStr "x")); try done;
    (split; [apply (bool_decide_unpack (NoDup _)); by vm_compute|];
     intros t o; simpl; destruct (decide (t = "t")); [|done]; intros [= <-];
     apply (bool_decide_unpack (NoDup _)); by vm_compute).
Defined.
