(* ===== verification/GridColumns.v ===== *)
(** * The columns of the torrent list: Deluge.Keys and the renderers

    [Keys] holds the keys a poll may ask for and [forGrid], which picks the
    ones the columns on screen are drawn from; [Columns] the renderers, the
    columns, the fields the list sorts by, and a cell as the view draws it. *)

From stdpp Require Import base list strings sorting.
From Stdlib Require Import Lia ZArith.
From S2P Require Import Prelude JsNum JsString JsValue ExtCore Formatters SortTypes Collection Store.

Local Open Scope Z_scope.

Module Columns.

(** ** Renderers

    A renderer is given the value of its column's field, the style of the
    column if it has one, and the data of the record.  [None] is a
    [TypeError]. *)
Definition renderer : Type := prim -> option string -> object -> option prim.

(** [Number(v) || 0] *)
Definition number_or_0 (v : prim) : num :=
  let n := to_number v in if truthy (PNum n) then n else of_Z 0.
(** [v || ''] *)
Definition or_empty (v : prim) : prim := if truthy v then v else PStr "".
(** [v + 1] *)
Definition plus_one (v : prim) : prim :=
  match v with PStr s => PStr (s +:+ "1") | _ => PNum (num_add (to_number v) (of_Z 1)) end.

(** What a class name keeps of a state: [/[^a-z0-9_-]/g] removed. *)
Definition class_char (c : Ascii.ascii) : bool :=
  let n := code c in
  ((97 <=? n) && (n <=? 122) || (48 <=? n) && (n <=? 57) || (n =? 95) || (n =? 45))%nat.

(** The markup of a name; its double quotes are written as single ones here
    and put back by the map. *)
Definition name_tpl : string :=
  str_map (fun c => if decide (c = chr 39) then chr 34 else c)
    "<div class='torrent-name x-deluge-{0}'>{1}</div>".

Definition queueRenderer : renderer := fun value _ _ =>
  Some (if nullish value then PStr ""
        else if loose_eq value (pint (-1)) then PStr "" else plus_one value).

Definition torrentNameRenderer : renderer := fun value _ data =>
  let state := to_lower (to_str (or_empty (pget "state" data))) in
  Some (PStr (format name_tpl
          [str_filter class_char state; to_str (Fmt.htmlEncode (or_empty value))])).

Definition torrentSpeedRenderer : renderer := fun value _ _ =>
  Some (if negb (truthy value) then PUndef else PStr (Fmt.speed value false)).

Definition torrentLimitRenderer : renderer := fun value _ _ =>
  Some (PStr (if loose_eq value (pint (-1)) then ""
              else Fmt.speed (PNum (num_mul (to_number value) (of_Z 1024))) false)).

(** [fsize], [fdate], [ftime] and [fplain] used as renderers: they are given
    the view's object as second argument, which [fsize] reads as
    [showZero]. *)
Definition sizeRenderer : renderer := fun value _ _ => Some (PStr (Fmt.size value true)).
Definition timeRenderer : renderer := fun value _ _ => PStr <$> Fmt.timeRemaining value.
Definition plainRenderer : renderer := fun value _ _ => Some (Fmt.plain value).

Definition count_of (total : string) : renderer := fun value _ data =>
  let t := pget total data in
  Some (if prim_ltb (pint (-1)) t then PStr (format "{0} ({1})" [to_str value; to_str t]) else value).
Definition seedsRenderer : renderer := count_of "total_seeds".
Definition peersRenderer : renderer := count_of "total_peers".

Definition availRenderer : renderer := fun value _ _ =>
  Some (if nullish value || Fmt.isNaN value then PStr ""
        else if prim_ltb value (pint 0) then PStr "&infin;"
        else PNum (parse_float (to_fixed 3 (to_number value)))).

Definition trackerRenderer : renderer := fun value _ _ => Some (Fmt.htmlEncode (or_empty value)).

Definition timeOrInf : renderer := fun time _ _ =>
  if nullish time then Some (PStr "")
  else if strict_eq time (pint 0) then Some (PStr "")
  else if prim_leb time (pint (-1)) then Some (PStr "&infin;")
  else PStr <$> Fmt.timeRemaining time.

Definition etaSorter (eta : prim) : prim :=
  if strict_eq eta (pint 0) then PNum max_value
  else if prim_leb eta (pint (-1)) then PNum max_safe_integer
  else eta.

Section drawn.
(** The clock in seconds, the offset of local time, and [_], the
    translation of a text. *)
Variable now : num.
Variable tz : Z -> Z.
Variable tr : string -> string.

Definition dateRenderer : renderer := fun value _ _ => Some (PStr (Fmt.date tz value)).

Definition dateOrNever : renderer := fun date _ _ =>
  Some (PStr (if nullish date then ""
              else if prim_ltb (pint 0) date then Fmt.date tz date else tr "Never")).

Definition torrentProgressRenderer : renderer := fun value style data =>
  if nullish value then Some (PStr "")
  else
    let v := to_number value in
    let text := tr (to_str (or_empty (pget "state" data))) +:+ " " +:+ to_fixed 2 v +:+ "%" in
    let width := Deluge.columnWidth style (of_Z 150) in
    Some (PStr (Deluge.progressBar v (num_sub width (of_Z 8)) text None)).

(** [ftime(Math.round(t - now))] in a sentence *)
Definition until (sentence : string) (left : num) : option prim :=
  t ← Fmt.timeRemaining (PNum left); Some (PStr (format (tr sentence) [t])).

Definition idleRenderer : renderer := fun _ _ data =>
  let resumeAt := number_or_0 (pget "idle_resume_at" data) in
  let pauseAt := number_or_0 (pget "idle_pause_at" data) in
  if num_ltb now resumeAt then until "resumes in {0}" (num_round (num_sub resumeAt now))
  else if num_ltb now pauseAt then until "pauses in {0}" (num_round (num_sub pauseAt now))
  else if num_ltb (of_Z 0) pauseAt then Some (PStr (tr "idle"))
  else Some (PStr "").

Definition trackerRuleRenderer : renderer := fun _ _ data =>
  let removeAt := number_or_0 (pget "tracker_remove_at" data) in
  let moveAt := number_or_0 (pget "tracker_move_at" data) in
  if num_ltb (of_Z 0) removeAt then
    let left := num_round (num_sub removeAt now) in
    if num_ltb (of_Z 0) left then until "removed in {0}" left else Some (PStr (tr "removed shortly"))
  else if num_ltb (of_Z 0) moveAt then
    let left := num_round (num_sub moveAt now) in
    if num_ltb (of_Z 0) left then until "moved in {0}" left else Some (PStr (tr "moved shortly"))
  else Some (PStr "").

(** ** The columns *)

Record column := {
  header : string; width : Z; hidden : bool; render : renderer; dataIndex : string
}.

Definition columns : list column := [
  Build_column "#" 30 false queueRenderer "queue";
  Build_column (tr "Name") 150 false torrentNameRenderer "name";
  Build_column (tr "Size") 75 false sizeRenderer "total_wanted";
  Build_column (tr "Progress") 150 false torrentProgressRenderer "progress";
  Build_column (tr "Seeds") 60 true seedsRenderer "num_seeds";
  Build_column (tr "Peers") 60 true peersRenderer "num_peers";
  Build_column (tr "Down Speed") 80 false torrentSpeedRenderer "download_payload_rate";
  Build_column (tr "Up Speed") 80 false torrentSpeedRenderer "upload_payload_rate";
  Build_column (tr "ETA") 60 false timeOrInf "eta";
  Build_column (tr "Ratio") 60 true availRenderer "ratio";
  Build_column (tr "Avail") 60 true availRenderer "distributed_copies";
  Build_column (tr "Added") 80 true dateRenderer "time_added";
  Build_column (tr "Complete Seen") 80 true dateOrNever "last_seen_complete";
  Build_column (tr "Completed") 80 true dateOrNever "completed_time";
  Build_column (tr "Tracker") 120 true trackerRenderer "tracker_host";
  Build_column (tr "Download Folder") 120 true plainRenderer "download_location";
  Build_column (tr "Idle") 110 false idleRenderer "idle_pause_at";
  Build_column (tr "Tracker Rule") 150 false trackerRuleRenderer "tracker_remove_at";
  Build_column (tr "Label") 90 false plainRenderer "label";
  Build_column (tr "Owner") 80 false plainRenderer "owner";
  Build_column (tr "Public") 80 true plainRenderer "public";
  Build_column (tr "Shared") 80 true plainRenderer "shared";
  Build_column (tr "Downloaded") 75 true sizeRenderer "total_done";
  Build_column (tr "Uploaded") 75 true sizeRenderer "total_uploaded";
  Build_column (tr "Remaining") 75 true sizeRenderer "total_remaining";
  Build_column (tr "Down Limit") 75 true torrentLimitRenderer "max_download_speed";
  Build_column (tr "Up Limit") 75 true torrentLimitRenderer "max_upload_speed";
  Build_column (tr "Seeds:Peers") 75 true availRenderer "seeds_peers_ratio";
  Build_column (tr "Last Transfer") 75 true timeRenderer "time_since_transfer"
].
End drawn.

(** The fields of the list's store: [meta.fields]. *)
Definition conf (n : string) (t : option string) (s : option (prim -> prim)) : Field.config :=
  {| Field.fname := n; Field.ftypename := t; Field.fsort := s |}.
Definition fields : list Field.field := Field.create <$> [
  conf "queue" None (Some DelugeSort.asQueuePosition);
  conf "name" None (Some DelugeSort.asName);
  conf "total_wanted" (Some "int") None;
  conf "state" None None;
  conf "progress" (Some "float") None;
  conf "num_seeds" (Some "int") None;
  conf "total_seeds" (Some "int") None;
  conf "num_peers" (Some "int") None;
  conf "total_peers" (Some "int") None;
  conf "download_payload_rate" (Some "int") None;
  conf "upload_payload_rate" (Some "int") None;
  conf "eta" (Some "int") (Some etaSorter);
  conf "ratio" (Some "float") None;
  conf "distributed_copies" (Some "float") None;
  conf "time_added" (Some "int") None;
  conf "last_seen_complete" (Some "int") None;
  conf "completed_time" (Some "int") None;
  conf "tracker_host" None None;
  conf "download_location" None None;
  conf "total_done" (Some "int") None;
  conf "total_uploaded" (Some "int") None;
  conf "total_remaining" (Some "int") None;
  conf "max_download_speed" (Some "int") None;
  conf "max_upload_speed" (Some "int") None;
  conf "seeds_peers_ratio" (Some "float") None;
  conf "time_since_transfer" (Some "int") None;
  conf "label" None None;
  conf "owner" None None;
  conf "idle_since" (Some "float") None;
  conf "idle_pause_at" (Some "float") None;
  conf "idle_resume_at" (Some "float") None;
  conf "tracker_move_at" (Some "float") None;
  conf "tracker_remove_at" (Some "float") None;
  conf "space_paused" (Some "bool") None
].

(** A cell as the view draws it: nothing is a space that does not break. *)
Definition cell (c : column) (style : option string) (data : object) : option prim :=
  v ← render c (pget (dataIndex c) data) style data;
  Some (match v with
        | PUndef => PStr "&#160;"
        | PStr s => if decide (s = "") then PStr "&#160;" else v
        | _ => v
        end).

End Columns.

Module Keys.

Definition Grid : list string := [
  "queue"; "name"; "total_wanted"; "state"; "progress"; "num_seeds"; "total_seeds"; "num_peers";
  "total_peers"; "download_payload_rate"; "upload_payload_rate"; "eta"; "ratio";
  "distributed_copies"; "is_auto_managed"; "time_added"; "tracker_host"; "download_location";
  "last_seen_complete"; "total_done"; "total_uploaded"; "max_download_speed"; "max_upload_speed";
  "seeds_peers_ratio"; "total_remaining"; "completed_time"; "time_since_transfer"; "label"; "owner";
  "idle_since"; "idle_pause_at"; "idle_resume_at"; "space_paused"; "tracker_move_at";
  "tracker_remove_at"
].

(** With the keys of [Grid] pushed behind its own. *)
Definition Status : list string := [
  "total_done"; "total_payload_download"; "total_uploaded"; "total_payload_upload"; "next_announce";
  "tracker_status"; "num_pieces"; "piece_length"; "is_auto_managed"; "active_time"; "seeding_time";
  "time_since_transfer"; "seed_rank"; "last_seen_complete"; "completed_time"; "owner"; "public";
  "shared"
] ++ Grid.

Definition Files : list string := ["files"; "file_progress"; "file_priorities"].
Definition Peers : list string := ["peers"].
Definition Details : list string :=
  ["name"; "download_location"; "total_size"; "num_files"; "message"; "tracker_host"; "comment";
   "creator"].
Definition Options : list string :=
  ["max_download_speed"; "max_upload_speed"; "max_connections"; "max_upload_slots";
   "is_auto_managed"; "stop_at_ratio"; "stop_ratio"; "remove_at_ratio"; "private";
   "prioritize_first_last"; "move_completed"; "move_completed_path"; "super_seeding"; "label";
   "idle_since"; "idle_pause_at"; "idle_resume_at"; "space_paused"].

(** What a column needs beyond its own key, and what is needed whatever is
    shown. *)
Definition AlsoNeeded : obj (list string) :=
  [("num_seeds", ["total_seeds"]); ("num_peers", ["total_peers"]);
   ("idle_pause_at", ["idle_resume_at"]); ("tracker_remove_at", ["tracker_move_at"])].
Definition Always : list string := ["state"; "label"; "queue"; "idle_resume_at"; "space_paused"].

(** The inner [want] of [forGrid]; [wanted] is its object. *)
Definition want (wanted : obj bool) (key : string) : obj bool :=
  if negb (bool_decide (key = "")) && bool_decide (key ∈ Grid) then oset key true wanted else wanted.
Definition want_all (wanted : obj bool) (keys : list string) : obj bool :=
  Ext.each keys (fun w key _ => (want w key, true)) wanted.

(** [keys.sort()]: by code units. *)
Definition sort_keys (l : list string) : list string := MC.isort (fun a b => negb (str_ltb b a)) l.

(** [forGrid], given the columns if the grid has a column model, and the
    field and direction the store is sorted by, if it is. *)
Definition forGrid (model : option (list Columns.column)) (sorted : option (string * string))
    : list string :=
  match model with
  | None => Grid
  | Some config =>
      let wanted := want_all [] Always in
      let wanted :=
        Ext.each config (fun w column _ =>
          if Columns.hidden column then (w, true)
          else
            let w := want w (Columns.dataIndex column) in
            (want_all w (default [] (oget (Columns.dataIndex column) AlsoNeeded)), true)) wanted in
      let wanted := match sorted with Some (field, _) => want wanted field | None => wanted end in
      sort_keys (okeys wanted)
  end.

End Keys.

(** ** Which keys are asked for *)

Definition wanted_key (k : string) : Prop := k <> "" /\ k ∈ Keys.Grid.

Lemma want_get w key k :
  is_Some (oget k (Keys.want w key)) <-> is_Some (oget k w) \/ (k = key /\ wanted_key key).
Proof.
  unfold Keys.want, wanted_key. case_bool_decide as H1; case_bool_decide as H2; cbn [negb andb];
    rewrite ?oget_oset; repeat case_decide; naive_solver.
Qed.

Lemma want_all_get w keys k :
  is_Some (oget k (Keys.want_all w keys)) <-> is_Some (oget k w) \/ (k ∈ keys /\ wanted_key k).
Proof.
  unfold Keys.want_all. rewrite (each_fold Keys.want). revert w.
  induction keys as [|key keys IH]; intros w; cbn [foldl].
  - rewrite elem_of_nil. naive_solver.
  - rewrite IH, want_get, elem_of_cons. naive_solver.
Qed.

(** The keys a visible column is drawn from. *)
Definition drawn_from (c : Columns.column) : list string :=
  Columns.dataIndex c :: default [] (oget (Columns.dataIndex c) Keys.AlsoNeeded).

Definition want_column (w : obj bool) (c : Columns.column) : obj bool :=
  if Columns.hidden c then w
  else Keys.want_all (Keys.want w (Columns.dataIndex c))
         (default [] (oget (Columns.dataIndex c) Keys.AlsoNeeded)).

Lemma want_columns_get config w k :
  is_Some (oget k (foldl want_column w config)) <->
  is_Some (oget k w) \/
  ((exists c, c ∈ config /\ Columns.hidden c = false /\ k ∈ drawn_from c) /\ wanted_key k).
Proof.
  revert w. induction config as [|c config IH]; intros w; cbn [foldl].
  - split; [by left|]. intros [|[(c & Hc & _) _]]; [done|by apply elem_of_nil in Hc].
  - rewrite IH. unfold want_column at 1. setoid_rewrite elem_of_cons.
    destruct (Columns.hidden c) eqn:E.
    + naive_solver congruence.
    + rewrite want_all_get, want_get. naive_solver.
Qed.

Lemma forGrid_columns config sorted :
  Keys.forGrid (Some config) sorted =
  Keys.sort_keys (okeys
    (let w := foldl want_column (Keys.want_all [] Keys.Always) config in
     match sorted with Some (f, _) => Keys.want w f | None => w end)).
Proof.
  unfold Keys.forGrid. cbv zeta. rewrite (each_fold_ext _ want_column); [done|].
  intros w c _. unfold want_column. by destruct (Columns.hidden c).
Qed.

Lemma sort_keys_perm l : Keys.sort_keys l ≡ₚ l.
Proof. apply isort_perm. Qed.

Lemma sort_keys_sorted l : StronglySorted (fun a b => negb (str_ltb b a) = true) (Keys.sort_keys l).
Proof.
  apply isort_sorted; intros.
  - destruct (str_leb_total a b); auto.
  - by eapply str_leb_trans.
Qed.

(** Two lists of the same keys sort alike. *)
Lemma sort_keys_unique l l' : l ≡ₚ l' -> Keys.sort_keys l = Keys.sort_keys l'.
Proof.
  intros Hp. apply (StronglySorted_unique_strong (fun a b => negb (str_ltb b a) = true)).
  - intros s t _ _. apply str_leb_antisym.
  - apply sort_keys_sorted.
  - apply sort_keys_sorted.
  - by rewrite !sort_keys_perm.
Qed.

(** A key is asked for when it is one of the grid's, and is always needed,
    drawn by a visible column, or sorted by. *)
Lemma forGrid_elem config sorted k :
  k ∈ Keys.forGrid (Some config) sorted <->
  wanted_key k /\
  (k ∈ Keys.Always \/ (exists c, c ∈ config /\ Columns.hidden c = false /\ k ∈ drawn_from c) \/
   (exists d, sorted = Some (k, d))).
Proof.
  rewrite forGrid_columns, sort_keys_perm, okeys_elem. cbv zeta.
  destruct sorted as [[f d]|]; rewrite ?want_get, want_columns_get, want_all_get.
  - split.
    + intros [[[[? ?]|[]]|[H ?]]|[-> ?]]; [done|split; auto|split; auto|split; eauto].
    + intros [? [?|[?|[? [= ->]]]]]; auto.
  - split.
    + intros [[[? ?]|[]]|[H ?]]; [done|split; auto|split; auto].
    + intros [? [?|[?|[? [=]]]]]; auto.
Qed.

Lemma want_ok w k : obj_ok w -> obj_ok (Keys.want w k).
Proof. intros. unfold Keys.want. destruct (_ && _); [by apply oset_ok|done]. Qed.

Lemma want_all_ok w keys : obj_ok w -> obj_ok (Keys.want_all w keys).
Proof.
  unfold Keys.want_all. rewrite (each_fold Keys.want). revert w.
  induction keys as [|k keys IH]; intros w Hw; simpl; [done|]. by apply IH, want_ok.
Qed.

Lemma want_columns_ok config w : obj_ok w -> obj_ok (foldl want_column w config).
Proof.
  revert w. induction config as [|c config IH]; intros w Hw; simpl; [done|]. apply IH.
  unfold want_column. destruct (Columns.hidden c); [done|]. by apply want_all_ok, want_ok.
Qed.

Lemma forGrid_nodup config sorted : NoDup (Keys.forGrid (Some config) sorted).
Proof.
  rewrite forGrid_columns, sort_keys_perm. apply okeys_NoDup. cbv zeta.
  destruct sorted as [[f d]|];
    repeat first [apply want_ok | apply want_columns_ok | apply want_all_ok | apply nil_ok].
Qed.

(** ** Properties *)

(** A column of a layout is one of the grid's, wherever it was moved and
    whether or not it is shown. *)
Definition layout_of (base config : list Columns.column) : Prop :=
  forall c, c ∈ config -> exists c0, c0 ∈ base /\
    Columns.dataIndex c = Columns.dataIndex c0 /\ Columns.render c = Columns.render c0.

(** The two columns whose field no poll asks for. *)
Definition orphan (key : string) : bool := bool_decide (key ∈ ["public"; "shared"]).

Section properties.
Variable now : num.
Variable tz : Z -> Z.
Variable tr : string -> string.
Notation columns := (Columns.columns now tz tr).

(** The fields of the data a renderer reads beyond the value. *)
Definition reads_also (key : string) : list string :=
  default [] (oget key [("name", ["state"]); ("progress", ["state"]); ("num_seeds", ["total_seeds"]);
    ("num_peers", ["total_peers"]); ("idle_pause_at", ["idle_resume_at"; "idle_pause_at"]);
    ("tracker_remove_at", ["tracker_remove_at"; "tracker_move_at"])]).

Definition reads_ok (c : Columns.column) : Prop := forall v style d d',
  (forall k, k ∈ reads_also (Columns.dataIndex c) -> pget k d = pget k d') ->
  Columns.render c v style d = Columns.render c v style d'.

Ltac reads H :=
  unfold Columns.queueRenderer, Columns.torrentNameRenderer, Columns.sizeRenderer,
    Columns.torrentProgressRenderer, Columns.seedsRenderer, Columns.peersRenderer, Columns.count_of,
    Columns.torrentSpeedRenderer, Columns.timeOrInf, Columns.availRenderer, Columns.dateRenderer,
    Columns.dateOrNever, Columns.trackerRenderer, Columns.plainRenderer, Columns.idleRenderer,
    Columns.trackerRuleRenderer, Columns.torrentLimitRenderer, Columns.timeRenderer;
  repeat match goal with
    | |- context [pget ?k ?d] =>
        lazymatch type of H with
        | forall k, _ -> pget k d = _ => rewrite (H k) by (vm_compute; repeat constructor)
        end
    end; reflexivity.

Lemma render_reads : Forall reads_ok columns.
Proof.
  unfold Columns.columns.
  repeat (apply Forall_cons_2; [intros v style d d' H; cbn [Columns.render Columns.dataIndex] in *; reads H|]).
  apply Forall_nil_2.
Qed.

(** The tables [AlsoNeeded] and [Always] against what the renderers read. *)
Definition covered (key : string) : bool :=
  orphan key ||
  forallb (fun k => negb (bool_decide (k = "")) && bool_decide (k ∈ Keys.Grid) &&
      (bool_decide (k ∈ Keys.Always) || bool_decide (k ∈ key :: default [] (oget key Keys.AlsoNeeded))))
    (key :: reads_also key).

Lemma columns_covered c : c ∈ columns -> covered (Columns.dataIndex c) = true.
Proof.
  intros Hc. assert (H : forallb covered (Columns.dataIndex <$> columns) = true) by by vm_compute.
  rewrite forallb_forall in H. apply H, list_elem_of_In. by apply list_elem_of_fmap_2.
Qed.

Lemma covered_asked config sorted c k :
  c ∈ config -> Columns.hidden c = false -> covered (Columns.dataIndex c) = true ->
  orphan (Columns.dataIndex c) = false -> k ∈ Columns.dataIndex c :: reads_also (Columns.dataIndex c) ->
  k ∈ Keys.forGrid (Some config) sorted.
Proof.
  intros Hc Hh Hcov Ho Hk. unfold covered in Hcov. rewrite Ho in Hcov. cbn [orb] in Hcov.
  rewrite forallb_forall in Hcov. specialize (Hcov k (proj1 (list_elem_of_In _ _) Hk)).
  rewrite !andb_true_iff, orb_true_iff, negb_true_iff, bool_decide_eq_false, !bool_decide_eq_true in Hcov.
  destruct Hcov as [[H1 H2] H3]. apply forGrid_elem. split; [done|].
  destruct H3 as [H3|H3]; [by left|]. right; left. by exists c.
Qed.

Lemma plain_columns :
  Forall (fun c => (Columns.dataIndex c ∈ ["label"; "owner"; "download_location"] ->
                    Columns.render c = Columns.plainRenderer) /\
                   (Columns.dataIndex c = "tracker_host" -> Columns.render c = Columns.trackerRenderer)) columns.
Proof.
  unfold Columns.columns.
  repeat (apply Forall_cons_2; [cbn [Columns.render Columns.dataIndex]; split; intros H;
    first [reflexivity | exfalso; apply (bool_decide_pack _) in H; vm_compute in H; exact H]|]).
  apply Forall_nil_2.
Qed.

(** Claim C24.  A column left as wide, hidden or moved as anybody likes is drawn
    from what is asked for: two records that agree on the keys of the poll
    have the same cell in every column shown, the columns "Public" and
    "Shared" apart; and the field the list is sorted by is asked for even when
    its column is hidden. *)
Theorem shown_cells_are_asked config sorted c style d d' :
  layout_of columns config -> c ∈ config -> Columns.hidden c = false ->
  orphan (Columns.dataIndex c) = false ->
  (forall k, k ∈ Keys.forGrid (Some config) sorted -> pget k d = pget k d') ->
  Columns.cell c style d = Columns.cell c style d' /\
  (forall f dir, sorted = Some (f, dir) -> f <> "" -> f ∈ Keys.Grid -> pget f d = pget f d').
Proof.
  intros Hl Hc Hh Ho Hd. split.
  - destruct (Hl c Hc) as (c0 & Hc0 & Ei & Er).
    assert (Hk : forall k, k ∈ Columns.dataIndex c :: reads_also (Columns.dataIndex c) -> pget k d = pget k d').
    { intros k Hk. apply Hd. eapply covered_asked; eauto. rewrite Ei. by apply columns_covered. }
    unfold Columns.cell. rewrite (Hk (Columns.dataIndex c)) by by left. rewrite Er.
    pose proof (proj1 (Forall_forall _ _) render_reads c0 Hc0) as Hr. rewrite <- (Hr _ style d d'); [done|].
    intros k Hk'. rewrite <- Ei in Hk'. apply Hk. by right.
  - intros f dir -> Hne Hf. apply Hd, forGrid_elem. split; [done|]. right; right. by exists dir.
Qed.

(** Asking is asking the same question: the keys of a poll are sorted and
    never repeated, are keys the grid knows, and depend only on which fields
    are shown and which one is sorted by, not on the order of the columns nor
    on how the layout came about. *)
Theorem keys_canonical config config' sorted :
  (forall k, (exists c, c ∈ config /\ Columns.hidden c = false /\ Columns.dataIndex c = k) <->
             (exists c, c ∈ config' /\ Columns.hidden c = false /\ Columns.dataIndex c = k)) ->
  Keys.forGrid (Some config) sorted = Keys.forGrid (Some config') sorted /\
  NoDup (Keys.forGrid (Some config) sorted) /\
  Keys.forGrid (Some config) sorted ⊆ Keys.Grid.
Proof.
  intros Hs. split_and!; [|apply forGrid_nodup|by intros k [[_ ?] _]%forGrid_elem].
  assert (Hp : Keys.forGrid (Some config) sorted ≡ₚ Keys.forGrid (Some config') sorted).
  { apply NoDup_Permutation; [apply forGrid_nodup..|]. intros k. rewrite !forGrid_elem.
    assert (E : forall cs : list Columns.column, (exists c, c ∈ cs /\ Columns.hidden c = false /\ k ∈ drawn_from c) <->
              (exists key, k ∈ key :: default [] (oget key Keys.AlsoNeeded) /\
                exists c, c ∈ cs /\ Columns.hidden c = false /\ Columns.dataIndex c = key)).
    { intros cs. unfold drawn_from. split; [intros (c & ? & ? & ?)|intros (? & ? & c & ? & ? & <-)]; eauto 8. }
    rewrite !E. setoid_rewrite Hs. done. }
  rewrite !forGrid_columns in *. apply sort_keys_unique. by rewrite !sort_keys_perm in Hp.
Qed.

(** The columns "Public" and "Shared" are always blank: their fields are not
    among the keys a poll may ask for, whatever is shown or sorted by, and
    their headers, though sortable, do not sort. *)
Theorem public_and_shared_never_asked config sorted st dir :
  ("public" ∈ Columns.dataIndex <$> columns /\ "shared" ∈ Columns.dataIndex <$> columns) /\
  ("public" ∉ Keys.forGrid config sorted /\ "shared" ∉ Keys.forGrid config sorted) /\
  Store.sort Columns.fields st "public" dir = st /\ Store.sort Columns.fields st "shared" dir = st.
Proof.
  split_and!; try done.
  1,2: by apply (bool_decide_unpack _); vm_compute.
  all: destruct config as [config|];
    [rewrite forGrid_elem; intros [[_ H] _]|intros H]; apply (bool_decide_pack _) in H; by vm_compute in H.
Qed.

(** A size that has not arrived yet is drawn as "NaN GiB" rather than as
    nothing: the view's object is read as [showZero]. *)
Theorem missing_size_is_nan style :
  Columns.cell (Columns.Build_column (tr "Downloaded") 75 false Columns.sizeRenderer "total_done") style []
  = Some (PStr "NaN GiB").
Proof. by vm_compute. Qed.

(** A name's tracker is drawn as text whatever it holds; a label, an owner and
    a folder are drawn as markup, character for character. *)
Theorem label_is_markup style d s :
  s <> "" ->
  (forall c, c ∈ columns -> Columns.dataIndex c ∈ ["label"; "owner"; "download_location"] ->
     Columns.cell c style (oset (Columns.dataIndex c) (PStr s) d) = Some (PStr s)) /\
  (forall c, c ∈ columns -> Columns.dataIndex c = "tracker_host" ->
     exists t, Columns.cell c style (oset (Columns.dataIndex c) (PStr s) d) = Some (PStr t) /\
       str_all (fun c => negb (is_markup c)) t = true).
Proof.
  intros Hs.
  assert (Ht : truthy (PStr s) = true) by (simpl; by rewrite bool_decide_eq_false_2).
  split; intros c Hc Hi; pose proof (proj1 (Forall_forall _ _) plain_columns c Hc) as [H1 H2];
    unfold Columns.cell, pget; rewrite oget_oset_eq.
  - rewrite H1 by done. unfold Columns.plainRenderer, Fmt.plain. cbn. by case_decide.
  - rewrite H2 by done. unfold Columns.trackerRenderer, Columns.or_empty, Fmt.htmlEncode.
    unfold Datatypes.id. cbn [default]. rewrite !Ht. cbn [mbind option_bind to_str].
    exists (Fmt.html_text s). split.
    + case_decide as H; [|done]. exfalso. apply Hs. by apply html_text_inj.
    + apply str_flat_map_all. intros x.
      by apply (all_chars_spec (fun c => str_all (fun c => negb (is_markup c)) (Fmt.htmlEncodeReplaceFn c))).
Qed.
End properties.

(** ** What the list is sorted by *)

(** Where a torrent stands in the queue, one that is not queued behind all. *)
Definition queue_rank (q : Z) : Z := if (q =? -1) then 2 ^ 53 else q.
(** A known time, then the infinite ones, then those that are done. *)
Definition eta_rank (t : Z) : Z := if (t =? 0) then 2 ^ 53 else if (t <=? -1) then 2 ^ 53 - 1 else t.

Lemma compare_num (x y : num) :
  Store.compare_by (fun v => v) (PNum x) (PNum y) =
  if num_ltb y x then 1 else if num_ltb x y then -1 else 0.
Proof. done. Qed.

Lemma queue_compare a b :
  safe a -> safe b -> -1 <= a -> -1 <= b ->
  sign_of (Store.compare_by DelugeSort.asQueuePosition (pint a) (pint b)) (queue_rank a) (queue_rank b).
Proof.
  intros Ha Hb Ha1 Hb1. unfold Store.compare_by, DelugeSort.asQueuePosition, queue_rank, sign_of.
  cbn [prim_ltb to_number]. rewrite !ltb_of_Z by (done || by vm_compute).
  destruct (ltb_max_value a Ha), (ltb_max_value b Hb). unfold safe in *.
  destruct (Z.ltb_spec (-1) a), (Z.ltb_spec (-1) b), (Z.eqb_spec a (-1)), (Z.eqb_spec b (-1)); try lia;
    cbn [prim_ltb to_number]; rewrite ?ltb_of_Z, ?num_ltb_irrefl by done;
    repeat match goal with H : num_ltb _ _ = _ |- _ => rewrite H; clear H end; try lia.
  destruct (Z.ltb_spec b a); [lia|]. destruct (Z.ltb_spec a b); lia.
Qed.

Lemma eta_compare a b :
  safe a -> safe b -> a < 2 ^ 53 - 1 -> b < 2 ^ 53 - 1 ->
  sign_of (Store.compare_by Columns.etaSorter (pint a) (pint b)) (eta_rank a) (eta_rank b).
Proof.
  intros Ha Hb Ha1 Hb1. unfold Store.compare_by, Columns.etaSorter, eta_rank, sign_of.
  cbn [strict_eq prim_leb to_number]. rewrite !eqb_of_Z, !leb_of_Z by (done || by vm_compute).
  destruct (ltb_max_value a Ha), (ltb_max_value b Hb), (ltb_max_value (2 ^ 53 - 1)) as [M1 M2]; [by vm_compute|].
  change max_safe_integer with (of_Z (2 ^ 53 - 1)). unfold safe in *.
  destruct (Z.eqb_spec a 0), (Z.eqb_spec b 0), (Z.leb_spec a (-1)), (Z.leb_spec b (-1)); try lia;
    cbn [prim_ltb to_number]; rewrite ?ltb_of_Z, ?num_ltb_irrefl by (done || by vm_compute);
    repeat match goal with H : num_ltb _ _ = _ |- _ => rewrite H; clear H end; try lia;
    repeat match goal with |- context [?x <? ?y] => destruct (Z.ltb_spec x y) end; lia.
Qed.

Definition queue_fd : Field.field := Field.Build_field "queue" Field.AUTO DelugeSort.asQueuePosition "ASC".
Definition eta_fd : Field.field := Field.Build_field "eta" Field.INT Columns.etaSorter "ASC".
Lemma queue_field : Field.get "queue" Columns.fields = Some queue_fd.
Proof. reflexivity. Qed.
Lemma eta_field : Field.get "eta" Columns.fields = Some eta_fd.
Proof. reflexivity. Qed.

(** Sorted by place, a torrent that is not queued comes after every one
    that is; sorted by the time left, the known times come first, in order,
    then the infinite ones, then the finished; and in the other direction the
    other way round.  No torrent is lost. *)
Theorem waiting_last st dir queue eta :
  store_ok st -> dir <> "" ->
  (forall r, r ∈ MC.items (items st) ->
     Rec.get st r "queue" = pint (queue r) /\ -1 <= queue r < 2 ^ 53 /\
     Rec.get st r "eta" = pint (eta r) /\ - 2 ^ 53 < eta r < 2 ^ 53 - 1) ->
  let desc := bool_decide (to_upper dir = "DESC") in
  let by_queue := MC.items (items (Store.sort Columns.fields st "queue" dir)) in
  let by_eta := MC.items (items (Store.sort Columns.fields st "eta" dir)) in
  StronglySorted (fun r1 r2 => if desc then queue_rank (queue r2) <= queue_rank (queue r1)
                               else queue_rank (queue r1) <= queue_rank (queue r2)) by_queue /\
  StronglySorted (fun r1 r2 => if desc then eta_rank (eta r2) <= eta_rank (eta r1)
                               else eta_rank (eta r1) <= eta_rank (eta r2)) by_eta /\
  by_queue ≡ₚ MC.items (items st) /\ by_eta ≡ₚ MC.items (items st).
Proof.
  intros Hs Hd Hr. cbv zeta. split_and!.
  - apply (sort_by_rank _ _ _ _ _ (fun r => queue_rank (queue r)) Hs queue_field Hd).
    intros r1 r2 H1 H2. destruct (Hr r1 H1) as (E1 & ? & _), (Hr r2 H2) as (E2 & ? & _).
    cbn [Field.name Field.sortType queue_fd]. rewrite E1, E2. apply queue_compare; unfold safe; lia.
  - apply (sort_by_rank _ _ _ _ _ (fun r => eta_rank (eta r)) Hs eta_field Hd).
    intros r1 r2 H1 H2. destruct (Hr r1 H1) as (_ & _ & E1 & ?), (Hr r2 H2) as (_ & _ & E2 & ?).
    cbn [Field.name Field.sortType eta_fd]. rewrite E1, E2. apply eta_compare; unfold safe; lia.
  - by apply sort_spec.
  - by apply sort_spec.
Qed.

(** ** The properties at concrete inputs *)

Definition shown_seeds : Columns.column :=
  Columns.Build_column "Seeds" 60 false Columns.seedsRenderer "num_seeds".
Definition hidden_peers : Columns.column :=
  Columns.Build_column "Peers" 60 true Columns.peersRenderer "num_peers".
Definition seeded : object := [("num_seeds", PStr "1"); ("total_seeds", PStr "2")].

Lemma shown_cells_are_asked_witness :
  Columns.cell shown_seeds None seeded = Columns.cell shown_seeds None (oset "num_peers" (PStr "3") seeded).
Proof.
  apply (shown_cells_are_asked (of_Z 0) (fun _ => 0) (fun s => s) [shown_seeds] None shown_seeds None
           seeded (oset "num_peers" (PStr "3") seeded)); try reflexivity.
  - intros c Hc. apply list_elem_of_singleton in Hc as ->.
    exists (Columns.Build_column "Seeds" 60 true Columns.seedsRenderer "num_seeds").
    split; [|done]. unfold Columns.columns. do 4 right. left.
  - left.
  - intros k Hk. assert (Hne : k <> "num_peers").
    { intros ->. apply (bool_decide_pack _) in Hk. by vm_compute in Hk. }
    unfold pget. by rewrite oget_oset_ne.
Defined.

Lemma keys_canonical_witness :
  Keys.forGrid (Some [shown_seeds; hidden_peers]) None = Keys.forGrid (Some [hidden_peers; shown_seeds]) None /\
  NoDup (Keys.forGrid (Some [shown_seeds; hidden_peers]) None) /\
  Keys.forGrid (Some [shown_seeds; hidden_peers]) None ⊆ Keys.Grid.
Proof.
  apply (keys_canonical [shown_seeds; hidden_peers] [hidden_peers; shown_seeds] None).
  intros k. setoid_rewrite elem_of_cons. setoid_rewrite list_elem_of_singleton. naive_solver.
Defined.

Lemma label_is_markup_witness :
  Columns.cell (Columns.Build_column "Label" 90 false Columns.plainRenderer "label") None
    (oset "label" (PStr "<b>") []) = Some (PStr "<b>").
Proof.
  destruct (label_is_markup (of_Z 0) (fun _ => 0) (fun s => s) None [] "<b>") as [H _]; [done|].
  apply (H (Columns.Build_column "Label" 90 false Columns.plainRenderer "label")).
  - unfold Columns.columns. do 18 right. left.
  - left.
Defined.

(** A list of two torrents, the first of them out of the queue and done. *)
Definition two_records : state :=
  let '(l1, s) := alloc no_store [("queue", pint (-1)); ("eta", pint 0)] in
  let '(_, s) := Rec.create s l1 "a" in
  let '(l2, s) := alloc s [("queue", pint 0); ("eta", pint 60)] in
  (Rec.create s l2 "b").2.
Definition two_rows : state := Store.add two_records [1%positive; 2%positive].

Lemma two_rows_ok : store_ok two_rows.
Proof.
  apply (add_new two_records).
  - split; [apply empty_ok|apply NoDup_nil_2| |by intros k r|]; intros r Hr; by apply elem_of_nil in Hr.
  - apply (bool_decide_unpack _). by vm_compute.
  - intros r Hr. repeat (apply elem_of_cons in Hr as [->|Hr]; [split_and!; [by eexists|by intros ?%elem_of_nil|done]|]).
    by apply elem_of_nil in Hr.
Qed.

Lemma waiting_last_witness :
  let rank r := queue_rank (if decide (r = 1%positive) then -1 else 0) in
  StronglySorted (fun r1 r2 => rank r1 <= rank r2)
    (MC.items (items (Store.sort Columns.fields two_rows "queue" "ASC"))).
Proof.
  destruct (waiting_last two_rows "ASC" (fun r => if decide (r = 1%positive) then -1 else 0)
              (fun r => if decide (r = 1%positive) then 0 else 60)) as [H _]; [apply two_rows_ok|done| |exact H].
  intros r Hr. change (r ∈ [1%positive; 2%positive]) in Hr.
  repeat (apply elem_of_cons in Hr as [->|Hr]; [split_and!; by vm_compute|]).
  by apply elem_of_nil in Hr.
Defined.
