(* ===== verification/Sidebar.v ===== *)
(** * The sidebar: Deluge.FilterPanel and Deluge.Sidebar

    [Panel] is one list of filters with its rows, its selection and the health
    of its trackers; [Sidebar] the panels by name, the one that is open, and
    the filters they ask for together. *)

From stdpp Require Import base list strings gmap sets.
From Stdlib Require Import Lia ZArith.
From S2P Require Import Prelude JsNum JsString JsValue ExtCore Collection Store.

Module Panel.

(** A filter and how many torrents it has, as the server sends them. *)
Notation counted := (string * prim)%type.

(** [show_zero] is [null] unless it was set.  The list view: whether it was
    rendered, and the record selected; a row of the view is a row of the
    store. *)
Record panel := mk {
  filterType : string;
  show_zero : option bool;
  states : obj prim;
  store : state;
  rendered : bool;
  selected : option loc;
  health : obj string;
  healthAt : option Z;
  healthInFlight : bool;
  menuState : option string;
  menuHost : option string
}.

Definition with_store p s := mk (filterType p) (show_zero p) (states p) s (rendered p) (selected p)
  (health p) (healthAt p) (healthInFlight p) (menuState p) (menuHost p).
Definition with_states p s := mk (filterType p) (show_zero p) s (store p) (rendered p) (selected p)
  (health p) (healthAt p) (healthInFlight p) (menuState p) (menuHost p).
Definition with_selected p s := mk (filterType p) (show_zero p) (states p) (store p) (rendered p) s
  (health p) (healthAt p) (healthInFlight p) (menuState p) (menuHost p).
Definition with_health p h a f := mk (filterType p) (show_zero p) (states p) (store p) (rendered p)
  (selected p) h a f (menuState p) (menuHost p).
Definition with_menu p s h := mk (filterType p) (show_zero p) (states p) (store p) (rendered p)
  (selected p) (health p) (healthAt p) (healthInFlight p) s h.
Definition with_rendered p := mk (filterType p) (show_zero p) (states p) (store p) true
  (selected p) (health p) (healthAt p) (healthInFlight p) (menuState p) (menuHost p).

(** What a handler starts: another selection, which asks for an update, and
    the call that asks for the health of the trackers. *)
Inductive output := SelectionChange | AskHealth.

(** [delugeFilterClass] *)
Definition class_char (c : Ascii.ascii) : Ascii.ascii :=
  let n := code c in
  if ((97 <=? n) && (n <=? 122) || (48 <=? n) && (n <=? 57) || (n =? 95) || (n =? 45))%nat
  then c else chr 45.
Definition delugeFilterClass (value : string) : string := str_map class_char (to_lower value).

(** *** The list view *)

(** [refresh]: the selection is cleared, and said to be if there was one. *)
Definition clearSelections (p : panel) : panel * list output :=
  match selected p with Some _ => (with_selected p None, [SelectionChange]) | None => (p, []) end.
Definition refresh := clearSelections.

(** [deselect] of the row of a record *)
Definition deselect (r : loc) (p : panel) : panel * list output :=
  if decide (selected p = Some r) then (with_selected p None, [SelectionChange]) else (p, []).

(** [select(index)]: the selection there was is cleared without a word; a list
    that is not rendered has no row to select. *)
Definition select (i : nat) (p : panel) : panel * list output :=
  let p := with_selected p None in
  if rendered p then
    match Store.getAt (store p) i with
    | Some r => (with_selected p (Some r), [SelectionChange])
    | None => (p, [])
    end
  else (p, []).

(** [onItemClick] with [singleSelect], and [onContainerClick] *)
Definition click (ctrl : bool) (i : nat) (p : panel) : panel * list output :=
  match Store.getAt (store p) i with
  | Some r => if ctrl && bool_decide (selected p = Some r) then deselect r p else select i p
  | None => (p, [])
  end.

(** The view as the store inserts a record or removes one: [onAdd] and
    [onRemove]. *)
Definition insert_row (i : nat) (r : loc) (p : panel) : panel * list output :=
  let empty := (Store.getCount (store p) =? 0)%nat in
  let p := with_store p (Store.insert (store p) i r) in
  if rendered p && empty then refresh p else (p, []).
Definition remove_row (r : loc) (p : panel) : panel * list output :=
  let p := with_store p (Store.remove (store p) r) in
  if rendered p then
    let '(p, os) := deselect r p in
    if (Store.getCount (store p) =? 0)%nat then let '(p, os') := refresh p in (p, os ++ os') else (p, os)
  else (p, []).

Section panel.
(** [deluge.config.sidebar_show_zero], [_], and the clock in milliseconds. *)
Variable sidebar_show_zero : bool.
Variable tr : string -> string.
Variable now : Z.

(** [emptyLabel] *)
Definition emptyLabel (p : panel) : string :=
  if decide (filterType p = "label") then tr "No Label"
  else if decide (filterType p = "owner") then tr "No Owner"
  else if decide (filterType p = "tracker_host") then tr "No Tracker"
  else tr "None".

(** [healthClass] *)
Definition healthClass (p : panel) (value : string) : string :=
  if decide (filterType p <> "tracker_host") then ""
  else if decide (value = "" \/ value = "All") then ""
  else match oget value (health p) with
       | Some h => if decide (h = "") then "" else "x-deluge-tracker-health x-deluge-tracker-" +:+ h
       | None => ""
       end.

(** [getState], [getStates] *)
Definition getState (p : panel) : option string :=
  match selected p with
  | Some r => let i := id (record_at (store p) r) in if decide (i = "All") then None else Some i
  | None => None
  end.

(** [updateStates]: what is shown of what was sent. *)
Definition shown (p : panel) (sent : list counted) : list counted :=
  if default sidebar_show_zero (show_zero p) then sent
  else List.filter (fun s => prim_ltb (pint 0) s.2 || bool_decide (s.1 = "All")) sent.

(** The fields a row is given. *)
Definition edit_row (p : panel) (r : loc) (s : counted) : panel :=
  let st := Rec.beginEdit (store p) r in
  let st := Rec.set st r "filter" (PStr (if decide (s.1 = "") then emptyLabel p else tr s.1)) in
  let st := Rec.set st r "count" s.2 in
  let st := Rec.set st r "healthCls" (PStr (healthClass p s.1)) in
  with_store p (Rec.endEdit st r).

Definition update_row (acc : panel * list output) (s : counted) (i : nat) : (panel * list output) * bool :=
  let '(p, os) := acc in
  match Store.getById (store p) s.1 with
  | Some r => ((edit_row p r s, os), true)
  | None =>
      let '(l, st) := alloc (store p) [("filter", PStr s.1); ("count", s.2)] in
      let '(r, st) := Rec.create st l s.1 in
      let '(p, os') := insert_row i r (with_store p st) in
      ((edit_row p r s, os ++ os'), true)
  end.

(** The rows that are not shown any more. *)
Definition remove_gone (filters : list string) (acc : panel * list output) (r : loc)
    : (panel * list output) * bool :=
  let '(p, os) := acc in
  let i := id (record_at (store p) r) in
  if decide (i ∈ filters) then (acc, true)
  else
    let '(p, os') := remove_row r p in
    match selected p with
    | Some q =>
        if decide (id (record_at (store p) q) = i)
        then let '(p, os'') := select 0 p in ((p, os ++ os' ++ os''), true)
        else ((p, os ++ os'), true)
    | None => ((p, os ++ os'), true)
    end.

(** [Deluge.FilterPanel.HEALTH_INTERVAL] and [refreshHealth] *)
Definition HEALTH_INTERVAL : Z := 20000.
Definition refreshHealth (p : panel) : panel * list output :=
  if decide (filterType p <> "tracker_host") then (p, [])
  else if healthInFlight p then (p, [])
  else
    match healthAt p with
    | Some t => if negb (t =? 0)%Z && (now - t <? HEALTH_INTERVAL)%Z then (p, [])
                else (with_health p (health p) (Some now) true, [AskHealth])
    | None => (with_health p (health p) (Some now) true, [AskHealth])
    end.

(** [applyHealth], and the two ways the call ends *)
Definition apply_one (p : panel) (r : loc) : panel * bool :=
  let h := PStr (healthClass p (id (record_at (store p) r))) in
  if loose_eq (Rec.get (store p) r "healthCls") h then (p, true)
  else (with_store p (Rec.set (store p) r "healthCls" h), true).
Definition applyHealth (p : panel) : panel :=
  let p := Store.each (store p) apply_one p in
  with_store p (Store.commitChanges (store p)).
Definition onHealth (h : obj string) (p : panel) : panel := applyHealth (with_health p h (healthAt p) false).
Definition onHealthFailed (p : panel) : panel := with_health p (health p) (healthAt p) false.

(** [updateStates] *)
Definition updateStates (sent : list counted) (p : panel) : panel * list output :=
  let p := with_states p (Ext.each sent (fun o s _ => (oset s.1 s.2 o, true)) []) in
  let rows := shown p sent in
  let '(p, os) := Ext.each rows update_row (p, []) in
  let '(p, os) := Store.each (store p) (remove_gone rows.*1) (p, os) in
  let p := with_store p (Store.commitChanges (store p)) in
  let '(p, os') := match selected p with Some _ => (p, []) | None => select 0 p end in
  let '(p, os'') := refreshHealth p in
  (p, os ++ os' ++ os'').

(** [onContextMenu]: the menu a row has, if it has one. *)
Inductive menu := RemoveMenu | LabelMenu | TrackerMenu.
Definition onContextMenu (i : nat) (p : panel) : panel * option menu :=
  match Store.getAt (store p) i with
  | None => (p, None)
  | Some r =>
      let value := id (record_at (store p) r) in
      if decide (filterType p = "state") then
        if (bool_decide (value <> "Unregistered") && bool_decide (value <> "Dead"))
           || negb (truthy (Rec.get (store p) r "count"))
        then (p, None)
        else (with_menu p (Some value) (menuHost p), Some RemoveMenu)
      else if decide (value = "" \/ value = "All") then (p, None)
      else (with_menu p (menuState p) (Some value),
            Some (if decide (filterType p = "label") then LabelMenu else TrackerMenu))
  end.

(** [onRemoveUnregistered], once the torrents of the group are known: the ids
    the remove window is shown with, none if the group is empty by then. *)
Definition onRemoveUnregistered (p : panel) (torrents : option (obj object)) : option (list string) :=
  match menuState p with
  | Some s => if decide (s = "") then None
              else match okeys (default [] torrents) with [] => None | ids => Some ids end
  | None => None
  end.

(** [initComponent]: a panel with no row, its title, and whether its rows have
    a menu. *)
Definition create (filter : string) (laid : bool) : panel :=
  mk filter None [] no_store laid None [] None false None None.
Definition capital (p : string) : string :=
  match p with String.String c r => String.String (upper_char c) r | EmptyString => "" end.
Definition title (filter : string) : string :=
  if decide (filter = "state") then tr (tr "States")
  else if decide (filter = "tracker_host") then tr (tr "Trackers")
  else if decide (filter = "owner") then tr (tr "Owner")
  else if decide (filter = "label") then tr (tr "Labels")
  else tr (Ext.each (split_on (chr 32) (replace_first "_" " " filter))
             (fun t p _ => (t +:+ capital p +:+ " ", true)) "").
Definition has_menu (filter : string) : bool := bool_decide (filter ∈ ["tracker_host"; "label"; "state"]).
End panel.

End Panel.

Module Sidebar.

(** [panels]; the items of the accordion in the order they were added, and the
    one that is open. *)
Record sidebar := mk {
  panels : obj Panel.panel;
  items : list string;
  activeItem : option string
}.

Definition empty : sidebar := mk [] [] None.

Section sidebar.
Variable sidebar_show_zero : bool.
Variable sidebar_multiple_filters : bool.
Variable tr : string -> string.
Variable now : Z.
(** Whether the layout renders the list of a panel when it is added; the
    accordion puts off the ones that are closed. *)
Variable laid : string -> bool.

(** [createFilter]; the first panel of an accordion is the one that is open. *)
Definition createFilter (filter : string) (sent : list (string * prim)) (s : sidebar)
    : sidebar * list Panel.output :=
  let active := match activeItem s with Some a => Some a | None => Some filter end in
  let '(p, os) := Panel.updateStates sidebar_show_zero tr now sent (Panel.create filter (laid filter)) in
  (mk (oset filter p (panels s)) (items s ++ [filter]) active, os).

(** [getFilter], [hasFilter] *)
Definition getFilter (filter : string) (s : sidebar) : option Panel.panel := oget filter (panels s).
Definition hasFilter (filter : string) (s : sidebar) : bool := bool_decide (is_Some (getFilter filter s)).

(** [getFilterStates] *)
Definition getFilterStates (s : sidebar) : obj val :=
  if sidebar_multiple_filters then
    foldl (fun states filter =>
      match oget filter (panels s) with
      | Some p => match Panel.getState p with
                  | Some v => oset (Panel.filterType p) (VPrim (PStr v)) states
                  | None => states
                  end
      | None => states
      end) [] (items s)
  else
    match activeItem s ≫= fun a => oget a (panels s) with
    | Some p => [(Panel.filterType p,
                  VPrim (match Panel.getState p with Some v => PStr v | None => PUndef end))]
    | None => []
    end.

(** The container's [remove]: the item goes, and is not the open one any
    more. *)
Definition remove (filter : string) (s : sidebar) : sidebar :=
  mk (panels s) (List.filter (fun f => negb (bool_decide (f = filter))) (items s))
     (if decide (activeItem s = Some filter) then None else activeItem s).

(** [onDisconnect] *)
Definition onDisconnect (s : sidebar) : sidebar :=
  let s := foldl (fun s filter => remove filter s) s (okeys (panels s)) in
  mk [] (items s) (activeItem s).

Definition filterOrder : list string := ["state"; "tracker_host"; "label"; "owner"].

(** The order [update] takes the filters in. *)
Definition ordered (filters : obj (list (string * prim))) : list string :=
  let known := List.filter (fun name => bool_decide (is_Some (oget name filters))) filterOrder in
  Ext.each (Ext.keys filters) (fun l name _ =>
    (if bool_decide (name ∈ l) then l else l ++ [name], true)) known.

Definition update_one (filters : obj (list (string * prim))) (acc : sidebar * list Panel.output)
    (filter : string) : sidebar * list Panel.output :=
  let '(s, os) := acc in
  let sent := default [] (oget filter filters) in
  match oget filter (panels s) with
  | Some p =>
      let '(p, os') := Panel.updateStates sidebar_show_zero tr now sent p in
      (mk (oset filter p (panels s)) (items s) (activeItem s), os ++ os')
  | None => let '(s, os') := createFilter filter sent s in (s, os ++ os')
  end.

Definition cleanup (filters : obj (list (string * prim))) (s : sidebar) (filter : string) : sidebar :=
  if bool_decide (filter ∈ Ext.keys filters) then s
  else let s := remove filter s in mk (odel filter (panels s)) (items s) (activeItem s).

(** [update] *)
Definition update (filters : obj (list (string * prim))) (s : sidebar) : sidebar * list Panel.output :=
  let '(s, os) := foldl (update_one filters) (s, []) (ordered filters) in
  (foldl (cleanup filters) s (Ext.keys (panels s)), os).

(** The header of a panel clicked, once the accordion has opened it: the
    updates asked for. *)
Definition headerClick (filter : string) (s : sidebar) : sidebar * list Panel.output :=
  match oget filter (panels s) with
  | None => (s, [])
  | Some p =>
      let '(p, os) := if Panel.rendered p then (p, []) else Panel.refresh (Panel.with_rendered p) in
      let os := os ++ (if sidebar_multiple_filters then [] else [Panel.SelectionChange]) in
      let '(p, os') := match Panel.selected p with Some _ => (p, []) | None => Panel.select 0 p end in
      (mk (oset filter p (panels s)) (items s) (Some filter), os ++ os')
  end.
End sidebar.

End Sidebar.

(** ** A row *)

(** [set] leaves the field with the text it was given, and the others alone. *)
Lemma set_text st r k v j w :
  is_Some (recs st !! r) ->
  (j = k -> w = v) -> (j <> k -> Rec.same_text (Rec.get st r j) w = true) ->
  Rec.same_text (Rec.get (Rec.set st r k v) r j) w = true.
Proof.
  intros Hr He Hn. rewrite set_get by done. destruct (decide (j = k)) as [->|Hne].
  - rewrite He by done. destruct (Rec.same_text (Rec.get st r k) v) eqn:E; [done|apply same_text_refl].
  - case_match; by apply Hn.
Qed.

(** A state with the same records over the same objects reads the same. *)
Lemma refs_get st st' r k : same_refs st st' -> objs st' = objs st -> Rec.get st' r k = Rec.get st r k.
Proof. intros H E. unfold Rec.get, object_at. by rewrite (sr_data _ _ H), E. Qed.

(** What a row shows of a filter. *)
Definition row_of (tr : string -> string) (p : Panel.panel) (st : state) (s : string * prim) (r : loc) : Prop :=
  Rec.same_text (Rec.get st r "filter")
    (PStr (if decide (s.1 = "") then Panel.emptyLabel tr p else tr s.1)) = true /\
  Rec.same_text (Rec.get st r "count") s.2 = true /\
  Rec.same_text (Rec.get st r "healthCls") (PStr (Panel.healthClass p s.1)) = true.

Lemma edit_row_spec tr p r s :
  is_Some (recs (Panel.store p) !! r) ->
  let p' := Panel.edit_row tr p r s in
  same_refs (Panel.store p) (Panel.store p') /\
  (forall l, l <> data (record_at (Panel.store p) r) -> objs (Panel.store p') !! l = objs (Panel.store p) !! l) /\
  row_of tr p (Panel.store p') s r.
Proof.
  intros Hr. unfold Panel.edit_row. cbv zeta. cbn [Panel.store Panel.with_store].
  set (st := Panel.store p) in *. set (v1 := PStr (if decide _ then _ else _)).
  set (v3 := PStr (Panel.healthClass p s.1)).
  pose proof (beginEdit_refs st r Hr) as H0. set (st0 := Rec.beginEdit st r) in *.
  assert (Hr0 : is_Some (recs st0 !! r)) by by apply H0.
  pose proof (set_refs st0 r "filter" v1 Hr0) as H1. set (st1 := Rec.set st0 r "filter" v1) in *.
  assert (Hr1 : is_Some (recs st1 !! r)) by by apply H1.
  pose proof (set_refs st1 r "count" s.2 Hr1) as H2. set (st2 := Rec.set st1 r "count" s.2) in *.
  assert (Hr2 : is_Some (recs st2 !! r)) by by apply H2.
  pose proof (set_refs st2 r "healthCls" v3 Hr2) as H3. set (st3 := Rec.set st2 r "healthCls" v3) in *.
  assert (Hr3 : is_Some (recs st3 !! r)) by by apply H3.
  pose proof (endEdit_refs st3 r Hr3) as H4.
  split_and!.
  - by do 4 (etransitivity; [eassumption|]).
  - intros l Hl.
    assert (E0 : data (record_at st0 r) = data (record_at st r)) by apply H0.
    assert (E1 : data (record_at st1 r) = data (record_at st r)) by (by rewrite (sr_data _ _ H1)).
    assert (E2 : data (record_at st2 r) = data (record_at st r)) by (by rewrite (sr_data _ _ H2)).
    rewrite endEdit_objs. unfold st3. rewrite set_objs_ne by (by rewrite E2).
    unfold st2. rewrite set_objs_ne by (by rewrite E1). unfold st1. by rewrite set_objs_ne by (by rewrite E0).
  - unfold row_of. rewrite !(refs_get _ _ _ _ H4 (endEdit_objs st3 r)).
    split_and!; repeat (apply set_text; [done|done|intros Hne; try (by destruct Hne); clear Hne]).
Qed.

(** ** A panel *)

Definition rows (p : Panel.panel) : list loc := MC.items (items (Panel.store p)).

(** Every record is there once, with an object of its own, and the one selected
    is a row of a list that is drawn. *)
Record panel_ok (p : Panel.panel) : Prop := {
  po_store : store_ok (Panel.store p);
  po_data : forall r q, r ∈ rows p -> q ∈ rows p ->
    data (record_at (Panel.store p) r) = data (record_at (Panel.store p) q) -> r = q;
  po_objs : forall r, r ∈ rows p -> is_Some (objs (Panel.store p) !! data (record_at (Panel.store p) r));
  po_selected : forall r, Panel.selected p = Some r -> r ∈ rows p /\ Panel.rendered p = true
}.

Lemma create_ok filter laid : panel_ok (Panel.create filter laid).
Proof.
  split; simpl; try done; try (intros r Hr; by apply elem_of_nil in Hr).
  - split; simpl; [apply empty_ok|apply NoDup_nil_2| |by intros k r|]; intros r Hr; by apply elem_of_nil in Hr.
  - intros r q Hr. by apply elem_of_nil in Hr.
Qed.

(** A row is under its id, and a key answers a row. *)
Lemma row_by_id p r : panel_ok p -> r ∈ rows p ->
  Store.getById (Panel.store p) (id (record_at (Panel.store p) r)) = Some r.
Proof. intros Hp. apply (so_keyed _ (po_store _ Hp)). Qed.

Lemma id_row p k r : panel_ok p -> Store.getById (Panel.store p) k = Some r ->
  r ∈ rows p /\ id (record_at (Panel.store p) r) = k /\ is_Some (recs (Panel.store p) !! r).
Proof.
  intros Hp Hk. destruct (so_recs _ (po_store _ Hp) k r Hk) as [H1 H2]. split_and!; try done.
  apply (item_key _ _ (po_store _ Hp)). by exists k.
Qed.

(** The store replaced by one with the same records over objects that are
    still there. *)
Lemma refs_panel_ok p st :
  same_refs (Panel.store p) st -> panel_ok p -> panel_ok (Panel.with_store p st).
Proof.
  intros H [H1 H2 H3 H4]. unfold rows in *.
  split; unfold rows; cbn [Panel.store Panel.with_store Panel.selected Panel.rendered];
    rewrite ?(sr_items _ _ H); auto.
  - by eapply keeps_ok; [apply refs_keeps|].
  - intros r q Hr Hq. rewrite !(sr_data _ _ H). auto.
  - intros r Hr. rewrite (sr_data _ _ H). by apply H, H3.
Qed.

(** Two panels that hold the same rows for all the other keys. *)
Definition others (k : string) (p p' : Panel.panel) : Prop :=
  (forall j, j <> k -> Store.getById (Panel.store p') j = Store.getById (Panel.store p) j) /\
  (forall j r f, j <> k -> Store.getById (Panel.store p) j = Some r ->
     Rec.get (Panel.store p') r f = Rec.get (Panel.store p) r f).

Lemma edit_row_ok tr p s r :
  panel_ok p -> Store.getById (Panel.store p) s.1 = Some r ->
  let p' := Panel.edit_row tr p r s in
  panel_ok p' /\ Store.getById (Panel.store p') s.1 = Some r /\ row_of tr p (Panel.store p') s r /\
  others s.1 p p'.
Proof.
  intros Hp Hk. destruct (id_row p s.1 r Hp Hk) as (Hr & Hi & Hx).
  destruct (edit_row_spec tr p r s Hx) as (H1 & H2 & H3). cbv zeta.
  set (st := Panel.store (Panel.edit_row tr p r s)) in *.
  split_and!; [by apply refs_panel_ok| |done|split].
  - unfold Store.getById in *. by rewrite (sr_items _ _ H1).
  - intros j _. unfold Store.getById. fold st. by rewrite (sr_items _ _ H1).
  - fold st. intros j q f Hj Hq. destruct (id_row p j q Hp Hq) as (Hq1 & Hq2 & _).
    unfold Rec.get, object_at. rewrite (sr_data _ _ H1), H2; [done|]. intros E.
    apply (po_data _ Hp) in E; [|done|done]. subst q. congruence.
Qed.

(** A row made for a key that has none. *)
Lemma new_row_ok p k o i :
  panel_ok p -> Store.getById (Panel.store p) k = None ->
  let '(l, st) := alloc (Panel.store p) o in
  let '(r, st) := Rec.create st l k in
  let p' := Panel.with_store p (Store.insert st i r) in
  Panel.insert_row i r (Panel.with_store p st) = (p', []) /\
  panel_ok p' /\ Store.getById (Panel.store p') k = Some r /\ others k p p'.
Proof.
  intros Hp Hk. destruct (alloc (Panel.store p) o) as [l st1] eqn:El.
  assert (Hl : objs (Panel.store p) !! l = None /\ st1 = with_objs (Panel.store p) (<[l:=o]> (objs (Panel.store p)))).
  { unfold alloc in El. injection El as <- <-. split; [apply not_elem_of_dom, is_fresh|done]. }
  destruct Hl as [Hl E1].
  pose proof (create_new st1 l k) as Hn. pose proof (create_keeps st1 l k) as Hkp.
  destruct (Rec.create st1 l k) as [r st2]. cbn [snd] in Hkp. destruct Hn as (Hn1 & Hn2 & Hn3 & Hn4 & Hn5).
  assert (Hs1 : keeps (Panel.store p) st1).
  { subst st1. split; simpl; auto. intros l' [x Hx]. destruct (decide (l' = l)) as [->|]; simplify_map_eq; eauto. }
  assert (Hs2 : store_ok st2) by (eapply keeps_ok; [by etransitivity|apply Hp]).
  assert (Hit : items st2 = items (Panel.store p)) by (rewrite (k_items _ _ Hkp); apply Hs1).
  assert (Hnr : r ∉ MC.items (items st2)).
  { rewrite Hit. intros Hin. apply (item_recs _ _ (po_store _ Hp)) in Hin as [x Hx].
    subst st1. cbn in Hn1. congruence. }
  assert (Hkn : MC.key (id (record_at st2 r)) (items st2) = None) by (rewrite Hn3, Hit; exact Hk).
  destruct (insert_new st2 i r Hs2 Hn2 Hnr Hkn) as (J1 & J2 & J3 & J4 & J5 & J6). cbv zeta.
  set (st3 := Store.insert st2 i r) in *.
  assert (Hrows : MC.items (items st3) ≡ₚ r :: rows p).
  { rewrite J3, <- Permutation_middle, take_drop, Hit. done. }
  assert (Hold : forall q, q ∈ rows p -> data (record_at st3 q) = data (record_at (Panel.store p) q) /\
    is_Some (objs (Panel.store p) !! data (record_at (Panel.store p) q))).
  { intros q Hq. split; [|by apply Hp]. rewrite (proj2 (J4 q)).
    destruct (k_recs _ _ Hs1 q (item_recs _ _ (po_store _ Hp) Hq)) as (Hq1 & _ & <-).
    by destruct (k_recs _ _ Hkp q Hq1) as (_ & _ & ->). }
  assert (Ho : objs st3 = <[l:=o]> (objs (Panel.store p))) by (rewrite J2, Hn5; by subst st1).
  assert (Hnew : data (record_at st3 r) = l) by (by rewrite (proj2 (J4 r))).
  split_and!.
  - unfold Panel.insert_row. cbn [Panel.store Panel.with_store Panel.rendered].
    destruct (Panel.rendered p && _) eqn:E; [|done].
    apply andb_true_iff in E as [_ E]. apply Nat.eqb_eq in E. unfold Panel.refresh, Panel.clearSelections.
    cbn [Panel.selected Panel.with_store]. destruct (Panel.selected p) as [q|] eqn:Eq; [|done].
    destruct (po_selected _ Hp q Eq) as [Hq _]. exfalso. unfold Store.getCount, MC.getCount in E.
    rewrite (ok_length _ (so_coll _ Hs2)), Hit in E. unfold rows in Hq.
    apply length_zero_iff_nil in E. rewrite E in Hq. by apply elem_of_nil in Hq.
  - split; unfold rows; cbn [Panel.store Panel.with_store Panel.selected Panel.rendered]; [done|..].
    + intros a b. rewrite !Hrows, !elem_of_cons. intros [->|Ha] [->|Hb]; try done.
      * rewrite Hnew. destruct (Hold b Hb) as [-> [x Hx]]. congruence.
      * rewrite Hnew. destruct (Hold a Ha) as [-> [x Hx]]. congruence.
      * rewrite (proj1 (Hold a Ha)), (proj1 (Hold b Hb)). by apply Hp.
    + intros a. rewrite Hrows, elem_of_cons, Ho. intros [->|Ha].
      * rewrite Hnew, lookup_insert_eq. by eexists.
      * destruct (Hold a Ha) as [-> [x Hx]]. destruct (decide (l = data (record_at (Panel.store p) a))) as [<-|];
          simplify_map_eq; eauto.
    + intros q Hq. destruct (po_selected _ Hp q Hq) as [H1 H2]. split; [|done].
      rewrite Hrows. by right.
  - cbn [Panel.store Panel.with_store]. rewrite J6, Hn3. by rewrite decide_True.
  - split; cbn [Panel.store Panel.with_store].
    + intros j Hj. rewrite J6, Hn3, decide_False by done. unfold Store.getById. by rewrite Hit.
    + intros j q f Hj Hq. destruct (id_row p j q Hp Hq) as (Hq1 & _ & _).
      destruct (Hold q Hq1) as [E [x Hx]]. unfold Rec.get, object_at. rewrite E, Ho.
      rewrite lookup_insert_ne by congruence. done.
Qed.

(** *** The rows that are shown *)

Lemma others_trans k p1 p2 p3 :
  others k p1 p2 -> others k p2 p3 -> others k p1 p3.
Proof.
  intros [H1 H2] [H3 H4]. split.
  - intros j Hj. rewrite H3, H1; done.
  - intros j r f Hj Hr. rewrite (H4 j r f Hj); [by apply (H2 j)|]. by rewrite H1.
Qed.

Lemma update_row_ok tr p os s i :
  panel_ok p ->
  let '((p', os'), go) := Panel.update_row tr (p, os) s i in
  go = true /\ os' = os /\ p' = Panel.with_store p (Panel.store p') /\ panel_ok p' /\
  (exists r, Store.getById (Panel.store p') s.1 = Some r /\ row_of tr p (Panel.store p') s r) /\
  (forall r, Store.getById (Panel.store p) s.1 = Some r -> Store.getById (Panel.store p') s.1 = Some r) /\
  others s.1 p p'.
Proof.
  intros Hp. unfold Panel.update_row. destruct (Store.getById (Panel.store p) s.1) as [r|] eqn:E.
  - destruct (edit_row_ok tr p s r Hp E) as (H1 & H2 & H3 & H4). split_and!; try done; [by exists r|].
    by intros ? [= <-].
  - pose proof (new_row_ok p s.1 [("filter", PStr s.1); ("count", s.2)] i Hp E) as H.
    destruct (alloc (Panel.store p) _) as [l st1]. destruct (Rec.create st1 l s.1) as [r st2].
    destruct H as (-> & H1 & H2 & H3). set (p1 := Panel.with_store p _) in *.
    destruct (edit_row_ok tr p1 s r H1 H2) as (J1 & J2 & J3 & J4).
    split_and!; try done; [by rewrite app_nil_r|by exists r|by eapply others_trans].
Qed.

Lemma update_rows_ok tr todo p os i :
  panel_ok p -> NoDup todo.*1 ->
  let '(p', os') := Ext.each_go i todo (Panel.update_row tr) (p, os) in
  os' = os /\ p' = Panel.with_store p (Panel.store p') /\ panel_ok p' /\
  (forall s, s ∈ todo -> exists r, Store.getById (Panel.store p') s.1 = Some r /\ row_of tr p (Panel.store p') s r) /\
  (forall k r, Store.getById (Panel.store p) k = Some r -> Store.getById (Panel.store p') k = Some r) /\
  (forall k, k ∉ todo.*1 -> Store.getById (Panel.store p') k = Store.getById (Panel.store p) k) /\
  (forall k r f, k ∉ todo.*1 -> Store.getById (Panel.store p) k = Some r ->
     Rec.get (Panel.store p') r f = Rec.get (Panel.store p) r f).
Proof.
  revert p i. induction todo as [|s todo IH]; intros p i Hp Hnd.
  - simpl. split_and!; try done. + by destruct p. + intros s Hs. by apply elem_of_nil in Hs.
  - rewrite fmap_cons, NoDup_cons in Hnd. destruct Hnd as [Hs Hnd].
    pose proof (update_row_ok tr p os s i Hp) as H. cbn [Ext.each_go].
    destruct (Panel.update_row tr (p, os) s i) as [[p1 os1] go].
    destruct H as (-> & -> & E1 & H1 & (r & Hr & Hrow) & Hold & Ho1 & Ho2).
    specialize (IH p1 (i + 1)%nat H1 Hnd).
    destruct (Ext.each_go (i + 1) todo (Panel.update_row tr) (p1, os)) as [p2 os2].
    destruct IH as (-> & E2 & H2 & J1 & J2 & J3 & J4).
    assert (Hrow1 : forall st s r, row_of tr p1 st s r <-> row_of tr p st s r) by (rewrite E1; done).
    split_and!; [done| |done| | | |].
    + by rewrite E2, E1.
    + intros s' [->|Hs']%elem_of_cons.
      * exists r. split; [by apply J2|]. unfold row_of in *. by rewrite !(J4 s.1 r).
      * destruct (J1 s' Hs') as (r' & ? & ?%Hrow1). by exists r'.
    + intros k q Hq. apply J2. destruct (decide (k = s.1)) as [->|Hne]; [by apply Hold|]. by rewrite Ho1.
    + intros k Hk. rewrite fmap_cons, not_elem_of_cons in Hk. destruct Hk. by rewrite J3, Ho1.
    + intros k q f Hk Hq. rewrite fmap_cons, not_elem_of_cons in Hk. destruct Hk.
      rewrite (J4 k); [by apply (Ho2 k)|done|by rewrite Ho1].
Qed.

(** *** The rows that go *)

(** A row removed: the selection is lost with it, and said to be. *)
Lemma remove_row_ok p r :
  panel_ok p -> r ∈ rows p ->
  let '(p', os) := Panel.remove_row r p in
  panel_ok p' /\ rows p' = filter (fun x => x <> r) (rows p) /\
  (forall k, Store.getById (Panel.store p') k =
     if decide (Store.getById (Panel.store p) k = Some r) then None else Store.getById (Panel.store p) k) /\
  (forall q, id (record_at (Panel.store p') q) = id (record_at (Panel.store p) q)) /\
  (forall q f, Rec.get (Panel.store p') q f = Rec.get (Panel.store p) q f) /\
  p' = Panel.with_selected (Panel.with_store p (Panel.store p'))
         (if decide (Panel.selected p = Some r) then None else Panel.selected p) /\
  os = (if decide (Panel.selected p = Some r) then [Panel.SelectionChange] else []).
Proof.
  intros Hp Hr. destruct (remove_spec (Panel.store p) r (po_store _ Hp)) as (H1 & H2 & _ & H4 & H5 & H6).
  set (st := Store.remove (Panel.store p) r) in *.
  set (p1 := Panel.with_store p st).
  set (sel := if decide (Panel.selected p = Some r) then None else Panel.selected p).
  assert (Hd : Panel.rendered p = true \/ Panel.selected p = None).
  { destruct (Panel.selected p) eqn:E; [left|by right]. by destruct (po_selected _ Hp _ E). }
  assert (Heq : Panel.remove_row r p = (Panel.with_selected p1 sel,
    if decide (Panel.selected p = Some r) then [Panel.SelectionChange] else [])).
  { unfold Panel.remove_row. fold st p1. cbn [Panel.rendered p1 Panel.with_store].
    destruct (Panel.rendered p) eqn:Er.
    - unfold Panel.deselect. cbn [Panel.selected Panel.with_store p1].
      assert (Hs1 : Panel.with_selected p1 (Panel.selected p) = p1) by (by destruct p).
      unfold sel. case_decide as Es.
      + cbn [Panel.store Panel.with_selected Panel.with_store p1]. unfold Panel.refresh, Panel.clearSelections.
        cbn [Panel.selected Panel.with_selected]. by destruct (Store.getCount st =? 0)%nat.
      + rewrite Hs1. cbn [Panel.store Panel.with_selected Panel.with_store p1].
        destruct (Store.getCount st =? 0)%nat eqn:Ec; [|done].
        unfold Panel.refresh, Panel.clearSelections. cbn [Panel.selected Panel.with_store p1].
        destruct (Panel.selected p) as [q|] eqn:Eq; [|done]. exfalso.
        destruct (po_selected _ Hp q Eq) as [Hq _].
        apply Nat.eqb_eq in Ec. unfold Store.getCount, MC.getCount in Ec.
        rewrite (ok_length _ (so_coll _ H1)), H6 in Ec. apply length_zero_iff_nil in Ec.
        assert (Hin : q ∈ filter (fun x => x <> r) (rows p)) by (apply list_elem_of_filter; split; [congruence|done]).
        unfold rows in Hin. rewrite Ec in Hin. by apply elem_of_nil in Hin.
    - destruct Hd as [|Hd]; [done|]. unfold sel. rewrite Hd. rewrite decide_False by done.
      f_equal. unfold p1. rewrite <- Hd. by destruct p. }
  rewrite Heq. cbn [Panel.store Panel.with_selected Panel.with_store p1].
  split_and!; try done.
  - split; unfold rows; cbn [Panel.store Panel.with_selected Panel.with_store Panel.selected Panel.rendered p1];
      rewrite ?H6; [done|..].
    + intros a b [_ Ha]%list_elem_of_filter [_ Hb]%list_elem_of_filter. rewrite !(proj2 (H4 _)). by apply Hp.
    + intros a [_ Ha]%list_elem_of_filter. rewrite (proj2 (H4 a)), H2. by apply Hp.
    + intros q. unfold sel. case_decide as Es; [done|]. intros Hq.
      destruct (po_selected _ Hp q Hq). split; [|done]. apply list_elem_of_filter. split; [congruence|done].
  - intros q. by destruct (H4 q).
  - intros q f. unfold Rec.get, object_at. by rewrite (proj2 (H4 q)), H2.
Qed.

(** Whether the selected row is among those that go. *)
Definition lost (names : list string) (rs : list loc) (p : Panel.panel) : bool :=
  match Panel.selected p with
  | Some r => bool_decide (r ∈ rs) && bool_decide (id (record_at (Panel.store p) r) ∉ names)
  | None => false
  end.

Lemma remove_gone_step names p os r :
  panel_ok p -> r ∈ rows p -> id (record_at (Panel.store p) r) ∉ names ->
  Panel.remove_gone names (p, os) r =
  ((Panel.remove_row r p).1, os ++ (Panel.remove_row r p).2, true).
Proof.
  intros Hp Hr Hn. unfold Panel.remove_gone. rewrite decide_False by done.
  pose proof (remove_row_ok p r Hp Hr) as H. destruct (Panel.remove_row r p) as [p1 os1].
  destruct H as (H1 & H2 & _ & H4 & _). cbn [fst snd].
  destruct (Panel.selected p1) as [q|] eqn:Eq; [|done].
  rewrite decide_False; [done|]. intros E. rewrite H4 in E.
  destruct (po_selected _ H1 q Eq) as [Hq _]. rewrite H2 in Hq. apply list_elem_of_filter in Hq as [Hne Hq].
  pose proof (row_by_id p q Hp Hq) as Hx. rewrite E in Hx. rewrite (row_by_id p r Hp Hr) in Hx. congruence.
Qed.

Lemma remove_gone_ok names rs p os :
  panel_ok p -> NoDup rs -> (forall r, r ∈ rs -> r ∈ rows p) ->
  let '(p', os') := MC.each_go rs (Panel.remove_gone names) (p, os) in
  panel_ok p' /\
  (forall k r, Store.getById (Panel.store p') k = Some r <->
     Store.getById (Panel.store p) k = Some r /\ (r ∈ rs -> k ∈ names)) /\
  (forall q f, Rec.get (Panel.store p') q f = Rec.get (Panel.store p) q f) /\
  p' = Panel.with_selected (Panel.with_store p (Panel.store p'))
         (if lost names rs p then None else Panel.selected p) /\
  os' = os ++ (if lost names rs p then [Panel.SelectionChange] else []).
Proof.
  revert p os. induction rs as [|r rs IH]; intros p os Hp Hnd Hin.
  { cbn [MC.each_go]. assert (El : lost names [] p = false).
    { unfold lost. destruct (Panel.selected p); [|done]. by rewrite bool_decide_eq_false_2 by apply not_elem_of_nil. }
    rewrite El, app_nil_r. split_and!; try done; [|by destruct p].
    intros k q. split; [|by intros []]. intros H. split; [done|]. intros Hq. by apply elem_of_nil in Hq. }
  apply NoDup_cons in Hnd as [Hr Hnd]. cbn [MC.each_go].
  assert (Hrr : r ∈ rows p) by (apply Hin; by left).
  destruct (decide (id (record_at (Panel.store p) r) ∈ names)) as [Hk|Hk].
  - unfold Panel.remove_gone at 1. rewrite decide_True by done.
    specialize (IH p os Hp Hnd ltac:(intros q Hq; apply Hin; by right)).
    destruct (MC.each_go rs (Panel.remove_gone names) (p, os)) as [p2 os2].
    destruct IH as (H1 & H2 & H3 & H4 & H5).
    assert (El : lost names (r :: rs) p = lost names rs p).
    { unfold lost. destruct (Panel.selected p) as [q|]; [|done]. destruct (decide (q = r)) as [->|Hne].
      - by rewrite (bool_decide_eq_false_2 (_ ∉ names)), !andb_false_r by (by intros Hx; apply Hx).
      - f_equal. apply bool_decide_ext. rewrite elem_of_cons. naive_solver. }
    rewrite El. split_and!; try done. intros k q. rewrite H2, elem_of_cons. split; [|naive_solver].
    intros [Hq Ho]. split; [done|]. intros [->|Hq']; [|by apply Ho].
    destruct (id_row p k r Hp Hq) as (_ & <- & _). done.
  - rewrite remove_gone_step by done.
    pose proof (remove_row_ok p r Hp Hrr) as H. destruct (Panel.remove_row r p) as [p1 os1]. cbn [fst snd].
    destruct H as (H1 & H2 & H3 & H4 & H5 & E6 & E7).
    specialize (IH p1 (os ++ os1) H1 Hnd).
    destruct (MC.each_go rs (Panel.remove_gone names) (p1, os ++ os1)) as [p2 os2].
    destruct IH as (J1 & J2 & J3 & J4 & J5).
    { intros q Hq. rewrite H2. apply list_elem_of_filter. split; [by intros ->|]. apply Hin. by right. }
    assert (Es : Panel.selected p1 = if decide (Panel.selected p = Some r) then None else Panel.selected p).
    { by rewrite E6. }
    assert (El : (if lost names (r :: rs) p then None else Panel.selected p) =
                 (if lost names rs p1 then None else Panel.selected p1) /\
                 (if lost names (r :: rs) p then [Panel.SelectionChange] else []) =
                 os1 ++ (if lost names rs p1 then [Panel.SelectionChange] else [])).
    { rewrite E7. unfold lost. rewrite Es. destruct (Panel.selected p) as [q|]; [|done].
      destruct (decide (Some q = Some r)) as [[= ->]|Hne].
      - rewrite !bool_decide_eq_true_2 by (done || by left). done.
      - rewrite H4. rewrite (bool_decide_ext (q ∈ r :: rs) (q ∈ rs)) by (rewrite elem_of_cons; naive_solver).
        done. }
    destruct El as [El1 El2]. split_and!; [done| | | |].
    + intros k q. rewrite J2, H3, elem_of_cons.
      destruct (decide (Store.getById (Panel.store p) k = Some r)) as [Ed|Ed].
      * split; [by intros [? _]|]. intros [Hq Ho]. exfalso. assert (q = r) as -> by congruence.
        destruct (id_row p k r Hp Hq) as (_ & Ei & _). rewrite Ei in Hk. apply Hk, Ho. by left.
      * split; [intros [Hq Ho]; split; [done|]; intros [->|?]; [by destruct Ed|auto]|].
        intros [Hq Ho]. split; [done|]. auto.
    + intros q f. by rewrite J3, H5.
    + etransitivity; [exact J4|]. rewrite <- El1. generalize (Panel.store p2), (if lost names (r :: rs) p then None else Panel.selected p). intros st x. by rewrite E6.
    + by rewrite J5, El2, app_assoc.
Qed.

(** *** Every update *)

Lemma refreshHealth_frame now p :
  let '(p', os) := Panel.refreshHealth now p in
  Panel.store p' = Panel.store p /\ Panel.selected p' = Panel.selected p /\
  Panel.rendered p' = Panel.rendered p /\ Panel.filterType p' = Panel.filterType p /\
  Panel.SelectionChange ∉ os /\ Panel.show_zero p' = Panel.show_zero p.
Proof.
  unfold Panel.refreshHealth. repeat case_match; simplify_eq; split_and!; try done;
    try (by apply not_elem_of_nil); by rewrite list_elem_of_singleton.
Qed.

Lemma frame_ok p p' :
  Panel.store p' = Panel.store p -> Panel.selected p' = Panel.selected p ->
  Panel.rendered p' = Panel.rendered p -> panel_ok p -> panel_ok p'.
Proof. intros E1 E2 E3 [H1 H2 H3 H4]. unfold rows in *. split; unfold rows; by rewrite ?E1, ?E2, ?E3. Qed.

Lemma select_ok i p : panel_ok p -> panel_ok (Panel.select i p).1.
Proof.
  intros [H1 H2 H3 H4]. unfold Panel.select. cbv zeta. cbn [Panel.rendered Panel.with_selected Panel.store].
  destruct (Panel.rendered p) eqn:E; [destruct (Store.getAt _ i) as [r|] eqn:Er|]; split; try done.
  intros q [= <-]. split; [|done]. by eapply list_elem_of_lookup_2.
Qed.

Section properties.
Variable zero : bool.
Variable tr : string -> string.
Variable now : Z.

(** The panel before the selection is settled. *)
Lemma rows_settled sent p :
  panel_ok p -> NoDup sent.*1 ->
  exists p2 os2,
    Panel.updateStates zero tr now sent p =
      (let '(p3, os') := match Panel.selected p2 with Some _ => (p2, []) | None => Panel.select 0 p2 end in
       let '(p4, os'') := Panel.refreshHealth now p3 in (p4, os2 ++ os' ++ os'')) /\
    panel_ok p2 /\ Panel.rendered p2 = Panel.rendered p /\ Panel.filterType p2 = Panel.filterType p /\
    (forall k, is_Some (Store.getById (Panel.store p2) k) <-> k ∈ (Panel.shown zero p sent).*1) /\
    (forall s, s ∈ Panel.shown zero p sent ->
       exists r, Store.getById (Panel.store p2) s.1 = Some r /\ row_of tr p (Panel.store p2) s r) /\
    (Panel.selected p2 = if lost (Panel.shown zero p sent).*1 (rows p) p then None else Panel.selected p) /\
    Panel.show_zero p2 = Panel.show_zero p /\
    os2 = (if lost (Panel.shown zero p sent).*1 (rows p) p then [Panel.SelectionChange] else []).
Proof.
  intros Hp Hnd. unfold Panel.updateStates. cbv zeta.
  set (p0 := Panel.with_states p _). change (Panel.shown zero p0 sent) with (Panel.shown zero p sent).
  set (sh := Panel.shown zero p sent).
  assert (Hp0 : panel_ok p0) by by apply (frame_ok p p0).
  assert (Hsh : NoDup sh.*1).
  { unfold sh, Panel.shown. destruct (default _ _); [done|]. by apply NoDup_filter_names. }
  unfold Ext.each. pose proof (update_rows_ok tr sh p0 [] 0 Hp0 Hsh) as H.
  destruct (Ext.each_go 0 sh (Panel.update_row tr) (p0, [])) as [p1 os1].
  destruct H as (-> & E1 & H1 & J1 & J2 & J3 & J4).
  unfold Store.each, MC.each.
  pose proof (remove_gone_ok sh.*1 (rows p1) p1 [] H1 (so_nodup _ (po_store _ H1)) ltac:(done)) as H.
  change (MC.items (items (Panel.store p1))) with (rows p1).
  destruct (MC.each_go (rows p1) (Panel.remove_gone sh.*1) (p1, [])) as [p2 os2].
  destruct H as (H2 & K1 & K2 & E2 & ->).
  destruct (commitChanges_keeps (Panel.store p2) (so_changed _ (po_store _ H2))) as (C1 & C2 & _).
  set (p2' := Panel.with_store p2 (Store.commitChanges (Panel.store p2))).
  assert (Hp2 : panel_ok p2') by by apply refs_panel_ok.
  assert (Hids : forall k, Store.getById (Panel.store p2') k = Store.getById (Panel.store p2) k).
  { intros k. unfold Store.getById. cbn [Panel.store Panel.with_store p2']. by rewrite (sr_items _ _ C1). }
  assert (Hsel1 : Panel.selected p1 = Panel.selected p) by by rewrite E1.
  assert (Hlost : lost sh.*1 (rows p1) p1 = lost sh.*1 (rows p) p).
  { unfold lost. rewrite Hsel1. destruct (Panel.selected p) as [r|] eqn:Er; [|done].
    destruct (po_selected _ Hp r Er) as [Hr _]. pose proof (row_by_id p r Hp Hr) as Hk.
    apply J2 in Hk. destruct (id_row p1 _ r H1 Hk) as (Hr1 & -> & _).
    by rewrite !(bool_decide_eq_true_2 (r ∈ _)) by done. }
  rewrite Hlost in E2 |- *.
  exists p2', (if lost sh.*1 (rows p) p then [Panel.SelectionChange] else []).
  split; [by destruct (lost _ _ _)|].
  assert (Hr2 : Panel.rendered p2 = Panel.rendered p) by (by rewrite E2, E1).
  assert (Hf2 : Panel.filterType p2 = Panel.filterType p) by (by rewrite E2, E1).
  assert (Hs2 : Panel.selected p2 = if lost sh.*1 (rows p) p then None else Panel.selected p)
    by (by rewrite E2, <- Hsel1).
  assert (Hz2 : Panel.show_zero p2 = Panel.show_zero p) by (by rewrite E2, E1).
  split_and!; [done..| | |done|done|done].
  - intros k. rewrite Hids. split.
    + intros [r Hr]. apply K1 in Hr as [Hr Hk]. apply Hk. by apply (id_row p1 k r H1 Hr).
    + intros Hk. apply list_elem_of_fmap in Hk as (s & -> & Hs).
      destruct (J1 s Hs) as (r & Hr & _). exists r. apply K1. split; [done|]. intros _. by apply list_elem_of_fmap_2.
  - intros s Hs. destruct (J1 s Hs) as (r & Hr & Hrow). exists r. rewrite Hids. split.
    + apply K1. split; [done|]. intros _. by apply list_elem_of_fmap_2.
    + unfold row_of in *. cbn [Panel.store Panel.with_store p2'].
      rewrite !(refs_get _ _ _ _ C1 C2), !K2. exact Hrow.
Qed.

(** Claim C25.  The panel shows what was sent: a row for every filter that is shown
    and no other, with its name, its count and its health; a selected filter
    that is still there stays selected, and nothing is said of it; a selection
    that is gone, or never was, becomes the first row, which is said once the
    list is drawn. *)
Theorem panel_shows_what_was_sent sent p :
  panel_ok p -> NoDup sent.*1 ->
  let '(p', os) := Panel.updateStates zero tr now sent p in
  let names := (Panel.shown zero p sent).*1 in
  panel_ok p' /\
  (forall k, is_Some (Store.getById (Panel.store p') k) <-> k ∈ names) /\
  (forall s, s ∈ Panel.shown zero p sent ->
     exists r, Store.getById (Panel.store p') s.1 = Some r /\ row_of tr p (Panel.store p') s r) /\
  (forall r, Panel.selected p = Some r ->
     if decide (id (record_at (Panel.store p) r) ∈ names)
     then Panel.selected p' = Some r /\ Panel.SelectionChange ∉ os
     else Panel.selected p' = Store.getAt (Panel.store p') 0 /\ Panel.SelectionChange ∈ os) /\
  (Panel.selected p = None -> Panel.rendered p = true ->
     Panel.selected p' = Store.getAt (Panel.store p') 0 /\
     (names <> [] -> Panel.SelectionChange ∈ os)).
Proof.
  intros Hp Hnd. destruct (rows_settled sent p Hp Hnd) as (p2 & os2 & -> & H1 & H2 & H3 & H4 & H5 & H6 & _ & ->).
  set (names := (Panel.shown zero p sent).*1) in *.
  pose proof (select_ok 0 p2 H1) as Hso.
  assert (Hsel : forall p3 os', Panel.select 0 p2 = (p3, os') ->
    Panel.store p3 = Panel.store p2 /\ Panel.rendered p3 = Panel.rendered p2 /\
    (Panel.rendered p = true -> Panel.selected p3 = Store.getAt (Panel.store p2) 0 /\
      (names <> [] -> Panel.SelectionChange ∈ os'))).
  { intros p3 os'. unfold Panel.select. cbv zeta. cbn [Panel.rendered Panel.with_selected Panel.store].
    rewrite H2. destruct (Panel.rendered p); [|by intros [= <- <-]].
    destruct (Store.getAt (Panel.store p2) 0) as [q|] eqn:Eq; intros [= <- <-]; split_and!; try done; intros _;
      (split; [done|]); intros Hn; [by left|]. exfalso.
    destruct names as [|n ns]; [done|]. destruct (proj2 (H4 n) ltac:(by left)) as [r Hr].
    destruct (id_row p2 n r H1 Hr) as (Hr1 & _ & _). unfold Store.getAt, MC.itemAt in Eq. unfold rows in Hr1.
    destruct (MC.items (items (Panel.store p2))); [by apply elem_of_nil in Hr1|done]. }
  assert (Hlost : forall r, Panel.selected p = Some r ->
    lost names (rows p) p = bool_decide (id (record_at (Panel.store p) r) ∉ names)).
  { intros r Hr. unfold lost. rewrite Hr. destruct (po_selected _ Hp r Hr) as [Hin _].
    by rewrite bool_decide_eq_true_2. }
  set (mid := match Panel.selected p2 with Some _ => (p2, []) | None => Panel.select 0 p2 end).
  assert (Hm : panel_ok mid.1 /\ Panel.store mid.1 = Panel.store p2).
  { unfold mid. destruct (Panel.selected p2); [done|]. split; [done|].
    destruct (Panel.select 0 p2) as [p3 os'] eqn:E. by destruct (Hsel _ _ eq_refl). }
  destruct mid as [p3 os'] eqn:Em. unfold mid in Em. cbn [fst] in Hm. destruct Hm as [Hm1 Hm2].
  pose proof (refreshHealth_frame now p3) as Hf. destruct (Panel.refreshHealth now p3) as [p4 os''].
  destruct Hf as (F1 & F2 & F3 & F4 & F5 & _). cbv zeta. rewrite F1, Hm2, F2.
  split_and!; [by apply (frame_ok p3 p4)|done|done| |].
  - intros r Hr. rewrite (Hlost r Hr) in *. case_decide as Hd.
    + rewrite bool_decide_eq_false_2 in * by (by intros Hx; apply Hx). rewrite Hr in H6. rewrite H6 in Em.
      injection Em as <- <-. split; [done|]. by rewrite !app_nil_l.
    + rewrite bool_decide_eq_true_2 in * by done. rewrite H6 in Em.
      destruct (po_selected _ Hp r Hr) as [_ Hrd]. destruct (Hsel _ _ Em) as (_ & _ & Hs3).
      destruct (Hs3 Hrd) as [Hs4 _]. split; [done|]. apply elem_of_app. left. by left.
  - intros Hn Hrd. assert (Hl : lost names (rows p) p = false) by (unfold lost; by rewrite Hn).
    rewrite Hl, Hn in H6. rewrite H6 in Em. destruct (Hsel _ _ Em) as (_ & _ & Hs3).
    destruct (Hs3 Hrd) as [Hs4 Hs5]. split; [done|]. intros Hne. rewrite !elem_of_app. right. left. by apply Hs5.
Qed.

(** What an update leaves of a panel besides its rows. *)
Lemma updateStates_frame sent p :
  panel_ok p -> NoDup sent.*1 ->
  let p' := (Panel.updateStates zero tr now sent p).1 in
  Panel.filterType p' = Panel.filterType p /\ Panel.show_zero p' = Panel.show_zero p.
Proof.
  intros Hp Hnd. destruct (rows_settled sent p Hp Hnd) as (p2 & os2 & -> & _ & _ & H3 & _ & _ & _ & H7 & _).
  assert (Hs : Panel.filterType (Panel.select 0 p2).1 = Panel.filterType p2 /\
               Panel.show_zero (Panel.select 0 p2).1 = Panel.show_zero p2).
  { unfold Panel.select. cbv zeta. by repeat case_match. }
  set (mid := match Panel.selected p2 with Some _ => (p2, []) | None => Panel.select 0 p2 end).
  assert (Hm : Panel.filterType mid.1 = Panel.filterType p2 /\ Panel.show_zero mid.1 = Panel.show_zero p2).
  { unfold mid. by case_match. }
  destruct mid as [p3 os']. cbn [fst] in Hm. pose proof (refreshHealth_frame now p3) as Hf.
  destruct (Panel.refreshHealth now p3) as [p4 os'']. cbn [fst]. destruct Hf as (_ & _ & _ & -> & _ & ->).
  destruct Hm as [-> ->]. done.
Qed.
End properties.

(** ** The sidebar *)

(** The items are the panels, each under its own name, and the open one is one
    of them. *)
Record sidebar_ok (s : Sidebar.sidebar) : Prop := {
  sb_items : forall f, f ∈ Sidebar.items s <-> is_Some (oget f (Sidebar.panels s));
  sb_nodup : NoDup (Sidebar.items s);
  sb_keys : obj_ok (Sidebar.panels s);
  sb_panel : forall f p, oget f (Sidebar.panels s) = Some p -> panel_ok p /\ Panel.filterType p = f;
  sb_active : forall a, Sidebar.activeItem s = Some a -> a ∈ Sidebar.items s
}.

Lemma empty_sidebar_ok : sidebar_ok Sidebar.empty.
Proof.
  split; simpl; try done; [|apply NoDup_nil_2|apply nil_ok].
  intros f. split; [by intros ?%elem_of_nil|by intros [? ?]].
Qed.

(** A panel replaced by one of the same filter, or one more. *)
Lemma put_panel s f p :
  sidebar_ok s -> panel_ok p -> Panel.filterType p = f -> f ∈ Sidebar.items s ->
  sidebar_ok (Sidebar.mk (oset f p (Sidebar.panels s)) (Sidebar.items s) (Sidebar.activeItem s)).
Proof.
  intros [H1 H2 H3 H4 H5] Hp Hf Hin. split; cbn [Sidebar.panels Sidebar.items Sidebar.activeItem]; try done.
  - intros g. rewrite oget_oset. case_decide as E; [subst; split; [by eexists|done]|apply H1].
  - by apply oset_ok.
  - intros g q. rewrite oget_oset. case_decide as E; [intros [= <-]; by subst|apply H4].
Qed.

Lemma add_panel s f p a :
  sidebar_ok s -> panel_ok p -> Panel.filterType p = f -> oget f (Sidebar.panels s) = None ->
  (a = Sidebar.activeItem s \/ a = Some f) ->
  sidebar_ok (Sidebar.mk (oset f p (Sidebar.panels s)) (Sidebar.items s ++ [f]) a).
Proof.
  intros [H1 H2 H3 H4 H5] Hp Hf Hn Ha.
  assert (Hni : f ∉ Sidebar.items s) by (rewrite H1, Hn; by intros [? ?]).
  split; cbn [Sidebar.panels Sidebar.items Sidebar.activeItem].
  - intros g. rewrite elem_of_app, list_elem_of_singleton, oget_oset. case_decide as E.
    + subst. split; [by eexists|by right].
    + rewrite H1. naive_solver.
  - apply NoDup_app. split_and!; [done| |apply NoDup_singleton].
    intros g Hg ->%list_elem_of_singleton. done.
  - by apply oset_ok.
  - intros g q. rewrite oget_oset. case_decide as E; [intros [= <-]; by subst|apply H4].
  - intros b Hb. rewrite elem_of_app, list_elem_of_singleton.
    destruct Ha as [-> | ->]; [left; by apply H5|right; congruence].
Qed.

(** A panel taken away, with its item. *)
Lemma drop_panel s f :
  sidebar_ok s ->
  sidebar_ok (Sidebar.mk (odel f (Sidebar.panels s)) (Sidebar.items (Sidebar.remove f s))
                (Sidebar.activeItem (Sidebar.remove f s))).
Proof.
  intros [H1 H2 H3 H4 H5]. unfold Sidebar.remove. cbn [Sidebar.panels Sidebar.items Sidebar.activeItem].
  assert (Hin : forall g l, g ∈ List.filter (fun g => negb (bool_decide (g = f))) l <-> g <> f /\ g ∈ l).
  { intros g l. rewrite list_elem_of_In, List.filter_In, <- list_elem_of_In, negb_true_iff, bool_decide_eq_false.
    tauto. }
  split; cbn [Sidebar.panels Sidebar.items Sidebar.activeItem].
  - intros g. rewrite Hin, oget_odel, H1. case_decide as E; [subst; split; [tauto|by intros [? ?]]|tauto].
  - apply NoDup_ListNoDup, List.NoDup_filter. by apply NoDup_ListNoDup.
  - by apply odel_ok.
  - intros g q. rewrite oget_odel. case_decide; [done|apply H4].
  - intros b. case_decide as E; [done|]. intros Hb. apply Hin. split; [congruence|by apply H5].
Qed.

Lemma ordered_elem filters f : f ∈ Sidebar.ordered filters <-> is_Some (oget f filters).
Proof.
  unfold Sidebar.ordered. rewrite (each_fold_ext _ (fun l name => if bool_decide (name ∈ l) then l else l ++ [name])).
  2: { intros l name i. by case_bool_decide. }
  assert (H : forall ks l, f ∈ foldl (fun l name => if bool_decide (name ∈ l) then l else l ++ [name]) l ks <->
    f ∈ l \/ f ∈ ks).
  { induction ks as [|k ks IH]; intros l; cbn [foldl]; [rewrite elem_of_nil; tauto|].
    rewrite IH, elem_of_cons. case_bool_decide; rewrite ?elem_of_app, ?list_elem_of_singleton; naive_solver. }
  rewrite H. unfold Ext.keys. rewrite okeys_elem. split; [|by right]. intros [Hf|]; [|done].
  apply list_elem_of_In, List.filter_In in Hf as [_ Hf]. by apply bool_decide_eq_true in Hf.
Qed.

Lemma cleanup_ok filters fs s :
  sidebar_ok s ->
  let s' := foldl (Sidebar.cleanup filters) s fs in
  sidebar_ok s' /\
  (forall g, oget g (Sidebar.panels s') =
     if decide (g ∈ fs /\ oget g filters = None) then None else oget g (Sidebar.panels s)).
Proof.
  revert s. induction fs as [|f fs IH]; intros s Hs; cbn [foldl].
  - split; [done|]. intros g. rewrite decide_False; [done|]. by intros [?%elem_of_nil _].
  - unfold Sidebar.cleanup at 2 4. case_bool_decide as E; unfold Ext.keys in E; rewrite okeys_elem in E.
    + destruct (IH s Hs) as [H1 H2]. split; [done|]. intros g. rewrite H2.
      apply decide_ext; [|done..]. rewrite elem_of_cons.
      split; [tauto|]. intros [[->|?] Hn]; [|done]. rewrite Hn in E. by destruct E.
    + destruct (IH _ (drop_panel s f Hs)) as [H1 H2]. split; [exact H1|]. intros g.
      etransitivity; [apply H2|]. cbn [Sidebar.panels]. rewrite oget_odel.
      assert (Hn : oget f filters = None) by (apply eq_None_not_Some; done).
      destruct (decide (g = f)) as [->|Hne].
      * rewrite (decide_True (P := f ∈ f :: fs /\ _)) by (split; [by left|done]). by case_decide.
      * apply decide_ext; [|done..]. rewrite elem_of_cons. tauto.
Qed.

Lemma states_fold s fs states k :
  sidebar_ok s ->
  oget k (foldl (fun states filter =>
      match oget filter (Sidebar.panels s) with
      | Some p => match Panel.getState p with
                  | Some v => oset (Panel.filterType p) (VPrim (PStr v)) states
                  | None => states
                  end
      | None => states
      end) states fs) =
  match (if decide (k ∈ fs) then oget k (Sidebar.panels s) ≫= Panel.getState else None) with
  | Some v => Some (VPrim (PStr v))
  | None => oget k states
  end.
Proof.
  intros Hs. revert states. induction fs as [|f fs IH]; intros states; cbn [foldl]; [done|].
  rewrite IH. clear IH. destruct (oget f (Sidebar.panels s)) as [p|] eqn:E; cycle 1.
  { destruct (decide (k = f)) as [->|Hne].
    - rewrite E. cbn [mbind option_bind]. by destruct (decide _), (decide _).
    - rewrite (decide_ext (k ∈ f :: fs) (k ∈ fs)) by (rewrite elem_of_cons; tauto). done. }
  destruct (sb_panel _ Hs f p E) as [_ Hf]. rewrite Hf. destruct (decide (k = f)) as [->|Hne].
  - rewrite E. cbn [mbind option_bind]. rewrite (decide_True (P := f ∈ f :: fs)) by by left.
    destruct (Panel.getState p) as [v|]; destruct (decide (f ∈ fs)); rewrite ?oget_oset_eq; done.
  - rewrite (decide_ext (k ∈ f :: fs) (k ∈ fs)) by (rewrite elem_of_cons; tauto).
    destruct (if decide (k ∈ fs) then _ else _); [done|].
    destruct (Panel.getState p); [by rewrite oget_oset_ne|done].
Qed.

Section sidebar.
Variable zero : bool.
Variable tr : string -> string.
Variable now : Z.
Variable laid : string -> bool.

(** A panel whose rows are the filters sent that are shown. *)
Definition panel_shows (sent : list (string * prim)) (p : Panel.panel) : Prop :=
  forall k, is_Some (Store.getById (Panel.store p) k) <-> k ∈ (Panel.shown zero p sent).*1.

Lemma updated_panel sent p :
  panel_ok p -> NoDup sent.*1 ->
  let p' := (Panel.updateStates zero tr now sent p).1 in
  panel_ok p' /\ Panel.filterType p' = Panel.filterType p /\ panel_shows sent p'.
Proof.
  intros Hp Hnd. pose proof (panel_shows_what_was_sent zero tr now sent p Hp Hnd) as H.
  destruct (updateStates_frame zero tr now sent p Hp Hnd) as [F1 F2].
  destruct (Panel.updateStates zero tr now sent p) as [p' os]. cbn [fst] in *.
  destruct H as (H1 & H2 & _). split_and!; [done|done|]. intros k. rewrite H2. unfold Panel.shown. by rewrite F2.
Qed.

(** An answer: no filter twice in a group, no group twice. *)
Definition answer_ok (filters : obj (list (string * prim))) : Prop :=
  obj_ok filters /\ forall f sent, oget f filters = Some sent -> NoDup sent.*1.

Notation update_one := (Sidebar.update_one zero tr now laid).

Lemma update_one_ok filters s os f :
  answer_ok filters -> sidebar_ok s ->
  let s' := (update_one filters (s, os) f).1 in
  sidebar_ok s' /\ (forall g, g <> f -> oget g (Sidebar.panels s') = oget g (Sidebar.panels s)) /\
  exists p, oget f (Sidebar.panels s') = Some p /\ panel_shows (default [] (oget f filters)) p.
Proof.
  intros [_ Ha] Hs. unfold Sidebar.update_one. set (sent := default [] (oget f filters)).
  assert (Hnd : NoDup sent.*1).
  { unfold sent. destruct (oget f filters) as [l|] eqn:E; [by eapply Ha|apply NoDup_nil_2]. }
  destruct (oget f (Sidebar.panels s)) as [p|] eqn:E.
  - destruct (sb_panel _ Hs f p E) as [Hp Hf]. destruct (updated_panel sent p Hp Hnd) as (H1 & H2 & H3).
    destruct (Panel.updateStates zero tr now sent p) as [p' os']. cbn [fst] in *.
    split_and!.
    + apply put_panel; [done|done|congruence|]. apply (sb_items _ Hs). by eexists.
    + intros g Hg. cbn [Sidebar.panels]. by rewrite oget_oset_ne.
    + exists p'. cbn [Sidebar.panels]. by rewrite oget_oset_eq.
  - unfold Sidebar.createFilter.
    destruct (updated_panel sent (Panel.create f (laid f)) (create_ok f (laid f)) Hnd) as (H1 & H2 & H3).
    destruct (Panel.updateStates zero tr now sent (Panel.create f (laid f))) as [p' os']. cbn [fst] in *.
    split_and!.
    + apply add_panel; try done. destruct (Sidebar.activeItem s); [by left|by right].
    + intros g Hg. cbn [Sidebar.panels]. by rewrite oget_oset_ne.
    + exists p'. cbn [Sidebar.panels]. by rewrite oget_oset_eq.
Qed.

Lemma update_all_ok filters fs s os :
  answer_ok filters -> sidebar_ok s ->
  let s' := (foldl (update_one filters) (s, os) fs).1 in
  sidebar_ok s' /\
  (forall g, g ∉ fs -> oget g (Sidebar.panels s') = oget g (Sidebar.panels s)) /\
  (forall f, f ∈ fs -> exists p, oget f (Sidebar.panels s') = Some p /\
     panel_shows (default [] (oget f filters)) p).
Proof.
  intros Ha. revert s os. induction fs as [|f fs IH]; intros s os Hs; cbn [foldl].
  - split_and!; [done|done|]. intros f Hf. by apply elem_of_nil in Hf.
  - destruct (update_one_ok filters s os f Ha Hs) as (H1 & H2 & H3).
    destruct (update_one filters (s, os) f) as [s1 os1]. cbn [fst] in *.
    destruct (IH s1 os1 H1) as (J1 & J2 & J3). split_and!; [done| |].
    + intros g [Hg Hg']%not_elem_of_cons. by rewrite J2, H2.
    + intros g Hg. destruct (decide (g ∈ fs)) as [Hin|Hin]; [by apply J3|].
      apply elem_of_cons in Hg as [->|]; [|done]. destruct H3 as (p & Hp & Hsh). exists p. by rewrite J2.
Qed.

(** The sidebar follows the answer: after an update there is a panel for
    every group of filters sent and for no other, each under its own name and
    showing what was sent, and the open one is one of them. *)
Theorem sidebar_follows filters s :
  answer_ok filters -> sidebar_ok s ->
  let s' := (Sidebar.update zero tr now laid filters s).1 in
  sidebar_ok s' /\
  (forall f, Sidebar.hasFilter f s' = true <-> is_Some (oget f filters)) /\
  (forall f sent, oget f filters = Some sent ->
     exists p, Sidebar.getFilter f s' = Some p /\ Panel.filterType p = f /\ panel_shows sent p).
Proof.
  intros Ha Hs. unfold Sidebar.update.
  destruct (update_all_ok filters (Sidebar.ordered filters) s [] Ha Hs) as (H1 & H2 & H3).
  destruct (foldl (update_one filters) (s, []) (Sidebar.ordered filters)) as [s1 os]. cbn [fst] in *.
  destruct (cleanup_ok filters (Ext.keys (Sidebar.panels s1)) s1 H1) as [J1 J2].
  set (s' := foldl (Sidebar.cleanup filters) s1 _) in *. clearbody s'.
  assert (Hin : forall g, is_Some (oget g filters) -> exists p,
    oget g (Sidebar.panels s') = Some p /\ panel_shows (default [] (oget g filters)) p).
  { intros g Hg. destruct (H3 g) as (p & Hp & Hsh); [by apply ordered_elem|]. exists p. split; [|done].
    rewrite J2, decide_False; [done|]. intros [_ E]. rewrite E in Hg. by destruct Hg. }
  assert (Hout : forall g, is_Some (oget g (Sidebar.panels s')) -> is_Some (oget g filters)).
  { intros g. rewrite J2. case_decide as E; [by intros [? ?]|]. intros Hg.
    destruct (oget g filters) eqn:Eg; [by eexists|]. destruct E. split; [|done].
    unfold Ext.keys. by apply okeys_elem. }
  split_and!; [done| |].
  - intros f. unfold Sidebar.hasFilter, Sidebar.getFilter. rewrite bool_decide_eq_true.
    split; [apply Hout|]. intros Hf. destruct (Hin f Hf) as (p & -> & _). by eexists.
  - intros f sent Hf. destruct (Hin f) as (p & Hp & Hsh); [by eexists|]. exists p.
    rewrite Hf in Hsh. split_and!; [done|by apply (sb_panel _ J1 f p)|done].
Qed.

End sidebar.

(** What the sidebar asks for is what is selected in it: every filter asked
    for is the id of the selected row of the panel of that name, never "All";
    with one filter at a time only the open panel asks, and asks for nothing
    when "All" is selected; with several, every panel that has a row other
    than "All" selected asks for it. *)
Theorem filters_asked multiple s :
  sidebar_ok s ->
  let states := Sidebar.getFilterStates multiple s in
  (forall k v, oget k states = Some v -> exists p, Sidebar.getFilter k s = Some p /\
     match v with
     | VPrim (PStr name) => name <> "All" /\
         exists r, Panel.selected p = Some r /\ r ∈ rows p /\ id (record_at (Panel.store p) r) = name
     | VPrim PUndef => multiple = false /\ Panel.getState p = None
     | _ => False
     end) /\
  (multiple = false -> forall k, is_Some (oget k states) -> Sidebar.activeItem s = Some k) /\
  (multiple = true -> forall k p name, Sidebar.getFilter k s = Some p -> Panel.getState p = Some name ->
     oget k states = Some (VPrim (PStr name))).
Proof.
  intros Hs. unfold Sidebar.getFilterStates, Sidebar.getFilter. cbv zeta.
  assert (Hst : forall k p name, oget k (Sidebar.panels s) = Some p -> Panel.getState p = Some name ->
    name <> "All" /\ exists r, Panel.selected p = Some r /\ r ∈ rows p /\ id (record_at (Panel.store p) r) = name).
  { intros k p name Hk. destruct (sb_panel _ Hs k p Hk) as [Hp _]. unfold Panel.getState.
    destruct (Panel.selected p) as [r|] eqn:Er; [|done]. cbv zeta. case_decide as E; [done|]. intros [= <-].
    split; [done|]. exists r. split_and!; [done|by apply (po_selected _ Hp)|done]. }
  destruct multiple.
  - split_and!; [|done|].
    + intros k v. rewrite states_fold by done. case_decide as Hk; [|done].
      destruct (oget k (Sidebar.panels s)) as [p|] eqn:E; [|done]. cbn [mbind option_bind].
      destruct (Panel.getState p) as [name|] eqn:En; [|done]. intros [= <-]. exists p. split; [done|].
      by apply (Hst k).
    + intros _ k p name Hk Hn. rewrite states_fold by done.
      rewrite decide_True by (apply (sb_items _ Hs); by eexists). rewrite Hk. cbn [mbind option_bind]. by rewrite Hn.
  - destruct (Sidebar.activeItem s) as [a|] eqn:Ea; cbn [mbind option_bind]; [|split_and!; try done; by intros _ k [? ?]].
    destruct (oget a (Sidebar.panels s)) as [p|] eqn:E; cycle 1.
    { split_and!; try done. by intros _ k [? ?]. }
    destruct (sb_panel _ Hs a p E) as [_ Hf]. rewrite Hf. split_and!; [| |done].
    + intros k v. cbn [oget]. case_decide as Ek; [|done]. intros [= <-]. subst k. exists p. split; [done|].
      destruct (Panel.getState p) as [name|] eqn:En; [by apply (Hst a)|done].
    + intros _ k. cbn [oget]. case_decide as Ek; [by subst|by intros [? ?]].
Qed.

(** ** The properties at concrete inputs *)

Definition sent_states : list (string * prim) := [("All", pint 3); ("Downloading", pint 2); ("Paused", pint 0)].
Definition sent_filters : obj (list (string * prim)) := [("state", sent_states)].
Definition first_sidebar : Sidebar.sidebar :=
  (Sidebar.update false (fun s => s) 0 (fun _ => true) sent_filters Sidebar.empty).1.

Lemma panel_shows_what_was_sent_witness :
  let '(p', os) := Panel.updateStates false (fun s => s) 0 sent_states (Panel.create "state" true) in
  Panel.selected p' = Store.getAt (Panel.store p') 0 /\ Panel.SelectionChange ∈ os.
Proof.
  pose proof (panel_shows_what_was_sent false (fun s => s) 0 sent_states (Panel.create "state" true)
                (create_ok "state" true)) as H.
  destruct (Panel.updateStates false (fun s => s) 0 sent_states (Panel.create "state" true)) as [p' os].
  destruct H as (_ & _ & _ & _ & H); [apply (bool_decide_unpack _); by vm_compute|].
  destruct (H eq_refl eq_refl) as [H1 H2]. split; [exact H1|]. by apply H2.
Defined.

Lemma sent_filters_ok : answer_ok sent_filters.
Proof.
  split; [apply (bool_decide_unpack _); by vm_compute|]. intros f sent. simpl.
  destruct (decide (f = "state")); [|done]. intros [= <-]. apply (bool_decide_unpack _). by vm_compute.
Qed.

Lemma sidebar_follows_witness :
  Sidebar.hasFilter "state" first_sidebar = true <-> is_Some (oget "state" sent_filters).
Proof.
  apply (sidebar_follows false (fun s => s) 0 (fun _ => true) sent_filters Sidebar.empty
           sent_filters_ok empty_sidebar_ok).
Defined.

Lemma first_sidebar_ok : sidebar_ok first_sidebar.
Proof.
  destruct (update_all_ok false (fun s => s) 0 (fun _ => true) sent_filters (Sidebar.ordered sent_filters)
              Sidebar.empty [] sent_filters_ok empty_sidebar_ok) as [H _].
  pose proof (cleanup_ok sent_filters (Ext.keys (Sidebar.panels
    (foldl (Sidebar.update_one false (fun s => s) 0 (fun _ => true) sent_filters) (Sidebar.empty, [])
       (Sidebar.ordered sent_filters)).1)) _ H) as [H2 _].
  unfold first_sidebar, Sidebar.update. destruct (foldl _ (Sidebar.empty, []) _). exact H2.
Qed.

Lemma filters_asked_witness : Sidebar.activeItem first_sidebar = Some "state".
Proof.
  apply (filters_asked false first_sidebar first_sidebar_ok); [done|].
  apply (bool_decide_unpack _). by vm_compute.
Defined.
