(* ===== verification/EventsManager.v ===== *)
(** * Ext.util.Event and Deluge.EventsManager

    [Event] is one event of an observable object: its listeners, in an array
    that is copied before it is changed while the event is being fired.
    [Manager] is the loop that asks the server for its events, one call after
    another. *)

From stdpp Require Import base list strings gmap.
From Stdlib Require Import Lia ZArith.
From S2P Require Import Prelude JsNum JsString JsValue ExtCore.

Local Open Scope nat_scope.

Module Event.

(** A listener: its function and scope, by name, and whether it is removed as
    it is called. *)
Record listener := mkl { fn : nat; scope : nat; single : bool }.

#[global] Instance listener_eq_dec : EqDecision listener.
Proof. solve_decision. Defined.

(** The arrays there are, the one [listeners] refers to, and [firing]. *)
Record event := mk { arrays : gmap loc (list listener); listeners : loc; firing : bool }.

Definition array (a : loc) (e : event) : list listener := default [] (arrays e !! a).
Definition write (a : loc) (l : list listener) (e : event) : event :=
  mk (<[a := l]> (arrays e)) (listeners e) (firing e).
Definition with_firing (b : bool) (e : event) : event := mk (arrays e) (listeners e) b.

(** A new event, and [listeners.slice(0)] kept as the listeners. *)
Definition create : event := mk {[1%positive := []]} 1%positive false.
Definition slice (e : event) : event :=
  let a := fresh (dom (arrays e)) in
  mk (<[a := array (listeners e) e]> (arrays e)) a (firing e).

(** [findListener]: from the end. *)
Fixpoint find_from (f s : nat) (l : list listener) (i : nat) : option nat :=
  match l with
  | [] => None
  | x :: l' =>
      match find_from f s l' (S i) with
      | Some j => Some j
      | None => if decide (fn x = f /\ scope x = s) then Some i else None
      end
  end.
Definition findListener (f s : nat) (e : event) : option nat := find_from f s (array (listeners e) e) 0.
Definition isListening (f s : nat) (e : event) : bool := bool_decide (is_Some (findListener f s e)).

(** [addListener] *)
Definition addListener (l : listener) (e : event) : event :=
  if isListening (fn l) (scope l) e then e
  else
    let e := if firing e then slice e else e in
    write (listeners e) (array (listeners e) e ++ [l]) e.

(** [removeListener] *)
Definition removeListener (f s : nat) (e : event) : event :=
  match findListener f s e with
  | Some i =>
      let e := if firing e then slice e else e in
      write (listeners e) (delete i (array (listeners e) e)) e
  | None => e
  end.

(** [clearListeners]: over the array there was, from its end, read as it is
    being changed. *)
Definition clearListeners (e : event) : event :=
  let a := listeners e in
  foldl (fun e i => match array a e !! i with
                    | Some l => removeListener (fn l) (scope l) e
                    | None => e
                    end) e (reverse (seq 0 (length (array a e)))).

(** What a listener does to the event while it is called. *)
Inductive action := Add (l : listener) | Remove (f s : nat) | Clear | Fire.

Section fire.
(** What each listener does, and whether it answers [false]. *)
Variable react : listener -> list action * bool.

(** The loop of [fire] over the array [a], and the listeners called so far;
    [act] is what an action of a listener does. *)
Fixpoint go (act : event * list listener -> action -> event * list listener) (a : loc)
    (ids : list nat) (el : event * list listener) : event * bool * list listener :=
  match ids with
  | [] => (with_firing false el.1, true, el.2)
  | i :: ids' =>
      match array a el.1 !! i with
      | None => go act a ids' el
      | Some l =>
          let e := if single l then removeListener (fn l) (scope l) el.1 else el.1 in
          let el := foldl act (e, el.2 ++ [l]) (react l).1 in
          if (react l).2 then (with_firing false el.1, false, el.2) else go act a ids' el
      end
  end.

(** [fire]; the listeners called, in order.  The array is the one there was,
    read as the listeners change the event. *)
Fixpoint fire (fuel : nat) (e : event) : event * bool * list listener :=
  match fuel with
  | O => (e, true, [])
  | S fuel' =>
      let act (el : event * list listener) (x : action) : event * list listener :=
        match x with
        | Add l => (addListener l el.1, el.2)
        | Remove f s => (removeListener f s el.1, el.2)
        | Clear => (clearListeners el.1, el.2)
        | Fire => let '(e, _, called) := fire fuel' el.1 in (e, el.2 ++ called)
        end in
      let a := listeners e in
      let len := length (array a e) in
      if len =? 0 then (with_firing false e, true, []) else go act a (seq 0 len) (with_firing true e, [])
  end.
End fire.

End Event.

(** ** The loop of the server's events *)

Module Manager.

(** [toRegister], [running], [errorCount], whether [deluge.client] is there;
    and, of the browser, the calls to [get_events] that are in flight. *)
Record state := mk {
  toRegister : list string;
  running : bool;
  errorCount : Z;
  client : bool;
  inFlight : nat
}.

Definition start : state := mk [] false 0 false 0.

Definition with_running s b := mk (toRegister s) b (errorCount s) (client s) (inFlight s).
Definition with_errors s n := mk (toRegister s) (running s) n (client s) (inFlight s).

(** What a handler asks of the server or fires here. *)
Inductive output := Register (name : string) | GetEvents | Fired (name : string) (args : list prim).

(** [getEvents] *)
Definition getEvents (s : state) : state * list output :=
  (mk (toRegister s) (running s) (errorCount s) (client s) (S (inFlight s)), [GetEvents]).

(** [addListener]: an event of the server is one whose name starts with a
    capital. *)
Definition is_upper (c : Ascii.ascii) : bool := (65 <=? code c) && (code c <=? 90).
Definition of_server (name : string) : bool :=
  match name with String.String c _ => is_upper c | EmptyString => false end.
Definition addListener (name : string) (s : state) : state * list output :=
  if of_server name then
    if client s then (s, [Register name])
    else (mk (toRegister s ++ [name]) (running s) (errorCount s) (client s) (inFlight s), [])
  else (s, []).

(** [start], [onLogin] and [stop] *)
Definition start_ (s : state) : state * list output :=
  let '(s', os) := getEvents (with_errors (with_running s true) 0) in
  (s', map Register (toRegister s) ++ os).
Definition onLogin (s : state) : state * list output := start_ s.
Definition stop (s : state) : state := with_running s false.

(** [onGetEventsSuccess]: an event is its name and its arguments. *)
Definition onGetEventsSuccess (events : option (list (string * list prim))) (s : state)
    : state * list output :=
  if negb (running s) then (s, [])
  else
    let fired := Ext.each (default [] events) (fun os e _ => (os ++ [Fired e.1 e.2], true)) [] in
    let '(s, os) := getEvents s in (s, fired ++ os).

(** [onGetEventsFailure] *)
Definition onGetEventsFailure (isTimeout : bool) (s : state) : state * list output :=
  if negb (running s) then (s, [])
  else if isTimeout then getEvents s
  else
    let n := errorCount s in
    let s := with_errors s (n + 1) in
    if (3 <=? n)%Z then (stop s, []) else getEvents s.

(** What may happen: an answer or a failure of a call in flight, and what the
    rest of the interface does. *)
Inductive event :=
  | Listen (name : string) | Client | Login | Stop
  | Answer (events : option (list (string * list prim))) | Failure (isTimeout : bool).

Definition landed (s : state) : option state :=
  match inFlight s with
  | O => None
  | S n => Some (mk (toRegister s) (running s) (errorCount s) (client s) n)
  end.

Definition step (s : state) (e : event) : option (state * list output) :=
  match e with
  | Listen name => Some (addListener name s)
  | Client => Some (mk (toRegister s) (running s) (errorCount s) true (inFlight s), [])
  | Login => Some (onLogin s)
  | Stop => Some (stop s, [])
  | Answer evs => s ← landed s; Some (onGetEventsSuccess evs s)
  | Failure t => s ← landed s; Some (onGetEventsFailure t s)
  end.

Definition steps : state -> list event -> option (state * list output) := run step.

End Manager.

(** ** Firing an event *)

Section firing.
Variable react : Event.listener -> list Event.action * bool.

(** The listeners up to the first that answers [false], that one included. *)
Fixpoint upto (l : list Event.listener) : list Event.listener :=
  match l with
  | [] => []
  | x :: l' => x :: if (react x).2 then [] else upto l'
  end.

(** What holds while an event is fired over the array [a] that held [snap]. *)
Record during (a : loc) (snap : list Event.listener) (e : Event.event) : Prop := {
  du_firing : Event.firing e = true;
  du_array : Event.arrays e !! a = Some snap;
  du_listeners : is_Some (Event.arrays e !! Event.listeners e)
}.

Lemma change_during a snap e (f : list Event.listener -> list Event.listener) :
  during a snap e ->
  during a snap (let e' := Event.slice e in
                 Event.write (Event.listeners e') (f (Event.array (Event.listeners e') e')) e').
Proof.
  intros [H1 H2 H3]. cbv zeta. unfold Event.slice, Event.write. cbn [Event.listeners Event.arrays Event.firing].
  set (b := fresh (dom (Event.arrays e))).
  assert (Hb : b <> a).
  { intros E. apply (is_fresh (dom (Event.arrays e))). fold b. rewrite E. by eapply elem_of_dom_2. }
  split; cbn [Event.listeners Event.arrays Event.firing]; [done|by rewrite !lookup_insert_ne|].
  rewrite lookup_insert_eq. by eexists.
Qed.

Lemma add_during a snap l e : during a snap e -> during a snap (Event.addListener l e).
Proof.
  intros H. unfold Event.addListener. destruct (Event.isListening _ _ e); [done|].
  rewrite (du_firing _ _ _ H). by apply (change_during a snap e (fun x => x ++ [l])).
Qed.

Lemma remove_during a snap f s e : during a snap e -> during a snap (Event.removeListener f s e).
Proof.
  intros H. unfold Event.removeListener. destruct (Event.findListener f s e) as [i|]; [|done].
  rewrite (du_firing _ _ _ H). by apply (change_during a snap e (delete i)).
Qed.

Lemma clear_during a snap e : during a snap e -> during a snap (Event.clearListeners e).
Proof.
  intros H. unfold Event.clearListeners. generalize (Event.listeners e) as b. intros b.
  generalize (reverse (seq 0 (length (Event.array b e)))). intros ids. revert e H.
  induction ids as [|i ids IH]; intros e H; cbn [foldl]; [done|]. apply IH.
  destruct (Event.array b e !! i); [by apply remove_during|done].
Qed.

Lemma acts_during a snap (act : Event.event * list Event.listener -> Event.action -> _) xs el :
  (forall x (el : Event.event * list Event.listener), x <> Event.Fire -> during a snap el.1 ->
     during a snap (act el x).1 /\ (act el x).2 = el.2) ->
  Event.Fire ∉ xs -> during a snap el.1 ->
  during a snap (foldl act el xs).1 /\ (foldl act el xs).2 = el.2.
Proof.
  intros Ha. revert el. induction xs as [|x xs IH]; intros el Hx Hd; cbn [foldl]; [done|].
  apply not_elem_of_cons in Hx as [Hx1 Hx2]. destruct (Ha x el) as [A1 A2]; [congruence|done|].
  destruct (IH (act el x) Hx2 A1) as [I1 I2]. split; [done|congruence].
Qed.

Lemma go_calls a snap (act : Event.event * list Event.listener -> Event.action -> _) i n el :
  (forall l, Event.Fire ∉ (react l).1) ->
  (forall x (el : Event.event * list Event.listener), x <> Event.Fire -> during a snap el.1 ->
     during a snap (act el x).1 /\ (act el x).2 = el.2) ->
  during a snap el.1 -> i + n = length snap ->
  let '(e', ret, called) := Event.go react act a (seq i n) el in
  called = el.2 ++ upto (drop i snap) /\
  ret = forallb (fun l => negb (react l).2) (drop i snap) /\ Event.firing e' = false.
Proof.
  intros Hn Ha. revert i el. induction n as [|n IH]; intros i el Hd Hi; cbn [seq Event.go].
  - rewrite drop_ge by lia. cbn [upto forallb]. by rewrite app_nil_r.
  - destruct (lookup_lt_is_Some_2 snap i) as [l Hl]; [lia|].
    unfold Event.array at 1. rewrite (du_array _ _ _ Hd). cbn [default from_option id]. rewrite Hl.
    rewrite (drop_S snap l i Hl). cbn [upto forallb].
    set (e1 := if Event.single l then _ else _).
    assert (H1 : during a snap e1) by (subst e1; destruct (Event.single l); [by apply remove_during|done]).
    destruct (acts_during a snap act (react l).1 (e1, el.2 ++ [l]) Ha (Hn l) H1) as [A1 A2].
    destruct (foldl act _ _) as [e2 called2]. cbn [fst snd] in A1, A2. subst called2.
    destruct (react l).2; cbn [negb andb].
    + done.
    + specialize (IH (S i) (e2, el.2 ++ [l]) A1 ltac:(lia)). cbn [fst snd] in IH.
      destruct (Event.go _ _ _ _ _) as [[e' ret] called]. destruct IH as (-> & -> & ->).
      by rewrite <- (app_assoc el.2).
Qed.

(** Claim C30.  As long as no listener fires the same event again, listeners are
    called as they were registered when the event was fired: each in its turn, up
    to the first that answers [false], whatever they add, remove or clear while
    they are called; and the answer says whether one did.  (A nested [fire] takes
    [firing] back, so that what is removed afterwards is removed from the array
    that is being gone through.) *)
Theorem fire_calls_snapshot fuel e :
  (forall l, Event.Fire ∉ (react l).1) ->
  let '(e', ret, called) := Event.fire react (S fuel) e in
  let snapshot := Event.array (Event.listeners e) e in
  called = upto snapshot /\ ret = forallb (fun l => negb (react l).2) snapshot /\
  Event.firing e' = false.
Proof.
  intros Hn. cbn [Event.fire]. set (a := Event.listeners e). set (snap := Event.array a e).
  destruct (length snap) as [|n] eqn:E; cbn [Nat.eqb].
  { apply nil_length_inv in E. by rewrite E. }
  match goal with |- context [Event.go react ?f] => set (act := f) end.
  assert (Hs : Event.arrays e !! a = Some snap).
  { revert E. subst snap. unfold Event.array. by destruct (Event.arrays e !! a). }
  pose proof (go_calls a snap act 0 (S n) (Event.with_firing true e, []) Hn) as H.
  destruct (Event.go _ _ _ _ _) as [[e' ret] called]. apply H; [|split; cbn; done|done].
  intros x el Hx Hd. destruct x; cbn; (split; [|done]);
    [by apply add_during|by apply remove_during|by apply clear_during|done].
Qed.
End firing.

(** The second of three listeners clears the event and adds a fourth, and the
    third answers [false]. *)
Definition one (n : nat) : Event.listener := Event.mkl n 0 (bool_decide (n = 1)).
Definition reacts (l : Event.listener) : list Event.action * bool :=
  if decide (Event.fn l = 2) then ([Event.Clear; Event.Add (one 4)], false)
  else ([], bool_decide (Event.fn l = 3)).
Definition three : Event.event := foldl (fun e n => Event.addListener (one n) e) Event.create [1; 2; 3].

Lemma fire_calls_snapshot_witness :
  (Event.fire reacts 1 three).2 = [one 1; one 2; one 3] /\
  Event.array (Event.listeners (Event.fire reacts 1 three).1.1) (Event.fire reacts 1 three).1.1 = [one 4].
Proof.
  split; [|vm_compute; reflexivity].
  pose proof (fire_calls_snapshot reacts 0 three) as H.
  destruct (Event.fire reacts 1 three) as [[e' ret] called]. cbn [snd]. destruct H as (-> & _).
  - intros l. unfold reacts. destruct (decide _); cbn; set_solver.
  - vm_compute. reflexivity.
Defined.

(** ** What the loop does *)

Definition is_call (e : Manager.event) : bool :=
  match e with Manager.Login | Manager.Stop => false | _ => true end.
Definition is_failure (e : Manager.event) : bool :=
  match e with Manager.Failure t => negb t | _ => false end.
Definition failures (es : list Manager.event) : nat := length (List.filter is_failure es).
Definition logins (es : list Manager.event) : nat :=
  length (List.filter (fun e => match e with Manager.Login => true | _ => false end) es).

(** The events an answer brings, and those that were fired. *)
Definition brought (e : Manager.event) : list (string * list prim) :=
  match e with Manager.Answer evs => default [] evs | _ => [] end.
Definition fired (os : list Manager.output) : list (string * list prim) :=
  omap (fun o => match o with Manager.Fired n args => Some (n, args) | _ => None end) os.

Lemma fired_app os os' : fired (os ++ os') = fired os ++ fired os'.
Proof. apply omap_app. Qed.

Lemma fired_each evs :
  fired (Ext.each evs (fun os e _ => (os ++ [Manager.Fired e.1 e.2], true)) []) = evs.
Proof.
  assert (H : forall os : list Manager.output,
    fired (foldl (fun os e => os ++ [Manager.Fired e.1 e.2]) os evs) = fired os ++ evs).
  { induction evs as [|e evs IH]; intros os; cbn [foldl]; [by rewrite app_nil_r|].
    rewrite IH, fired_app. cbn. rewrite <- app_assoc. by destruct e. }
  rewrite (each_fold (fun os e => os ++ [Manager.Fired e.1 e.2])). apply H.
Qed.

Lemma registers_fire_nothing names : fired (map Manager.Register names) = [].
Proof. by induction names. Qed.

(** What one step does to the loop: whether it runs, its failures and the
    calls in flight. *)
Lemma step_call s e s' os :
  is_call e = true -> Manager.step s e = Some (s', os) ->
  let failed := (is_failure e && Manager.running s)%bool in
  let stops := (failed && (3 <=? Manager.errorCount s)%Z)%bool in
  let lands := match e with Manager.Answer _ | Manager.Failure _ => true | _ => false end in
  Manager.running s' = (Manager.running s && negb stops)%bool /\
  Manager.errorCount s' = (Manager.errorCount s + if failed then 1 else 0)%Z /\
  Manager.inFlight s' + (if (lands && negb (Manager.running s'))%bool then 1 else 0) = Manager.inFlight s /\
  fired os = if Manager.running s then brought e else [].
Proof.
  destruct s as [tr r n c f]. destruct e as [name| | | |evs|t]; cbn [is_call]; try done; intros _.
  - cbn. unfold Manager.addListener. destruct (Manager.of_server name), c; cbn; intros [= <- <-]; cbn;
      repeat split; destruct r; cbn; try lia; done.
  - cbn. intros [= <- <-]. cbn. repeat split; destruct r; cbn; try lia; done.
  - unfold Manager.step, Manager.landed. destruct f as [|f]; [done|]. cbn [mbind option_bind].
    unfold Manager.onGetEventsSuccess, Manager.getEvents. destruct r; cbn -[Ext.each]; intros [= <- <-];
      cbn -[Ext.each]; rewrite ?fired_app, ?fired_each; cbn; rewrite ?app_nil_r; repeat split; lia || done.
  - unfold Manager.step, Manager.landed. destruct f as [|f]; [done|]. cbn [mbind option_bind].
    unfold Manager.onGetEventsFailure, Manager.getEvents.
    destruct r, t; cbn -[Z.leb Z.add]; try destruct (3 <=? n)%Z; cbn -[Z.leb Z.add]; intros [= <- <-];
      cbn -[Z.leb Z.add]; repeat split; lia || done.
Qed.

(** Claim C29.  After one login the loop keeps one call of [get_events] in flight for as
    long as at most three calls have failed other than by timing out, however
    many have succeeded in between; the fourth failure ends it; and every event
    an answer brought has been fired, in order. *)
Theorem events_loop s0 es s os :
  forallb is_call es = true -> Manager.inFlight s0 = 0 ->
  Manager.steps s0 (Manager.Login :: es) = Some (s, os) ->
  Manager.running s = (failures es <=? 3) /\
  Manager.inFlight s = (if Manager.running s then 1 else 0) /\
  fired os = concat (map brought es).
Proof.
  intros Hc H0 Hs.
  assert (Manager.running s = (failures es <=? 3) /\ Manager.errorCount s = Z.of_nat (failures es) /\
    failures es <= 4 /\ Manager.inFlight s = (if Manager.running s then 1 else 0) /\
    fired os = concat (map brought es)) as (? & ? & ? & ? & ?); [|done].
  revert s os Hc Hs. induction es as [|e es IH] using rev_ind; intros s os Hc Hs.
  - revert Hs. unfold Manager.steps, Manager.step, Manager.onLogin, Manager.start_, Manager.getEvents.
    cbn. rewrite H0. intros [= <- <-]. cbn. rewrite fired_app, registers_fire_nothing. cbn. repeat split; lia.
  - rewrite forallb_app in Hc. apply andb_true_iff in Hc as [Hc He]. cbn in He. rewrite andb_true_r in He.
    change (Manager.Login :: es ++ [e]) with ((Manager.Login :: es) ++ [e]) in Hs.
    apply run_snoc in Hs as (s1 & os1 & os2 & H1 & H2 & ->).
    destruct (IH s1 os1 Hc H1) as (I1 & I2 & I3 & I4 & I5). clear IH.
    pose proof (step_call s1 e s os2 He H2) as (S1 & S2 & S3 & S4).
    assert (Hf : failures (es ++ [e]) = failures es + if is_failure e then 1 else 0).
    { unfold failures. rewrite List.filter_app, length_app. f_equal. cbn. by destruct (is_failure e). }
    assert (Hl : Manager.running s1 = false -> is_failure e = false /\ brought e = []).
    { intros Hr. rewrite Hr in I4. destruct e; try done; cbn in H2; unfold Manager.landed in H2;
        rewrite I4 in H2; done. }
    rewrite map_app, concat_app, fired_app, I5, S4, Hf. cbn [map concat]. rewrite app_nil_r.
    rewrite S1, S2, I2.
    destruct (Manager.running s1) eqn:Er.
    + symmetry in I1. apply Nat.leb_le in I1. destruct (is_failure e) eqn:Ef; cbn [andb negb] in *.
      * assert (exists t, e = Manager.Failure t) as [t ->] by (destruct e; try done; eauto).
        rewrite I2 in *. destruct (Z.leb_spec 3 (Z.of_nat (failures es))); cbn [negb] in *; rewrite S1 in *; cbn [andb negb] in *;
          repeat split; try lia; symmetry; [apply Nat.leb_gt|apply Nat.leb_le]; lia.
      * rewrite S1 in *. cbn [andb negb] in *. rewrite andb_false_r in S3.
        repeat split; try lia. symmetry. apply Nat.leb_le. lia.
    + destruct (Hl eq_refl) as [Ef Eb]. rewrite Ef, Eb in *. cbn [andb negb] in *. rewrite S1 in *.
      symmetry in I1. apply Nat.leb_gt in I1.
      assert (Manager.inFlight s = 0) by (destruct e; cbn in S3; lia).
      repeat split; try lia. symmetry. apply Nat.leb_gt. lia.
Qed.

Definition quiet (e : Manager.event) : bool :=
  match e with Manager.Stop => false | e => negb (is_failure e) end.

(** Each login starts one more chain of calls: while no call fails (other than
    by timing out) and nothing stops the loop, there are as many calls in
    flight as there were logins. *)
Theorem logins_pile_up es s os :
  forallb quiet es = true -> Manager.steps Manager.start es = Some (s, os) ->
  Manager.inFlight s = logins es.
Proof.
  intros Hc Hs.
  assert (Manager.inFlight s = logins es /\ Manager.running s = (0 <? logins es)) as [? _]; [|done].
  revert s os Hc Hs. induction es as [|e es IH] using rev_ind; intros s os Hc Hs.
  - by injection Hs as <- <-.
  - rewrite forallb_app in Hc. apply andb_true_iff in Hc as [Hc He]. cbn in He. rewrite andb_true_r in He.
    apply run_snoc in Hs as (s1 & os1 & os2 & H1 & H2 & ->).
    destruct (IH s1 os1 Hc H1) as [I1 I2]. clear IH.
    unfold logins in *. rewrite List.filter_app, length_app. cbn [List.filter].
    destruct (is_call e) eqn:Ec.
    + pose proof (step_call s1 e s os2 Ec H2) as (S1 & _ & S3 & _).
      assert (is_failure e = false) as Ef by (destruct e as [| | | | |[]]; done).
      rewrite Ef in S1. cbn [andb negb] in S1. rewrite andb_true_r in S1.
      rewrite S1, I2, I1 in S3. rewrite S1, I2.
      set (n := length _) in *. clearbody n. destruct e; try done; cbn [length app] in *;
        destruct n; cbn in S3 |- *; split; lia || done.
    + destruct e; try done. revert H2. cbn. intros [= <- <-]. cbn.
      set (n := length _) in *. clearbody n. rewrite I1. split; [lia|]. by destruct n.
Qed.

(** ** The events the server is asked to send *)

Definition listens (name : string) (e : Manager.event) : bool :=
  match e with Manager.Listen n => bool_decide (n = name) | _ => false end.

(** A name asked for is registered at once where the client is there, and kept
    for the next login where it is not. *)
Lemma step_registers name s e s' os :
  Manager.step s e = Some (s', os) ->
  (Manager.client s = true -> Manager.client s' = true) /\
  (name ∈ Manager.toRegister s -> name ∈ Manager.toRegister s') /\
  (Manager.of_server name = true -> listens name e = true ->
    if Manager.client s then Manager.Register name ∈ os else name ∈ Manager.toRegister s').
Proof.
  destruct s as [tr r n c f]. destruct e as [n'| | | |evs|t].
  - cbn. unfold Manager.addListener. cbn. case_eq (Manager.of_server n'); intros E.
    + destruct c; cbn; intros [= <- <-]; cbn; split; try done; split; try (intros H; set_solver);
        intros _ ?%bool_decide_eq_true; subst; set_solver.
    + intros [= <- <-]. cbn. split; [done|]. split; [done|].
      intros E' ?%bool_decide_eq_true. congruence.
  - intros [= <- <-]. done.
  - intros [= <- <-]. done.
  - intros [= <- <-]. done.
  - unfold Manager.step, Manager.landed. destruct f; [done|]. cbn [mbind option_bind].
    unfold Manager.onGetEventsSuccess. destruct r; cbn -[Ext.each]; intros [= <- <-]; done.
  - unfold Manager.step, Manager.landed. destruct f; [done|]. cbn [mbind option_bind].
    unfold Manager.onGetEventsFailure, Manager.getEvents.
    destruct r, t; cbn -[Z.leb Z.add]; try destruct (3 <=? n)%Z; intros [= <- <-]; done.
Qed.

Lemma steps_register name s es s' os :
  Manager.steps s es = Some (s', os) ->
  (Manager.client s = true -> Manager.client s' = true) /\
  (name ∈ Manager.toRegister s -> name ∈ Manager.toRegister s') /\
  (Manager.of_server name = true -> existsb (listens name) es = true ->
    Manager.Register name ∈ os \/ Manager.client s = false /\ name ∈ Manager.toRegister s').
Proof.
  revert s' os. induction es as [|e es IH] using rev_ind; intros s' os H.
  { injection H as <- <-. done. }
  apply run_snoc in H as (s1 & os1 & os2 & H1 & H2 & ->).
  destruct (IH s1 os1 H1) as (I1 & I2 & I3). destruct (step_registers name s1 e s' os2 H2) as (S1 & S2 & S3).
  split; [auto|]. split; [auto|]. intros Hn. rewrite existsb_app, orb_true_iff. cbn [existsb].
  rewrite orb_false_r. intros [He | He].
  - destruct (I3 Hn He) as [? | [? ?]]; [left; set_solver|right; auto].
  - specialize (S3 Hn He). destruct (Manager.client s1) eqn:E; [left; set_solver|].
    right. split; [|done]. destruct (Manager.client s); [|done]. by specialize (I1 eq_refl).
Qed.

(** An event of the server someone listens to, before or after a login that is
    made with the client there, has been registered with the server. *)
Theorem listened_is_registered name before after s0 s os0 os :
  Manager.of_server name = true ->
  Manager.steps Manager.start before = Some (s0, os0) -> Manager.client s0 = true ->
  Manager.steps Manager.start (before ++ Manager.Login :: after) = Some (s, os) ->
  existsb (listens name) (before ++ after) = true ->
  Manager.Register name ∈ os.
Proof.
  intros Hn H0 Hc Hs He.
  apply run_app in Hs as (s1 & os1 & os2 & H1 & H2 & ->). unfold Manager.steps in H0. rewrite H0 in H1. injection H1 as <- <-.
  change (Manager.Login :: after) with ([Manager.Login] ++ after) in H2.
  apply run_app in H2 as (s2 & os3 & os4 & H3 & H4 & ->). injection H3 as <- <-.
  rewrite existsb_app, orb_true_iff in He. destruct He as [He | He].
  - destruct (steps_register name _ _ _ _ H0) as (_ & _ & [? | [_ Ht]]); [done|done|set_solver|].
    apply elem_of_app. right. apply elem_of_app. left. apply elem_of_app. left.
    by apply (list_elem_of_fmap_2 Manager.Register).
  - destruct (steps_register name _ _ _ _ H4) as (_ & _ & [? | [Hf _]]); [done|done|set_solver|].
    cbn in Hf. congruence.
Qed.

(** Three failures with a success between them, a timeout, and the fourth. *)
Definition a_day : list Manager.event :=
  [Manager.Failure false; Manager.Failure false; Manager.Answer (Some [("TorrentAddedEvent", [PStr "a"])]);
   Manager.Failure true; Manager.Failure false; Manager.Answer None; Manager.Failure false].

Lemma events_loop_witness :
  forallb is_call a_day = true /\
  match Manager.steps Manager.start (Manager.Login :: a_day) with
  | Some (s, os) => Manager.running s = false /\ Manager.inFlight s = 0 /\
      fired os = [("TorrentAddedEvent", [PStr "a"])]
  | None => False
  end.
Proof.
  split; [reflexivity|].
  destruct (Manager.steps Manager.start (Manager.Login :: a_day)) as [[s os]|] eqn:E; [|vm_compute in E; discriminate E].
  destruct (events_loop Manager.start a_day s os eq_refl eq_refl E) as (H1 & H2 & H3).
  rewrite H1 in H2. split; [exact H1|]. split; [exact H2|exact H3].
Defined.

Lemma logins_pile_up_witness :
  match Manager.steps Manager.start [Manager.Login; Manager.Answer None; Manager.Login; Manager.Failure true] with
  | Some (s, _) => Manager.inFlight s = 2
  | None => False
  end.
Proof.
  destruct (Manager.steps Manager.start _) as [[s os]|] eqn:E; [|vm_compute in E; discriminate E].
  exact (logins_pile_up [Manager.Login; Manager.Answer None; Manager.Login; Manager.Failure true] s os eq_refl E).
Defined.

Lemma listened_is_registered_witness :
  match Manager.steps Manager.start [Manager.Listen "SessionPausedEvent"; Manager.Client; Manager.Login] with
  | Some (_, os) => Manager.Register "SessionPausedEvent" ∈ os
  | None => False
  end.
Proof.
  destruct (Manager.steps Manager.start _) as [[s os]|] eqn:E; [|vm_compute in E; discriminate E].
  refine (listened_is_registered "SessionPausedEvent" [Manager.Listen "SessionPausedEvent"; Manager.Client] []
    _ s _ os eq_refl eq_refl eq_refl E _).
  vm_compute. reflexivity.
Defined.
