(* ===== verification/Client.v ===== *)
(** * Ext.ux.util.RpcClient

    The client of the server's JSON-RPC: the methods it makes of the list the
    server sends, how the arguments of a call are told from its options, the
    numbers of the requests, and which function an answer calls. *)

From stdpp Require Import base list strings gmap.
From Stdlib Require Import Lia ZArith.
From S2P Require Import Prelude JsNum JsString JsValue ExtCore.

Local Open Scope nat_scope.

Module Client.

(** What is passed about here: an array is what it holds, since none is
    changed after it was passed; an object is a reference; a function is one
    of the interface's, by name, or the client's own [_setMethods]. *)
Inductive func := User (n : nat) | SetMethods.
Inductive value :=
  | Prim (p : prim) | Arr (l : list value) | Obj (r : loc) | Fn (f : func) | This.

(** A request: what is sent, with the options as the caller holds them. *)
Record body := mkb { method : string; params : list value; id : nat }.
Record request := mkr { sent : body; options : loc }.

(** [members]: the components put on the client, each an object of methods;
    [_components], [_id]; the objects there are; the requests in flight. *)
Record client := mk {
  members : obj (obj string);
  _components : list string;
  _id : nat;
  objects : gmap loc (obj value);
  flight : list request
}.

Definition object (r : loc) (c : client) : obj value := default [] (objects c !! r).
Definition field (k : string) (o : obj value) : value := default (Prim PUndef) (oget k o).
Definition set_object (r : loc) (o : obj value) (c : client) : client :=
  mk (members c) (_components c) (_id c) (<[r := o]> (objects c)) (flight c).

(** What a handler does outside: a request sent, the events [error] and
    [connected], and a function called, with its scope, on the first of its
    arguments. *)
Inductive payload := Result (v : value) | Error (id : value).
Inductive output :=
  | Sent (b : body) | ErrorEvent (id : value) | Connected
  | Called (n : nat) (scope : option value) (arg : payload).

Definition truthy (v : value) : bool := match v with Prim p => JsValue.truthy p | _ => true end.

(** [_execute]; a [params] that is no array is not sent by any caller. *)
Definition _execute (m : string) (r : loc) (c : client) : client * list output :=
  let o := object r c in
  let ps := if truthy (field "params" o) then field "params" o else Arr [] in
  let o := oset "id" (Prim (PNum (of_Z (Z.of_nat (_id c))))) (oset "params" ps o) in
  let b := mkb m (match ps with Arr l => l | v => [v] end) (_id c) in
  let c := set_object r o c in
  (mk (members c) (_components c) (S (_id c)) (objects c) (flight c ++ [mkr b r]), [Sent b]).

(** A new object *)
Definition alloc (o : obj value) (c : client) : loc * client :=
  let r := fresh (dom (objects c)) in (r, set_object r o c).

(** [reloadMethods] and the constructor *)
Definition reloadMethods (c : client) : client * list output :=
  let '(r, c) := alloc [("success", Fn SetMethods); ("scope", This)] c in
  _execute "system.listMethods" r c.
Definition create (objs : gmap loc (obj value)) : client * list output :=
  reloadMethods (mk [] [] 0 objs []).

(** [_parseArgs] *)
Definition _optionKeys : list string := ["scope"; "success"; "failure"].
Definition is_ref (r : loc) (v : value) : bool :=
  match v with Obj r' => bool_decide (r' = r) | _ => false end.
Fixpoint remove (r : loc) (l : list value) : list value :=
  match l with
  | [] => []
  | v :: l' => if is_ref r v then l' else v :: remove r l'
  end.
Definition is_options (o : obj value) : bool :=
  existsb (fun key => bool_decide (key ∈ Ext.keys o)) _optionKeys.
Definition _parseArgs (args : list value) (c : client) : loc * client :=
  match last args with
  | Some (Obj r) =>
      if is_options (object r c)
      then (r, set_object r (oset "params" (Arr (remove r args)) (object r c)) c)
      else alloc [("params", Arr args)] c
  | _ => alloc [("params", Arr args)] c
  end.

(** The function [_setMethods] makes of a method's name. *)
Definition invoke (m : string) (args : list value) (c : client) : client * list output :=
  let '(r, c) := _parseArgs args c in _execute m r c.

(** [_setMethods] *)
Definition component_of (m : string) : string := default "" (split_on (chr 46) m !! 0).
Definition method_of (m : string) : string := default "undefined" (split_on (chr 46) m !! 1).
Definition add_method (components : obj (obj string)) (m : string) : obj (obj string) :=
  let component := default [] (oget (component_of m) components) in
  oset (component_of m) (oset (method_of m) m component) components.
Definition components_of (methods : list string) : obj (obj string) := foldl add_method [] methods.

(** [!component in components] looks for the key [false], or [true] when the
    name is empty. *)
Definition forget (components : obj (obj string)) (ms : obj (obj string)) (component : string)
    : obj (obj string) :=
  let key := if decide (component = "") then "true" else "false" in
  match oget key components with Some _ => odel component ms | None => ms end.

Definition _setMethods (methods : list string) (c : client) : client * list output :=
  let components := components_of methods in
  let ms := Ext.apply (members c) components in
  let ms := foldl (forget components) ms (_components c) in
  (mk ms (Ext.keys components) (_id c) (objects c) (flight c), [Connected]).

(** What an answer holds: a text that is no JSON throws, a [result] that is an
    array of strings may be the list of methods. *)
Inductive response := Malformed | Err (id : value) | Ok (v : value).

Definition strings_of (v : value) : option (list string) :=
  match v with
  | Arr l => mapM (fun v => match v with Prim (PStr s) => Some s | _ => None end) l
  | Prim PUndef | Prim PNull => Some []
  | _ => None
  end.

(** Calling what [options] holds under [key], if it is a function.  The
    functions of the interface are told to the caller; [None] is thrown. *)
Definition scope_of (o : obj value) : option value :=
  if truthy (field "scope" o) then Some (field "scope" o) else None.
Definition callback (key : string) (arg : payload) (o : obj value) (c : client)
    : option (client * list output) :=
  match field key o with
  | Fn (User n) => Some (c, [Called n (scope_of o) arg])
  | Fn SetMethods =>
      match arg with
      | Result v => methods ← strings_of v; Some (_setMethods methods c)
      | Error _ => None
      end
  | _ => Some (c, [])
  end.

(** [_onFailure] and [_onSuccess] *)
Definition _onFailure (q : request) (c : client) : option (client * list output) :=
  let o := object (options q) c in
  '(c, os) ← callback "failure" (Error (field "id" o)) o c;
  Some (c, ErrorEvent (field "id" o) :: os).
Definition _onSuccess (response : response) (q : request) (c : client)
    : option (client * list output) :=
  let o := object (options q) c in
  match response with
  | Malformed => None
  | Err i => '(c, os) ← callback "failure" (Error i) o c; Some (c, ErrorEvent i :: os)
  | Ok v => callback "success" (Result v) o c
  end.

(** What may happen: a method called, the list of methods asked for again, the
    request in flight at a place answered, or failed. *)
Inductive event :=
  | Call (component method : string) (args : list value) | Reload
  | Land (i : nat) (r : response) | Lost (i : nat).

Definition take_flight (i : nat) (c : client) : option (request * client) :=
  q ← flight c !! i;
  Some (q, mk (members c) (_components c) (_id c) (objects c) (delete i (flight c))).

Definition step (c : client) (e : event) : option (client * list output) :=
  match e with
  | Call component m args =>
      methods ← oget component (members c); name ← oget m methods; Some (invoke name args c)
  | Reload => Some (reloadMethods c)
  | Land i r => '(q, c) ← take_flight i c; _onSuccess r q c
  | Lost i => '(q, c) ← take_flight i c; _onFailure q c
  end.

Definition steps : client -> list event -> option (client * list output) := run step.

End Client.

(** ** The numbers of the requests *)

Definition bodies (os : list Client.output) : list Client.body :=
  omap (fun o => match o with Client.Sent b => Some b | _ => None end) os.

Lemma bodies_app os os' : bodies (os ++ os') = bodies os ++ bodies os'.
Proof. apply omap_app. Qed.

Lemma execute_sends m r c :
  map Client.id (bodies (Client._execute m r c).2) = [Client._id c] /\
  Client._id (Client._execute m r c).1 = S (Client._id c).
Proof. done. Qed.

Lemma parse_keeps_id args c : Client._id (Client._parseArgs args c).2 = Client._id c.
Proof.
  unfold Client._parseArgs. destruct (last args) as [[]|]; try done. by destruct (Client.is_options _).
Qed.

Lemma callback_sends key arg o c c' os :
  Client.callback key arg o c = Some (c', os) -> bodies os = [] /\ Client._id c' = Client._id c.
Proof.
  unfold Client.callback. destruct (Client.field key o) as [| | |[n|]|]; try by intros [= <- <-].
  destruct arg as [v|]; [|done]. destruct (Client.strings_of v); cbn; [|done]. by intros [= <- <-].
Qed.

Lemma response_sends r q c c' os :
  Client._onSuccess r q c = Some (c', os) -> bodies os = [] /\ Client._id c' = Client._id c.
Proof.
  unfold Client._onSuccess. destruct r as [|k|v]; [done| |apply callback_sends].
  destruct (Client.callback _ _ _ _) as [[c1 os1]|] eqn:E; cbn; [|done].
  intros [= <- <-]. by eapply callback_sends in E.
Qed.

Lemma failure_sends q c c' os :
  Client._onFailure q c = Some (c', os) -> bodies os = [] /\ Client._id c' = Client._id c.
Proof.
  unfold Client._onFailure. destruct (Client.callback _ _ _ _) as [[c1 os1]|] eqn:E; cbn; [|done].
  intros [= <- <-]. by eapply callback_sends in E.
Qed.

(** A step sends nothing, or one request with the number that is next. *)
Lemma step_sends c e c' os :
  Client.step c e = Some (c', os) ->
  bodies os = [] /\ Client._id c' = Client._id c \/
  map Client.id (bodies os) = [Client._id c] /\ Client._id c' = S (Client._id c).
Proof.
  destruct e as [comp m args| |i r|i]; cbn [Client.step].
  - destruct (oget comp (Client.members c)) as [ms|]; cbn; [|done].
    destruct (oget m ms) as [name|]; cbn; [|done]. unfold Client.invoke.
    pose proof (parse_keeps_id args c) as Hp. destruct (Client._parseArgs args c) as [r c1]. cbn in Hp.
    intros [= <- <-]. right. rewrite <- Hp. done.
  - intros [= <- <-]. by right.
  - unfold Client.take_flight. destruct (Client.flight c !! i) as [q|]; cbn; [|done].
    intros H. left. by apply response_sends in H.
  - unfold Client.take_flight. destruct (Client.flight c !! i) as [q|]; cbn; [|done].
    intros H. left. by apply failure_sends in H.
Qed.

(** However calls, answers and failures interleave, the requests are numbered
    from zero in the order they were sent, no number used twice. *)
Theorem ids_in_order objs es c os :
  Client.steps (Client.create objs).1 es = Some (c, os) ->
  map Client.id (bodies ((Client.create objs).2 ++ os)) = seq 0 (Client._id c).
Proof.
  revert es c os. apply run_ind; [done|]. intros es s1 os1 e s2 os2 _ IH Hs.
  rewrite app_assoc, bodies_app, map_app, IH.
  apply step_sends in Hs as [[-> ->] | [-> ->]]; [by rewrite app_nil_r|]. by rewrite seq_S.
Qed.

(** ** What a call sends *)

Lemma field_oset k k' v o :
  Client.field k (oset k' v o) = if decide (k = k') then v else Client.field k o.
Proof. unfold Client.field. rewrite oget_oset. by destruct (decide _). Qed.

Lemma object_set r r' o c :
  Client.object r (Client.set_object r' o c) = if decide (r = r') then o else Client.object r c.
Proof.
  unfold Client.object, Client.set_object. cbn. destruct (decide _) as [->|];
    [by rewrite lookup_insert_eq|by rewrite lookup_insert_ne].
Qed.

Lemma remove_last r pre : Client.Obj r ∉ pre -> Client.remove r (pre ++ [Client.Obj r]) = pre.
Proof.
  induction pre as [|v pre IH]; cbn [app Client.remove].
  - intros _. cbn. by rewrite bool_decide_eq_true_2.
  - intros [Hv Hp]%not_elem_of_cons. rewrite IH by done. destruct v; cbn; try done.
    rewrite bool_decide_eq_false_2; [done|congruence].
Qed.

Lemma option_key key : key ∈ Client._optionKeys -> key = "scope" \/ key = "success" \/ key = "failure".
Proof.
  unfold Client._optionKeys. rewrite !elem_of_cons, elem_of_nil. intuition.
Qed.

Lemma execute_eq m r ps c :
  Client.field "params" (Client.object r c) = Client.Arr ps ->
  let '(c', os) := Client._execute m r c in
  let b := Client.mkb m ps (Client._id c) in
  os = [Client.Sent b] /\ Client.flight c' = Client.flight c ++ [Client.mkr b r] /\
  (forall r', r' <> r -> Client.object r' c' = Client.object r' c) /\
  (forall key, key ∈ Client._optionKeys ->
    Client.field key (Client.object r c') = Client.field key (Client.object r c)).
Proof.
  intros Hp. unfold Client._execute. rewrite Hp. cbn [Client.truthy].
  split; [done|]. split; [done|]. split.
  - intros r' Hr. cbn. unfold Client.object at 1. cbn. by rewrite lookup_insert_ne by congruence.
  - intros key Hk. unfold Client.object at 1. cbn [Client.objects Client.set_object fst].
    rewrite lookup_insert_eq. cbn [default from_option id]. rewrite !field_oset. by destruct (option_key key Hk) as [-> | [-> | ->] ].
Qed.

(** A call whose last argument holds a scope or a callback sends the arguments
    before it with the next number, and the scope and callbacks are kept for
    the answer. *)
Theorem call_with_options m pre r c :
  Client.is_options (Client.object r c) = true -> Client.Obj r ∉ pre ->
  let '(c', os) := Client.invoke m (pre ++ [Client.Obj r]) c in
  let b := Client.mkb m pre (Client._id c) in
  os = [Client.Sent b] /\ Client.flight c' = Client.flight c ++ [Client.mkr b r] /\
  forall key, key ∈ Client._optionKeys ->
    Client.field key (Client.object r c') = Client.field key (Client.object r c).
Proof.
  intros Ho Hp. unfold Client.invoke, Client._parseArgs. rewrite last_snoc, Ho, remove_last by done.
  set (o := oset _ _ _). set (c1 := Client.set_object r o c).
  assert (Hr : Client.object r c1 = o) by (subst c1; rewrite object_set; by destruct (decide _)).
  pose proof (execute_eq m r pre c1) as H. rewrite Hr in H. subst o. rewrite field_oset in H.
  specialize (H eq_refl). destruct (Client._execute m r c1) as [c' os]. destruct H as (-> & -> & _ & H).
  split; [done|]. split; [done|]. intros key Hk. rewrite H, field_oset by done.
  by destruct (option_key key Hk) as [-> | [-> | ->] ].
Qed.

(** Any other call, one with a plain object for its last argument included,
    sends all its arguments, and its answer calls nothing. *)
Theorem call_without_options m args c :
  (forall r, last args = Some (Client.Obj r) -> Client.is_options (Client.object r c) = false) ->
  let '(c', os) := Client.invoke m args c in
  let b := Client.mkb m args (Client._id c) in
  exists r, os = [Client.Sent b] /\ Client.flight c' = Client.flight c ++ [Client.mkr b r] /\
  (forall r', r' ∈ dom (Client.objects c) -> Client.object r' c' = Client.object r' c) /\
  forall key, key ∈ Client._optionKeys ->
    Client.field key (Client.object r c') = Client.Prim PUndef.
Proof.
  intros Hn. assert (E : Client._parseArgs args c = Client.alloc [("params", Client.Arr args)] c).
  { unfold Client._parseArgs. destruct (last args) as [[]|]; try done. by rewrite Hn. }
  unfold Client.invoke. rewrite E. unfold Client.alloc. set (r := fresh _).
  set (c1 := Client.set_object r _ c).
  assert (Hr : Client.object r c1 = [("params", Client.Arr args)])
    by (subst c1; rewrite object_set; by destruct (decide _)).
  pose proof (execute_eq m r args c1) as H. rewrite Hr in H. specialize (H eq_refl).
  destruct (Client._execute m r c1) as [c' os]. destruct H as (-> & -> & Ho & Hk). exists r.
  split; [done|]. split; [done|]. split.
  - intros r' Hd. assert (r' <> r) by (intros ->; by apply (is_fresh (dom (Client.objects c)))).
    rewrite Ho by done. subst c1. rewrite object_set. by destruct (decide _).
  - intros key Hi. rewrite Hk by done. by destruct (option_key key Hi) as [-> | [-> | ->] ].
Qed.

(** ** An answer reaches its caller *)

Section caller.
Variables (r : loc) (n : nat) (held : string -> Client.value).

(** What is true of the client from a call with the options [r], numbered
    [n], to its answer. *)
Record waits (c : Client.client) : Prop := {
  wa_dom : r ∈ dom (Client.objects c);
  wa_id : n < Client._id c;
  wa_flight : forall q, q ∈ Client.flight c -> Client.id (Client.sent q) = n -> Client.options q = r;
  wa_held : forall key, key ∈ Client._optionKeys -> Client.field key (Client.object r c) = held key
}.

(** The caller does not pass the same object again. *)
Definition other (e : Client.event) : Prop :=
  match e with Client.Call _ _ args => last args <> Some (Client.Obj r) | _ => True end.

Lemma set_object_waits r' o c : r' <> r -> waits c -> waits (Client.set_object r' o c).
Proof.
  intros Hr [H1 H2 H3 H4]. split; cbn; try done; [set_solver|].
  intros key Hk. rewrite object_set. destruct (decide _); [congruence|auto].
Qed.

Lemma execute_waits m r' c : r' <> r -> waits c -> waits (Client._execute m r' c).1.
Proof.
  intros Hr Hw. unfold Client._execute. set (o := oset _ _ _). cbn [fst].
  destruct (set_object_waits r' o c Hr Hw) as [H1 H2 H3 H4]. cbn in H2. split; cbn; try done; [lia|].
  intros q [Hq | ->%list_elem_of_singleton]%elem_of_app Hn; [by apply H3|]. cbn in Hn. lia.
Qed.

Lemma alloc_waits o c : waits c -> (Client.alloc o c).1 <> r /\ waits (Client.alloc o c).2.
Proof.
  intros Hw. unfold Client.alloc. cbn.
  assert (fresh (dom (Client.objects c)) <> r).
  { intros E. apply (is_fresh (dom (Client.objects c))). rewrite E. apply Hw. }
  split; [done|by apply set_object_waits].
Qed.

Lemma parse_waits args c :
  last args <> Some (Client.Obj r) -> waits c ->
  (Client._parseArgs args c).1 <> r /\ waits (Client._parseArgs args c).2.
Proof.
  intros Hl Hw. unfold Client._parseArgs. destruct (last args) as [[| |r'| |]|]; try by apply alloc_waits.
  destruct (Client.is_options _); [|by apply alloc_waits].
  assert (r' <> r) by congruence. split; [done|by apply set_object_waits].
Qed.

Lemma set_methods_waits ms c : waits c -> waits (Client._setMethods ms c).1.
Proof. by intros [H1 H2 H3 H4]. Qed.

Lemma callback_waits key arg o c c' os :
  Client.callback key arg o c = Some (c', os) -> waits c -> waits c'.
Proof.
  unfold Client.callback. destruct (Client.field key o) as [| | |[k|]|]; try by intros [= <- <-].
  destruct arg as [v|]; [|done]. destruct (Client.strings_of v); cbn; [|done].
  intros [= <- <-]. apply set_methods_waits.
Qed.

Lemma take_waits i c q c' : Client.take_flight i c = Some (q, c') -> waits c -> waits c'.
Proof.
  unfold Client.take_flight. destruct (Client.flight c !! i); cbn; [|done]. intros [= <- <-] [H1 H2 H3 H4].
  split; cbn; try done. intros q' Hq. apply H3.
  eapply elem_of_submseteq; [exact Hq|apply sublist_submseteq, sublist_delete].
Qed.

Lemma step_waits c e c' os : Client.step c e = Some (c', os) -> other e -> waits c -> waits c'.
Proof.
  intros Hs Ho Hw. destruct e as [comp m args| |i res|i]; cbn [Client.step] in Hs.
  - destruct (oget comp (Client.members c)) as [ms|]; cbn in Hs; [|done].
    destruct (oget m ms) as [name|]; cbn in Hs; [|done]. unfold Client.invoke in Hs.
    destruct (parse_waits args c Ho Hw) as [P1 P2]. destruct (Client._parseArgs args c) as [r' c1].
    injection Hs as <- <-. by apply execute_waits.
  - unfold Client.reloadMethods in Hs.
    destruct (alloc_waits [("success", Client.Fn Client.SetMethods); ("scope", Client.This)] c Hw) as [P1 P2].
    destruct (Client.alloc _ c) as [r' c1]. injection Hs as <- <-. by apply execute_waits.
  - destruct (Client.take_flight i c) as [[q c1]|] eqn:E; cbn in Hs; [|done].
    apply take_waits in E; [|done]. unfold Client._onSuccess in Hs.
    destruct res as [|k|v]; [done| |by eapply callback_waits].
    destruct (Client.callback _ _ _ _) as [[c2 os2]|] eqn:E2; cbn in Hs; [|done].
    injection Hs as <- <-. by eapply callback_waits.
  - destruct (Client.take_flight i c) as [[q c1]|] eqn:E; cbn in Hs; [|done].
    apply take_waits in E; [|done]. unfold Client._onFailure in Hs.
    destruct (Client.callback _ _ _ _) as [[c2 os2]|] eqn:E2; cbn in Hs; [|done].
    injection Hs as <- <-. by eapply callback_waits.
Qed.

Lemma steps_waits c es c' os :
  Client.steps c es = Some (c', os) -> Forall other es -> waits c -> waits c'.
Proof.
  intros H Ho Hw. revert es c' os H Ho. apply (run_ind Client.step (fun c' es _ => Forall other es -> waits c')).
  - done.
  - intros es s1 os1 e s2 os2 _ IH Hs [Ho He]%Forall_app. apply Forall_inv in He.
    eapply step_waits; eauto.
Qed.
End caller.

(** ** The requests in flight *)

Definition numbered (c : Client.client) : Prop :=
  forall q, q ∈ Client.flight c -> Client.id (Client.sent q) < Client._id c.

Lemma parse_flight args c : Client.flight (Client._parseArgs args c).2 = Client.flight c.
Proof.
  unfold Client._parseArgs. destruct (last args) as [[]|]; try done. by destruct (Client.is_options _).
Qed.

Lemma execute_numbered m r c : numbered c -> numbered (Client._execute m r c).1.
Proof.
  intros H q [Hq | ->%list_elem_of_singleton]%elem_of_app; cbn; [|lia]. apply H in Hq. lia.
Qed.

Lemma callback_numbered key arg o c c' os :
  Client.callback key arg o c = Some (c', os) -> numbered c -> numbered c'.
Proof.
  unfold Client.callback. destruct (Client.field key o) as [| | |[k|]|]; try by intros [= <- <-].
  destruct arg as [v|]; [|done]. destruct (Client.strings_of v); cbn; [|done]. by intros [= <- <-].
Qed.

Lemma take_numbered i c q c' :
  Client.take_flight i c = Some (q, c') -> numbered c -> numbered c'.
Proof.
  unfold Client.take_flight. destruct (Client.flight c !! i); cbn; [|done]. intros [= <- <-] H q' Hq.
  apply H. eapply elem_of_submseteq; [exact Hq|apply sublist_submseteq, sublist_delete].
Qed.

Lemma step_numbered c e c' os : Client.step c e = Some (c', os) -> numbered c -> numbered c'.
Proof.
  intros Hs Hw. destruct e as [comp m args| |i res|i]; cbn [Client.step] in Hs.
  - destruct (oget comp (Client.members c)) as [ms|]; cbn in Hs; [|done].
    destruct (oget m ms) as [name|]; cbn in Hs; [|done]. unfold Client.invoke in Hs.
    assert (numbered (Client._parseArgs args c).2)
      by (intros q; rewrite parse_flight, parse_keeps_id; apply Hw).
    destruct (Client._parseArgs args c) as [r' c1]. injection Hs as <- <-. by apply execute_numbered.
  - injection Hs as <- <-. intros q Hq. by apply (execute_numbered _ _ (Client.alloc _ c).2 Hw).
  - destruct (Client.take_flight i c) as [[q c1]|] eqn:E; cbn in Hs; [|done].
    apply take_numbered in E; [|done]. unfold Client._onSuccess in Hs.
    destruct res as [|k|v]; [done| |by eapply callback_numbered].
    destruct (Client.callback _ _ _ _) as [[c2 os2]|] eqn:E2; cbn in Hs; [|done].
    injection Hs as <- <-. by eapply callback_numbered.
  - destruct (Client.take_flight i c) as [[q c1]|] eqn:E; cbn in Hs; [|done].
    apply take_numbered in E; [|done]. unfold Client._onFailure in Hs.
    destruct (Client.callback _ _ _ _) as [[c2 os2]|] eqn:E2; cbn in Hs; [|done].
    injection Hs as <- <-. by eapply callback_numbered.
Qed.

Lemma steps_numbered objs es c os :
  Client.steps (Client.create objs).1 es = Some (c, os) -> numbered c.
Proof.
  revert es c os. apply (run_ind Client.step (fun c _ _ => numbered c)).
  - intros q Hq. cbn in Hq. apply list_elem_of_singleton in Hq as ->. cbn. lia.
  - intros es s1 os1 e s2 os2 _ H Hs. by eapply step_numbered.
Qed.

(** The call that was just made is in flight and waits for its answer. *)
Lemma invoke_waits m pre r c :
  numbered c -> Client.is_options (Client.object r c) = true ->
  waits r (Client._id c) (fun key => Client.field key (Client.object r c))
    (Client.invoke m (pre ++ [Client.Obj r]) c).1.
Proof.
  intros Hn Ho. unfold Client.invoke, Client._parseArgs. rewrite last_snoc, Ho.
  set (ps := Client.remove _ _). set (o := oset _ _ _). set (c1 := Client.set_object r o c).
  assert (Hr : Client.object r c1 = o) by (subst c1; rewrite object_set; by destruct (decide _)).
  pose proof (execute_eq m r ps c1) as H. rewrite Hr in H. subst o. rewrite field_oset in H.
  specialize (H eq_refl).
  assert (Hd : r ∈ dom (Client.objects (Client._execute m r c1).1)) by (cbn; set_solver).
  assert (Hi : Client._id c < Client._id (Client._execute m r c1).1) by (cbn; lia).
  destruct (Client._execute m r c1) as [c' os]. destruct H as (_ & Hf & _ & H). split; [done|done| |].
  - cbn [fst]. rewrite Hf. intros q [Hq | ->%list_elem_of_singleton]%elem_of_app; [|done].
    intros Hq'. apply Hn in Hq. lia.
  - intros key Hk. cbn [fst]. rewrite H, field_oset by done. by destruct (option_key key Hk) as [-> | [-> | ->] ].
Qed.

(** Claim C31.  From the start of the client, whatever else is called, answered or lost
    meanwhile (as long as the same object is not passed to another call), the
    answer to a call is given to that call's own [success], in its scope, and a
    failure to its own [failure], after the event [error]. *)
Theorem answer_reaches_caller objs es0 c os0 m pre r es c2 os2 i q :
  Client.steps (Client.create objs).1 es0 = Some (c, os0) ->
  Client.is_options (Client.object r c) = true ->
  Client.steps (Client.invoke m (pre ++ [Client.Obj r]) c).1 es = Some (c2, os2) ->
  Forall (other r) es ->
  Client.flight c2 !! i = Some q -> Client.id (Client.sent q) = Client._id c ->
  let calls key arg :=
    match Client.field key (Client.object r c) with
    | Client.Fn (Client.User n) => [Client.Called n (Client.scope_of (Client.object r c)) arg]
    | _ => []
    end in
  (forall v, Client.field "success" (Client.object r c) <> Client.Fn Client.SetMethods ->
    snd <$> Client.step c2 (Client.Land i (Client.Ok v)) = Some (calls "success" (Client.Result v))) /\
  (forall k, Client.field "failure" (Client.object r c) <> Client.Fn Client.SetMethods ->
    snd <$> Client.step c2 (Client.Land i (Client.Err k)) =
      Some (Client.ErrorEvent k :: calls "failure" (Client.Error k))).
Proof.
  intros H0 Ho Hs Hq Hi Hid. cbv zeta.
  pose proof (invoke_waits m pre r c (steps_numbered objs es0 c os0 H0) Ho) as Hw.
  pose proof (steps_waits r _ _ _ es c2 os2 Hs Hq Hw) as [W1 W2 W3 W4].
  assert (Hr : Client.options q = r) by (apply W3; [by eapply list_elem_of_lookup_2|done]).
  assert (Hscope : Client.scope_of (Client.object r c2) = Client.scope_of (Client.object r c)).
  { unfold Client.scope_of. by rewrite (W4 "scope") by set_solver. }
  cbn [Client.step]. unfold Client.take_flight. rewrite Hi. cbn [mbind option_bind Client._onSuccess].
  unfold Client.callback. rewrite Hr. change (Client.object r (Client.mk _ _ _ _ _)) with (Client.object r c2).
  rewrite Hscope, !W4 by set_solver. split.
  - intros v Hv. by destruct (Client.field "success" (Client.object r c)) as [| | |[k|]|].
  - intros v Hv. by destruct (Client.field "failure" (Client.object r c)) as [| | |[k|]|].
Qed.

(** ** The methods the server lists *)

Definition at_ (k j : string) (o : obj (obj string)) : option string := oget k o ≫= oget j.

Lemma add_method_at cs m k j :
  at_ k j (Client.add_method cs m) =
  if decide (k = Client.component_of m /\ j = Client.method_of m) then Some m else at_ k j cs.
Proof.
  unfold at_, Client.add_method. rewrite oget_oset. destruct (decide (k = _)) as [->|].
  - cbn. rewrite oget_oset. destruct (decide (j = _)) as [->|].
    + by rewrite decide_True.
    + rewrite decide_False by tauto. by destruct (oget _ cs).
  - rewrite decide_False by tauto. done.
Qed.

Lemma add_method_keys cs m k :
  is_Some (oget k (Client.add_method cs m)) <-> k = Client.component_of m \/ is_Some (oget k cs).
Proof.
  unfold Client.add_method. rewrite oget_oset. destruct (decide (k = _)) as [->|]; [|tauto].
  split; [by left|by eexists].
Qed.

Lemma components_keys ms k :
  is_Some (oget k (Client.components_of ms)) <-> k ∈ map Client.component_of ms.
Proof.
  unfold Client.components_of. induction ms as [|m ms IH] using rev_ind.
  - cbn. rewrite elem_of_nil. by split; [intros [? ?]|].
  - rewrite foldl_app, map_app, elem_of_app. cbn [foldl map]. rewrite add_method_keys, IH.
    rewrite list_elem_of_singleton. tauto.
Qed.

Lemma components_at ms m :
  m ∈ ms ->
  (forall m', m' ∈ ms -> Client.component_of m' = Client.component_of m ->
     Client.method_of m' = Client.method_of m -> m' = m) ->
  at_ (Client.component_of m) (Client.method_of m) (Client.components_of ms) = Some m.
Proof.
  unfold Client.components_of. induction ms as [|x ms IH] using rev_ind; [by intros ?%elem_of_nil|].
  intros Hm Hu. rewrite foldl_app. cbn [foldl]. rewrite add_method_at.
  destruct (decide _) as [[Hc Hj]|Hn].
  - f_equal. apply Hu; [set_solver|done|done].
  - apply IH; [|intros m' ?; apply Hu; set_solver].
    apply elem_of_app in Hm as [?| ->%list_elem_of_singleton]; [done|tauto].
Qed.

Lemma components_ok ms : obj_ok (Client.components_of ms).
Proof.
  unfold Client.components_of. induction ms as [|m ms IH] using rev_ind; [apply nil_ok|].
  rewrite foldl_app. cbn [foldl]. by apply oset_ok.
Qed.

(** No method is of a component called [false] or [true], as is so of the
    server's. *)
Definition plain (ms : list string) : Prop :=
  "false" ∉ map Client.component_of ms /\ "true" ∉ map Client.component_of ms.

Lemma forget_none ms o old : plain ms -> foldl (Client.forget (Client.components_of ms)) o old = o.
Proof.
  intros [Hf Ht]. revert o. induction old as [|c old IH]; intros o; cbn [foldl]; [done|].
  rewrite <- (IH o) at 2. f_equal. unfold Client.forget.
  assert (H : oget (if decide (c = "") then "true" else "false") (Client.components_of ms) = None).
  { apply eq_None_not_Some. rewrite components_keys. by destruct (decide _). }
  by rewrite H.
Qed.

(** Every method the server lists can be called by its component and its name,
    and calls that method, provided no other has the same two first parts. *)
Theorem methods_callable ms c m :
  plain ms -> m ∈ ms ->
  (forall m', m' ∈ ms -> Client.component_of m' = Client.component_of m ->
     Client.method_of m' = Client.method_of m -> m' = m) ->
  forall args, let c' := (Client._setMethods ms c).1 in
  Client.step c' (Client.Call (Client.component_of m) (Client.method_of m) args) =
    Some (Client.invoke m args c').
Proof.
  intros Hp Hm Hu args. cbv zeta. cbn [Client.step Client._setMethods fst Client.members].
  rewrite forget_none, apply_get by (done || apply components_ok). pose proof (components_at ms m Hm Hu) as H.
  unfold at_ in H. destruct (oget (Client.component_of m) (Client.components_of ms)) as [o|]; [|done].
  cbn in H |- *. by rewrite H.
Qed.

(** A component the server no longer lists stays on the client, its methods as
    they were: what is meant to delete it looks for a component called
    [false]. *)
Theorem stale_components_stay ms c k :
  plain ms -> k ∉ map Client.component_of ms ->
  let c' := (Client._setMethods ms c).1 in
  oget k (Client.members c') = oget k (Client.members c) /\ k ∉ Client._components c'.
Proof.
  intros Hp Hk. cbn [Client._setMethods fst Client.members Client._components].
  assert (H : oget k (Client.components_of ms) = None)
    by (apply eq_None_not_Some; by rewrite components_keys).
  split; [|].
  - rewrite forget_none, apply_get by (done || apply components_ok). by rewrite H.
  - unfold Ext.keys. rewrite okeys_elem, H. by intros [? ?].
Qed.

(** ** Examples *)

(** A client that has been told of two methods, holds the options of a call as
    an object, and has had its list answered. *)
Definition held : obj Client.value := [("success", Client.Fn (Client.User 7)); ("scope", Client.This)].
Definition the_list : list string := ["core.get_libtorrent_version"; "web.update_ui"].
Definition an_r : loc := 1%positive.
Definition objs : gmap loc (obj Client.value) := {[an_r := held]}.
Definition listed : Client.event :=
  Client.Land 0 (Client.Ok (Client.Arr (map (fun m => Client.Prim (PStr m)) the_list))).
Definition a_client : Client.client :=
  match Client.steps (Client.create objs).1 [listed] with Some (c, _) => c | None => (Client.create objs).1 end.
Definition a_call : Client.event :=
  Client.Call "core" "get_libtorrent_version" [Client.Prim (PBool true); Client.Obj an_r].

Lemma ids_in_order_witness :
  match Client.steps (Client.create objs).1 [listed; a_call; Client.Reload] with
  | Some (c, os) => map Client.id (bodies ((Client.create objs).2 ++ os)) = [0; 1; 2]
  | None => False
  end.
Proof.
  destruct (Client.steps (Client.create objs).1 [listed; a_call; Client.Reload]) as [[c os]|] eqn:E;
    [|vm_compute in E; discriminate E].
  rewrite (ids_in_order objs _ c os E). vm_compute in E. injection E as <- <-. reflexivity.
Defined.

Lemma call_with_options_witness :
  (Client.invoke "web.update_ui" [Client.Prim PNull; Client.Obj an_r] a_client).2 =
  [Client.Sent (Client.mkb "web.update_ui" [Client.Prim PNull] 1)].
Proof.
  change [Client.Prim PNull; Client.Obj an_r] with ([Client.Prim PNull] ++ [Client.Obj an_r]).
  pose proof (call_with_options "web.update_ui" [Client.Prim PNull] an_r a_client eq_refl) as H.
  destruct (Client.invoke _ _ _) as [c' os]. apply H.
  intros [? | ?%elem_of_nil]%elem_of_cons; [discriminate|contradiction].
Defined.

Lemma call_without_options_witness :
  (Client.invoke "web.update_ui" [Client.Prim PNull] a_client).2 =
  [Client.Sent (Client.mkb "web.update_ui" [Client.Prim PNull] 1)].
Proof.
  pose proof (call_without_options "web.update_ui" [Client.Prim PNull] a_client) as H.
  destruct (Client.invoke _ _ _) as [c' os]. destruct H as (r & -> & _); [discriminate|reflexivity].
Defined.

Lemma answer_reaches_caller_witness :
  let c2 := match Client.steps (Client.invoke "web.update_ui" [Client.Obj an_r] a_client).1 [Client.Reload] with
            | Some (c, _) => c | None => a_client end in
  snd <$> Client.step c2 (Client.Land 0 (Client.Ok (Client.Prim PNull))) =
  Some [Client.Called 7 (Some Client.This) (Client.Result (Client.Prim PNull))].
Proof.
  cbv zeta.
  destruct (Client.steps (Client.invoke "web.update_ui" [Client.Obj an_r] a_client).1 [Client.Reload])
    as [[c2 os2]|] eqn:E; [|vm_compute in E; discriminate E].
  destruct (Client.steps (Client.create objs).1 [listed]) as [[c os]|] eqn:E0; [|vm_compute in E0; discriminate E0].
  assert (Hc : a_client = c) by (unfold a_client; rewrite E0; reflexivity).
  assert (Hq : Client.flight c2 !! 0 = Some (Client.mkr (Client.mkb "web.update_ui" [] 1) an_r)).
  { vm_compute in E. injection E as <- <-. reflexivity. }
  pose proof (answer_reaches_caller objs [listed] c os "web.update_ui" [] an_r [Client.Reload] c2 os2 0
    (Client.mkr (Client.mkb "web.update_ui" [] 1) an_r) E0) as H.
  rewrite <- Hc in H. destruct (H eq_refl E ltac:(repeat constructor) Hq eq_refl) as [H1 _].
  rewrite H1; [reflexivity|]. vm_compute. discriminate.
Defined.

Lemma methods_callable_witness :
  is_Some (Client.step (Client._setMethods the_list a_client).1
    (Client.Call "web" "update_ui" [Client.Prim PNull])).
Proof.
  pose proof (methods_callable the_list a_client "web.update_ui") as H.
  rewrite H; [eexists; reflexivity|vm_compute; split; intros Hx; repeat (apply elem_of_cons in Hx as [Hx|Hx]; [discriminate|]); by apply elem_of_nil in Hx| |].
  - right. left.
  - intros m' Hm. repeat (apply elem_of_cons in Hm as [-> | Hm]; [vm_compute; intros; congruence|]).
    by apply elem_of_nil in Hm.
Defined.

Lemma stale_components_stay_witness :
  is_Some (oget "core" (Client.members (Client._setMethods ["web.update_ui"] a_client).1)).
Proof.
  destruct (stale_components_stay ["web.update_ui"] a_client "core") as [-> _].
  - split; vm_compute; intros [? | ?%elem_of_nil]%elem_of_cons; (discriminate || contradiction).
  - vm_compute. intros [? | ?%elem_of_nil]%elem_of_cons; (discriminate || contradiction).
  - vm_compute. eexists. reflexivity.
Defined.
