(* ===== verification/CreateTorrent.v ===== *)
(** * Deluge.CreateTorrentWindow

    The window that makes a torrent of what is on the daemon's disk: what it
    browses and chooses, the options it sends, and the questions it asks about
    the job until that is done, with the timers and calls it has started. *)

From stdpp Require Import base list strings gmap.
From Stdlib Require Import Lia ZArith.
From S2P Require Import Prelude JsNum JsString JsValue ExtCore Formatters.

Local Open Scope nat_scope.

Module Create.

(** A piece size with the label it is offered under; [Auto] is translated. *)
Definition PIECE_SIZES (tr : string -> string) : list (Z * string) :=
  [(0, tr "Auto"); (16384, "16 KiB"); (32768, "32 KiB"); (65536, "64 KiB"); (131072, "128 KiB");
   (262144, "256 KiB"); (524288, "512 KiB"); (1048576, "1 MiB"); (2097152, "2 MiB");
   (4194304, "4 MiB"); (8388608, "8 MiB"); (16777216, "16 MiB")]%Z.

Definition pollInterval : Z := 500.

(** ** The options *)

(** A string that may be missing, and whether it counts as true. *)
Definition text := option string.
Definition given (t : text) : bool := match t with Some s => bool_decide (s <> "") | None => false end.
Definition or_text (t : text) (d : string) : string := if given t then default d t else d.

(** What the form's fields hold. *)
Record form := mkf {
  trackers : text; webseeds : text; comment : text; piece_length : prim; torrent_format : text;
  private : bool; download_it : bool; add_to_session : bool; target : text
}.

(** The dictionary of arguments. *)
Record arguments := mka {
  a_path : text; a_trackers : list string; a_webseeds : list string; a_comment : string;
  a_piece_length : num; a_torrent_format : string; a_private : bool; a_add_to_session : bool;
  a_target : string
}.

(** [lines], within [options] *)
Definition lines (t : text) : list string :=
  if given t
  then filter (fun line => 0 < String.length line) (map trim (split_on (chr 10) (default "" t)))
  else [].

(** [options] *)
Definition options (selected : text) (values : form) : arguments :=
  let n := parse_int (to_str (piece_length values)) in
  mka selected (lines (trackers values)) (lines (webseeds values)) (or_text (comment values) "")
    (if truthy (PNum n) then n else of_Z 0) (or_text (torrent_format values) "v1")
    (private values) (add_to_session values) (trim (or_text (target values) "")).

(** [encodeURIComponent]: letters, digits and a few marks stay, the bytes of
    any other character are written in hexadecimal. *)
Definition unreserved (c : Ascii.ascii) : bool :=
  let n := code c in
  is_digit c || ((65 <=? n) && (n <=? 90)) || ((97 <=? n) && (n <=? 122)) ||
  bool_decide (n ∈ [45; 95; 46; 33; 126; 42; 39; 40; 41]).
Definition hex (n : nat) : string :=
  let d k := String.String (chr (if k <? 10 then 48 + k else 55 + k)) "" in
  "%" +:+ d (n / 16) +:+ d (n mod 16).
Definition encode_char (c : Ascii.ascii) : string :=
  let n := code c in
  if unreserved c then String.String c ""
  else if n <? 128 then hex n
  else hex (192 + n / 64) +:+ hex (128 + n mod 64).
Definition encodeURIComponent (s : string) : string := str_flat_map encode_char s.

(** ** The window *)

(** A line of the listing, and the listing of a directory. *)
Record entry := mke { e_name : string; e_path : string; e_kind : string; e_size : prim }.
Record listing := mkl { l_path : string; l_parent : text; l_entries : list entry }.

(** What the line of the choice says, and what the bar says. *)
Inductive label := Nothing | Chosen (path : string) | ChosenSize (path : string) (size : string)
  | WrittenTo (path : string).
Inductive bar := Ready | Starting | Hashing (fraction percent piece pieces : num) | Failed
  | Made (parts : list string).

(** How a job stands. *)
Record status := mks {
  s_state : string; s_progress : num; s_piece : num; s_pieces : num; s_error : text;
  s_name : text; s_size : prim; s_written_to : text; s_torrent_id : text
}.

(** The calls that may be in flight; a listing's with the path as it was asked
    for. *)
Inductive ask := AskList (dir : string) (path : text) | AskSize (path : string) | AskCreate | AskJob (job : string)
  | AskLocation.

#[global] Instance ask_eq_dec : EqDecision ask.
Proof. solve_decision. Defined.

(** [here] and the path field, [parentPath], [entries], [selected], [job];
    [timer], a number that stays when the timer has gone off; [wantsDownload],
    the two buttons, the line of the choice, the bar, whether there is an
    iframe; and of the browser the timers that are set, the number the next one
    is given, and the calls in flight. *)
Record window := mk {
  here : string; parentPath : text; entries : list entry; selected : text; job : text;
  timer : option nat; wantsDownload : bool; createEnabled : bool; downloadEnabled : bool;
  chosen : label; progress : bar; sink : bool;
  timers : list nat; next : nat; flight : list ask
}.

Definition create : window :=
  mk "" None [] None None None false true false Nothing Ready false [] 1 [].

(** What the window does outside: a call with its arguments, a box, and a file
    fetched through the iframe. *)
Inductive output := Called (a : ask) (args : option arguments) | Alert (msg : string) | Fetch (url : string).

Section window.
Variable tr : string -> string.
Variable base : string.

Definition with_choice (w : window) (s : text) (l : label) : window :=
  mk (here w) (parentPath w) (entries w) s (job w) (timer w) (wantsDownload w) (createEnabled w)
    (downloadEnabled w) l (progress w) (sink w) (timers w) (next w) (flight w).
Definition with_job (w : window) (j : text) : window :=
  mk (here w) (parentPath w) (entries w) (selected w) j (timer w) (wantsDownload w) (createEnabled w)
    (downloadEnabled w) (chosen w) (progress w) (sink w) (timers w) (next w) (flight w).
Definition with_wants (w : window) (b : bool) : window :=
  mk (here w) (parentPath w) (entries w) (selected w) (job w) (timer w) b (createEnabled w)
    (downloadEnabled w) (chosen w) (progress w) (sink w) (timers w) (next w) (flight w).
Definition with_buttons (w : window) (c d : bool) : window :=
  mk (here w) (parentPath w) (entries w) (selected w) (job w) (timer w) (wantsDownload w) c
    d (chosen w) (progress w) (sink w) (timers w) (next w) (flight w).
Definition with_bar (w : window) (p : bar) : window :=
  mk (here w) (parentPath w) (entries w) (selected w) (job w) (timer w) (wantsDownload w) (createEnabled w)
    (downloadEnabled w) (chosen w) p (sink w) (timers w) (next w) (flight w).
Definition with_sink (w : window) : window :=
  mk (here w) (parentPath w) (entries w) (selected w) (job w) (timer w) (wantsDownload w) (createEnabled w)
    (downloadEnabled w) (chosen w) (progress w) true (timers w) (next w) (flight w).
Definition with_timers (w : window) (t : option nat) (ts : list nat) (n : nat) : window :=
  mk (here w) (parentPath w) (entries w) (selected w) (job w) t (wantsDownload w) (createEnabled w)
    (downloadEnabled w) (chosen w) (progress w) (sink w) ts n (flight w).
Definition with_flight (w : window) (fl : list ask) : window :=
  mk (here w) (parentPath w) (entries w) (selected w) (job w) (timer w) (wantsDownload w) (createEnabled w)
    (downloadEnabled w) (chosen w) (progress w) (sink w) (timers w) (next w) fl.

Definition call (a : ask) (args : option arguments) (w : window) : window * list output :=
  (with_flight w (flight w ++ [a]), [Called a args]).

(** [browse] *)
Definition browse (path : text) (w : window) : window * list output :=
  call (AskList (or_text path "/") path) None w.
Definition onListing (l : listing) (w : window) : window :=
  mk (l_path l) (l_parent l) (l_entries l) (selected w) (job w) (timer w) (wantsDownload w)
    (createEnabled w) (downloadEnabled w) (chosen w) (progress w) (sink w) (timers w) (next w) (flight w).
Definition upEnabled (w : window) : bool := given (parentPath w).
Definition onListingFailed (path : text) (w : window) : window * list output :=
  (w, [Alert (format (tr "Could not read {0}") [Fmt.html_text (default "" path)])]).

(** [onUp], and the row handlers *)
Definition onUp (w : window) : window * list output :=
  if given (parentPath w) then browse (parentPath w) w else (w, []).

(** [choose] *)
Definition choose (record : option entry) (w : window) : window * list output :=
  match record with
  | None => (w, [])
  | Some r =>
      let w := with_choice w (Some (e_path r)) (Chosen (e_path r)) in
      call (AskSize (e_path r)) None w
  end.
Definition onSize (path : string) (size : prim) (w : window) : window :=
  if decide (selected w <> Some path) then w
  else if bool_decide (size = PNull) || prim_ltb size (PNum (of_Z 0)) then w
  else with_choice w (selected w) (ChosenSize path (Fmt.size size false)).

Definition onRowClick (index : nat) (w : window) : window * list output :=
  choose (entries w !! index) w.
Definition onRowDoubleClick (index : nat) (w : window) : option (window * list output) :=
  record ← entries w !! index;
  if decide (e_kind record = "dir") then
    let '(w, os) := browse (Some (e_path record)) w in
    let '(w, os') := choose (Some record) w in
    Some (w, os ++ os')
  else Some (w, []).

(** [stopPolling] and [poll] *)
Definition stopPolling (w : window) : window :=
  match timer w with
  | Some t => with_timers w None (filter (fun u => u <> t) (timers w)) (next w)
  | None => w
  end.
Definition poll (w : window) : window :=
  let w := stopPolling w in
  with_timers w (Some (next w)) (timers w ++ [next w]) (S (next w)).

(** [download] *)
Definition download (w : window) : window * list output :=
  if given (job w)
  then (with_sink w, [Fetch (base +:+ "created/" +:+ encodeURIComponent (default "" (job w)))])
  else (w, []).

(** What [finish] is told went wrong: nothing, a text, or the object a call
    that failed is answered with. *)
Inductive error := Silent | Message (s : text) | Response.
Definition error_text (e : error) : string :=
  match e with
  | Response => Fmt.html_text "[object Object]"
  | Message s => Fmt.html_text (or_text s (tr "The torrent could not be created."))
  | Silent => Fmt.html_text (tr "The torrent could not be created.")
  end.

(** [finish] *)
Definition parts (st : option status) : list string :=
  match st with
  | None => [format (tr "Created {0}") [""]]
  | Some st =>
      [format (tr "Created {0}") [or_text (s_name st) ""]] ++
      (if truthy (s_size st) then [Fmt.size (s_size st) false] else []) ++
      (if given (s_written_to st) then [tr "saved"] else []) ++
      (if given (s_torrent_id st) then [tr "seeding"] else [])
  end.
Definition finish (worked : bool) (e : error) (st : option status) (w : window) : window * list output :=
  let w := stopPolling w in
  let w := with_buttons w true (downloadEnabled w) in
  if negb worked then (with_bar w Failed, [Alert (error_text e)])
  else
    let w := with_bar w (Made (parts st)) in
    let w := match st with
             | Some st => if given (s_written_to st)
                          then with_choice w (selected w) (WrittenTo (or_text (s_written_to st) ""))
                          else w
             | None => w
             end in
    let w := with_buttons w true true in
    if wantsDownload w then download w else (w, []).

(** [ask] and the answers it gets *)
Definition ask_ (w : window) : window * list output :=
  if given (job w) then call (AskJob (default "" (job w))) None w else (w, []).
Definition onStatus (st : status) (w : window) : window * list output :=
  if decide (s_state st = "running") then
    let w := with_bar w (Hashing (s_progress st) (num_round (num_mul (s_progress st) (of_Z 100)))
                          (s_piece st) (s_pieces st)) in
    (poll w, [])
  else finish (bool_decide (s_state st = "done")) (Message (s_error st)) (Some st) w.

(** [onCreate] and what its call is answered *)
Definition onCreate (values : form) (w : window) : window * list output :=
  if negb (given (selected w)) then
    (w, [Alert (tr "Choose a file or a folder on the Content tab first.")])
  else
    let w := with_wants w (download_it values) in
    let w := with_buttons w false false in
    let w := with_bar w Starting in
    call AskCreate (Some (options (selected w) values)) w.
Definition onCreated (j : text) (w : window) : window := poll (with_job w j).

(** [show] *)
Definition show (w : window) : window * list output :=
  let w := with_choice w None Nothing in
  let w := with_job w None in
  let w := with_bar w Ready in
  let w := with_buttons w true false in
  call AskLocation None w.

(** What a call may be answered. *)
Inductive answer := Listed (l : listing) | Sized (size : prim) | Job (j : text) | Status (s : status)
  | Location (l : text).

Definition onAnswer (a : ask) (r : answer) (w : window) : option (window * list output) :=
  match a, r with
  | AskList _ _, Listed l => Some (onListing l w, [])
  | AskSize p, Sized size => Some (onSize p size w, [])
  | AskCreate, Job j => Some (onCreated j w, [])
  | AskJob _, Status st => Some (onStatus st w)
  | AskLocation, Location l => Some (browse (Some (or_text l "/")) w)
  | _, _ => None
  end.
Definition onFailed (a : ask) (w : window) : window * list output :=
  match a with
  | AskList _ p => onListingFailed p w
  | AskSize _ => (w, [])
  | AskCreate => finish false Response None w
  | AskJob _ => (poll w, [])
  | AskLocation => browse (Some "/") w
  end.

(** What may happen: a button does nothing while it is disabled, and the call
    in flight at a place is answered or fails. *)
Inductive event :=
  | Show | Hide | Click (row : nat) | DoubleClick (row : nat) | Up | Go (path : text)
  | PressCreate (values : form) | PressDownload | Tick (t : nat)
  | Answered (i : nat) (r : answer) | Lost (i : nat).

Definition step (w : window) (e : event) : option (window * list output) :=
  match e with
  | Show => Some (show w)
  | Hide => Some (stopPolling w, [])
  | Click i => Some (onRowClick i w)
  | DoubleClick i => onRowDoubleClick i w
  | Up => Some (if upEnabled w then onUp w else (w, []))
  | Go p => Some (browse p w)
  | PressCreate values => Some (if createEnabled w then onCreate values w else (w, []))
  | PressDownload => Some (if downloadEnabled w then download w else (w, []))
  | Tick t =>
      if decide (t ∈ timers w)
      then Some (ask_ (with_timers w (timer w) (filter (fun u => u <> t) (timers w)) (next w)))
      else None
  | Answered i r => a ← flight w !! i; onAnswer a r (with_flight w (delete i (flight w)))
  | Lost i => a ← flight w !! i; Some (onFailed a (with_flight w (delete i (flight w))))
  end.

Definition steps : window -> list event -> option (window * list output) := run step.
End window.

End Create.

(** ** The choice *)

Definition choice_ok (w : Create.window) : Prop :=
  match Create.chosen w with
  | Create.Nothing => Create.selected w = None
  | Create.Chosen p | Create.ChosenSize p _ => Create.selected w = Some p
  | Create.WrittenTo _ => True
  end.

(** Whatever one of these changes, it is not the choice. *)
Definition same_choice (w w' : Create.window) : Prop :=
  Create.chosen w' = Create.chosen w /\ Create.selected w' = Create.selected w.

Lemma same_choice_ok w w' : same_choice w w' -> choice_ok w -> choice_ok w'.
Proof. intros [H1 H2]. unfold choice_ok. by rewrite H1, H2. Qed.

Lemma stop_choice w : same_choice w (Create.stopPolling w).
Proof. unfold Create.stopPolling. by destruct (Create.timer w). Qed.

Lemma poll_choice w : same_choice w (Create.poll w).
Proof. apply (stop_choice w). Qed.

Section choice.
Variables (tr : string -> string) (base : string).

Lemma download_choice w : same_choice w (Create.download base w).1.
Proof. unfold Create.download. by destruct (Create.given _). Qed.

Lemma finish_choice worked e st w :
  choice_ok w -> choice_ok (Create.finish tr base worked e st w).1.
Proof.
  intros H. unfold Create.finish. apply (same_choice_ok _ _ (stop_choice w)) in H.
  destruct worked; cbn [negb]; [|exact H].
  set (w1 := Create.with_bar _ _). assert (H1 : choice_ok w1) by exact H.
  set (w2 := Create.with_buttons _ true true).
  assert (H2 : choice_ok w2).
  { subst w2. destruct st as [st|]; [|exact H1]. by destruct (Create.given (Create.s_written_to st)). }
  destruct (Create.wantsDownload w2); [|exact H2]. by apply (same_choice_ok _ _ (download_choice w2)).
Qed.

Lemma status_choice st w : choice_ok w -> choice_ok (Create.onStatus tr base st w).1.
Proof.
  intros H. unfold Create.onStatus. destruct (decide _); [|by apply finish_choice].
  by apply (same_choice_ok _ _ (poll_choice _)).
Qed.

Lemma choose_choice r w : choice_ok w -> choice_ok (Create.choose r w).1.
Proof. by destruct r. Qed.

Lemma size_choice p size w : choice_ok w -> choice_ok (Create.onSize p size w).
Proof.
  intros H. unfold Create.onSize. destruct (decide _) as [|Hs]; [done|]. apply dec_stable in Hs.
  by destruct (_ || _).
Qed.

Lemma answer_choice a r w x :
  Create.onAnswer tr base a r w = Some x -> choice_ok w -> choice_ok x.1.
Proof.
  destruct a, r; cbn [Create.onAnswer]; intros [= <-] H; cbn [fst]; try exact H.
  - by apply size_choice.
  - by apply (same_choice_ok _ _ (poll_choice _)).
  - by apply status_choice.
Qed.

Lemma failed_choice a w : choice_ok w -> choice_ok (Create.onFailed tr base a w).1.
Proof.
  destruct a; cbn [Create.onFailed]; intros H; try exact H.
  - by apply finish_choice.
  - by apply (same_choice_ok _ _ (poll_choice _)).
Qed.

Lemma step_choice w e w' os :
  Create.step tr base w e = Some (w', os) -> choice_ok w -> choice_ok w'.
Proof.
  intros Hs H. destruct e as [| |i|i| |p|values| |t|i r|i]; cbn [Create.step] in Hs.
  - by injection Hs as <- <-.
  - injection Hs as <- <-. by apply (same_choice_ok _ _ (stop_choice w)).
  - pose proof (choose_choice (Create.entries w !! i) w H) as Hc. unfold Create.onRowClick in Hs.
    destruct (Create.choose _ _). by injection Hs as <- <-.
  - unfold Create.onRowDoubleClick in Hs. destruct (Create.entries w !! i) as [r|]; cbn [mbind option_bind] in Hs; [|done].
    destruct (decide _); by injection Hs as <- <-.
  - unfold Create.onUp, Create.upEnabled in Hs.
    destruct (Create.given (Create.parentPath w)); by injection Hs as <- <-.
  - by injection Hs as <- <-.
  - unfold Create.onCreate in Hs. destruct (Create.createEnabled w); [|by injection Hs as <- <-].
    destruct (Create.given (Create.selected w)); by injection Hs as <- <-.
  - pose proof (same_choice_ok _ _ (download_choice w) H). destruct (Create.downloadEnabled w);
      [|by injection Hs as <- <-]. destruct (Create.download base w). by injection Hs as <- <-.
  - destruct (decide _); [|done]. unfold Create.ask_ in Hs. by destruct (Create.given (Create.job _)); injection Hs as <- <-.
  - destruct (Create.flight w !! i) as [a|]; cbn [mbind option_bind] in Hs; [|done].
    by eapply (answer_choice a r _ _ Hs).
  - destruct (Create.flight w !! i) as [a|]; cbn [mbind option_bind] in Hs; [|done].
    pose proof (failed_choice a (Create.with_flight w (delete i (Create.flight w))) H) as Hc.
    injection Hs as Hs. by rewrite Hs in Hc.
Qed.
End choice.

(** The line of the choice is about what is chosen now: a size that arrives
    after something else was chosen, or after the window was opened again, is
    not shown. *)
Theorem chosen_is_selected tr base es w os :
  Create.steps tr base Create.create es = Some (w, os) ->
  match Create.chosen w with
  | Create.Nothing => Create.selected w = None
  | Create.Chosen p | Create.ChosenSize p _ => Create.selected w = Some p
  | Create.WrittenTo _ => True
  end.
Proof.
  intros H. change (choice_ok w). revert es w os H. apply run_ind; [done|].
  intros es s1 os1 e s2 os2 _ H Hs. by eapply step_choice.
Qed.

(** ** Watching a job *)

(** The calls that are about making a torrent, and how many of them and of the
    timers that ask there are. *)
Definition about_job (a : Create.ask) : bool :=
  match a with Create.AskCreate | Create.AskJob _ => true | _ => false end.
Definition watching (fl : list Create.ask) : nat := length (List.filter about_job fl).
#[local] Arguments watching : simpl never.
#[local] Arguments Create.stopPolling : simpl never.
#[local] Arguments Create.given : simpl never.
Definition outstanding (w : Create.window) : nat := length (Create.timers w) + watching (Create.flight w).

Lemma watching_app fl fl' : watching (fl ++ fl') = watching fl + watching fl'.
Proof. unfold watching. by rewrite List.filter_app, length_app. Qed.

Lemma watching_delete fl i a :
  fl !! i = Some a -> watching fl = (if about_job a then 1 else 0) + watching (delete i fl).
Proof.
  intros H. rewrite <- (take_drop_middle fl i a H) at 1. rewrite delete_take_drop, !watching_app.
  unfold watching at 2. cbn [List.filter]. destruct (about_job a); cbn [length]; unfold watching; lia.
Qed.

Lemma watching_zero fl a : watching fl = 0 -> about_job a = true -> a ∉ fl.
Proof.
  unfold watching. intros H Ha [i Hi]%list_elem_of_lookup.
  apply watching_delete in Hi. rewrite Ha in Hi. unfold watching in Hi. lia.
Qed.

(** While a job is being made, one timer or one call is about it, and the
    question is about that job; while none is, nothing is. *)
Record watched (w : Create.window) : Prop := {
  wd_count : outstanding w = if Create.createEnabled w then 0 else 1;
  wd_timer : forall t, t ∈ Create.timers w -> Create.timer w = Some t;
  wd_job : Create.timers w <> [] -> Create.given (Create.job w) = true;
  wd_ask : forall j, Create.AskJob j ∈ Create.flight w ->
    Create.job w = Some j /\ Create.given (Create.job w) = true
}.

(** What these leave alone of a window. *)
Definition same_watch (w w' : Create.window) : Prop :=
  Create.timers w' = Create.timers w /\ Create.timer w' = Create.timer w /\
  Create.flight w' = Create.flight w /\ Create.job w' = Create.job w /\
  Create.createEnabled w' = Create.createEnabled w.

Lemma same_watched w w' : same_watch w w' -> watched w -> watched w'.
Proof.
  intros (E1 & E2 & E3 & E4 & E5) [H1 H2 H3 H4]. unfold outstanding in *.
  split; unfold outstanding; rewrite ?E1, ?E2, ?E3, ?E4, ?E5; auto.
Qed.

Lemma call_watched a args w : about_job a = false -> watched w -> watched (Create.call a args w).1.
Proof.
  intros Ha [H1 H2 H3 H4]. split; cbn; try done.
  - unfold outstanding in *. cbn. rewrite watching_app. unfold watching at 2. cbn. rewrite Ha. cbn. lia.
  - intros j [Hj | Hj%list_elem_of_singleton]%elem_of_app; [auto|]. by subst a.
Qed.

Lemma stop_timers w : (forall t, t ∈ Create.timers w -> Create.timer w = Some t) ->
  Create.timers (Create.stopPolling w) = [].
Proof.
  intros H. unfold Create.stopPolling. destruct (Create.timer w) as [t|] eqn:E; cbn.
  - apply elem_of_nil_inv. intros u [Hu Hi]%list_elem_of_filter. apply H in Hi. congruence.
  - destruct (Create.timers w) as [|u l]; [done|]. specialize (H u ltac:(left)). congruence.
Qed.

Lemma stop_rest w :
  Create.flight (Create.stopPolling w) = Create.flight w /\ Create.job (Create.stopPolling w) = Create.job w /\
  Create.createEnabled (Create.stopPolling w) = Create.createEnabled w /\
  Create.wantsDownload (Create.stopPolling w) = Create.wantsDownload w.
Proof. unfold Create.stopPolling. by destruct (Create.timer w). Qed.

Lemma poll_watched w :
  (forall t, t ∈ Create.timers w -> Create.timer w = Some t) -> watching (Create.flight w) = 0 ->
  Create.createEnabled w = false -> Create.given (Create.job w) = true -> watched (Create.poll w).
Proof.
  intros Ht Hf Hc Hj. unfold Create.poll. pose proof (stop_timers w Ht) as Hs.
  pose proof (stop_rest w) as (S1 & S2 & S3 & S4). split; cbn.
  - unfold outstanding. cbn. rewrite Hs, S1, Hf, S3, Hc. done.
  - rewrite Hs. intros t ->%list_elem_of_singleton. done.
  - by rewrite S2.
  - rewrite S1. intros j Hi. by apply watching_zero with (a := Create.AskJob j) in Hf.
Qed.

Lemma idle_watched w :
  Create.timers w = [] -> watching (Create.flight w) = 0 -> Create.createEnabled w = true -> watched w.
Proof.
  intros Ht Hf Hc. split.
  - unfold outstanding. by rewrite Ht, Hf, Hc.
  - rewrite Ht. by intros t ?%elem_of_nil.
  - by rewrite Ht.
  - intros j Hi. by apply watching_zero with (a := Create.AskJob j) in Hf.
Qed.

Section watch.
Variables (tr : string -> string) (base : string).

(** Anything but opening and hiding the window; a job has a name. *)
Definition kept_open (e : Create.event) : bool :=
  match e with
  | Create.Show | Create.Hide => false
  | Create.Answered _ (Create.Job j) => Create.given j
  | _ => true
  end.

Lemma browse_watched p w : watched w -> watched (Create.browse p w).1.
Proof. by apply call_watched. Qed.

Lemma choose_watched r w : watched w -> watched (Create.choose r w).1.
Proof.
  intros H. destruct r as [r|]; cbn [Create.choose]; [|done]. by apply call_watched, (same_watched w).
Qed.

Lemma row_watched i w w' os :
  Create.onRowDoubleClick i w = Some (w', os) -> watched w -> watched w'.
Proof.
  unfold Create.onRowDoubleClick. destruct (Create.entries w !! i) as [r|]; cbn [mbind option_bind]; [|done].
  intros Hs H. destruct (decide _); [|by injection Hs as <- <-].
  assert (H1 : watched (Create.browse (Some (Create.e_path r)) w).1) by by apply call_watched.
  destruct (Create.browse _ w) as [w1 os1]. apply (choose_watched (Some r)) in H1. cbn [fst] in H1.
  destruct (Create.choose (Some r) w1). by injection Hs as <- <-.
Qed.

Lemma download_same w : same_watch w (Create.download base w).1.
Proof. unfold Create.download. by destruct (Create.given _). Qed.

(** The window after a call about the job has landed. *)
Definition landed_ok (w : Create.window) : Prop :=
  Create.timers w = [] /\ watching (Create.flight w) = 0 /\ Create.createEnabled w = false.

Lemma finish_watched worked e st w :
  landed_ok w -> watched (Create.finish tr base worked e st w).1 /\
  Create.createEnabled (Create.finish tr base worked e st w).1 = true.
Proof.
  intros (Ht & Hf & _). pose proof (stop_timers w) as Hs. pose proof (stop_rest w) as (S1 & _).
  rewrite Ht in Hs. specialize (Hs ltac:(by intros t ?%elem_of_nil)).
  unfold Create.finish. destruct worked; cbn [negb].
  - set (w1 := Create.with_bar _ _). set (w2 := Create.with_buttons _ true true).
    assert (H2 : watched w2 /\ Create.createEnabled w2 = true).
    { split; [|done]. apply idle_watched; subst w2 w1;
        (destruct st as [st|]; [destruct (Create.given (Create.s_written_to st))|]); cbn; done || congruence. }
    destruct (Create.wantsDownload w2); [|done]. pose proof (download_same w2) as Hd.
    split; [apply (same_watched w2 _ Hd), H2|]. destruct Hd as (_ & _ & _ & _ & ->). apply H2.
  - split; [|done]. apply idle_watched; cbn; done || congruence.
Qed.

Lemma flight_landed w i a :
  watched w -> Create.flight w !! i = Some a -> about_job a = true ->
  landed_ok (Create.with_flight w (delete i (Create.flight w))).
Proof.
  intros [H1 H2 H3 H4] Hi Ha. apply watching_delete in Hi. rewrite Ha in Hi.
  unfold landed_ok, outstanding in *. cbn. destruct (Create.createEnabled w); [lia|].
  split; [|split; [lia|done]]. apply nil_length_inv. lia.
Qed.

Lemma flight_watched w i a :
  watched w -> Create.flight w !! i = Some a -> about_job a = false ->
  watched (Create.with_flight w (delete i (Create.flight w))).
Proof.
  intros [H1 H2 H3 H4] Hi Ha. apply watching_delete in Hi. rewrite Ha in Hi. split; cbn; try done.
  - unfold outstanding in *. cbn. lia.
  - intros j Hj. apply H4. eapply elem_of_submseteq; [exact Hj|apply sublist_submseteq, sublist_delete].
Qed.

Lemma landed_poll w : landed_ok w -> Create.given (Create.job w) = true -> watched (Create.poll w).
Proof.
  intros (Ht & Hf & Hc) Hj. apply poll_watched; try done. rewrite Ht. by intros t ?%elem_of_nil.
Qed.

Lemma ask_watched w t :
  t ∈ Create.timers w -> watched w ->
  watched (Create.ask_ (Create.with_timers w (Create.timer w)
    (filter (fun u => u <> t) (Create.timers w)) (Create.next w))).1.
Proof.
  intros Ht [H1 H2 H3 H4]. unfold outstanding in H1.
  destruct (Create.createEnabled w) eqn:Ec.
  { assert (Create.timers w = []) by (apply nil_length_inv; lia). by apply not_elem_of_nil in Ht || (rewrite H in Ht; by apply not_elem_of_nil in Ht). }
  destruct (Create.timers w) as [|u [|]] eqn:Eu; [by apply not_elem_of_nil in Ht || (rewrite H in Ht; by apply not_elem_of_nil in Ht)| |cbn in H1; lia].
  apply list_elem_of_singleton in Ht as ->. cbn [length] in H1.
  specialize (H3 ltac:(done)). rewrite filter_cons_False, filter_nil by tauto.
  unfold Create.ask_. cbn. rewrite H3. split; cbn.
  - unfold outstanding. cbn. rewrite watching_app, Ec. unfold watching at 2. cbn. lia.
  - by intros v ?%elem_of_nil.
  - done.
  - intros j Hj. split; [|done]. apply elem_of_app in Hj as [Hj | Hj%list_elem_of_singleton]; [by apply H4|].
    injection Hj as ->. by destruct (Create.job w).
Qed.

Lemma answer_watched w i a r x :
  watched w -> Create.flight w !! i = Some a ->
  kept_open (Create.Answered i r) = true ->
  Create.onAnswer tr base a r (Create.with_flight w (delete i (Create.flight w))) = Some x ->
  watched x.1.
Proof.
  intros H Hi Hk. set (w1 := Create.with_flight w _).
  destruct a, r; cbn [Create.onAnswer]; intros [= <-]; cbn [fst].
  - eapply same_watched; [|by apply (flight_watched w i _ H Hi)]. done.
  - eapply same_watched; [|by apply (flight_watched w i _ H Hi)].
    unfold Create.onSize. destruct (decide _); [done|]. by destruct (_ || _).
  - pose proof (flight_landed w i _ H Hi eq_refl) as Hl. by apply landed_poll.
  - pose proof (flight_landed w i _ H Hi eq_refl) as Hl.
    destruct (wd_ask w H job ltac:(by eapply list_elem_of_lookup_2)) as [Hj Hg].
    unfold Create.onStatus. destruct (decide _); [by apply landed_poll|by apply finish_watched].
  - apply call_watched; [done|by apply (flight_watched w i _ H Hi)].
Qed.

Lemma failed_watched w i a :
  watched w -> Create.flight w !! i = Some a ->
  watched (Create.onFailed tr base a (Create.with_flight w (delete i (Create.flight w)))).1.
Proof.
  intros H Hi. destruct a; cbn [Create.onFailed fst].
  - by apply (flight_watched w i _ H Hi).
  - by apply (flight_watched w i _ H Hi).
  - apply finish_watched. by apply (flight_landed w i _ H Hi).
  - destruct (wd_ask w H job ltac:(by eapply list_elem_of_lookup_2)) as [Hj Hg].
    apply landed_poll; [by apply (flight_landed w i _ H Hi)|done].
  - apply call_watched; [done|by apply (flight_watched w i _ H Hi)].
Qed.

Lemma create_watched values w :
  Create.createEnabled w = true -> watched w -> watched (Create.onCreate tr values w).1.
Proof.
  intros Hc H. unfold Create.onCreate. destruct (Create.given (Create.selected w)); cbn [negb]; [|done].
  destruct H as [H1 H2 H3 H4]. rewrite Hc in H1. unfold outstanding in H1.
  assert (Ht : Create.timers w = []) by (apply nil_length_inv; lia). split; cbn.
  - unfold outstanding. cbn. rewrite watching_app, Ht. unfold watching at 2. cbn. lia.
  - rewrite Ht. by intros t ?%elem_of_nil.
  - done.
  - intros j [Hj | Hj%list_elem_of_singleton]%elem_of_app; [by apply H4|done].
Qed.

Lemma step_watched w e w' os :
  kept_open e = true -> Create.step tr base w e = Some (w', os) -> watched w -> watched w'.
Proof.
  intros Hk Hs H. destruct e as [| |i|i| |p|values| |t|i r|i]; cbn [Create.step] in Hs; try discriminate Hk.
  - unfold Create.onRowClick in Hs. pose proof (choose_watched (Create.entries w !! i) w H) as Hc.
    destruct (Create.choose _ w). by injection Hs as <- <-.
  - by eapply row_watched.
  - unfold Create.onUp, Create.upEnabled in Hs.
    pose proof (browse_watched (Create.parentPath w) w H) as Hb. destruct (Create.browse _ w) as [w1 os1].
    destruct (Create.given (Create.parentPath w)); by injection Hs as <- <-.
  - pose proof (browse_watched p w H) as Hb. destruct (Create.browse p w). by injection Hs as <- <-.
  - destruct (Create.createEnabled w) eqn:Ec; [|by injection Hs as <- <-].
    pose proof (create_watched values w Ec H) as Hc. destruct (Create.onCreate tr values w).
    by injection Hs as <- <-.
  - pose proof (same_watched _ _ (download_same w) H) as Hc.
    destruct (Create.downloadEnabled w); [|by injection Hs as <- <-].
    destruct (Create.download base w). by injection Hs as <- <-.
  - destruct (decide _) as [Ht|]; [|done]. pose proof (ask_watched w t Ht H) as Hc.
    destruct (Create.ask_ _). by injection Hs as <- <-.
  - destruct (Create.flight w !! i) as [a|] eqn:E; cbn [mbind option_bind] in Hs; [|done].
    by apply (answer_watched w i a r (w', os)).
  - destruct (Create.flight w !! i) as [a|] eqn:E; cbn [mbind option_bind] in Hs; [|done].
    pose proof (failed_watched w i a H E) as Hc. injection Hs as Hs. by rewrite Hs in Hc.
Qed.
End watch.

Section wants.
Variables (tr : string -> string) (base : string).

Lemma finish_wants worked e st w :
  Create.wantsDownload (Create.finish tr base worked e st w).1 = Create.wantsDownload w.
Proof.
  pose proof (stop_rest w) as (_ & _ & _ & S4). unfold Create.finish. destruct worked; cbn [negb]; [|done].
  set (w1 := Create.with_bar _ _). assert (H1 : Create.wantsDownload w1 = Create.wantsDownload w) by done.
  set (w2 := Create.with_buttons _ true true).
  assert (H2 : Create.wantsDownload w2 = Create.wantsDownload w)
    by (subst w2; destruct st as [st|]; [by destruct (Create.given (Create.s_written_to st))|done]).
  clearbody w2. destruct (Create.wantsDownload w2) eqn:E; [|cbn [fst]; congruence].
  unfold Create.download. destruct (Create.given (Create.job w2)); cbn; congruence.
Qed.

Lemma poll_wants w : Create.wantsDownload (Create.poll w) = Create.wantsDownload w.
Proof. apply (stop_rest w). Qed.

Lemma row_wants i w x :
  Create.onRowDoubleClick i w = Some x -> Create.wantsDownload x.1 = Create.wantsDownload w.
Proof.
  unfold Create.onRowDoubleClick. destruct (Create.entries w !! i); cbn [mbind option_bind]; [|done].
  by destruct (decide _); intros [= <-].
Qed.

Definition presses_create (e : Create.event) : bool :=
  match e with Create.PressCreate _ => true | _ => false end.

Lemma step_wants w e x :
  presses_create e = false -> Create.step tr base w e = Some x ->
  Create.wantsDownload x.1 = Create.wantsDownload w.
Proof.
  intros Hp Hs. destruct e as [| |i|i| |p|values| |t|i r|i]; cbn [Create.step] in Hs; try discriminate Hp.
  - by injection Hs as <-.
  - injection Hs as <-. apply stop_rest.
  - injection Hs as <-. unfold Create.onRowClick. by destruct (Create.entries w !! i).
  - by apply row_wants in Hs.
  - injection Hs as <-. unfold Create.onUp. by destruct (Create.upEnabled w), (Create.given (Create.parentPath w)).
  - by injection Hs as <-.
  - injection Hs as <-. unfold Create.download. by destruct (Create.downloadEnabled w), (Create.given (Create.job w)).
  - destruct (decide _); [|done]. injection Hs as <-. unfold Create.ask_.
    by destruct (Create.given (Create.job _)).
  - destruct (Create.flight w !! i) as [a|]; cbn [mbind option_bind] in Hs; [|done].
    destruct a, r; cbn [Create.onAnswer] in Hs; try discriminate Hs; injection Hs as <-; cbn [fst]; try done.
    + unfold Create.onSize. destruct (decide _); [done|]. by destruct (_ || _).
    + unfold Create.onCreated. by rewrite poll_wants.
    + unfold Create.onStatus. destruct (decide _); [cbn [fst]; by rewrite poll_wants|by rewrite finish_wants].
  - destruct (Create.flight w !! i) as [a|]; cbn [mbind option_bind] in Hs; [|done]. injection Hs as <-.
    destruct a; cbn [Create.onFailed fst]; try done; [by rewrite finish_wants|by rewrite poll_wants].
Qed.
End wants.

(** What finishing a job that is done does outside. *)
Lemma finish_done tr base e st w j :
  Create.job w = Some j -> Create.given (Create.job w) = true ->
  (Create.finish tr base true e st w).2 =
    (if Create.wantsDownload w
     then [Create.Fetch (base +:+ "created/" +:+ Create.encodeURIComponent j)] else []) /\
  Create.downloadEnabled (Create.finish tr base true e st w).1 = true.
Proof.
  intros Hj Hg. rewrite Hj in Hg. pose proof (stop_rest w) as (_ & S2 & _ & S4).
  unfold Create.finish. cbn [negb]. set (w1 := Create.with_bar _ _). set (w2 := Create.with_buttons _ true true).
  assert (H2 : Create.wantsDownload w2 = Create.wantsDownload w /\ Create.job w2 = Some j /\
    Create.downloadEnabled w2 = true).
  { subst w2 w1. destruct st as [st|]; [destruct (Create.given (Create.s_written_to st))|]; cbn;
      rewrite S2, S4; done. }
  destruct H2 as (H2 & H3 & H4). clearbody w2. unfold Create.download. rewrite H2, H3, Hg.
  by destruct (Create.wantsDownload w).
Qed.

Lemma shown_watched tr base es w os :
  forallb kept_open es = true ->
  Create.steps tr base (Create.show Create.create).1 es = Some (w, os) -> watched w.
Proof.
  intros Hk H. revert Hk. revert es w os H.
  apply (run_ind _ (fun w es _ => forallb kept_open es = true -> watched w)).
  - intros _. by apply idle_watched.
  - intros es s1 os1 e s2 os2 _ IH Hs. rewrite forallb_app. cbn. intros [Hk He]%andb_true_iff.
    rewrite andb_true_r in He. eapply step_watched; eauto.
Qed.

(** The window is neither opened again nor closed while a job is being made, and
    the daemon gives a job a name. *)
Definition calm (w : Create.window) (e : Create.event) : bool :=
  match e with
  | Create.Show | Create.Hide => Create.createEnabled w
  | e => kept_open e
  end.
Fixpoint undisturbed tr base (w : Create.window) (es : list Create.event) : bool :=
  match es with
  | [] => true
  | e :: es' => calm w e && match Create.step tr base w e with Some (w', _) => undisturbed tr base w' es' | None => true end
  end.

Lemma rested w : watched w -> Create.createEnabled w = true -> Create.timers w = [] /\ watching (Create.flight w) = 0.
Proof. intros [H _ _ _] Hc. unfold outstanding in H. rewrite Hc in H. split; [apply nil_length_inv|]; lia. Qed.

Lemma step_calm tr base w e w' os :
  calm w e = true -> Create.step tr base w e = Some (w', os) -> watched w -> watched w'.
Proof.
  intros Hc Hs Hw. pose proof (step_watched tr base w e w' os) as Hk. destruct e; try (by apply Hk);
    cbn [calm] in Hc; destruct (rested w Hw Hc) as [Ht Hf]; injection Hs as <- <-.
  - apply idle_watched; cbn; [done| |done]. rewrite watching_app, Hf. done.
  - destruct (stop_rest w) as (S1 & _ & S3 & _). apply idle_watched; [|by rewrite S1|by rewrite S3].
    apply stop_timers. rewrite Ht. by intros t ?%elem_of_nil.
Qed.

Lemma undisturbed_watched tr base es w0 w os :
  undisturbed tr base w0 es = true -> Create.steps tr base w0 es = Some (w, os) -> watched w0 -> watched w.
Proof.
  revert w0 w os. induction es as [|e es IH]; intros w0 w os Hu Hr Hw; [by injection Hr as <- <-|].
  cbn [undisturbed] in Hu. apply andb_true_iff in Hu as [Hc Hu].
  change (e :: es) with ([e] ++ es) in Hr. apply run_app in Hr as (w1 & os1 & os2 & H1 & H2 & _).
  unfold run in H1. cbn [foldl mbind option_bind] in H1. destruct (Create.step tr base w0 e) as [[w2 os3]|] eqn:E; [|done].
  injection H1 as -> _. apply (IH w1 w os2 Hu H2). by apply (step_calm tr base w0 e w1 os3).
Qed.

(** Whatever is done, the window has one timer at most, the one it remembers. *)
Definition one_timer (w : Create.window) : Prop :=
  Create.timers w = [] \/ exists t, Create.timers w = [t] /\ Create.timer w = Some t.

Lemma stop_one w : one_timer w -> Create.timers (Create.stopPolling w) = [].
Proof. intros H. apply stop_timers. destruct H as [-> |(u & -> & Hu)]; [by intros t ?%elem_of_nil|]. by intros t ->%list_elem_of_singleton. Qed.

Lemma poll_one w : one_timer w -> one_timer (Create.poll w).
Proof. intros H. right. unfold Create.poll. exists (Create.next (Create.stopPolling w)). cbn. by rewrite stop_one. Qed.

Lemma one_same w w' : Create.timers w' = Create.timers w -> Create.timer w' = Create.timer w -> one_timer w -> one_timer w'.
Proof. unfold one_timer. by intros -> ->. Qed.

Lemma finish_one tr base worked e st w : one_timer w -> one_timer (Create.finish tr base worked e st w).1.
Proof.
  intros H%stop_one. left. unfold Create.finish. destruct worked; cbn [negb]; [|exact H].
  set (w1 := Create.with_bar _ _). set (w2 := Create.with_buttons _ true true).
  assert (E : Create.timers w2 = []).
  { subst w2 w1. destruct st as [st|]; [destruct (Create.given (Create.s_written_to st))|]; exact H. }
  destruct (Create.wantsDownload w2); [|done]. unfold Create.download. by destruct (Create.given _).
Qed.

Lemma filter_one t w : one_timer w -> one_timer (Create.with_timers w (Create.timer w) (filter (fun u => u <> t) (Create.timers w)) (Create.next w)).
Proof.
  intros [H|(u & H & Hu)]; [left; cbn; by rewrite H|]. unfold one_timer. cbn. rewrite H. destruct (decide (u = t)).
  - left. by rewrite filter_cons_False, filter_nil by tauto.
  - right. exists u. by rewrite filter_cons_True, filter_nil.
Qed.

Lemma step_one tr base w e w' os : Create.step tr base w e = Some (w', os) -> one_timer w -> one_timer w'.
Proof.
  intros Hs H. destruct e as [| |i|i| |p|values| |t|i r|i]; cbn [Create.step] in Hs.
  - by injection Hs as <- <-.
  - injection Hs as <- <-. left. by apply stop_one.
  - unfold Create.onRowClick, Create.choose in Hs. by destruct (Create.entries w !! i); injection Hs as <- <-.
  - unfold Create.onRowDoubleClick in Hs. destruct (Create.entries w !! i) as [r|]; cbn [mbind option_bind] in Hs; [|done].
    destruct (decide _); by injection Hs as <- <-.
  - unfold Create.onUp, Create.upEnabled in Hs. by destruct (Create.given (Create.parentPath w)); injection Hs as <- <-.
  - by injection Hs as <- <-.
  - unfold Create.onCreate in Hs. destruct (Create.createEnabled w); [|by injection Hs as <- <-].
    by destruct (Create.given (Create.selected w)); injection Hs as <- <-.
  - unfold Create.download in Hs. destruct (Create.downloadEnabled w); [|by injection Hs as <- <-].
    by destruct (Create.given (Create.job w)); injection Hs as <- <-.
  - destruct (decide _); [|done]. apply (filter_one t) in H. unfold Create.ask_ in Hs.
    by destruct (Create.given (Create.job _)); injection Hs as <- <-.
  - destruct (Create.flight w !! i) as [a|]; cbn [mbind option_bind] in Hs; [|done].
    destruct a, r; cbn [Create.onAnswer] in Hs; try discriminate Hs; try (by injection Hs as <- <-).
    + injection Hs as <- <-. eapply one_same; [..|exact H]; unfold Create.onSize; (destruct (decide _); [done|]; by destruct (_ || _)).
    + injection Hs as <- <-. by apply poll_one.
    + unfold Create.onStatus in Hs. destruct (decide _); [injection Hs as <- <-; by apply poll_one|].
      injection Hs as Hs. change (one_timer (w', os).1). rewrite <- Hs. by apply finish_one.
  - destruct (Create.flight w !! i) as [a|]; cbn [mbind option_bind] in Hs; [|done].
    destruct a; cbn [Create.onFailed] in Hs; try (by injection Hs as <- <-).
    + injection Hs as <- <-. left. exact (stop_one (Create.with_flight w _) H).
    + injection Hs as <- <-. by apply poll_one.
Qed.

(** Claim C32.  Whatever is done with the window it has one timer at most.  As long as
    it is neither opened again nor closed while a job is being made, and the
    daemon gives each job a name: from the moment a job is asked for until it is
    done or has failed there is exactly one timer or one call about it, so the
    daemon is asked again until it has an end and never asked twice at once;
    otherwise there is none, also when the window is closed and opened between
    jobs. *)
Theorem job_watched tr base es w os :
  Create.steps tr base Create.create es = Some (w, os) ->
  length (Create.timers w) <= 1 /\
  (undisturbed tr base Create.create es = true ->
   length (Create.timers w) + watching (Create.flight w) = (if Create.createEnabled w then 0 else 1) /\
   (Create.timers w <> [] -> Create.given (Create.job w) = true)).
Proof.
  intros H. split.
  - enough (one_timer w) as [-> |(t & -> & _)] by (cbn; lia).
    revert es w os H. apply (run_ind _ (fun w _ _ => one_timer w)); [by left|]. intros es s1 os1 e s2 os2 _ IH Hs. by eapply step_one.
  - intros Hu. destruct (undisturbed_watched tr base es _ w os Hu H); [|done]. by apply idle_watched.
Qed.

(** When the job made with the form's values is done, its file is fetched by
    its name if the form asked for that and only then, the buttons come back,
    and nothing goes on asking. *)
Theorem finished_job_fetched tr base es0 w0 os0 values es w os i j st :
  forallb kept_open es0 = true ->
  Create.steps tr base (Create.show Create.create).1 es0 = Some (w0, os0) ->
  Create.createEnabled w0 = true -> Create.given (Create.selected w0) = true ->
  forallb (fun e => kept_open e && negb (presses_create e)) es = true ->
  Create.steps tr base w0 (Create.PressCreate values :: es) = Some (w, os) ->
  Create.flight w !! i = Some (Create.AskJob j) -> Create.s_state st = "done" ->
  exists w', Create.step tr base w (Create.Answered i (Create.Status st)) =
    Some (w', if Create.download_it values
              then [Create.Fetch (base +:+ "created/" +:+ Create.encodeURIComponent j)] else []) /\
  Create.createEnabled w' = true /\ Create.downloadEnabled w' = true /\
  length (Create.timers w') + watching (Create.flight w') = 0.
Proof.
  intros Hk0 H0 Hc Hg Hk H Hi Hd.
  pose proof (shown_watched tr base es0 w0 os0 Hk0 H0) as Hw0.
  assert (Hw : watched w /\ Create.wantsDownload w = Create.download_it values).
  { change (Create.PressCreate values :: es) with ([Create.PressCreate values] ++ es) in H.
    apply run_app in H as (w1 & os1 & os2 & H1 & H2 & ->).
    assert (Hw1 : watched w1 /\ Create.wantsDownload w1 = Create.download_it values).
    { pose proof (create_watched tr values w0 Hc Hw0) as Hw1. revert H1. unfold run. cbn [foldl mbind option_bind Create.step].
      rewrite Hc. unfold Create.onCreate in *. rewrite Hg in *. cbn [negb] in *.
      intros [= <- <-]. split; [exact Hw1|done]. }
    clear H1 Hi H0 Hw0. revert Hk. revert es w os2 H2.
    apply (run_ind _ (fun w es _ => forallb (fun e => kept_open e && negb (presses_create e)) es = true ->
      watched w /\ Create.wantsDownload w = Create.download_it values)); [done|].
    intros es' s1 os3 e s2 os4 _ IH Hs. rewrite forallb_app. cbn. rewrite andb_true_r.
    intros [Hk [He Hp]%andb_true_iff]%andb_true_iff. destruct (IH Hk) as [I1 I2].
    split; [by eapply step_watched|]. rewrite <- I2. apply negb_true_iff in Hp.
    by apply (step_wants tr base s1 e (s2, os4)). }
  destruct Hw as [Hw Hwants].
  pose proof (flight_landed w i _ Hw Hi eq_refl) as Hl.
  destruct (wd_ask w Hw j ltac:(by eapply list_elem_of_lookup_2)) as [Hj Hg'].
  cbn [Create.step]. rewrite Hi. cbn [mbind option_bind Create.onAnswer].
  unfold Create.onStatus. rewrite Hd. rewrite decide_False by done.
  set (w1 := Create.with_flight _ _) in *.
  rewrite bool_decide_eq_true_2 by done.
  destruct (finish_watched tr base true (Create.Message (Create.s_error st)) (Some st) w1 Hl) as [Hf Hce].
  destruct (finish_done tr base (Create.Message (Create.s_error st)) (Some st) w1 j Hj Hg') as [Ho Hde].
  change (Create.wantsDownload w1) with (Create.wantsDownload w) in Ho. rewrite Hwants in Ho.
  destruct (Create.finish _ _ _ _ _ _) as [w' os']. cbn [fst snd] in *. subst os'.
  exists w'. split; [done|]. split; [done|]. split; [done|]. destruct Hf as [Hf _ _ _].
  by rewrite Hce in Hf.
Qed.

(** ** The options that are sent *)

(** The lines sent are clean whatever was typed, and clean lines typed one
    below the other are sent as they are. *)
Theorem lines_roundtrip :
  (forall t, Forall clean_line (Create.lines t)) /\
  (forall ls, Forall clean_line ls -> Create.lines (Some (join (String.String (chr 10) "") ls)) = ls).
Proof.
  split.
  - intros t. unfold Create.lines. destruct (Create.given t); [|constructor].
    apply Forall_forall. intros l [Hl Hi]%list_elem_of_filter.
    apply list_elem_of_fmap in Hi as (l' & -> & Hi). split; [|split].
    + intros E. rewrite E in Hl. cbn in Hl. lia.
    + apply str_trim_idemp.
    + apply trim_has. pose proof (split_on_pieces (chr 10) (default "" t)) as Hp.
      rewrite Forall_forall in Hp. by apply Hp.
  - intros ls H. destruct ls as [|l ls']; [done|].
    assert (Hg : Create.given (Some (join (String.String (chr 10) "") (l :: ls'))) = true).
    { unfold Create.given. apply bool_decide_eq_true_2. apply Forall_inv in H as (Hl & _).
      destruct ls'; cbn [join]; [done|]. by destruct l. }
    unfold Create.lines. rewrite Hg. cbn [default from_option id]. by apply clean_lines.
Qed.

Definition a_form (n : prim) : Create.form :=
  Create.mkf (Some "http://t/announce") None None n None false true true None.

(** Each size offered is sent as it is, and is zero or a power of two. *)
Theorem piece_sizes_sent tr :
  Forall (fun p =>
      Create.a_piece_length (Create.options None (a_form (PNum (of_Z p.1)))) = of_Z p.1 /\
      (p.1 = 0 \/ 2 ^ Z.log2 p.1 = p.1)%Z)
    (Create.PIECE_SIZES tr).
Proof.
  unfold Create.PIECE_SIZES. repeat apply Forall_cons_2; [..|by apply Forall_nil_2]; cbn [fst];
    (split; [vm_compute; reflexivity|]); (left; reflexivity) || (right; vm_compute; reflexivity).
Qed.

(** ** What opening the window again does to a job that is being made *)

Definition fetches (os : list Create.output) : list string :=
  omap (fun o => match o with Create.Fetch u => Some u | _ => None end) os.
Definition asked_jobs (os : list Create.output) : list string :=
  omap (fun o => match o with Create.Called (Create.AskJob j) _ => Some j | _ => None end) os.

(** One job is started and asked about; before the answer the window is closed
    and opened, and another is started; then the answer about the first comes. *)
Definition an_entry : Create.entry := Create.mke "a" "/a" "file" PNull.
Definition a_status (s : string) : Create.status :=
  Create.mks s (of_Z 1) (of_Z 1) (of_Z 1) None None PNull None None.
Definition reopened (a b : string) : list Create.event :=
  [Create.Show; Create.Answered 0 (Create.Location None);
   Create.Answered 0 (Create.Listed (Create.mkl "/" None [an_entry]));
   Create.Click 0; Create.Lost 0;
   Create.PressCreate (a_form (PNum (of_Z 0))); Create.Answered 0 (Create.Job (Some a)); Create.Tick 1;
   Create.Hide; Create.Show; Create.Click 0;
   Create.PressCreate (a_form (PNum (of_Z 0))); Create.Answered 3 (Create.Job (Some b));
   Create.Answered 0 (Create.Status (a_status "done"))].

(** When the window is opened again while a job is asked about, and another is
    started, the answer that the first is done fetches the second, which has
    never been asked about, and stops the asking. *)
Theorem reopened_fetches_unmade tr base a b :
  a <> "" -> b <> "" ->
  match Create.steps tr base Create.create (reopened a b) with
  | Some (w, os) =>
      fetches os = [base +:+ "created/" +:+ Create.encodeURIComponent b] /\ asked_jobs os = [a] /\
      Create.timers w = [] /\ Create.createEnabled w = true
  | None => False
  end.
Proof.
  intros Ha Hb. destruct a as [|ca a]; [destruct (Ha eq_refl)|]. destruct b as [|cb b]; [destruct (Hb eq_refl)|].
  lazy -[Create.encodeURIComponent String.append]. repeat split; reflexivity.
Qed.

(** A window that is closed while it asks takes up asking again when the
    answer comes. *)
Lemma hidden_asks_again tr base w i j st os w' :
  Create.flight w !! i = Some (Create.AskJob j) -> Create.s_state st = "running" ->
  Create.steps tr base w [Create.Hide; Create.Answered i (Create.Status st)] = Some (w', os) ->
  Create.timers w' <> [].
Proof.
  intros Hi Hd. unfold Create.steps, run. cbn [foldl mbind option_bind Create.step].
  destruct (stop_rest w) as (-> & _). rewrite Hi. cbn [mbind option_bind Create.onAnswer].
  unfold Create.onStatus. rewrite decide_True by done. unfold Create.poll. intros [= <- <-]. cbn.
  by destruct (Create.timers _).
Qed.

(** A call to create that fails is reported as an object, not as what the
    server said. *)
Lemma failed_create_message tr base w i :
  Create.flight w !! i = Some Create.AskCreate ->
  snd <$> Create.step tr base w (Create.Lost i) = Some [Create.Alert "[object Object]"].
Proof. intros H. cbn [Create.step]. rewrite H. reflexivity. Qed.

(** ** Examples *)

Definition opened : list Create.event :=
  [Create.Answered 0 (Create.Location None);
   Create.Answered 0 (Create.Listed (Create.mkl "/" None [an_entry]));
   Create.Click 0].
Definition making : list Create.event :=
  [Create.Answered 1 (Create.Job (Some "j1")); Create.Answered 0 (Create.Sized (PNum (of_Z 4096)));
   Create.Tick 1; Create.Lost 0; Create.Tick 2].
Definition w0 : Create.window :=
  match Create.steps id "/" (Create.show Create.create).1 opened with Some (w, _) => w | None => Create.create end.
Definition w1 : Create.window :=
  match Create.steps id "/" w0 (Create.PressCreate (a_form (PNum (of_Z 0))) :: making) with
  | Some (w, _) => w | None => Create.create
  end.

Lemma chosen_is_selected_witness :
  match Create.steps id "/" Create.create (Create.Show :: opened ++ [Create.Answered 0 (Create.Sized (PNum (of_Z 4096)))]) with
  | Some (w, _) => Create.chosen w = Create.ChosenSize "/a" "4.0 KiB" /\ Create.selected w = Some "/a"
  | None => False
  end.
Proof.
  destruct (Create.steps _ _ _ _) as [[w os]|] eqn:E; [|vm_compute in E; discriminate E].
  pose proof (chosen_is_selected id "/" _ w os E) as H.
  assert (Hc : Create.chosen w = Create.ChosenSize "/a" "4.0 KiB")
    by (vm_compute in E; injection E as <- <-; vm_compute; reflexivity).
  rewrite Hc in H. split; [exact Hc|exact H].
Defined.

(** The window is opened, closed, opened again, and a job is made. *)
Definition watched_job : list Create.event :=
  [Create.Show; Create.Hide; Create.Lost 0; Create.Lost 0; Create.Show] ++ opened ++
  Create.PressCreate (a_form (PNum (of_Z 0))) :: making.

Lemma job_watched_witness :
  match Create.steps id "/" Create.create watched_job with
  | Some (w, _) => length (Create.timers w) + watching (Create.flight w) = 1
  | None => False
  end.
Proof.
  destruct (Create.steps _ _ _ _) as [[w os]|] eqn:E; [|vm_compute in E; discriminate E].
  destruct (job_watched id "/" watched_job w os E) as [_ H]. destruct (H ltac:(vm_compute; reflexivity)) as [-> _].
  vm_compute in E. injection E as <- <-. reflexivity.
Defined.

Lemma finished_job_fetched_witness :
  snd <$> Create.step id "/" w1 (Create.Answered 0 (Create.Status (a_status "done"))) =
  Some [Create.Fetch "/created/j1"].
Proof.
  destruct (Create.steps id "/" (Create.show Create.create).1 opened) as [[v0 os0]|] eqn:E0;
    [|vm_compute in E0; discriminate E0].
  assert (H0 : v0 = w0) by (unfold w0; rewrite E0; reflexivity). subst v0.
  destruct (Create.steps id "/" w0 (Create.PressCreate (a_form (PNum (of_Z 0))) :: making)) as [[v1 os1]|] eqn:E1;
    [|vm_compute in E1; discriminate E1].
  assert (H1 : v1 = w1) by (unfold w1; rewrite E1; reflexivity). subst v1.
  destruct (finished_job_fetched id "/" opened w0 os0 (a_form (PNum (of_Z 0))) making w1 os1 0 "j1" (a_status "done")
    eq_refl E0 eq_refl eq_refl eq_refl E1 eq_refl eq_refl) as (w' & -> & _).
  vm_compute. reflexivity.
Defined.

Lemma reopened_fetches_unmade_witness :
  match Create.steps id "/" Create.create (reopened "j1" "j2") with
  | Some (_, os) => fetches os = ["/created/j2"]
  | None => False
  end.
Proof.
  pose proof (reopened_fetches_unmade id "/" "j1" "j2" ltac:(discriminate) ltac:(discriminate)) as H.
  destruct (Create.steps id "/" Create.create (reopened "j1" "j2")) as [[w os]|]; [|exact H].
  destruct H as (-> & _). vm_compute. reflexivity.
Defined.
