(* ===== verification/Files.v ===== *)
(** * Deluge.details.FilesTab

    The tree of a torrent's files: built from the first answer, updated from
    the ones that follow, emptied for another torrent, and the priorities that
    are sent for what is selected in it. *)

From stdpp Require Import base list strings gmap.
From Stdlib Require Import Lia ZArith.
From S2P Require Import Prelude JsNum JsString JsValue ExtCore.

Local Open Scope nat_scope.

(** ** The nodes of a tree *)

Module Tree.

(** A node is what it holds and its children, in order. *)
Inductive node (A : Type) := Node (attributes : A) (childNodes : list (node A)).
Arguments Node {A} _ _.

Section tree.
Context {A : Type}.

Definition attributes (n : node A) : A := match n with Node a _ => a end.
Definition childNodes (n : node A) : list (node A) := match n with Node _ cs => cs end.

(** [cascade]: the nodes in the order they are visited, when nothing changes
    the tree meanwhile. *)
Fixpoint cascade (n : node A) : list (node A) :=
  match n with
  | Node _ cs => n :: (fix go (cs : list (node A)) : list (node A) :=
                         match cs with [] => [] | c :: cs' => cascade c ++ go cs' end) cs
  end.

(** [cascade] with a function that removes each child of the root it is given:
    the length was read before, the array is shorter each time, and past its
    end there is no node to cascade, which throws.  What is left of the
    children, and whether it went through. *)
Fixpoint remove_all (left i : nat) (cs : list (node A)) : list (node A) * bool :=
  match left with
  | O => (cs, true)
  | S left' =>
      match cs !! i with
      | None => (cs, false)
      | Some _ => remove_all left' (S i) (delete i cs)
      end
  end.

(** [findChild]: the position of the first child that passes. *)
Fixpoint findChildBy (f : A -> bool) (cs : list (node A)) : option nat :=
  match cs with
  | [] => None
  | c :: cs' => if f (attributes c) then Some 0 else S <$> findChildBy f cs'
  end.

(** Writing to what a node holds, through a reference to it. *)
Fixpoint at_path (path : list nat) (cs : list (node A)) : option (node A) :=
  match path with
  | [] => None
  | [i] => cs !! i
  | i :: path' => c ← cs !! i; at_path path' (childNodes c)
  end.
Fixpoint edit (f : A -> A) (path : list nat) (cs : list (node A)) : list (node A) :=
  match path with
  | [] => cs
  | [i] => alter (fun n => Node (f (attributes n)) (childNodes n)) i cs
  | i :: path' => alter (fun n => Node (attributes n) (edit f path' (childNodes n))) i cs
  end.

End tree.

End Tree.

Module Files.

(** What the server answers, in the order [for .. in] visits it. *)
Inductive item :=
  | File (index : Z) (size progress priority : prim)
  | Dir (size progress priority : prim) (contents : list (string * item)).

(** What a node holds. *)
Record attrs := mk_attrs {
  filename : string; fileIndex : option Z; size : prim; progress : prim; priority : prim; leaf : bool
}.
Definition node := Tree.node attrs.

Definition contents (it : item) : list (string * item) :=
  match it with Dir _ _ _ c => c | File _ _ _ _ => [] end.

(** [createFileTree]: the node of one file or folder, and the tree, whose first
    child is then expanded, which throws when there is none. *)
Fixpoint create_node (file : string) (it : item) : node :=
  match it with
  | Dir sz pg pr c =>
      Tree.Node (mk_attrs file None sz pg pr false) (map (fun '(f, i) => create_node f i) c)
  | File ix sz pg pr => Tree.Node (mk_attrs file (Some ix) sz pg pr true) []
  end.
Definition create_nodes (files : list (string * item)) : list node :=
  map (fun '(f, i) => create_node f i) files.
Definition createFileTree (files : list (string * item)) (root : list node) : option (list node) :=
  let root := root ++ create_nodes files in
  match root with [] => None | _ => Some root end.

(** [updateFileTree]: the node of the same name is written over; where there is
    none, reading it throws. *)
Definition refreshed (it : item) (a : attrs) : attrs :=
  match it with
  | File _ sz pg pr | Dir sz pg pr _ => mk_attrs (filename a) (fileIndex a) sz pg pr (leaf a)
  end.
Definition is_named (file : string) (a : attrs) : bool := bool_decide (filename a = file).
Fixpoint update_node (file : string) (it : item) (cs : list node) : option (list node) :=
  i ← Tree.findChildBy (is_named file) cs;
  n ← cs !! i;
  ch ← match it with
       | File _ _ _ _ => Some (Tree.childNodes n)
       | Dir _ _ _ c =>
           (fix walk (c : list (string * item)) (ch : list node) : option (list node) :=
              match c with
              | [] => Some ch
              | (f, it') :: c' => ch' ← update_node f it' ch; walk c' ch'
              end) c (Tree.childNodes n)
       end;
  Some (<[i := Tree.Node (refreshed it (Tree.attributes n)) ch]> cs).
Fixpoint updateFileTree (c : list (string * item)) (cs : list node) : option (list node) :=
  match c with
  | [] => Some cs
  | (f, it) :: c' => cs' ← update_node f it cs; updateFileTree c' cs'
  end.

(** [clear] *)
Definition clear (cs : list node) : list node * bool :=
  if length cs =? 0 then (cs, true) else Tree.remove_all (length cs) 0 cs.

(** The tab: the torrent, the children of the root, and the answers awaited. *)
Record tab := mk { torrentId : option string; root : list node; flight : list string }.
Definition create : tab := mk None [] [].

(** [update]: the call is made only when [clear] went through. *)
Definition update (id : string) (t : tab) : tab * bool :=
  if decide (torrentId t = Some id) then (mk (torrentId t) (root t) (flight t ++ [id]), true)
  else
    let '(cs, went) := clear (root t) in
    if went then (mk (Some id) cs (flight t ++ [id]), true) else (mk (torrentId t) cs (flight t), false).

(** [onRequestComplete]; [None] where it throws. *)
Definition onRequestComplete (files : list (string * item)) (t : tab) : option tab :=
  cs ← (if length (root t) =? 0 then createFileTree files (root t) else updateFileTree files (root t));
  Some (mk (torrentId t) cs (flight t)).
Definition answered (i : nat) (files : list (string * item)) (t : tab) : option tab :=
  match flight t !! i with
  | None => None
  | Some _ => onRequestComplete files (mk (torrentId t) (root t) (delete i (flight t)))
  end.

(** ** Priorities *)

(** [indexes], by number; [priorities], an array of a given length, that grows
    when a number beyond it is assigned. *)
Definition note (p : prim) (m : gmap Z prim) (n : node) : gmap Z prim :=
  match fileIndex (Tree.attributes n) with Some i => <[i := p]> m | None => m end.
Definition own (m : gmap Z prim) (n : node) : gmap Z prim := note (priority (Tree.attributes n)) m n.
Definition all_nodes (cs : list node) : list node := concat (map Tree.cascade cs).
Definition choose (p : prim) (m : gmap Z prim) (n : node) : gmap Z prim :=
  if leaf (Tree.attributes n) then note p m n else foldl (note p) m (Tree.cascade n).
Definition indexes (selected : list node) (p : prim) (cs : list node) : gmap Z prim :=
  foldl (choose p) (foldl own ∅ (all_nodes cs)) selected.
Definition priorities (m : gmap Z prim) : list prim :=
  array_assign_all PUndef (replicate (length (map_to_list m)) PUndef) (map_to_list m).

(** [onItemClick] with a priority: what is sent for the nodes selected, and the
    tree once that succeeded. *)
Definition nodes_at (paths : list (list nat)) (cs : list node) : list node :=
  omap (fun path => Tree.at_path path cs) paths.
Definition onItemClick (paths : list (list nat)) (p : prim) (t : tab) : list prim :=
  priorities (indexes (nodes_at paths (root t)) p (root t)).
Definition prioritised (p : prim) (a : attrs) : attrs :=
  mk_attrs (filename a) (fileIndex a) (size a) (progress a) p (leaf a).
Definition onPrioritised (paths : list (list nat)) (p : prim) (t : tab) : tab :=
  mk (torrentId t) (foldl (fun cs path => Tree.edit (prioritised p) path cs) (root t) paths) (flight t).

End Files.

(** ** Induction on what the server answers *)

Section item_ind.
Variable P : Files.item -> Prop.
Hypothesis HF : forall ix sz pg pr, P (Files.File ix sz pg pr).
Hypothesis HD : forall sz pg pr c, Forall (fun fi => P fi.2) c -> P (Files.Dir sz pg pr c).

Fixpoint item_nested_ind (it : Files.item) : P it :=
  match it with
  | Files.File ix sz pg pr => HF ix sz pg pr
  | Files.Dir sz pg pr c =>
      HD sz pg pr c
        ((fix go (c : list (string * Files.item)) : Forall (fun fi => P fi.2) c :=
            match c with
            | [] => Forall_nil_2 _
            | fi :: c' => Forall_cons_2 _ fi c' (item_nested_ind fi.2) (go c')
            end) c)
  end.
End item_ind.

(** ** Updating the tree is building it again *)

(** Two answers about the same files: the same names, in the same folders, with
    the same numbers; no name twice in a folder. *)
Inductive same_files : list (string * Files.item) -> list (string * Files.item) -> Prop :=
  | same_nil : same_files [] []
  | same_file f ix sz pg pr sz' pg' pr' c c' :
      f ∉ c.*1 -> same_files c c' ->
      same_files ((f, Files.File ix sz pg pr) :: c) ((f, Files.File ix sz' pg' pr') :: c')
  | same_dir f sz pg pr d sz' pg' pr' d' c c' :
      f ∉ c.*1 -> same_files d d' -> same_files c c' ->
      same_files ((f, Files.Dir sz pg pr d) :: c) ((f, Files.Dir sz' pg' pr' d') :: c').

Lemma update_node_dir f sz pg pr c cs :
  Files.update_node f (Files.Dir sz pg pr c) cs =
  (i ← Tree.findChildBy (Files.is_named f) cs; n ← cs !! i;
   ch ← Files.updateFileTree c (Tree.childNodes n);
   Some (<[i := Tree.Node (Files.refreshed (Files.Dir sz pg pr c) (Tree.attributes n)) ch]> cs)).
Proof.
  cbn [Files.update_node]. destruct (Tree.findChildBy _ cs) as [i|]; cbn [mbind option_bind]; [|done].
  destruct (cs !! i) as [n|]; cbn [mbind option_bind]; [|done].
  assert (H : forall ch, (fix walk (c : list (string * Files.item)) (ch : list Files.node) : option (list Files.node) :=
      match c with
      | [] => Some ch
      | (f, it') :: c' => ch' ← Files.update_node f it' ch; walk c' ch'
      end) c ch = Files.updateFileTree c ch).
  { induction c as [|[g it] c IH]; intros ch; [done|]. cbn [Files.updateFileTree].
    destruct (Files.update_node g it ch); cbn [mbind option_bind]; [apply IH|done]. }
  by rewrite H.
Qed.

Lemma find_named f cs n cs' :
  Files.filename (Tree.attributes n) = f ->
  Forall (fun m => Files.filename (Tree.attributes m) <> f) cs ->
  Tree.findChildBy (Files.is_named f) (cs ++ n :: cs') = Some (length cs).
Proof.
  intros Hn H. induction H as [|m cs Hm _ IH]; cbn [app Tree.findChildBy].
  - unfold Files.is_named. by rewrite bool_decide_eq_true_2.
  - unfold Files.is_named at 1. by rewrite bool_decide_eq_false_2, IH by done.
Qed.

Lemma create_named f it : Files.filename (Tree.attributes (Files.create_node f it)) = f.
Proof. by destruct it. Qed.

Lemma update_after c c' pre :
  same_files c c' -> Forall (fun m => Files.filename (Tree.attributes m) ∉ c.*1) pre ->
  Files.updateFileTree c' (pre ++ Files.create_nodes c) = Some (pre ++ Files.create_nodes c').
Proof.
  intros H. revert pre.
  induction H as [|f ix sz pg pr sz' pg' pr' c c' Hf H IH|f sz pg pr d sz' pg' pr' d' c c' Hf Hd IHd H IH];
    intros pre Hp; [done| |].
  - assert (Hn : Forall (fun m => Files.filename (Tree.attributes m) <> f) pre)
      by (eapply Forall_impl; [exact Hp|set_solver]).
    cbn [Files.updateFileTree Files.create_nodes map Files.update_node Files.create_node].
    rewrite find_named by done. cbn [mbind option_bind]. rewrite list_lookup_middle by done.
    cbn [mbind option_bind Tree.childNodes]. rewrite insert_app_r_alt, Nat.sub_diag by lia. cbn [list_insert insert].
    specialize (IH (pre ++ [Files.create_node f (Files.File ix sz' pg' pr')])).
    rewrite <- !app_assoc in IH. apply IH. apply Forall_app_2; [eapply Forall_impl; [exact Hp|set_solver]|].
    by apply Forall_singleton.
  - assert (Hn : Forall (fun m => Files.filename (Tree.attributes m) <> f) pre)
      by (eapply Forall_impl; [exact Hp|set_solver]).
    cbn [Files.updateFileTree Files.create_nodes map]. rewrite update_node_dir.
    rewrite find_named by done. cbn [mbind option_bind]. rewrite list_lookup_middle by done.
    cbn [mbind option_bind]. change (Tree.childNodes (Files.create_node f (Files.Dir sz pg pr d)))
      with (Files.create_nodes d).
    pose proof (IHd [] ltac:(constructor)) as Hd'. cbn [app] in Hd'. rewrite Hd'. cbn [mbind option_bind].
    rewrite insert_app_r_alt, Nat.sub_diag by lia. cbn [list_insert insert].
    specialize (IH (pre ++ [Files.create_node f (Files.Dir sz' pg' pr' d')])).
    rewrite <- !app_assoc in IH. apply IH. apply Forall_app_2; [eapply Forall_impl; [exact Hp|set_solver]|].
    by apply Forall_singleton.
Qed.

(** Claim C33.  An answer about the same files leaves the tree as if it had been built from
    that answer. *)
Theorem update_is_rebuild c c' :
  same_files c c' -> c' <> [] ->
  Files.updateFileTree c' (Files.create_nodes c) = Files.createFileTree c' [].
Proof.
  intros H Hn. pose proof (update_after c c' [] H ltac:(constructor)) as Hu. cbn [app] in Hu. rewrite Hu.
  unfold Files.createFileTree. cbn [app]. by destruct c' as [|[]].
Qed.

(** ** Emptying the tree *)

Lemma remove_all_short {A} left i (cs : list (Tree.node A)) :
  length cs < i + left -> (Tree.remove_all left i cs).2 = false \/ left = 0.
Proof.
  revert i cs. induction left as [|left IH]; intros i cs H; [by right|]. left. cbn [Tree.remove_all].
  destruct (cs !! i) as [n|] eqn:E; [|done].
  assert (Hl : length (delete i cs) = length cs - 1) by (rewrite length_delete; [done|by eexists]).
  apply lookup_lt_Some in E. destruct (IH (S i) (delete i cs)) as [? | ->]; [lia|done|lia].
Qed.

(** Emptying the tree goes through for a tree of at most one top folder or
    file, and leaves nothing; with more it throws, and since the call is made
    after it, the tab goes on showing the torrent it had. *)
Theorem clear_one_root id t :
  Files.torrentId t <> Some id ->
  if length (Files.root t) <=? 1
  then Files.update id t = (Files.mk (Some id) [] (Files.flight t ++ [id]), true)
  else (Files.update id t).2 = false /\
       Files.torrentId (Files.update id t).1 = Files.torrentId t /\
       Files.flight (Files.update id t).1 = Files.flight t.
Proof.
  intros Hi. unfold Files.update. rewrite decide_False by done. unfold Files.clear.
  destruct (Files.root t) as [|n [|m cs]]; [done|done|].
  assert (E0 : Tree.remove_all (length (n :: m :: cs)) 0 (n :: m :: cs) =
    Tree.remove_all (S (length cs)) 1 (m :: cs)) by done.
  assert (Hl : length (m :: cs) < 1 + S (length cs)) by (cbn; lia).
  destruct (remove_all_short (S (length cs)) 1 (m :: cs) Hl) as [E | E]; [|lia].
  rewrite E0. destruct (Tree.remove_all _ _ _) as [l went]. cbn in E. by subst went.
Qed.

(** An answer that was asked for another torrent is taken all the same: the
    files of the first are shown, and priorities given to them are sent, under
    the second. *)
Theorem stale_answer_shown a b fa :
  a <> b -> fa <> [] ->
  Files.answered 0 fa (Files.update b (Files.update a Files.create).1).1 =
  Some (Files.mk (Some b) (Files.create_nodes fa) [b]).
Proof.
  intros Hab Hf. assert (E : Files.update a Files.create = (Files.mk (Some a) [] [a], true)) by done.
  rewrite E. unfold Files.update. cbn [fst Files.torrentId]. rewrite decide_False by congruence.
  cbn. unfold Files.onRequestComplete, Files.createFileTree. cbn.
  destruct fa as [|[f it] fa]; [done|]. reflexivity.
Qed.

(** ** The priorities that are sent *)

Definition index_of (n : Files.node) : option Z := Files.fileIndex (Tree.attributes n).

(** What a selected node stands for: itself, or everything below a folder. *)
Definition covered (n : Files.node) : list Files.node :=
  if Files.leaf (Tree.attributes n) then [n] else Tree.cascade n.

Lemma note_lookup p m n i :
  Files.note p m n !! i = if decide (index_of n = Some i) then Some p else m !! i.
Proof.
  unfold Files.note, index_of. destruct (Files.fileIndex (Tree.attributes n)) as [j|].
  - destruct (decide (Some j = Some i)) as [[= ->]|H]; [by rewrite lookup_insert_eq|].
    rewrite lookup_insert_ne; congruence.
  - by rewrite decide_False.
Qed.

(** Writing what each node of a list says under its number. *)
Lemma notes_lookup (f : Files.node -> prim) l m i :
  (forall n, n ∈ l -> index_of n <> Some i) /\
    foldl (fun m n => Files.note (f n) m n) m l !! i = m !! i \/
  (exists n, n ∈ l /\ index_of n = Some i /\ foldl (fun m n => Files.note (f n) m n) m l !! i = Some (f n)).
Proof.
  induction l as [|n l IH] using rev_ind; [left; split; [by intros n ?%elem_of_nil|done]|].
  rewrite foldl_app. cbn [foldl]. rewrite note_lookup. destruct (decide (index_of n = Some i)) as [E|E].
  - right. exists n. split; [set_solver|done].
  - destruct IH as [[H1 H2] | (x & H1 & H2 & H3)].
    + left. split; [|done]. intros x [Hx | ->%list_elem_of_singleton]%elem_of_app; auto.
    + right. exists x. split; [set_solver|done].
Qed.

Lemma choose_notes p m n : Files.choose p m n = foldl (fun m n => Files.note p m n) m (covered n).
Proof. unfold Files.choose, covered. by destruct (Files.leaf _). Qed.

Lemma chooses_notes p sel m :
  foldl (Files.choose p) m sel = foldl (fun m n => Files.note p m n) m (concat (map covered sel)).
Proof.
  revert m. induction sel as [|n sel IH]; intros m; [done|]. cbn [foldl map concat].
  by rewrite foldl_app, <- choose_notes, IH.
Qed.

Lemma cascade_eq (n : Files.node) : Tree.cascade n = n :: Files.all_nodes (Tree.childNodes n).
Proof.
  destruct n as [a cs]. cbn. f_equal. unfold Files.all_nodes. induction cs as [|c cs IH]; [done|].
  cbn. by rewrite IH.
Qed.

Lemma all_nodes_in (c : Files.node) cs x : c ∈ cs -> x ∈ Tree.cascade c -> x ∈ Files.all_nodes cs.
Proof.
  intros Hc Hx. unfold Files.all_nodes. induction cs as [|d l IH]; [by apply elem_of_nil in Hc|].
  cbn. apply elem_of_app. apply elem_of_cons in Hc as [<-|Hc]; [by left|]. right. by apply IH.
Qed.

Lemma at_path_in (path : list nat) (cs : list Files.node) n x :
  Tree.at_path path cs = Some n -> x ∈ Tree.cascade n -> x ∈ Files.all_nodes cs.
Proof.
  revert cs. induction path as [|i path IH]; intros cs H Hx; [done|].
  destruct path as [|j path].
  - cbn in H. apply (all_nodes_in n); [|done]. by eapply list_elem_of_lookup_2.
  - change (Tree.at_path (i :: j :: path) cs) with (c ← cs !! i; Tree.at_path (j :: path) (Tree.childNodes c)) in H.
    destruct (cs !! i) as [c|] eqn:E; cbn [mbind option_bind] in H; [|done].
    apply list_elem_of_lookup_2 in E. apply (all_nodes_in c); [done|]. rewrite cascade_eq. right. by apply IH.
Qed.

Lemma covered_in paths cs n x :
  n ∈ Files.nodes_at paths cs -> x ∈ covered n -> x ∈ Files.all_nodes cs.
Proof.
  unfold Files.nodes_at. intros (path & _ & Hp)%list_elem_of_omap Hx. eapply at_path_in; [exact Hp|].
  unfold covered in Hx. destruct (Files.leaf _); [|done]. apply list_elem_of_singleton in Hx as ->.
  rewrite cascade_eq. by left.
Qed.

(** The numbers [indexes] holds, and what it holds under each. *)
Section indexes.
Variables (paths : list (list nat)) (p : prim) (cs : list Files.node).
Let sel := Files.nodes_at paths cs.
Let m := Files.indexes sel p cs.
Let old := foldl Files.own ∅ (Files.all_nodes cs).
Hypothesis Hu : NoDup (omap index_of (Files.all_nodes cs)).

Lemma old_lookup x i : x ∈ Files.all_nodes cs -> index_of x = Some i ->
  old !! i = Some (Files.priority (Tree.attributes x)).
Proof.
  intros Hx Hi. destruct (notes_lookup (fun n => Files.priority (Tree.attributes n)) (Files.all_nodes cs) ∅ i)
    as [[H _] | (y & H1 & H2 & H3)]; [by apply H in Hx|].
  assert (x = y) as -> by (eapply (omap_unique index_of); eauto). exact H3.
Qed.

Lemma indexes_lookup x i : x ∈ Files.all_nodes cs -> index_of x = Some i ->
  ((exists s, s ∈ sel /\ x ∈ covered s) -> m !! i = Some p) /\
  (~ (exists s, s ∈ sel /\ x ∈ covered s) -> m !! i = Some (Files.priority (Tree.attributes x))).
Proof.
  intros Hx Hi. assert (Em : m = foldl (fun m n => Files.note p m n) old (concat (map covered sel)))
    by apply (chooses_notes p sel old).
  rewrite Em. clear Em.
  assert (Hc : forall y, y ∈ concat (map covered sel) <-> exists s, s ∈ sel /\ y ∈ covered s).
  { intros y. rewrite elem_of_concat. split.
    - intros (l & Hy & (s & -> & Hs)%list_elem_of_fmap). eauto.
    - intros (s & Hs & Hy). exists (covered s). split; [done|]. apply list_elem_of_fmap. eauto. }
  destruct (notes_lookup (fun _ => p) (concat (map covered sel)) old i) as [[H1 H2] | (y & H1 & H2 & H3)].
  - split; intros Hs; [|by rewrite H2; apply old_lookup]. apply Hc in Hs. by apply H1 in Hs.
  - split; intros Hs; [done|]. destruct Hs. apply Hc in H1 as (s & Hs & Hy). exists s. split; [done|].
    assert (x = y) as -> by (eapply (omap_unique index_of); eauto using covered_in). done.
Qed.

Lemma indexes_dom i : is_Some (m !! i) <-> i ∈ omap index_of (Files.all_nodes cs).
Proof.
  rewrite list_elem_of_omap. split.
  - assert (Em : m = foldl (fun m n => Files.note p m n) old (concat (map covered sel)))
      by apply (chooses_notes p sel old).
    rewrite Em. clear Em. intros Hm.
    destruct (notes_lookup (fun _ => p) (concat (map covered sel)) old i) as [[_ H2] | (y & H1 & H2 & _)].
    + rewrite H2 in Hm.
      destruct (notes_lookup (fun n => Files.priority (Tree.attributes n)) (Files.all_nodes cs) ∅ i)
        as [[_ H] | (y & Hy & Hi & _)]; [|eauto].
      assert (Ho : old !! i = (∅ : gmap Z prim) !! i) by exact H.
      rewrite Ho, lookup_empty in Hm. by destruct Hm.
    + apply elem_of_concat in H1 as (l & Hy & (s & -> & Hs)%list_elem_of_fmap).
      exists y. split; [by eapply covered_in|done].
  - intros (x & Hx & Hi). assert (Em : m = foldl (fun m n => Files.note p m n) old (concat (map covered sel)))
      by apply (chooses_notes p sel old).
    rewrite Em. destruct (notes_lookup (fun _ => p) (concat (map covered sel)) old i) as [[_ H2] | (y & _ & _ & H3)].
    + rewrite H2. eexists. by eapply old_lookup.
    + eexists. exact H3.
Qed.
End indexes.

(** Claim C34.  For a torrent whose files are numbered from zero, a priority given to what
    is selected sends one priority for each file: the new one for every file
    selected or below a folder selected, the one it had for any other. *)
Theorem priorities_sent paths p t n :
  omap index_of (Files.all_nodes (Files.root t)) ≡ₚ map Z.of_nat (seq 0 n) ->
  let sent := Files.onItemClick paths p t in
  let chosen x := exists s, s ∈ Files.nodes_at paths (Files.root t) /\ x ∈ covered s in
  length sent = n /\
  forall x i, x ∈ Files.all_nodes (Files.root t) -> index_of x = Some i ->
    (chosen x -> sent !! Z.to_nat i = Some p) /\
    (~ chosen x -> sent !! Z.to_nat i = Some (Files.priority (Tree.attributes x))).
Proof.
  intros Hp. cbv zeta. unfold Files.onItemClick. set (cs := Files.root t) in *.
  assert (Hu : NoDup (omap index_of (Files.all_nodes cs))).
  { rewrite Hp. apply NoDup_fmap_2; [apply _|apply NoDup_seq]. }
  set (m := Files.indexes _ p cs).
  assert (Hm : (map_to_list m).*1 ≡ₚ map Z.of_nat (seq 0 n)).
  { rewrite <- Hp. apply NoDup_Permutation; [apply NoDup_fst_map_to_list|done|]. intros i.
    rewrite <- (indexes_dom paths p cs Hu i), list_elem_of_fmap. split.
    - intros ([j q] & -> & Hq). apply elem_of_map_to_list in Hq. by eexists.
    - intros [q Hq]. exists (i, q). split; [done|]. by apply elem_of_map_to_list. }
  assert (Hl : length (map_to_list m) = n).
  { apply Permutation_length in Hm. by rewrite length_fmap, length_map, length_seq in Hm. }
  assert (Hi : forall i q, (i, q) ∈ map_to_list m -> (0 <= i < Z.of_nat n)%Z).
  { intros i q Hq. assert (Hi : i ∈ (map_to_list m).*1) by (apply list_elem_of_fmap; by exists (i, q)).
    rewrite Hm in Hi. apply list_elem_of_fmap in Hi as (k & -> & Hk%elem_of_seq). lia. }
  destruct (array_assign_all_spec PUndef (replicate (length (map_to_list m)) PUndef) (map_to_list m)) as [A1 A2].
  { apply NoDup_fst_map_to_list. }
  { intros i q Hq. rewrite length_replicate, Hl. by eapply Hi. }
  rewrite length_replicate in A1. split; [rewrite <- Hl; exact A1|].
  intros x i Hx Hxi. destruct (indexes_lookup paths p cs Hu x i Hx Hxi) as [L1 L2].
  split; intros Hc; apply A2, elem_of_map_to_list; [by apply L1|by apply L2].
Qed.

(** ** Examples *)

Definition n4 : prim := PNum (of_Z 4).
Definition top (p : prim) (rest : list (string * Files.item)) : list (string * Files.item) :=
  [("t", Files.Dir n4 PUndef PUndef (("a", Files.File 0 n4 p n4) :: rest))].
Definition files_of (p : prim) : list (string * Files.item) :=
  top p [("d", Files.Dir n4 PUndef PUndef [("b", Files.File 1 n4 p n4); ("c", Files.File 2 n4 p n4)])].
Definition a_tab : Files.tab := Files.mk (Some "x") (Files.create_nodes (files_of n4)) [].

Lemma update_is_rebuild_witness :
  Files.updateFileTree (files_of (PNum (of_Z 1))) (Files.create_nodes (files_of n4)) =
  Some (Files.create_nodes (files_of (PNum (of_Z 1)))).
Proof.
  refine (update_is_rebuild (files_of n4) (files_of (PNum (of_Z 1))) _ _); [|discriminate].
  repeat (constructor; [vm_compute; intros H; repeat (apply elem_of_cons in H as [H|H]; [discriminate H|]);
    by apply elem_of_nil in H|..]); repeat constructor; vm_compute; intros H;
    repeat (apply elem_of_cons in H as [H|H]; [discriminate H|]); by apply elem_of_nil in H.
Defined.

Lemma clear_one_root_witness :
  Files.update "y" a_tab = (Files.mk (Some "y") [] ["y"], true).
Proof. exact (clear_one_root "y" a_tab ltac:(discriminate)). Defined.

Lemma stale_answer_shown_witness :
  Files.torrentId <$> Files.answered 0 (files_of n4) (Files.update "y" (Files.update "x" Files.create).1).1 =
  Some (Some "y").
Proof.
  rewrite (stale_answer_shown "x" "y" (files_of n4) ltac:(discriminate) ltac:(discriminate)). reflexivity.
Defined.

(** The folder is selected. *)
Lemma priorities_sent_witness :
  Files.onItemClick [[0; 1]] (PNum (of_Z 7)) a_tab !! 2 = Some (PNum (of_Z 7)).
Proof.
  pose proof (priorities_sent [[0; 1]] (PNum (of_Z 7)) a_tab 3 ltac:(vm_compute; reflexivity)) as [_ H].
  set (c := Files.create_node "c" (Files.File 2 n4 n4 n4)).
  destruct (H c 2%Z) as [H1 _].
  - vm_compute. do 4 right. left.
  - reflexivity.
  - apply H1. eexists. split; [vm_compute; left|]. vm_compute. do 2 right. left.
Defined.
