(* ===== verification/ConnectionManager.v ===== *)
(** * Deluge.ConnectionManager

    The window of the daemons that are known: its rows and how they stand, the
    buttons that follow the selected one, connecting and disconnecting, and the
    timer that asks about every row. *)

From stdpp Require Import base list strings gmap.
From Stdlib Require Import Lia ZArith.
From S2P Require Import Prelude JsNum JsString JsValue ExtCore.

Local Open Scope nat_scope.

Module Manager.

(** A row: what [get_hosts] answers, and what [get_host_status] adds. *)
Record host := mkh {
  id : string; hname : string; port : prim; user : prim; status : option string; version : prim
}.

(** The calls in flight; [Status] tells whether the window's timer asked, and
    [Remove] which load of the rows the record is of. *)
Inductive ask := Connected | GetHosts | Status (id : string) (polled : bool) | Disconnect
  | Connect (id : string) | Remove (id : string) (loaded : nat) | Stop (id : string).

#[global] Instance ask_eq_dec : EqDecision ask.
Proof. solve_decision. Defined.

(** The rows, how often they were loaded, and the selected one, by its id; whether the window is shown and
    has been rendered, and its toolbar's buttons looked up; the timer in
    [updating]; the buttons; how many listeners wait for the client; and of the
    browser the timers that are set, the number of the next one, and the calls
    in flight. *)
Record state := mk {
  hosts : list host; loaded : nat; selected : option string; visible : bool; rendered : bool; ready : bool;
  updating : option nat;
  connectEnabled : bool; connectText : string; editEnabled : bool; removeEnabled : bool; stopEnabled : bool;
  waiting : nat;
  timers : list nat; next : nat; flight : list ask
}.

Definition create : state :=
  mk [] 0 None false false false None true "Connect" true false false 0 [] 1 [].

Inductive output := Called (a : ask) | Fire (event : string) | Alert (msg : prim) | ReloadMethods | AskPassword
  | Throw.

#[global] Instance output_eq_dec : EqDecision output.
Proof. solve_decision. Defined.

Definition with_rows c hs n sel :=
  mk hs n sel (visible c) (rendered c) (ready c) (updating c) (connectEnabled c) (connectText c) (editEnabled c)
    (removeEnabled c) (stopEnabled c) (waiting c) (timers c) (next c) (flight c).
Definition with_window c v r :=
  mk (hosts c) (loaded c) (selected c) v (rendered c || v) r (updating c) (connectEnabled c) (connectText c) (editEnabled c)
    (removeEnabled c) (stopEnabled c) (waiting c) (timers c) (next c) (flight c).
Definition with_timers c u ts n :=
  mk (hosts c) (loaded c) (selected c) (visible c) (rendered c) (ready c) u (connectEnabled c) (connectText c) (editEnabled c)
    (removeEnabled c) (stopEnabled c) (waiting c) ts n (flight c).
Definition with_buttons c ce ct st :=
  mk (hosts c) (loaded c) (selected c) (visible c) (rendered c) (ready c) (updating c) ce ct (editEnabled c)
    (removeEnabled c) st (waiting c) (timers c) (next c) (flight c).
Definition with_edit c b :=
  mk (hosts c) (loaded c) (selected c) (visible c) (rendered c) (ready c) (updating c) (connectEnabled c) (connectText c) b
    b (stopEnabled c) (waiting c) (timers c) (next c) (flight c).
Definition with_waiting c n :=
  mk (hosts c) (loaded c) (selected c) (visible c) (rendered c) (ready c) (updating c) (connectEnabled c) (connectText c)
    (editEnabled c) (removeEnabled c) (stopEnabled c) n (timers c) (next c) (flight c).
Definition with_flight c fl :=
  mk (hosts c) (loaded c) (selected c) (visible c) (rendered c) (ready c) (updating c) (connectEnabled c) (connectText c)
    (editEnabled c) (removeEnabled c) (stopEnabled c) (waiting c) (timers c) (next c) fl.

Definition call (a : ask) (c : state) : state * list output := (with_flight c (flight c ++ [a]), [Called a]).
Definition calls (l : list ask) (c : state) : state * list output := (with_flight c (flight c ++ l), map Called l).

(** [getById], and the selected record, if the list still has it. *)
Definition getById (i : string) (c : state) : option host := List.find (fun h => bool_decide (id h = i)) (hosts c).
Definition selection (c : state) : option host := i ← selected c; getById i c.

(** [setTimeout(this.update, 2000)] and [clearTimeout(this.updating)] *)
Definition set_timer (c : state) : state :=
  with_timers c (Some (next c)) (timers c ++ [next c]) (S (next c)).
Definition clear_timer (c : state) : state :=
  match updating c with
  | Some t => with_timers c (updating c) (filter (fun u => u <> t) (timers c)) (next c)
  | None => c
  end.

(** [update] *)
Definition update (c : state) : state * list output :=
  calls (map (fun h => Status (id h) true) (hosts c)) (set_timer c).

(** [updateButtons]: the button is enabled first; a status that is not there
    yet then throws, and so do the buttons of a toolbar that has not been looked
    up. *)
Definition updateButtons (h : host) (c : state) : state * list output :=
  match status h with
  | None => (with_buttons c true (connectText c) (stopEnabled c), [Throw])
  | Some st =>
      let s := to_lower st in
      let on := bool_decide (s = "connected" \/ s = "online") in
      let text := if decide (s = "connected") then "Disconnect" else "Connect" in
      if ready c then (with_buttons c on text on, []) else (with_buttons c on text (stopEnabled c), [Throw])
  end.

(** [onSelectionChanged] *)
Definition onSelectionChanged (sel : option string) (c : state) : state * list output :=
  let c := with_rows c (hosts c) (loaded c) sel in
  if ready c then
    match sel with
    | Some i => match getById i c with
                | Some h => updateButtons h (with_edit c true)
                | None => (with_edit c true, [Throw])
                end
    | None => (with_buttons (with_edit c false) (connectEnabled c) (connectText c) false, [])
    end
  else (c, [Throw]).

(** [loadHosts] and [onGetHosts]: the rows are replaced, and a selection there
    was is cleared. *)
Definition loadHosts (c : state) : state * list output := call GetHosts c.
Definition onGetHosts (hs : list host) (c : state) : state * list output :=
  let c := with_rows c hs (S (loaded c)) (selected c) in
  let '(c, os) := match selected c with
                  | Some _ => onSelectionChanged None c
                  | None => (c, [])
                  end in
  let '(c, os') := calls (map (fun h => Status (id h) false) hs) c in (c, os ++ os').

(** [onGetHostStatus]: a row that is gone throws. *)
Definition set_status (i : string) (st : string) (v : prim) (h : host) : host :=
  if decide (id h = i) then mkh (id h) (hname h) (port h) (user h) (Some st) v else h.
Definition onGetHostStatus (i st : string) (v : prim) (c : state) : state * list output :=
  match getById i c with
  | None => (c, [Throw])
  | Some _ =>
      let c := with_rows c (map (set_status i st v) (hosts c)) (loaded c) (selected c) in
      match selection c with
      | Some h => if decide (id h = i) then updateButtons h c else (c, [])
      | None => (c, [])
      end
  end.

(** [onUpdate]: what follows an exception is not done. *)
Definition onUpdate (i st : string) (v : prim) (c : state) : state * list output :=
  if visible c then
    let '(c, os) := onGetHostStatus i st v c in
    if decide (Throw ∈ os) then (c, os) else (set_timer (clear_timer c), os)
  else (c, []).

(** [onShow], [onHide], and the window's [hide] *)
Definition onShow (c : state) : state * list output :=
  let c := with_window c true true in
  let '(c, os) := loadHosts c in
  match updating c with
  | Some _ => (c, os)
  | None => (set_timer c, os)
  end.
Definition onHide (c : state) : state :=
  match updating c with
  | Some t => with_timers c None (filter (fun u => u <> t) (timers c)) (next c)
  | None => c
  end.
Definition hide (c : state) : state :=
  if visible c then onHide (with_window c false (ready c)) else c.

(** [checkConnected], [disconnect], [onLogin] and [onLogout] *)
Definition checkConnected (c : state) : state * list output := call Connected c.
Definition onLogin (first_login : bool) (c : state) : state * list output :=
  if first_login then (c, [AskPassword]) else checkConnected c.
Definition onLogout (c : state) : state * list output :=
  (if visible c && rendered c then hide c else c, [Fire "disconnect"]).

(** [onConnect]: the store's [find] looks for a status that starts with the
    word, in any case. *)
Definition is_connected (h : host) : bool :=
  match status h with Some s => String.prefix "connected" (to_lower s) | None => false end.
Definition onConnect (c : state) : state * list output :=
  match selection c with
  | None => (c, [])
  | Some h =>
      match status h with
      | None => (c, [Throw])
      | Some st =>
          if decide (to_lower st = "connected") then call Disconnect c
          else
            let '(c, os) := if existsb is_connected (hosts c) then call Disconnect c else (c, []) in
            let '(c, os') := call (Connect (id h)) c in
            (hide c, os ++ os')
      end
  end.

(** [onRemoveClick] and [onStopClick] *)
Definition onRemoveClick (c : state) : state * list output :=
  match selection c with Some h => call (Remove (id h) (loaded c)) c | None => (c, []) end.
Definition onStopClick (c : state) : state * list output :=
  match selection c with Some h => call (Stop (id h)) c | None => (c, []) end.
Definition onRemoved (i : string) (at_load : nat) (c : state) : state * list output :=
  if decide (at_load <> loaded c) then (c, [])
  else
    let c1 := with_rows c (filter (fun h => id h <> i) (hosts c)) (loaded c) (selected c) in
    if decide (selected c = Some i) then onSelectionChanged None c1 else (c1, []).

(** What a call may be answered. *)
Inductive answer :=
  | IsConnected (b : bool) | Hosts (hs : list host) | HostStatus (id st : string) (version : prim)
  | Done | Result (ok : bool) (msg : prim).

Definition onAnswer (a : ask) (r : answer) (c : state) : option (state * list output) :=
  match a, r with
  | Connected, IsConnected b => Some (if b then (c, [Fire "connect"]) else if visible c then (c, []) else onShow c)
  | GetHosts, Hosts hs => Some (onGetHosts hs c)
  | Status i true, HostStatus j st v => Some (onUpdate j st v c)
  | Status i false, HostStatus j st v => Some (onGetHostStatus j st v c)
  | Disconnect, Done => Some (let '(c, os) := update c in (c, os ++ [Fire "disconnect"]))
  | Connect _, Done => Some (with_waiting c (S (waiting c)), [ReloadMethods])
  | Remove i n, Result ok _ => Some (if ok then onRemoved i n c else (c, [Alert PUndef]))
  | Stop _, Result ok msg => Some (c, if ok then [] else [Alert msg])
  | _, _ => None
  end.

(** What may happen: what the rest of the interface fires, the user's clicks
    (the windows that change a host are opened from the toolbar), a timer, an answer, a
    failure, and the client having its methods. *)
Inductive event :=
  | Login (first_login : bool) | Confirmed | Logout | Show | Hide | HostChange | Select (sel : option string)
  | PressConnect | PressRemove | PressStop | Tick (t : nat) | Answered (i : nat) (r : answer) | Lost (i : nat)
  | ClientConnected.

Definition step (c : state) (e : event) : option (state * list output) :=
  match e with
  | Login f => Some (onLogin f c)
  | Confirmed => Some (checkConnected c)
  | Logout => Some (onLogout c)
  | Show => Some (onShow c)
  | Hide => Some (hide c, [])
  | HostChange => if ready c then Some (loadHosts c) else None
  | Select sel => Some (onSelectionChanged sel c)
  | PressConnect => Some (if connectEnabled c then onConnect c else (c, []))
  | PressRemove => Some (if removeEnabled c then onRemoveClick c else (c, []))
  | PressStop => Some (if stopEnabled c then onStopClick c else (c, []))
  | Tick t =>
      if decide (t ∈ timers c)
      then Some (update (with_timers c (updating c) (filter (fun u => u <> t) (timers c)) (next c)))
      else None
  | Answered i r => a ← flight c !! i; onAnswer a r (with_flight c (delete i (flight c)))
  | Lost i => a ← flight c !! i; Some (with_flight c (delete i (flight c)), [])
  | ClientConnected => Some (with_waiting c 0, repeat (Fire "connect") (waiting c))
  end.

Definition steps : state -> list event -> option (state * list output) := run step.

(** What the server says of a host: connected if it is the one it is connected
    to, and otherwise offline, without having looked. *)
Definition web_get_host_status (connection : option string) (i : string) : string :=
  if decide (connection = Some i) then "Connected" else "Offline".

End Manager.

(** ** The buttons follow the selected host *)

Definition follows (c : Manager.state) : Prop :=
  forall h st, Manager.selection c = Some h -> Manager.status h = Some st ->
  let on := bool_decide (to_lower st = "connected" \/ to_lower st = "online") in
  Manager.connectEnabled c = on /\ Manager.stopEnabled c = on /\
  Manager.connectText c = if decide (to_lower st = "connected") then "Disconnect" else "Connect".

(** What the buttons rely on: there are rows only once the toolbar is there. *)
Record agrees (c : Manager.state) : Prop := {
  ag_follows : follows c;
  ag_ready : Manager.ready c = false -> Manager.hosts c = [] /\ Manager.GetHosts ∉ Manager.flight c
}.

(** The same rows, selection and buttons. *)
Definition same_buttons (c c' : Manager.state) : Prop :=
  Manager.hosts c' = Manager.hosts c /\ Manager.selected c' = Manager.selected c /\
  Manager.ready c' = Manager.ready c /\ Manager.connectEnabled c' = Manager.connectEnabled c /\
  Manager.stopEnabled c' = Manager.stopEnabled c /\ Manager.connectText c' = Manager.connectText c /\
  (Manager.GetHosts ∈ Manager.flight c' -> Manager.GetHosts ∈ Manager.flight c).

Lemma same_agrees c c' : same_buttons c c' -> agrees c -> agrees c'.
Proof.
  intros (E1 & E2 & E3 & E4 & E5 & E6 & E7) [H1 H2]. split.
  - unfold follows, Manager.selection, Manager.getById in *. rewrite E1, E2, E4, E5, E6. exact H1.
  - rewrite E1, E3. intros H. destruct (H2 H) as [? ?]. split; [done|tauto].
Qed.

Lemma call_agrees a c : a <> Manager.GetHosts -> agrees c -> agrees (Manager.call a c).1.
Proof.
  intros Ha. apply same_agrees. repeat split. cbn. intros [H | H%list_elem_of_singleton]%elem_of_app; [done|congruence].
Qed.

Lemma calls_agree l c : Manager.GetHosts ∉ l -> agrees c -> agrees (Manager.calls l c).1.
Proof. intros Hl. apply same_agrees. repeat split. cbn. intros [H | H]%elem_of_app; [done|by destruct Hl]. Qed.

Lemma statuses_no_hosts b (hs : list Manager.host) :
  Manager.GetHosts ∉ map (fun h => Manager.Status (Manager.id h) b) hs.
Proof. by intros (h & ? & _)%list_elem_of_fmap. Qed.

Lemma update_agrees c : agrees c -> agrees (Manager.update c).1.
Proof. intros H. apply calls_agree; [apply statuses_no_hosts|]. by apply (same_agrees c). Qed.

Lemma getById_id i c h : Manager.getById i c = Some h -> Manager.id h = i.
Proof. unfold Manager.getById. intros [_ H]%List.find_some. by apply bool_decide_eq_true in H. Qed.

Lemma getById_set i j st v c :
  Manager.getById j (Manager.with_rows c (map (Manager.set_status i st v) (Manager.hosts c)) (Manager.loaded c) (Manager.selected c)) =
  Manager.set_status i st v <$> Manager.getById j c.
Proof.
  unfold Manager.getById. cbn [Manager.hosts Manager.with_rows].
  induction (Manager.hosts c) as [|h hs IH]; [done|]. cbn [map List.find].
  assert (E : Manager.id (Manager.set_status i st v h) = Manager.id h)
    by (unfold Manager.set_status; by destruct (decide _)).
  rewrite E. by destruct (bool_decide _).
Qed.

(** The buttons once [updateButtons] has set them for the selected host. *)
Lemma buttons_follow h c :
  Manager.ready c = true -> Manager.selection c = Some h -> follows (Manager.updateButtons h c).1.
Proof.
  intros Hr Hs h' st Hs' Hst. unfold Manager.updateButtons in *.
  assert (h' = h) as ->.
  { destruct (Manager.status h); [|unfold Manager.selection, Manager.getById in *; cbn in Hs'; congruence].
    rewrite Hr in Hs'. unfold Manager.selection, Manager.getById in *. cbn in Hs'. congruence. }
  rewrite Hst, Hr. done.
Qed.

Lemma buttons_rest h c :
  Manager.hosts (Manager.updateButtons h c).1 = Manager.hosts c /\
  Manager.ready (Manager.updateButtons h c).1 = Manager.ready c /\
  Manager.flight (Manager.updateButtons h c).1 = Manager.flight c.
Proof. unfold Manager.updateButtons. destruct (Manager.status h); [destruct (Manager.ready c) eqn:E; cbn; rewrite ?E; done|done]. Qed.

Lemma selection_agrees sel c : agrees c -> agrees (Manager.onSelectionChanged sel c).1.
Proof.
  intros [H1 H2]. unfold Manager.onSelectionChanged. cbn [Manager.ready Manager.with_rows].
  destruct (Manager.ready c) eqn:Er.
  - set (c1 := Manager.with_rows _ _ _ _). destruct sel as [i|]; [|split; [by intros h st|cbn; congruence] ].
    destruct (Manager.getById i c1) as [h|] eqn:Eh.
    + destruct (buttons_rest h (Manager.with_edit c1 true)) as (_ & R & _). split.
      * apply buttons_follow; [done|exact Eh].
      * rewrite R. cbn. congruence.
    + split; cbn; [|congruence]. intros h st Hs. exfalso.
      change (Manager.getById i c1 = Some h) in Hs. congruence.
  - destruct (H2 eq_refl) as [E1 E2]. split; [|done]. intros h st Hs. exfalso.
    unfold Manager.selection, Manager.getById in Hs. cbn in Hs. rewrite E1 in Hs. by destruct sel.
Qed.

Lemma onGetHosts_agrees hs c : Manager.ready c = true -> agrees c -> agrees (Manager.onGetHosts hs c).1.
Proof.
  intros Hr H. unfold Manager.onGetHosts. set (c1 := Manager.with_rows _ _ _ _).
  set (x := match Manager.selected c1 with Some _ => _ | None => _ end).
  assert (Hx : agrees x.1).
  { subst x. destruct (Manager.selected c1) as [i|] eqn:E.
    - unfold Manager.onSelectionChanged. cbn. rewrite Hr. split; [by intros h st|cbn; congruence].
    - split; [|cbn; congruence]. intros h st. unfold Manager.selection. cbn. cbn in E. by rewrite E. }
  destruct x as [c2 os]. pose proof (calls_agree (map (fun h => Manager.Status (Manager.id h) false) hs) c2
    (statuses_no_hosts false hs) Hx) as Hc. by destruct (Manager.calls _ c2).
Qed.

Lemma status_agrees i st v c : agrees c -> agrees (Manager.onGetHostStatus i st v c).1.
Proof.
  intros H. pose proof H as [H1 H2]. unfold Manager.onGetHostStatus.
  destruct (Manager.getById i c) as [h0|] eqn:E0; [|done].
  assert (Hr : Manager.ready c = true).
  { destruct (Manager.ready c); [done|]. destruct (H2 eq_refl) as [E _]. unfold Manager.getById in E0.
    by rewrite E in E0. }
  set (c1 := Manager.with_rows _ _ _ _).
  assert (Hs : Manager.selection c1 = Manager.set_status i st v <$> Manager.selection c).
  { unfold Manager.selection. subst c1. cbn [Manager.selected Manager.with_rows].
    destruct (Manager.selected c) as [j|]; [|done]. cbn [mbind option_bind]. apply getById_set. }
  destruct (Manager.selection c1) as [h|] eqn:E1.
  - destruct (decide (Manager.id h = i)) as [Eh|Eh].
    + destruct (buttons_rest h c1) as (_ & R & _). split; [by apply buttons_follow|]. rewrite R. cbn. congruence.
    + split; [|cbn; congruence]. intros h' st' Hh'. cbn [fst] in Hh'. rewrite E1 in Hh'. injection Hh' as <-.
      destruct (Manager.selection c) as [g|] eqn:Eg; [|done]. injection Hs as Hs.
      assert (Manager.id g <> i) by (intros Hg; apply Eh; rewrite Hs; unfold Manager.set_status; by rewrite decide_True).
      unfold Manager.set_status in Hs. rewrite decide_False in Hs by done. subst g. by apply H1.
  - split; [|cbn; congruence]. intros h st' Hh. cbn [fst] in Hh. congruence.
Qed.

Lemma onUpdate_agrees i st v c : agrees c -> agrees (Manager.onUpdate i st v c).1.
Proof.
  intros H. unfold Manager.onUpdate. destruct (Manager.visible c); [|done].
  pose proof (status_agrees i st v c H) as Hs. destruct (Manager.onGetHostStatus i st v c) as [c1 os].
  destruct (decide _); [done|]. apply (same_agrees c1); [|done].
  unfold Manager.clear_timer. by destruct (Manager.updating c1).
Qed.

Lemma hide_agrees c : agrees c -> agrees (Manager.hide c).
Proof.
  apply same_agrees. unfold Manager.hide, Manager.onHide. destruct (Manager.visible c); [|done]. cbn.
  by destruct (Manager.updating c).
Qed.

Lemma onShow_agrees c : agrees c -> agrees (Manager.onShow c).1.
Proof.
  intros [H1 H2]. unfold Manager.onShow, Manager.loadHosts. cbn.
  assert (H : forall c', follows c' -> Manager.ready c' = true -> agrees c') by (intros c' Hf Hr; split; [done|congruence]).
  destruct (Manager.updating c); apply H; try done; exact H1.
Qed.

Lemma onConnect_agrees c : agrees c -> agrees (Manager.onConnect c).1.
Proof.
  intros H. unfold Manager.onConnect. destruct (Manager.selection c) as [h|]; [|done].
  destruct (Manager.status h) as [st|]; [|done]. destruct (decide _); [by apply call_agrees|].
  destruct (existsb _ _); cbn [fst snd]; apply hide_agrees; apply call_agrees; try done. by apply call_agrees.
Qed.

Lemma onRemoved_agrees i n c : agrees c -> agrees (Manager.onRemoved i n c).1.
Proof.
  intros H. pose proof H as [H1 H2]. unfold Manager.onRemoved. destruct (decide _); [done|].
  set (c1 := Manager.with_rows _ _ _ _).
  assert (Hf : forall j, j <> i -> Manager.getById j c1 = Manager.getById j c).
  { intros j Hj. unfold Manager.getById. subst c1. cbn. clear H H1 H2. induction (Manager.hosts c) as [|h hs IH]; [done|].
    destruct (decide (Manager.id h = i)) as [E|E].
    - rewrite filter_cons_False by tauto. cbn. rewrite bool_decide_eq_false_2 by congruence. exact IH.
    - rewrite filter_cons_True by done. cbn. by destruct (bool_decide _). }
  destruct (decide (Manager.selected c = Some i)) as [E|E].
  - apply selection_agrees. split.
    + intros h st Hs. exfalso. unfold Manager.selection in Hs. subst c1. cbn [Manager.selected Manager.with_rows] in Hs.
      rewrite E in Hs. cbn [mbind option_bind] in Hs. pose proof (getById_id _ _ _ Hs) as Hi.
      unfold Manager.getById in Hs. apply List.find_some in Hs as [Hin _]. cbn in Hin.
      apply list_elem_of_In, list_elem_of_filter in Hin as [? _]. done.
    + intros Hr. destruct (H2 Hr) as [E1 E2]. subst c1. cbn. by rewrite E1.
  - split.
    + intros h st Hs. apply H1. unfold Manager.selection in *.
      change (Manager.selected c1) with (Manager.selected c) in Hs.
      destruct (Manager.selected c) as [j|]; [|done]. cbn [mbind option_bind] in *. rewrite <- Hf; [done|congruence].
    + intros Hr. destruct (H2 Hr) as [E1 E2]. subst c1. cbn. by rewrite E1.
Qed.

Lemma flight_agrees i c : agrees c -> agrees (Manager.with_flight c (delete i (Manager.flight c))).
Proof.
  apply same_agrees. repeat split. cbn. intros H. eapply elem_of_submseteq; [exact H|].
  apply sublist_submseteq, sublist_delete.
Qed.

Lemma answer_agrees a r c x :
  (a = Manager.GetHosts -> Manager.ready c = true) ->
  Manager.onAnswer a r c = Some x -> agrees c -> agrees x.1.
Proof.
  intros Hg. destruct a as [| |i [] | | | |], r; cbn [Manager.onAnswer]; intros [= <-] H; cbn [fst].
  - destruct b; [done|]. destruct (Manager.visible c); [done|by apply onShow_agrees].
  - by apply onGetHosts_agrees; [apply Hg|].
  - by apply onUpdate_agrees.
  - by apply status_agrees.
  - exact (update_agrees c H).
  - by apply (same_agrees c).
  - destruct ok; [by apply onRemoved_agrees|done].
  - done.
Qed.

Lemma step_agrees c e c' os : Manager.step c e = Some (c', os) -> agrees c -> agrees c'.
Proof.
  intros Hs H. assert (Hx : forall x, Some x = Some (c', os) -> agrees x.1 -> agrees c') by (by intros x [= ->]).
  destruct e as [f| | | | | |sel| | | |t|i r|i|]; cbn [Manager.step] in Hs.
  - apply (Hx _ Hs). unfold Manager.onLogin. destruct f; [done|by apply call_agrees].
  - by apply (Hx _ Hs), call_agrees.
  - apply (Hx _ Hs). unfold Manager.onLogout. cbn [fst]. destruct (_ && _); [by apply hide_agrees|done].
  - by apply (Hx _ Hs), onShow_agrees.
  - by apply (Hx _ Hs), hide_agrees.
  - destruct (Manager.ready c) eqn:Er; [|done]. apply (Hx _ Hs). destruct H as [H1 H2]. split; [exact H1|]. cbn. congruence.
  - by apply (Hx _ Hs), selection_agrees.
  - apply (Hx _ Hs). destruct (Manager.connectEnabled c); [by apply onConnect_agrees|done].
  - apply (Hx _ Hs). unfold Manager.onRemoveClick. destruct (Manager.removeEnabled c), (Manager.selection c); try done.
    by apply call_agrees.
  - apply (Hx _ Hs). unfold Manager.onStopClick. destruct (Manager.stopEnabled c), (Manager.selection c); try done.
    by apply call_agrees.
  - destruct (decide _); [|done]. apply (Hx _ Hs), update_agrees. by apply (same_agrees c).
  - destruct (Manager.flight c !! i) as [a|] eqn:E; cbn [mbind option_bind] in Hs; [|done].
    apply (answer_agrees a r (Manager.with_flight c (delete i (Manager.flight c))) (c', os)); [|done|by apply flight_agrees].
    intros ->. destruct (Manager.ready c) eqn:Er; [done|]. destruct H as [_ H2]. destruct (H2 Er) as [_ H3].
    destruct H3. by eapply list_elem_of_lookup_2.
  - destruct (Manager.flight c !! i); cbn [mbind option_bind] in Hs; [|done]. by apply (Hx _ Hs), flight_agrees.
  - apply (Hx _ Hs). by apply (same_agrees c).
Qed.

Lemma steps_agree es c os : Manager.steps Manager.create es = Some (c, os) -> agrees c.
Proof.
  revert es c os. apply (run_ind Manager.step (fun c _ _ => agrees c)).
  - split; [done|]. intros _. split; [done|]. apply not_elem_of_nil.
  - intros es s1 os1 e s2 os2 _ H Hs. by eapply step_agrees.
Qed.

(** Whatever is clicked, answered or lost, and in whatever order, once the
    selected host has a status the buttons say what can be done with it. *)
Theorem buttons_agree es c os h st :
  Manager.steps Manager.create es = Some (c, os) ->
  Manager.selection c = Some h -> Manager.status h = Some st ->
  let on := bool_decide (to_lower st = "connected" \/ to_lower st = "online") in
  Manager.connectEnabled c = on /\ Manager.stopEnabled c = on /\
  Manager.connectText c = if decide (to_lower st = "connected") then "Disconnect" else "Connect".
Proof. intros H. apply steps_agree in H as [H _]. apply H. Qed.

(** ** Against what the server says of a host *)

(** The answers about the hosts are the server's. *)
Definition by_server (e : Manager.event) : Prop :=
  match e with
  | Manager.Answered _ (Manager.HostStatus j st _) =>
      exists connection, st = Manager.web_get_host_status connection j
  | Manager.Answered _ (Manager.Hosts hs) => Forall (fun h => Manager.status h = None) hs
  | _ => True
  end.

Definition server_status (h : Manager.host) : Prop :=
  match Manager.status h with Some st => st = "Connected" \/ st = "Offline" | None => True end.
Definition known (c : Manager.state) : Prop := Forall server_status (Manager.hosts c).

Lemma selection_hosts sel c : Manager.hosts (Manager.onSelectionChanged sel c).1 = Manager.hosts c.
Proof.
  unfold Manager.onSelectionChanged. cbv zeta. set (c1 := Manager.with_rows _ _ _ _).
  assert (H1 : Manager.hosts c1 = Manager.hosts c) by done.
  destruct (Manager.ready c1); [|done]. destruct sel as [i|]; [|done].
  destruct (Manager.getById i c1) as [h|]; [|done].
  destruct (buttons_rest h (Manager.with_edit c1 true)) as (E & _). by rewrite E.
Qed.

Lemma hide_hosts c : Manager.hosts (Manager.hide c) = Manager.hosts c.
Proof.
  unfold Manager.hide, Manager.onHide. destruct (Manager.visible c); [|done]. cbn. by destruct (Manager.updating c).
Qed.

Lemma status_known i st v c :
  st = "Connected" \/ st = "Offline" -> known c -> known (Manager.onGetHostStatus i st v c).1.
Proof.
  intros Hst H. unfold Manager.onGetHostStatus. destruct (Manager.getById i c); [|done].
  set (c1 := Manager.with_rows _ _ _ _).
  assert (H1 : known c1).
  { unfold known in *. subst c1. cbn. apply Forall_fmap. eapply Forall_impl; [exact H|].
    intros g Hg. unfold server_status, Manager.set_status in *. cbn. by destruct (decide _). }
  destruct (Manager.selection c1) as [g|]; [|done]. destruct (decide _); [|done].
  unfold known. by destruct (buttons_rest g c1) as (-> & _).
Qed.

Lemma onConnect_hosts c : Manager.hosts (Manager.onConnect c).1 = Manager.hosts c.
Proof.
  unfold Manager.onConnect. destruct (Manager.selection c) as [h|]; [|done].
  destruct (Manager.status h); [|done]. destruct (decide _); [done|].
  by destruct (existsb _ _); cbn; rewrite hide_hosts.
Qed.

Lemma answer_known i a r c x :
  by_server (Manager.Answered i r) -> Manager.onAnswer a r c = Some x -> known c -> known x.1.
Proof.
  intros Hr. destruct a as [| |j [] | | | |], r; cbn [Manager.onAnswer]; intros [= <-] H; cbn [fst]; try exact H.
  - destruct b; [done|]. destruct (Manager.visible c); [done|]. unfold Manager.onShow. cbn.
    by destruct (Manager.updating c).
  - unfold known, Manager.onGetHosts. set (c1 := Manager.with_rows _ _ _ _).
    assert (Hc : Forall server_status hs)
      by (eapply Forall_impl; [exact Hr|]; intros h Hh; unfold server_status; by rewrite Hh).
    destruct (Manager.selected c1); [|exact Hc].
    pose proof (selection_hosts None c1) as Hs. destruct (Manager.onSelectionChanged None c1) as [c2 os].
    cbn in Hs |- *. by rewrite Hs.
  - destruct Hr as [connection ->]. unfold Manager.onUpdate. destruct (Manager.visible c); [|done].
    assert (Hk : known (Manager.onGetHostStatus id (Manager.web_get_host_status connection id) version c).1).
    { apply status_known; [|done]. unfold Manager.web_get_host_status. destruct (decide _); auto. }
    destruct (Manager.onGetHostStatus _ _ _ _) as [c1 os]. destruct (decide _); [done|].
    unfold Manager.clear_timer. by destruct (Manager.updating c1).
  - destruct Hr as [connection ->]. apply status_known; [|done]. unfold Manager.web_get_host_status.
    destruct (decide _); auto.
  - destruct ok; [|done]. unfold Manager.onRemoved. destruct (decide _); [done|].
    set (c1 := Manager.with_rows _ _ _ _).
    assert (Hc : known c1) 
      by (subst c1; unfold known in *; cbn; rewrite Forall_forall in H |- *;
          intros h [_ Hh]%list_elem_of_filter; auto).
    destruct (decide _); [|done]. unfold known. by rewrite selection_hosts.
Qed.

Lemma step_known c e x : Manager.step c e = Some x -> by_server e -> known c -> known x.1.
Proof.
  intros Hs He H. destruct e as [f| | | | | |sel| | | |t|i r|i|]; cbn [Manager.step] in Hs.
  - injection Hs as <-. by destruct f.
  - by injection Hs as <-.
  - injection Hs as <-. unfold Manager.onLogout, known. cbn [fst]. destruct (_ && _); [by rewrite hide_hosts|done].
  - injection Hs as <-. unfold Manager.onShow. cbn. by destruct (Manager.updating c).
  - injection Hs as <-. unfold known. cbn [fst]. by rewrite hide_hosts.
  - destruct (Manager.ready c); [|done]. by injection Hs as <-.
  - injection Hs as <-. unfold known. by rewrite selection_hosts.
  - injection Hs as <-. destruct (Manager.connectEnabled c); [|done]. unfold known. by rewrite onConnect_hosts.
  - injection Hs as <-. unfold Manager.onRemoveClick. by destruct (Manager.removeEnabled c), (Manager.selection c).
  - injection Hs as <-. unfold Manager.onStopClick. by destruct (Manager.stopEnabled c), (Manager.selection c).
  - destruct (decide _); [|done]. by injection Hs as <-.
  - destruct (Manager.flight c !! i) as [a|]; cbn [mbind option_bind] in Hs; [|done].
    by apply (answer_known i a r _ x He Hs).
  - destruct (Manager.flight c !! i); cbn [mbind option_bind] in Hs; [|done]. by injection Hs as <-.
  - by injection Hs as <-.
Qed.

(** *** Nothing but the button connects *)

Definition connects (o : Manager.output) : bool :=
  match o with Manager.Called (Manager.Connect _) => true | _ => false end.

Lemma statuses_connect b (hs : list Manager.host) :
  existsb connects (map Manager.Called (map (fun h => Manager.Status (Manager.id h) b) hs)) = false.
Proof. by induction hs. Qed.

Lemma buttons_connect h c : existsb connects (Manager.updateButtons h c).2 = false.
Proof. unfold Manager.updateButtons. destruct (Manager.status h); [by destruct (Manager.ready c)|done]. Qed.

Lemma selection_connect sel c : existsb connects (Manager.onSelectionChanged sel c).2 = false.
Proof.
  unfold Manager.onSelectionChanged. cbv zeta. set (c1 := Manager.with_rows _ _ _ _).
  destruct (Manager.ready c1); [|done]. destruct sel as [i|]; [|done].
  destruct (Manager.getById i c1); [apply buttons_connect|done].
Qed.

Lemma status_connect i st v c : existsb connects (Manager.onGetHostStatus i st v c).2 = false.
Proof.
  unfold Manager.onGetHostStatus. destruct (Manager.getById i c); [|done].
  set (c1 := Manager.with_rows _ _ _ _). destruct (Manager.selection c1) as [g|]; [|done].
  destruct (decide (Manager.id g = i)); [apply buttons_connect|done].
Qed.

Lemma answer_connect a r c x : Manager.onAnswer a r c = Some x -> existsb connects x.2 = false.
Proof.
  destruct a as [| |j [] | | | |], r; cbn [Manager.onAnswer]; intros [= <-]; try done.
  - destruct b; [done|]. destruct (Manager.visible c); [done|]. unfold Manager.onShow. cbn.
    by destruct (Manager.updating c).
  - unfold Manager.onGetHosts. set (c1 := Manager.with_rows _ _ _ _).
    assert (H : existsb connects (match Manager.selected c1 with
      | Some _ => Manager.onSelectionChanged None c1 | None => (c1, []) end).2 = false)
      by (destruct (Manager.selected c1); [apply selection_connect|done]).
    destruct (match Manager.selected c1 with Some _ => _ | None => _ end) as [c2 os]. cbn in H |- *.
    rewrite existsb_app, H. apply statuses_connect.
  - unfold Manager.onUpdate. destruct (Manager.visible c); [|done].
    pose proof (status_connect id st version c) as H. destruct (Manager.onGetHostStatus _ _ _ _).
    by destruct (decide _).
  - apply status_connect.
  - cbn. rewrite existsb_app. by rewrite statuses_connect.
  - destruct ok; [|done]. unfold Manager.onRemoved. destruct (decide _); [done|].
    destruct (decide _); [apply selection_connect|done].
  - by destruct ok.
Qed.

Definition presses (e : Manager.event) : bool := match e with Manager.PressConnect => true | _ => false end.

Lemma step_connect c e x :
  Manager.step c e = Some x -> presses e = false -> existsb connects x.2 = false.
Proof.
  intros Hs He. destruct e as [f| | | | | |sel| | | |t|i r|i|]; cbn [Manager.step] in Hs; try done.
  - injection Hs as <-. by destruct f.
  - by injection Hs as <-.
  - by injection Hs as <-.
  - injection Hs as <-. unfold Manager.onShow. cbn. by destruct (Manager.updating c).
  - by injection Hs as <-.
  - destruct (Manager.ready c); [|done]. by injection Hs as <-.
  - injection Hs as <-. apply selection_connect.
  - injection Hs as <-. unfold Manager.onRemoveClick. by destruct (Manager.removeEnabled c), (Manager.selection c).
  - injection Hs as <-. unfold Manager.onStopClick. by destruct (Manager.stopEnabled c), (Manager.selection c).
  - destruct (decide _); [|done]. injection Hs as <-. apply statuses_connect.
  - destruct (Manager.flight c !! i) as [a|]; cbn [mbind option_bind] in Hs; [|done]. by eapply answer_connect.
  - destruct (Manager.flight c !! i); cbn [mbind option_bind] in Hs; [|done]. by injection Hs as <-.
  - injection Hs as <-. cbn. by induction (Manager.waiting c).
Qed.

(** The server says of every host it is not connected to that it is offline,
    and the window offers to connect only to a host that is online: so nothing
    that is done in the window ever connects to a host. *)
Theorem offline_never_connects es c os i :
  Forall by_server es -> Manager.steps Manager.create es = Some (c, os) ->
  Manager.Called (Manager.Connect i) ∉ os.
Proof.
  intros He Hs.
  assert (agrees c /\ known c /\ existsb connects os = false) as (_ & _ & H).
  { revert He. revert es c os Hs.
    apply (run_ind Manager.step (fun c es os => Forall by_server es ->
      agrees c /\ known c /\ existsb connects os = false)).
    - intros _. split; [by apply (steps_agree [] _ [])|]. split; [constructor|done].
    - intros es s1 os1 e s2 os2 _ IH Hs [He Hb]%Forall_app. apply Forall_inv in Hb.
      destruct (IH He) as (I1 & I2 & I3).
      split; [by eapply step_agrees|]. split; [by apply (step_known s1 e (s2, os2))|].
      rewrite existsb_app, I3. cbn. destruct (presses e) eqn:Ep; [|by apply (step_connect s1 e (s2, os2))].
      destruct e; try discriminate Ep.
      cbn [Manager.step] in Hs. destruct (Manager.connectEnabled s1) eqn:Ec; [|by injection Hs as <- <-].
      unfold Manager.onConnect in Hs. destruct (Manager.selection s1) as [h|] eqn:Eh; [|by injection Hs as <- <-].
      destruct (Manager.status h) as [st|] eqn:Est; [|by injection Hs as <- <-].
      destruct I1 as [I1 _]. destruct (I1 h st Eh Est) as (F & _). rewrite Ec in F. symmetry in F.
      apply bool_decide_eq_true in F.
      assert (Hk : server_status h).
      { unfold known in I2. rewrite Forall_forall in I2. apply I2. unfold Manager.selection in Eh.
        destruct (Manager.selected s1); [|done]. apply List.find_some in Eh as [Hi _]. by apply list_elem_of_In. }
      unfold server_status in Hk. rewrite Est in Hk. destruct Hk as [-> | ->].
      + by injection Hs as <- <-.
      + exfalso. vm_compute in F. by destruct F. }
  intros Hi. assert (Ht : existsb connects os = true); [|congruence].
  apply existsb_exists. eexists. split; [by apply list_elem_of_In|done].
Qed.

(** ** The timer *)

(** One timer while the window is shown, which [updating] names, and none while
    it is hidden. *)
Definition timed (c : Manager.state) : Prop :=
  match Manager.updating c with
  | Some t => Manager.timers c = [t] /\ Manager.visible c = true
  | None => Manager.timers c = [] /\ Manager.visible c = false
  end.

Definition same_timer (c c' : Manager.state) : Prop :=
  Manager.updating c' = Manager.updating c /\ Manager.timers c' = Manager.timers c /\
  Manager.visible c' = Manager.visible c.

Lemma same_timed c c' : same_timer c c' -> timed c -> timed c'.
Proof. intros (E1 & E2 & E3). unfold timed. by rewrite E1, E2, E3. Qed.

Lemma buttons_timer h c : same_timer c (Manager.updateButtons h c).1.
Proof. unfold Manager.updateButtons. destruct (Manager.status h); [by destruct (Manager.ready c)|done]. Qed.

Lemma selection_timer sel c : same_timer c (Manager.onSelectionChanged sel c).1.
Proof.
  unfold Manager.onSelectionChanged. cbv zeta. set (c1 := Manager.with_rows _ _ _ _).
  destruct (Manager.ready c1); [|done]. destruct sel as [i|]; [|done].
  destruct (Manager.getById i c1) as [h|]; [apply (buttons_timer h (Manager.with_edit c1 true))|done].
Qed.

Lemma status_timer i st v c : same_timer c (Manager.onGetHostStatus i st v c).1.
Proof.
  unfold Manager.onGetHostStatus. destruct (Manager.getById i c); [|done].
  set (c1 := Manager.with_rows _ _ _ _). destruct (Manager.selection c1) as [g|]; [|done].
  destruct (decide (Manager.id g = i)); [apply (buttons_timer g c1)|done].
Qed.

Lemma hide_timed c : timed c -> timed (Manager.hide c).
Proof.
  unfold timed, Manager.hide, Manager.onHide. destruct (Manager.visible c) eqn:Ev.
  - cbn. destruct (Manager.updating c) as [t|]; [|by intros [_ ?]]. intros [Ht _]. cbn. split; [|done].
    rewrite Ht. by rewrite filter_cons_False, filter_nil by tauto.
  - by rewrite Ev.
Qed.

Lemma onShow_timed c : timed c -> timed (Manager.onShow c).1.
Proof.
  unfold timed, Manager.onShow. cbn. destruct (Manager.updating c) as [t|] eqn:E; cbn.
  - rewrite E. by intros [? _].
  - intros [Ht _]. by rewrite Ht.
Qed.

Lemma onUpdate_timed i st v c : timed c -> timed (Manager.onUpdate i st v c).1.
Proof.
  intros H. unfold Manager.onUpdate. destruct (Manager.visible c) eqn:Ev; [|done].
  pose proof (status_timer i st v c) as Hs. destruct (Manager.onGetHostStatus i st v c) as [c1 os].
  cbn [fst] in Hs. apply (same_timed c c1) in H; [|done]. destruct (decide _); [done|].
  destruct Hs as (_ & _ & Hv). cbn [fst]. unfold timed, Manager.clear_timer in *.
  destruct (Manager.updating c1) as [t|].
  - destruct H as [Ht H]. cbn. split; [|done]. rewrite Ht. by rewrite filter_cons_False, filter_nil by tauto.
  - destruct H as [_ H]. congruence.
Qed.

Lemma onConnect_timed c : timed c -> timed (Manager.onConnect c).1.
Proof.
  intros H. unfold Manager.onConnect. destruct (Manager.selection c) as [h|]; [|done].
  destruct (Manager.status h); [|done]. destruct (decide _); [done|].
  by destruct (existsb _ _); cbn [fst snd]; apply hide_timed.
Qed.

Lemma tick_timed t c : t ∈ Manager.timers c -> timed c ->
  timed (Manager.update (Manager.with_timers c (Manager.updating c)
    (filter (fun u => u <> t) (Manager.timers c)) (Manager.next c))).1.
Proof.
  unfold timed. cbn. destruct (Manager.updating c) as [u|]; intros Ht [H1 H2]; rewrite H1 in *.
  - apply list_elem_of_singleton in Ht as ->. rewrite filter_cons_False, filter_nil by tauto. done.
  - by apply elem_of_nil in Ht.
Qed.

Lemma answer_timed a r c x :
  a <> Manager.Disconnect -> Manager.onAnswer a r c = Some x -> timed c -> timed x.1.
Proof.
  intros Ha. destruct a as [| |j [] | | | |], r; cbn [Manager.onAnswer]; intros [= <-] H; cbn [fst]; try exact H; try done.
  - destruct b; [done|]. destruct (Manager.visible c); [done|]. by apply onShow_timed.
  - unfold Manager.onGetHosts. set (c1 := Manager.with_rows _ _ _ _).
    assert (Hx : timed (match Manager.selected c1 with
      | Some _ => Manager.onSelectionChanged None c1 | None => (c1, []) end).1).
    { destruct (Manager.selected c1); [|done]. by apply (same_timed c1 _ (selection_timer None c1)). }
    by destruct (match Manager.selected c1 with Some _ => _ | None => _ end) as [c2 os].
  - by apply onUpdate_timed.
  - by apply (same_timed c _ (status_timer _ _ _ c)).
  - destruct ok; [|done]. unfold Manager.onRemoved. destruct (decide _); [done|].
    set (c1 := Manager.with_rows _ _ _ _). destruct (decide _); [|done].
    by apply (same_timed c1 _ (selection_timer None c1)).
Qed.

Lemma step_timed c e x :
  Manager.step c e = Some x -> (forall i r, e = Manager.Answered i r -> Manager.flight c !! i <> Some Manager.Disconnect) ->
  timed c -> timed x.1.
Proof.
  intros Hs Hd H. destruct e as [f| | | | | |sel| | | |t|i r|i|]; cbn [Manager.step] in Hs.
  - injection Hs as <-. by destruct f.
  - by injection Hs as <-.
  - injection Hs as <-. unfold Manager.onLogout. cbn [fst]. destruct (_ && _); [by apply hide_timed|done].
  - injection Hs as <-. by apply onShow_timed.
  - injection Hs as <-. by apply hide_timed.
  - destruct (Manager.ready c); [|done]. by injection Hs as <-.
  - injection Hs as <-. by apply (same_timed c _ (selection_timer sel c)).
  - injection Hs as <-. destruct (Manager.connectEnabled c); [by apply onConnect_timed|done].
  - injection Hs as <-. unfold Manager.onRemoveClick. by destruct (Manager.removeEnabled c), (Manager.selection c).
  - injection Hs as <-. unfold Manager.onStopClick. by destruct (Manager.stopEnabled c), (Manager.selection c).
  - destruct (decide _); [|done]. injection Hs as <-. by apply tick_timed.
  - destruct (Manager.flight c !! i) as [a|] eqn:E; cbn [mbind option_bind] in Hs; [|done].
    apply (answer_timed a r _ x) in Hs; [done| |done]. intros ->. by apply (Hd i r).
  - destruct (Manager.flight c !! i); cbn [mbind option_bind] in Hs; [|done]. by injection Hs as <-.
  - by injection Hs as <-.
Qed.

(** What is in flight was in flight or is called. *)
Definition grows (c : Manager.state) (x : Manager.state * list Manager.output) : Prop :=
  forall a, a ∈ Manager.flight x.1 -> a ∈ Manager.flight c \/ Manager.Called a ∈ x.2.

Lemma same_grows c c' os : Manager.flight c' = Manager.flight c -> grows c (c', os).
Proof. intros E a. cbn. rewrite E. by left. Qed.

Lemma call_grows a c : grows c (Manager.call a c).
Proof. intros b [H | ->%list_elem_of_singleton]%elem_of_app; [by left|right; cbn; by left]. Qed.

Lemma calls_grow l c : grows c (Manager.calls l c).
Proof. intros b [H | H]%elem_of_app; [by left|right]. by apply (list_elem_of_fmap_2 Manager.Called). Qed.

Lemma grows_trans c c1 os1 x :
  grows c (c1, os1) -> grows c1 x -> grows c (x.1, os1 ++ x.2).
Proof.
  intros H1 H2 a Ha. cbn in Ha |- *. rewrite elem_of_app. destruct (H2 a Ha) as [H|H]; [|tauto].
  destruct (H1 a H); tauto.
Qed.

Lemma selection_flight sel c : Manager.flight (Manager.onSelectionChanged sel c).1 = Manager.flight c.
Proof.
  unfold Manager.onSelectionChanged. cbv zeta. set (c1 := Manager.with_rows _ _ _ _).
  destruct (Manager.ready c1); [|done]. destruct sel as [i|]; [|done].
  destruct (Manager.getById i c1) as [h|]; [|done].
  by destruct (buttons_rest h (Manager.with_edit c1 true)) as (_ & _ & E).
Qed.

Lemma status_flight i st v c : Manager.flight (Manager.onGetHostStatus i st v c).1 = Manager.flight c.
Proof.
  unfold Manager.onGetHostStatus. destruct (Manager.getById i c); [|done].
  set (c1 := Manager.with_rows _ _ _ _). destruct (Manager.selection c1) as [g|]; [|done].
  destruct (decide (Manager.id g = i)); [|done]. by destruct (buttons_rest g c1) as (_ & _ & E).
Qed.

Lemma hide_flight c : Manager.flight (Manager.hide c) = Manager.flight c.
Proof.
  unfold Manager.hide, Manager.onHide. destruct (Manager.visible c); [|done]. cbn. by destruct (Manager.updating c).
Qed.

Lemma onUpdate_flight i st v c : Manager.flight (Manager.onUpdate i st v c).1 = Manager.flight c.
Proof.
  unfold Manager.onUpdate. destruct (Manager.visible c); [|done].
  pose proof (status_flight i st v c) as Hs. destruct (Manager.onGetHostStatus i st v c) as [c1 os].
  destruct (decide _); [done|]. cbn. unfold Manager.clear_timer. by destruct (Manager.updating c1).
Qed.

Lemma onShow_grows c : grows c (Manager.onShow c).
Proof.
  unfold Manager.onShow. intros a. cbn. destruct (Manager.updating c); cbn;
    (intros [H | ->%list_elem_of_singleton]%elem_of_app; [by left|right; by left]).
Qed.

Lemma onConnect_grows c : grows c (Manager.onConnect c).
Proof.
  unfold Manager.onConnect. destruct (Manager.selection c) as [h|]; [|by apply same_grows].
  destruct (Manager.status h); [|by apply same_grows]. destruct (decide _); [apply call_grows|].
  destruct (existsb _ _); intros a; cbn; rewrite hide_flight; cbn; set_solver.
Qed.

Lemma answer_grows a r c x : Manager.onAnswer a r c = Some x -> grows c x.
Proof.
  destruct a as [| |j [] | | | |], r; cbn [Manager.onAnswer]; intros [= <-]; try (by apply same_grows).
  - destruct b; [by apply same_grows|]. destruct (Manager.visible c); [by apply same_grows|apply onShow_grows].
  - unfold Manager.onGetHosts. set (c1 := Manager.with_rows _ _ _ _).
    assert (Hx : Manager.flight (match Manager.selected c1 with
      | Some _ => Manager.onSelectionChanged None c1 | None => (c1, []) end).1 = Manager.flight c).
    { destruct (Manager.selected c1); [|done]. by rewrite selection_flight. }
    destruct (match Manager.selected c1 with Some _ => _ | None => _ end) as [c2 os].
    apply (grows_trans c c2 os (Manager.calls _ c2)); [by apply same_grows|apply calls_grow].
  - intros b. rewrite onUpdate_flight. by left.
  - intros b. rewrite status_flight. by left.
  - intros b Hb. cbn [snd]. rewrite elem_of_app. apply (calls_grow _ (Manager.set_timer c)) in Hb as [H|H]; [by left|tauto].
  - destruct ok; [|by apply same_grows]. unfold Manager.onRemoved. destruct (decide _); [by apply same_grows|].
    destruct (decide _); intros b; [rewrite selection_flight|]; by left.
Qed.

Lemma step_grows c e x : Manager.step c e = Some x -> grows c x.
Proof.
  intros Hs. destruct e as [f| | | | | |sel| | | |t|i r|i|]; cbn [Manager.step] in Hs.
  - injection Hs as <-. unfold Manager.onLogin. destruct f; [by apply same_grows|apply call_grows].
  - injection Hs as <-. apply call_grows.
  - injection Hs as <-. unfold Manager.onLogout. destruct (_ && _); apply same_grows; [apply hide_flight|done].
  - injection Hs as <-. apply onShow_grows.
  - injection Hs as <-. apply same_grows, hide_flight.
  - destruct (Manager.ready c); [|done]. injection Hs as <-. apply call_grows.
  - injection Hs as <-. intros a. rewrite selection_flight. by left.
  - injection Hs as <-. destruct (Manager.connectEnabled c); [apply onConnect_grows|by apply same_grows].
  - injection Hs as <-. unfold Manager.onRemoveClick. destruct (Manager.removeEnabled c), (Manager.selection c);
      (by apply same_grows) || apply call_grows.
  - injection Hs as <-. unfold Manager.onStopClick. destruct (Manager.stopEnabled c), (Manager.selection c);
      (by apply same_grows) || apply call_grows.
  - destruct (decide _); [|done]. injection Hs as <-. intros a Ha.
    by apply (calls_grow _ (Manager.set_timer (Manager.with_timers c (Manager.updating c)
      (filter (fun u => u <> t) (Manager.timers c)) (Manager.next c)))) in Ha.
  - destruct (Manager.flight c !! i) as [a|]; cbn [mbind option_bind] in Hs; [|done].
    intros b Hb. apply (answer_grows _ _ _ _ Hs) in Hb as [Hb|Hb]; [left|by right].
    eapply elem_of_submseteq; [exact Hb|apply sublist_submseteq, sublist_delete].
  - destruct (Manager.flight c !! i); cbn [mbind option_bind] in Hs; [|done]. injection Hs as <-. intros b Hb. left.
    eapply elem_of_submseteq; [exact Hb|apply sublist_submseteq, sublist_delete].
  - injection Hs as <-. by apply same_grows.
Qed.

(** As long as nobody asks to disconnect, one timer runs while the window is
    shown, and none while it is hidden. *)
Theorem one_timer_while_shown es c os :
  Manager.steps Manager.create es = Some (c, os) -> Manager.Called Manager.Disconnect ∉ os ->
  length (Manager.timers c) = if Manager.visible c then 1 else 0.
Proof.
  intros Hs Hd.
  assert (timed c /\ (Manager.Disconnect ∈ Manager.flight c -> Manager.Called Manager.Disconnect ∈ os)) as [H _].
  { revert Hd. revert es c os Hs. apply (run_ind Manager.step (fun c es os => Manager.Called Manager.Disconnect ∉ os ->
      timed c /\ (Manager.Disconnect ∈ Manager.flight c -> Manager.Called Manager.Disconnect ∈ os))).
    - intros _. split; [done|by intros ?%elem_of_nil].
    - intros es s1 os1 e s2 os2 _ IH Hs Hd. rewrite elem_of_app in Hd |- *.
      destruct IH as [I1 I2]; [tauto|]. split.
      + apply (step_timed s1 e (s2, os2) Hs); [|done]. intros i r -> Hi.
        apply list_elem_of_lookup_2, I2 in Hi. tauto.
      + intros Hf. apply (step_grows _ _ _ Hs) in Hf as [Hf|Hf]; tauto. }
  unfold timed in H. destruct (Manager.updating c); destruct H as [-> ->]; done.
Qed.

(** ** Disconnecting with the window hidden *)

(** From a hidden window with a timer, any number of times the timer goes off,
    each row's status is asked for, and there is a timer still. *)
Lemma hidden_ticks n c t :
  Manager.visible c = false -> Manager.timers c = [t] ->
  exists es c' os, length es = n /\ Forall (fun e => exists u, e = Manager.Tick u) es /\
    Manager.steps c es = Some (c', os) /\ Manager.visible c' = false /\ length (Manager.timers c') = 1 /\
    Manager.hosts c' = Manager.hosts c /\ length os = n * length (Manager.hosts c).
Proof.
  revert c t. induction n as [|n IH]; intros c t Hv Ht.
  { exists [], c, []. rewrite Ht. repeat split; try done.  }
  assert (Hs : exists c1 os1 u, Manager.step c (Manager.Tick t) = Some (c1, os1) /\ Manager.visible c1 = false /\
    Manager.timers c1 = [u] /\ Manager.hosts c1 = Manager.hosts c /\ length os1 = length (Manager.hosts c)).
  { cbn [Manager.step]. rewrite Ht, decide_True by set_solver.
    assert (Hf : filter (fun u => u <> t) [t] = []) by (rewrite filter_cons_False by tauto; done).
    rewrite Hf. eexists _, _, (Manager.next c). split; [reflexivity|]. cbn. by rewrite !length_map. }
  destruct Hs as (c1 & os1 & u & Hs & V1 & T1 & H1 & L1).
  destruct (IH c1 u V1 T1) as (es & c' & os & E1 & E2 & E3 & E4 & E5 & E6 & E7).
  exists (Manager.Tick t :: es), c', (os1 ++ os). split; [cbn; lia|]. split; [constructor; eauto|].
  split; [|rewrite E6, length_app, L1, E7, H1; cbn; done].
  change (Manager.Tick t :: es) with ([Manager.Tick t] ++ es). apply run_app. exists c1, os1, os.
  split; [|done]. unfold run. cbn [foldl mbind option_bind]. by rewrite Hs.
Qed.

(** When the answer to a disconnection comes while the window is hidden, as it
    does after connecting to another host, a timer is set that nothing clears:
    the status of every row is asked for again and again. *)
Theorem disconnect_polls_hidden c i n :
  Manager.flight c !! i = Some Manager.Disconnect -> Manager.visible c = false -> Manager.timers c = [] ->
  exists c1 os1 es c2 os2,
    Manager.step c (Manager.Answered i Manager.Done) = Some (c1, os1) /\
    Forall (fun e => exists t, e = Manager.Tick t) es /\ Manager.steps c1 es = Some (c2, os2) /\
    Manager.visible c2 = false /\ length (Manager.timers c2) = 1 /\
    length os2 = n * length (Manager.hosts c).
Proof.
  intros Hi Hv Ht. cbn [Manager.step]. rewrite Hi. cbn [mbind option_bind Manager.onAnswer].
  set (c0 := Manager.with_flight c _). destruct (Manager.update c0) as [c1 os1] eqn:E.
  assert (H1 : Manager.visible c1 = false /\ Manager.timers c1 = [Manager.next c] /\ Manager.hosts c1 = Manager.hosts c).
  { unfold Manager.update in E. injection E as <- _. cbn. by rewrite Ht. }
  destruct H1 as (V1 & T1 & R1).
  destruct (hidden_ticks n c1 (Manager.next c) V1 T1) as (es & c2 & os2 & _ & E2 & E3 & E4 & E5 & _ & E7).
  exists c1, (os1 ++ [Manager.Fire "disconnect"]), es, c2, os2. rewrite R1 in E7. done.
Qed.

(** ** Examples *)

Definition row (i : string) : Manager.host := Manager.mkh i "h" (PNum (of_Z 58846)) (PStr "u") None PUndef.
Definition shown_rows : list Manager.event :=
  [Manager.Show; Manager.Answered 0 (Manager.Hosts [row "a"; row "b"]);
   Manager.Answered 0 (Manager.HostStatus "a" "Connected" (PStr "2"));
   Manager.Answered 0 (Manager.HostStatus "b" "Offline" (PStr ""));
   Manager.Select (Some "b"); Manager.PressConnect].

Lemma buttons_agree_witness :
  match Manager.steps Manager.create shown_rows with
  | Some (c, _) => Manager.connectEnabled c = false /\ Manager.connectText c = "Connect"
  | None => False
  end.
Proof.
  destruct (Manager.steps Manager.create shown_rows) as [[c os]|] eqn:E; [|vm_compute in E; discriminate E].
  pose proof (buttons_agree shown_rows c os
    (Manager.mkh "b" "h" (PNum (of_Z 58846)) (PStr "u") (Some "Offline") (PStr "")) "Offline" E) as H.
  destruct H as (H1 & _ & H2); [vm_compute in E; injection E as <- <-; reflexivity|reflexivity|].
  split; [exact H1|exact H2].
Defined.

Lemma offline_never_connects_witness :
  match Manager.steps Manager.create shown_rows with
  | Some (_, os) => Manager.Called (Manager.Connect "b") ∉ os
  | None => False
  end.
Proof.
  destruct (Manager.steps Manager.create shown_rows) as [[c os]|] eqn:E; [|vm_compute in E; discriminate E].
  refine (offline_never_connects shown_rows c os "b" _ E).
  repeat constructor; exists (Some "a"); reflexivity.
Defined.

Lemma one_timer_while_shown_witness :
  match Manager.steps Manager.create (shown_rows ++ [Manager.Tick 1; Manager.Hide]) with
  | Some (c, _) => length (Manager.timers c) = 0
  | None => False
  end.
Proof.
  destruct (Manager.steps Manager.create (shown_rows ++ [Manager.Tick 1; Manager.Hide])) as [[c os]|] eqn:E;
    [|vm_compute in E; discriminate E].
  rewrite (one_timer_while_shown (shown_rows ++ [Manager.Tick 1; Manager.Hide]) c os E);
    vm_compute in E; injection E as <- <-; [reflexivity|].
  intros H. repeat (apply elem_of_cons in H as [H|H]; [discriminate H|]). by apply elem_of_nil in H.
Defined.

Lemma disconnect_polls_hidden_witness :
  match Manager.steps Manager.create
    [Manager.Show; Manager.Answered 0 (Manager.Hosts [row "a"]);
     Manager.Answered 0 (Manager.HostStatus "a" "Connected" (PStr "2"));
     Manager.Select (Some "a"); Manager.PressConnect; Manager.Hide] with
  | Some (c, _) => exists c1 os1, Manager.step c (Manager.Answered 0 Manager.Done) = Some (c1, os1) /\
      Manager.visible c1 = false /\ length (Manager.timers c1) = 1
  | None => False
  end.
Proof.
  destruct (Manager.steps Manager.create _) as [[c os]|] eqn:E; [|vm_compute in E; discriminate E].
  destruct (disconnect_polls_hidden c 0 0) as (c1 & os1 & es & c2 & os2 & H1 & _);
    try (vm_compute in E; injection E as <- <-; reflexivity).
  exists c1, os1. split; [exact H1|]. vm_compute in E. injection E as <- <-. vm_compute in H1.
  injection H1 as <- <-. split; reflexivity.
Defined.
