(* ===== verification/AddTorrent.v ===== *)
(** * Deluge.add: the window that adds torrents

    [Panel] is [Deluge.add.OptionsPanel] with its files tab: what is known of
    the torrents to be added, and the choice of their files, kept as arrays the
    [MultiOptionsManager] holds by reference and the panel writes into.
    [Window] is [Deluge.add.AddWindow]: the list, and what is sent. *)

From stdpp Require Import base list strings gmap.
From Stdlib Require Import Lia ZArith.
From S2P Require Import Prelude JsNum JsString JsValue ExtCore OptionsManager MultiOptionsManager Files.

Local Open Scope nat_scope.

Module Panel.

(** The files of a torrent, in the order [for .. in] visits them; [files_tree] is
    [None] where it is no object. *)
Inductive entry :=
  | EFile (index : Z) (size download : prim)
  | EDir (size : prim) (contents : list (string * entry)).

Record torrent := mkt {
  info_hash : string; name : string; tfilename : string;
  files_tree : option (list (string * entry))
}.

(** What a node of the files tab holds. *)
Record attrs := mk_attrs {
  download : val; filename : string; fileindex : option Z; leaf : bool; nsize : prim
}.
Definition node := Tree.node attrs.

(** [torrents], the options manager, the arrays there are, the torrent shown
    and the children of the files tab's root. *)
Record state := mk {
  torrents : obj torrent;
  om : MOM.state;
  heap : store;
  torrentId : option string;
  root : list node
}.
Definition with_om p o := mk (torrents p) o (heap p) (torrentId p) (root p).
Definition with_heap p h := mk (torrents p) (om p) h (torrentId p) (root p).
Definition with_root p r := mk (torrents p) (om p) (heap p) (torrentId p) r.

(** [walkFileTree]: the entries in the order the callback gets them. *)
Fixpoint walk (f : string) (e : entry) : list (string * entry) :=
  match e with
  | EFile _ _ _ => [(f, e)]
  | EDir _ c => (f, e) :: (fix go (c : list (string * entry)) : list (string * entry) :=
                             match c with [] => [] | (g, e') :: c' => walk g e' ++ go c' end) c
  end.
Definition walkFileTree (files : list (string * entry)) : list (string * entry) :=
  concat (map (fun '(f, e) => walk f e) files).

(** [fileIndexes], and the array with an entry for each of its keys. *)
Definition file_indexes (files : list (string * entry)) : gmap Z prim :=
  foldl (fun m '(_, e) => match e with EFile i _ d => <[i := d]> m | EDir _ _ => m end) ∅ (walkFileTree files).
Definition array_of (m : gmap Z prim) : list val :=
  map (fun i => VPrim (default PUndef (m !! Z.of_nat i)))
    (seq 0 (Z.to_nat (1 + foldr Z.max (-1) (map_to_list m).*1)%Z)).

(** [addTorrent] *)
Definition addTorrent (t : torrent) (p : state) : state :=
  let priorities := array_of (file_indexes (default [] (files_tree t))) in
  let '(l, h) := new_array priorities (heap p) in
  let '(o, _, oldId) := MOM.changeId h (om p) (Some (info_hash t)) true in
  let '(o, _) := MOM.setDefault h o (OKey "file_priorities") (VArr l) in
  let '(o, _, _) := MOM.changeId h o oldId true in
  mk (oset (info_hash t) t (torrents p)) o h (torrentId p) (root p).

(** [files.clearFiles], and [clear]: an exception in the first keeps the second
    from what follows. *)
Definition clearFiles (p : state) : state * bool :=
  if length (root p) =? 0 then (p, true)
  else let '(r, went) := Tree.remove_all (length (root p)) 0 (root p) in (with_root p r, went).
Definition clear (p : state) : state * bool :=
  let '(p, went) := clearFiles p in
  if went then (with_om p (MOM.resetAll (heap p) (om p)).1, true) else (p, false).

(** [getFilename]; [None] throws. *)
Definition getFilename (id : string) (p : state) : option string := tfilename <$> oget id (torrents p).

(** [getOptions]: the array of the choices is written over in place. *)
Definition getOptions (id : option string) (p : state) : state * obj val :=
  let '(o, _, oldId) := MOM.changeId (heap p) (om p) id true in
  let options := MOM.get_all (heap p) o in
  let '(o, _, _) := MOM.changeId (heap p) o oldId true in
  let h := match vget "file_priorities" options with
           | VArr l => <[l := map (fun v => VPrim (PNum (of_Z (if val_truthy v then 1 else 0))))
                               (arr_items (heap p) l)]> (heap p)
           | _ => heap p
           end in
  (mk (torrents p) o h (torrentId p) (root p), options).

(** [priorities[i]]: [None] where there is nothing to read from. *)
Definition array_at (h : store) (v : val) (i : Z) : option val :=
  match v with
  | VPrim (PUndef | PNull) => None
  | VArr l => Some (default (VPrim PUndef) (arr_items h l !! Z.to_nat i))
  | _ => Some (VPrim PUndef)
  end.

(** The nodes [setTorrent] makes, and whether it went through: of the first
    file, whose index is zero, [entry.index ? .. : true] makes [true]. *)
Fixpoint make_node (h : store) (priorities : val) (f : string) (e : entry) : list node * bool :=
  match e with
  | EFile i sz _ =>
      match (if decide (i = 0%Z) then Some (VPrim (PBool true)) else array_at h priorities i) with
      | Some d => ([Tree.Node (mk_attrs d f (Some i) true sz) []], true)
      | None => ([], false)
      end
  | EDir sz c =>
      let '(cs, went) :=
        (fix go (c : list (string * entry)) : list node * bool :=
           match c with
           | [] => ([], true)
           | (g, e') :: c' =>
               let '(n, went) := make_node h priorities g e' in
               if went then let '(ns, went') := go c' in (n ++ ns, went') else (n, false)
           end) c in
      ([Tree.Node (mk_attrs (VPrim (PBool true)) f None false sz) cs], went)
  end.
Fixpoint make_nodes (h : store) (priorities : val) (files : list (string * entry)) : list node * bool :=
  match files with
  | [] => ([], true)
  | (f, e) :: files' =>
      let '(n, went) := make_node h priorities f e in
      if went then let '(ns, went') := make_nodes h priorities files' in (n ++ ns, went') else (n, false)
  end.

(** [setTorrent]; what it leaves and whether it went through: without a node it
    throws at [root.firstChild]. *)
Definition setTorrent (id : string) (p : state) : state * bool :=
  if decide (id = "") then (p, true)
  else
    let o := (MOM.changeId (heap p) (om p) (Some id) false).1.1 in
    let p := mk (torrents p) o (heap p) (Some id) (root p) in
    match oget id (torrents p) with
    | None => (p, false)
    | Some t =>
        let '(p, went) := clearFiles p in
        if negb went then (p, false)
        else
          let priorities := MOM.get (heap p) (om p) "file_priorities" in
          match files_tree t with
          | Some files =>
              let '(nodes, went) := make_nodes (heap p) priorities files in
              let p := with_root p (root p ++ nodes) in
              (p, went && negb (length (root p) =? 0))
          | None => (p, true)
          end
    end.

(** [onFilesChecked], for the file indexes of the nodes, up to an exception: a
    folder's index is not there, and sets a property that is no element. *)
Definition check_one (v : prim) (p : state) (index : option Z) : state * bool :=
  if match index with Some i => (i <? 0)%Z | None => false end then (p, true)
  else
    let priorities := MOM.get (heap p) (om p) "file_priorities" in
    match priorities with
    | VPrim (PUndef | PNull) => (p, false)
    | _ =>
        let h := match priorities, index with
                 | VArr l, Some i => <[l := array_assign (VPrim PUndef) (arr_items (heap p) l) (Z.to_nat i) (VPrim v)]> (heap p)
                 | _, _ => heap p
                 end in
        let o := (MOM.update h (om p) (OKey "file_priorities") priorities).1 in
        (mk (torrents p) o h (torrentId p) (root p), true)
    end.
Fixpoint onFilesChecked (v : prim) (indexes : list (option Z)) (p : state) : state * bool :=
  match indexes with
  | [] => (p, true)
  | i :: indexes' =>
      let '(p, went) := check_one v p i in
      if went then onFilesChecked v indexes' p else (p, false)
  end.

(** [setDownload] of the files tab, not suppressed: the node, and for a folder
    everything below it, the folder twice. *)
Definition checked (v : prim) (a : attrs) : attrs := mk_attrs (VPrim v) (filename a) (fileindex a) (leaf a) (nsize a).
Fixpoint check_all (v : prim) (n : node) : node :=
  match n with Tree.Node a cs => Tree.Node (checked v a) (map (check_all v) cs) end.
Fixpoint edit_node (f : node -> node) (path : list nat) (cs : list node) : list node :=
  match path with
  | [] => cs
  | [i] => alter f i cs
  | i :: path' => alter (fun n => Tree.Node (Tree.attributes n) (edit_node f path' (Tree.childNodes n))) i cs
  end.
Definition setDownload (path : list nat) (v : prim) (p : state) : option (state * bool) :=
  n ← Tree.at_path path (root p);
  let nodes := if leaf (Tree.attributes n) then [n] else n :: Tree.cascade n in
  Some (onFilesChecked v (map (fun m => fileindex (Tree.attributes m)) nodes)
          (with_root p (edit_node (check_all v) path (root p)))).
(** [onNodeClick] on the box. *)
Definition onNodeClick (path : list nat) (p : state) : option (state * bool) :=
  n ← Tree.at_path path (root p);
  setDownload path (PBool (negb (val_truthy (download (Tree.attributes n))))) p.

(** What [getDefaults] of the options tab does with the daemon's configuration:
    the options it makes, among them a new array of choices, and every
    torrent's are forgotten. *)
Definition default_options (config : obj val) (l : loc) : obj val :=
  [("file_priorities", VArr l); ("add_paused", vget "add_paused" config);
   ("sequential_download", vget "sequential_download" config);
   ("pre_allocate_storage", vget "pre_allocate_storage" config);
   ("download_location", vget "download_location" config);
   ("move_completed", vget "move_completed" config);
   ("move_completed_path", vget "move_completed_path" config);
   ("max_connections", vget "max_connections_per_torrent" config);
   ("max_download_speed", vget "max_download_speed_per_torrent" config);
   ("max_upload_slots", vget "max_upload_slots_per_torrent" config);
   ("max_upload_speed", vget "max_upload_speed_per_torrent" config);
   ("prioritize_first_last_pieces", vget "prioritize_first_last_pieces" config);
   ("seed_mode", VPrim (PBool false)); ("super_seeding", VPrim (PBool false)); ("label", VPrim (PStr ""))].
Definition onDefaults (config : obj val) (p : state) : state :=
  let '(l, h) := new_array [] (heap p) in
  let o := om p in
  let o := MOM.mk (default_options config l) (MOM.changed o) (MOM.stored o) (MOM.binds o) (MOM.focused o) (MOM.currentId o) in
  mk (torrents p) (MOM.resetAll h o).1 h (torrentId p) (root p).

Definition create (bound : obj (list field)) : state := mk [] (MOM.mk [] [] [] bound None None) ∅ None [].

End Panel.

Module Window.

(** A row of the list: what is known of it before its torrent is. *)
Record row := mkr { rid : string; rhash : option string; rtext : string }.

(** The calls in flight: for the configuration, for the upload of files under
    the ids made for them, and for what a file, a link or a page holds. *)
Inductive ask :=
  | Defaults | Upload (ids : list string) | Info (id : option string) (file : string)
  | Magnet (id url : string) | Download (id : string) | UrlInfo (id file : string).

(** The panel, the list and its selection, whether the window is shown, and the
    calls in flight.  What is greyed out and which tab is open are not here. *)
Record state := mk {
  panel : Panel.state; rows : list row; selected : option string; visible : bool; flight : list ask
}.
Definition with_panel w p := mk p (rows w) (selected w) (visible w) (flight w).
Definition with_rows w rs sel := mk (panel w) rs sel (visible w) (flight w).
Definition with_visible w v := mk (panel w) (rows w) (selected w) v (flight w).
Definition with_flight w fl := mk (panel w) (rows w) (selected w) (visible w) fl.

(** What is sent is encoded with the arrays there are then. *)
Inductive output :=
  | Called (a : ask) | Add_torrents (torrents : list (string * obj val)) (h : store) | Alert (msg : string) | Throw.

Definition call (a : ask) (w : state) : state * list output := (with_flight w (flight w ++ [a]), [Called a]).
Definition ran (went : bool) : list output := if went then [] else [Throw].
Definition getById (id : string) (w : state) : option row :=
  List.find (fun r => bool_decide (rid r = id)) (rows w).

(** [onSelect]; the panel makes nothing of a hash that is not there. *)
Definition onSelect (sel : option string) (w : state) : state * list output :=
  match sel with
  | Some i => match getById i w with
              | Some r => let '(p, went) := Panel.setTorrent (default "" (rhash r)) (panel w) in
                          (with_panel w p, ran went)
              | None => (w, [Throw])
              end
  | None => (w, [])
  end.
(** A selection made in the list. *)
Definition select (sel : option string) (w : state) : state * list output :=
  onSelect sel (with_rows w (rows w) sel).

(** The store's [remove], of a row and its selection. *)
Definition remove (id : string) (w : state) : state :=
  with_rows w (filter (fun r => rid r <> id) (rows w))
    (if decide (selected w = Some id) then None else selected w).

(** [clear] and [hide]; the last does not run when the first throws. *)
Definition clear (w : state) : state * bool :=
  let w := with_rows w [] None in
  let '(p, went) := Panel.clear (panel w) in (with_panel w p, went).
Definition hide (w : state) : state := with_visible w false.
Definition clear_and_hide (w : state) : state * list output :=
  let '(w, went) := clear w in if went then (hide w, []) else (w, [Throw]).

(** [onAddClick]: what is made of each row, up to one whose torrent is not known;
    the property [null] names is ["null"]. *)
Fixpoint collect (rs : list row) (p : Panel.state) : Panel.state * option (list (string * obj val)) :=
  match rs with
  | [] => (p, Some [])
  | r :: rs' =>
      match Panel.getFilename (default "null" (rhash r)) p with
      | None => (p, None)
      | Some path =>
          let '(p, options) := Panel.getOptions (rhash r) p in
          let '(p, sent) := collect rs' p in (p, cons (path, options) <$> sent)
      end
  end.
Definition onAddClick (w : state) : state * list output :=
  let '(p, sent) := collect (rows w) (panel w) in
  let w := with_panel w p in
  match sent with
  | None => (w, [Throw])
  | Some torrents =>
      let '(w', os) := clear_and_hide w in (w', Add_torrents torrents (Panel.heap p) :: os)
  end.

(** [onCancelClick], [onShow] and [onRemove] *)
Definition onCancelClick : state -> state * list output := clear_and_hide.
Definition onShow (w : state) : state * list output := call Defaults (with_visible w true).
Definition onRemove (w : state) : state * list output :=
  match selected w with
  | None => (w, [])
  | Some i =>
      let w := remove i w in
      let '(p, went) := Panel.clear (panel w) in (with_panel w p, ran went)
  end.

(** [onTorrentBeforeAdd], [onTorrentAdd] and [onTorrentAddFailed] *)
Definition onTorrentBeforeAdd (id text : string) (w : state) : state :=
  with_rows w (rows w ++ [mkr id None text]) (selected w).
Definition got_row (id : string) (t : Panel.torrent) (r : row) : row :=
  if decide (rid r = id) then mkr id (Some (Panel.info_hash t)) (Panel.name t) else r.
Definition onTorrentAdd (id : option string) (info : option Panel.torrent) (w : state) : state * list output :=
  match info with
  | None => (match id with Some i => remove i w | None => w end, [Alert "Not a valid torrent"])
  | Some t =>
      match id ≫= fun i => getById i w with
      | None => (w, [Throw])
      | Some r =>
          let w := with_rows w (map (got_row (rid r) t) (rows w)) (selected w) in
          select (Some (rid r)) (with_panel w (Panel.addTorrent t (panel w)))
      end
  end.
Definition onTorrentAddFailed (id : string) (w : state) : state := remove id w.

(** [onFileSelected], of files that pass the form: the row of each, then the
    upload. *)
Definition onFileSelected (randomId : string) (files : list string) (w : state) : state * list output :=
  let ids := imap (fun i _ => randomId +:+ nat_str (Z.of_nat i)) files in
  let w := foldl (fun w '(id, f) => onTorrentBeforeAdd id f w) w (zip ids files) in
  call (Upload ids) w.

(** [onUploadSuccess] and [onUploadFailure]; nobody listens to the window's own
    [addfailed]. *)
Definition onUploadSuccess (ids : list string) (success : bool) (files : list string) (w : state)
    : state * list output :=
  if success then
    foldl (fun '(w, os) a => let '(w, os') := call a w in (w, os ++ os'))
      (w, []) (imap (fun i f => Info (ids !! i) f) files)
  else let '(w, went) := clear w in (w, ran went).
Definition onUploadFailure (w : state) : state * list output := (hide w, [Alert "Failed to upload torrent"]).

(** The URL window's [onAddClick], [onDownload], [onDownloadFailed] *)
Definition onAddUrl (id url : string) (w : state) : state * list output :=
  let magnet := bool_decide (str_find "magnet:?" url = Some 0) && str_contains "xt=urn:btih" url in
  let '(w, os) := call (if magnet then Magnet id url else Download id) w in
  (onTorrentBeforeAdd id url w, os).
Definition onDownload (id file : string) (w : state) : state * list output := call (UrlInfo id file) w.
Definition onDownloadFailed (id : string) (w : state) : state * list output :=
  (onTorrentAddFailed id w, [Alert "Failed to download torrent"]).

(** [onGotInfo], of this window and of the URL one *)
Definition onGotInfo (id : option string) (file : string) (info : option Panel.torrent) (w : state)
    : state * list output :=
  onTorrentAdd id
    ((fun t => Panel.mkt (Panel.info_hash t) (Panel.name t) file (Panel.files_tree t)) <$> info) w.

(** What a call may be answered; a failure nobody handles changes nothing. *)
Inductive answer :=
  | Config (config : obj val) | Uploaded (success : bool) (files : list string)
  | Got (info : option Panel.torrent) | Downloaded (file : string) | Failed.

Definition onAnswer (a : ask) (r : answer) (w : state) : option (state * list output) :=
  match a, r with
  | Defaults, Config c => Some (with_panel w (Panel.onDefaults c (panel w)), [])
  | Upload ids, Uploaded ok files => Some (onUploadSuccess ids ok files w)
  | Upload _, Failed => Some (onUploadFailure w)
  | Info id file, Got t => Some (onGotInfo id file t w)
  | Magnet id url, Got t => Some (onGotInfo (Some id) url t w)
  | UrlInfo id file, Got t => Some (onGotInfo (Some id) file t w)
  | Download id, Downloaded file => Some (onDownload id file w)
  | (Download id | UrlInfo id _), Failed => Some (onDownloadFailed id w)
  | (Defaults | Info _ _ | Magnet _ _), Failed => Some (w, [])
  | _, _ => None
  end.

(** What may happen: what the user does in the two windows, under ids the clock
    makes, other ones than are in the list, and the answers. *)
Inductive event :=
  | Show | Hide | PressAdd | PressCancel | PressRemove | Files (randomId : string) (names : list string)
  | Url (id url : string) | Select (sel : option string) | Click (path : list nat)
  | Edit (option : string) (value : prim) | Answered (i : nat) (r : answer).

Definition step (w : state) (e : event) : option (state * list output) :=
  match e with
  | Show => Some (onShow w)
  | Hide => Some (hide w, [])
  | PressAdd => Some (onAddClick w)
  | PressCancel => Some (onCancelClick w)
  | PressRemove => Some (onRemove w)
  | Files i names => if existsb (fun r => String.prefix i (rid r)) (rows w) then None else Some (onFileSelected i names w)
  | Url i url => if existsb (fun r => bool_decide (rid r = i)) (rows w) then None else Some (onAddUrl i url w)
  | Select sel => Some (select sel w)
  | Click path => '(p, went) ← Panel.onNodeClick path (panel w); Some (with_panel w p, ran went)
  | Edit k v =>
      let p := panel w in
      let o := (MOM.update (Panel.heap p) (Panel.om p) (OKey k) (VPrim v)).1 in
      Some (with_panel w (Panel.with_om p o), [])
  | Answered i r => a ← flight w !! i; onAnswer a r (with_flight w (delete i (flight w)))
  end.

Definition steps : state -> list event -> option (state * list output) := run step.
Definition create (bound : obj (list field)) : state := mk (Panel.create bound) [] None false [].

End Window.

(** ** The array of a torrent's choices *)

Notation fp := "file_priorities".

(** The files of a torrent with their indexes: what the server sends has each
    index once, from zero on, and every file chosen. *)
Definition file_entry (fe : string * Panel.entry) : option (Z * prim) :=
  match fe.2 with Panel.EFile i _ d => Some (i, d) | Panel.EDir _ _ => None end.
Definition files_of (t : Panel.torrent) : list (Z * prim) :=
  omap file_entry (Panel.walkFileTree (default [] (Panel.files_tree t))).
Definition well_formed (t : Panel.torrent) (n : nat) : Prop :=
  0 < n /\ (files_of t).*1 ≡ₚ seqZ 0 (Z.of_nat n) /\ forall i d, (i, d) ∈ files_of t -> truthy d = true.

Notation assign_file := (fun m '(_, e) => match e with Panel.EFile i _ d => <[i := d]> m | Panel.EDir _ _ => m end).

Lemma assigned_inv l (m : gmap Z prim) i d :
  foldl assign_file m l !! i = Some d -> m !! i = Some d \/ (i, d) ∈ omap file_entry l.
Proof.
  revert m. induction l as [|[f [j s e|s c]] l IH]; intros m; cbn [foldl omap list_omap file_entry snd]; [by left| |apply IH].
  intros [H|H]%IH; [|right; by right].
  destruct (decide (i = j)) as [->|]; [|left; by rewrite lookup_insert_ne in H].
  rewrite lookup_insert_eq in H. right. injection H as ->. by left.
Qed.

Lemma assigned l (m : gmap Z prim) i :
  is_Some (m !! i) \/ i ∈ (omap file_entry l).*1 -> is_Some (foldl assign_file m l !! i).
Proof.
  revert m. induction l as [|[f [j s e|s c]] l IH]; intros m; cbn [foldl omap list_omap file_entry snd]; [| |apply IH].
  - intros [H|H%elem_of_nil]; done.
  - intros H. apply IH. destruct (decide (i = j)) as [->|]; [left; rewrite lookup_insert_eq; eauto|].
    rewrite lookup_insert_ne by done. destruct H as [H|H]; [by left|]. right. set_solver.
Qed.

Lemma foldr_max (l : list Z) n :
  (forall x, x ∈ l -> x <= n)%Z -> n ∈ l -> foldr Z.max (-1)%Z l = Z.max n (-1).
Proof.
  intros Hl Hn. apply Z.le_antisymm.
  - clear Hn. induction l as [|x l IH]; cbn; [lia|]. pose proof (Hl x ltac:(set_solver)).
    pose proof (IH ltac:(set_solver)). lia.
  - clear Hl. induction l as [|x l IH]; cbn; [set_solver|].
    apply elem_of_cons in Hn as [->|Hn]; [|pose proof (IH Hn); lia].
    enough (-1 <= foldr Z.max (-1) l)%Z by lia. clear. induction l; cbn; lia.
Qed.

(** Every file of such a torrent is chosen at first. *)
Lemma all_chosen t n :
  well_formed t n ->
  map val_truthy (Panel.array_of (Panel.file_indexes (default [] (Panel.files_tree t)))) = replicate n true.
Proof.
  intros (Hn & Hp & Hd). set (m := Panel.file_indexes _).
  assert (Hm : forall i, (exists d, m !! i = Some d) <-> (0 <= i < Z.of_nat n)%Z).
  { intros i. transitivity (i ∈ (files_of t).*1); [|rewrite Hp, elem_of_seqZ; lia]. split.
    - intros (d & [H%lookup_empty_Some|H]%assigned_inv); [done|]. apply list_elem_of_fmap. by exists (i, d).
    - intros H. apply assigned. by right. }
  assert (E : foldr Z.max (-1)%Z (map_to_list m).*1 = (Z.of_nat n - 1)%Z).
  { rewrite (foldr_max _ (Z.of_nat n - 1)%Z); [lia|intros x ([? d] & -> & H%elem_of_map_to_list)%list_elem_of_fmap|].
    - pose proof (proj1 (Hm z)) as Hz. cbn. specialize (Hz ltac:(eauto)). lia.
    - destruct (proj2 (Hm (Z.of_nat n - 1)%Z) ltac:(lia)) as [d H].
      apply list_elem_of_fmap. exists (Z.of_nat n - 1, d)%Z. by rewrite elem_of_map_to_list. }
  unfold Panel.array_of. rewrite E, map_map.
  replace (Z.to_nat _) with n by lia.
  apply list_eq. intros i. rewrite list_lookup_fmap.
  destruct (decide (i < n)) as [Hi|Hi].
  - rewrite lookup_seq_lt by done. cbn. rewrite lookup_replicate_2 by done.
    destruct (proj2 (Hm (Z.of_nat i)) ltac:(lia)) as [d H]. rewrite H. cbn. f_equal.
    apply (Hd (Z.of_nat i)). by apply assigned_inv in H as [H%lookup_empty_Some|H].
  - rewrite lookup_seq_ge by lia. cbn. symmetry. apply lookup_replicate_None. lia.
Qed.

(** ** What the panel keeps of the choices *)

(** The torrent shown, and for every torrent the files that are chosen and
    where it was read from. *)
Record spec := mks { shown : option string; chosen : gmap string (list bool); paths : gmap string string }.

Definition stored_array (p : Panel.state) (id : string) : val :=
  vget fp (default [] (oget id (MOM.stored (Panel.om p)))).

Record keeps (s : spec) (p : Panel.state) : Prop := {
  k_edits : forall id, vget fp (default [] (oget id (MOM.changed (Panel.om p)))) = undef;
  k_option : exists l, vget fp (MOM.options (Panel.om p)) = VArr l /\ l ∈ dom (Panel.heap p);
  k_current : MOM.currentId (Panel.om p) = shown s;
  k_stored : forall id, stored_array p id = undef \/
    exists l, stored_array p id = VArr l /\ l ∈ dom (Panel.heap p);
  k_path : forall id, Panel.getFilename id p = paths s !! id;
  k_choice : forall id c, chosen s !! id = Some c -> c <> [] /\ is_Some (paths s !! id) /\
    exists l items, stored_array p id = VArr l /\ Panel.heap p !! l = Some items /\ map val_truthy items = c;
  k_apart : forall id id' l, stored_array p id = VArr l -> stored_array p id' = VArr l -> id = id'
}.

Lemma stored_array_of p : stored_array p (MOM.idkey (Panel.om p)) = MOM.lookup (MOM.stored_of (Panel.om p)) fp.
Proof. done. Qed.

Section panel.
Context (s : spec) (p : Panel.state).
Hypothesis Hk : keeps s p.
Let o (id : option string) : MOM.state := MOM.with_id (Panel.om p) id.

Lemma reads_default h id : MOM.get h (o id) fp = MOM.getDefault h (o id) fp.
Proof.
  apply mom_get_not_dirty. unfold MOM.isDirty. pose proof (k_edits s p Hk (MOM.idkey (o id))) as H.
  unfold MOM.changed_of. change (MOM.changed (o id)) with (MOM.changed (Panel.om p)).
  destruct (oget _ _); [|done]. unfold vget in *. cbn in *. by rewrite H.
Qed.

(** Whatever the torrent, what is read is an array there is. *)
Lemma default_is_array h id : exists l, MOM.getDefault h (o id) fp = VArr l /\ l ∈ dom (Panel.heap p).
Proof.
  unfold MOM.getDefault. destruct (MOM.has h (o id) fp) eqn:E; [|apply (k_option s p Hk)].
  destruct (k_stored s p Hk (MOM.idkey (o id))) as [H|H]; [|exact H].
  unfold MOM.has, MOM.stored_of in E. unfold stored_array in H.
  change (MOM.stored (o id)) with (MOM.stored (Panel.om p)) in E.
  destruct (oget _ _); [|done]. unfold vget in *. cbn in *. by rewrite H in E.
Qed.

(** For a torrent that was added it is its own. *)
Lemma choice_array h id l :
  stored_array p id = VArr l -> arr_items h l <> [] -> MOM.getDefault h (o (Some id)) fp = VArr l.
Proof.
  intros Hl Hi. unfold MOM.getDefault, MOM.has, MOM.stored_of.
  change (MOM.stored (o (Some id))) with (MOM.stored (Panel.om p)). unfold stored_array in Hl.
  change (MOM.idkey (o (Some id))) with id.
  destruct (oget id _) as [c|] eqn:E; [|done]. unfold MOM.lookup. unfold vget in *. cbn in Hl |- *.
  rewrite Hl. cbn. by destruct (arr_items h l).
Qed.

Lemma choice_items id c :
  chosen s !! id = Some c ->
  exists l items, stored_array p id = VArr l /\ Panel.heap p !! l = Some items /\ map val_truthy items = c /\
    items <> [] /\ MOM.getDefault (Panel.heap p) (o (Some id)) fp = VArr l.
Proof.
  intros Hc. destruct (k_choice s p Hk id c Hc) as (Hn & _ & l & items & Hl & Hi & Ht).
  assert (items <> []) by (intros ->; cbn in Ht; congruence).
  exists l, items. repeat split; try done. apply choice_array; [done|].
  unfold arr_items. by rewrite Hi.
Qed.
End panel.

(** What only changes other options, the torrent shown or the nodes. *)
Lemma keeps_other s s' p p' :
  keeps s p -> chosen s' = chosen s -> paths s' = paths s -> Panel.torrents p' = Panel.torrents p ->
  MOM.currentId (Panel.om p') = shown s' ->
  MOM.options (Panel.om p') = MOM.options (Panel.om p) -> MOM.stored (Panel.om p') = MOM.stored (Panel.om p) ->
  (forall id, vget fp (default [] (oget id (MOM.changed (Panel.om p')))) =
              vget fp (default [] (oget id (MOM.changed (Panel.om p))))) ->
  Panel.heap p' = Panel.heap p -> keeps s' p'.
Proof.
  intros [K1 K2 K3 K4 Kp K5 K6] Hc Hp Ht Hi Ho Hs He Hh.
  assert (Hst : forall id, stored_array p' id = stored_array p id) by (intros id; unfold stored_array; by rewrite Hs).
  split; [intros id; by rewrite He|by rewrite Ho, Hh|done|intros id; rewrite Hst, Hh; apply K4| | |].
  - intros id. unfold Panel.getFilename. rewrite Ht, Hp. apply Kp.
  - intros id c. rewrite Hc, Hp, Hst, Hh. apply K5.
  - intros id id' l. rewrite !Hst. apply K6.
Qed.

Lemma clearFiles_rest p : exists r, (Panel.clearFiles p).1 = Panel.with_root p r.
Proof.
  unfold Panel.clearFiles. destruct (_ =? 0); [exists (Panel.root p); by destruct p|].
  destruct (Tree.remove_all _ _ _) as [r went]. by exists r.
Qed.

(** Selecting a torrent shows it, whether the files tab follows or throws. *)
Lemma setTorrent_rest id p :
  id <> "" -> exists r, (Panel.setTorrent id p).1 =
    Panel.mk (Panel.torrents p) (MOM.with_id (Panel.om p) (Some id)) (Panel.heap p) (Some id) r.
Proof.
  intros Hid. unfold Panel.setTorrent. rewrite decide_False by done. cbn [MOM.changeId fst].
  destruct (oget _ _) as [t|]; [|by eexists].
  set (p1 := Panel.mk _ _ _ _ _). destruct (clearFiles_rest p1) as [r Hr].
  destruct (Panel.clearFiles p1) as [p2 went]. cbn in Hr. subst p2.
  destruct went; [|by eexists]. cbn [negb]. destruct (Panel.files_tree t) as [files|]; [|by eexists].
  destruct (Panel.make_nodes _ _ _) as [nodes went]. by eexists.
Qed.

Lemma show_keeps s p id :
  id <> "" -> keeps s p -> keeps (mks (Some id) (chosen s) (paths s)) (Panel.setTorrent id p).1.
Proof.
  intros Hid Hk. destruct (setTorrent_rest id p Hid) as [r ->]. by apply (keeps_other s _ p).
Qed.

(** An option of another name can be edited. *)
Lemma edit_keeps s p k v :
  k <> fp -> v <> PUndef -> keeps s p ->
  keeps s (Panel.with_om p (MOM.update (Panel.heap p) (Panel.om p) (OKey k) (VPrim v)).1).
Proof.
  intros Hk Hv Hs. unfold MOM.update, MOM.over_arg, MOM.over_key. rewrite decide_False by congruence.
  destruct (update1_rest (Panel.heap p) (Panel.om p) k (VPrim v)) as (E1 & E2 & E3 & E4).
  apply (keeps_other s s p); cbn [Panel.om Panel.heap Panel.with_om]; try done.
  - rewrite E3. apply (k_current s p Hs).
  - intros id. by apply E4.
Qed.

Lemma with_current s p : keeps s p -> Panel.om p = MOM.with_id (Panel.om p) (shown s).
Proof. intros Hk. rewrite <- (k_current s p Hk). by destruct (Panel.om p). Qed.

(** A box written into the array of the torrent shown. *)
Lemma array_written s p id c l items' :
  keeps s p -> chosen s !! id = Some c -> stored_array p id = VArr l -> items' <> [] ->
  keeps (mks (shown s) (<[id := map val_truthy items']> (chosen s)) (paths s))
    (Panel.mk (Panel.torrents p) (Panel.om p) (<[l := items']> (Panel.heap p)) (Panel.torrentId p) (Panel.root p)).
Proof.
  intros Hk Hc Hl Hn. destruct Hk as [K1 K2 K3 K4 Kp K5 K6].
  assert (Hd : forall l', l' ∈ dom (Panel.heap p) -> l' ∈ dom (<[l := items']> (Panel.heap p))) by set_solver.
  split; try done; cbn [Panel.om Panel.heap chosen shown].
  - destruct K2 as (l0 & ? & ?). eauto.
  - intros i. destruct (K4 i) as [|(l' & ? & ?)]; eauto.
  - intros i c' Hi. destruct (decide (i = id)) as [->|Hne].
    + rewrite lookup_insert_eq in Hi. injection Hi as <-. split; [by destruct items'|]. split; [by destruct (K5 id c Hc) as (_ & ? & _)|].
      exists l, items'. by rewrite lookup_insert_eq.
    + rewrite lookup_insert_ne in Hi by done. destruct (K5 i c' Hi) as (? & ? & l' & its & H1 & H2 & H3).
      split; [done|]. split; [done|]. exists l', its. split; [done|]. rewrite lookup_insert_ne; [done|].
      intros <-. apply Hne. by apply (K6 i id l).
Qed.

(** *** The boxes *)

Definition in_range (s : spec) (ix : option Z) : Prop :=
  match ix with
  | Some i => exists id c, shown s = Some id /\ chosen s !! id = Some c /\ (0 <= i < Z.of_nat (length c))%Z
  | None => True
  end.
Definition spec_check (b : bool) (s : spec) (ix : option Z) : spec :=
  match ix, shown s with
  | Some i, Some id => mks (shown s) (alter <[Z.to_nat i := b]> id (chosen s)) (paths s)
  | _, _ => s
  end.

(** Giving the array back to the manager is no edit. *)
Lemma given_back s p h :
  keeps s p -> MOM.getDefault h (Panel.om p) fp = MOM.getDefault (Panel.heap p) (Panel.om p) fp ->
  (MOM.update h (Panel.om p) (OKey fp) (MOM.get (Panel.heap p) (Panel.om p) fp)).1 = opened (Panel.om p).
Proof.
  intros Hk Hh. rewrite (with_current s p Hk) in *.
  destruct (default_is_array s p Hk (Panel.heap p) (shown s)) as (l & Hl & _).
  rewrite (reads_default s p Hk), Hl, update_same; [done| |by rewrite Hh, Hl].
  by rewrite (reads_default s p Hk), Hh.
Qed.

Lemma check_one_keeps b s p ix :
  keeps s p -> in_range s ix ->
  let '(p', went) := Panel.check_one (PBool b) p ix in keeps (spec_check b s ix) p' /\ went = true.
Proof.
  intros Hk Hr. unfold Panel.check_one.
  pose proof (with_current s p Hk) as Hw.
  destruct (default_is_array s p Hk (Panel.heap p) (shown s)) as (l & Hl & _).
  rewrite <- Hw in Hl. assert (Hg : MOM.get (Panel.heap p) (Panel.om p) fp = VArr l).
  { rewrite Hw, (reads_default s p Hk), <- Hw. exact Hl. }
  destruct (opened_rest (Panel.om p)) as (O1 & O2 & O3 & O4).
  destruct ix as [i|].
  - destruct Hr as (id & c & Hid & Hc & Hi). rewrite (proj2 (Z.ltb_ge i 0)) by lia. cbn zeta.
    destruct (choice_items s p Hk id c Hc) as (l' & items & Ha & Hh & Ht & Hn & Hd).
    rewrite Hid in Hw. rewrite <- Hw, Hl in Hd. injection Hd as <-. rewrite Hg.
    assert (Hlen : length items = length c) by (by rewrite <- Ht, length_map).
    set (items' := array_assign _ _ _ _). split; [|done].
    assert (Hit : map val_truthy items' = <[Z.to_nat i := b]> c /\ items' <> []).
    { unfold items', arr_items. rewrite Hh. change (default [] (Some items)) with items.
      destruct (array_assign_spec (VPrim PUndef) items (Z.to_nat i) (VPrim (PBool b))) as [A1 A2]; [lia|].
      split; [|intros E; rewrite E in A1; cbn in A1; lia].
      apply list_eq. intros j. rewrite list_lookup_fmap, A2. rewrite <- Ht.
      destruct (decide (j = Z.to_nat i)) as [->|Hj].
      - rewrite list_lookup_insert_eq; [done|]. rewrite length_map. lia.
      - by rewrite list_lookup_insert_ne, list_lookup_fmap. }
    destruct Hit as [Hit Hn'].
    pose proof (array_written s p id c l items' Hk Hc Ha Hn') as Hk'. rewrite Hit in Hk'.
    assert (Hup : (MOM.update (<[l := items']> (Panel.heap p)) (Panel.om p) (OKey fp) (VArr l)).1 = opened (Panel.om p)).
    { rewrite <- Hg. apply (given_back s p); [done|]. rewrite Hl, Hw. apply (choice_array p); [done|].
      unfold arr_items. by rewrite lookup_insert_eq. }
    rewrite Hup. unfold spec_check. rewrite Hid.
    assert (Ec : alter <[Z.to_nat i := b]> id (chosen s) = <[id := <[Z.to_nat i := b]> c]> (chosen s)).
    { apply map_eq. intros j. destruct (decide (j = id)) as [->|].
      - by rewrite lookup_alter_eq, lookup_insert_eq, Hc.
      - by rewrite lookup_alter_ne, lookup_insert_ne. }
    rewrite Ec, <- Hid. eapply keeps_other; [exact Hk'|done|..]; try done.
    + rewrite <- (k_current s p Hk). exact O3.
    + intros j. cbn. by rewrite O4.
  - cbn zeta. rewrite Hg. split; [|done]. rewrite <- Hg, (given_back s p) by done.
    apply (keeps_other s s p); try done.
    + rewrite <- (k_current s p Hk). exact O3.
    + intros j. cbn. by rewrite O4.
Qed.

Lemma checked_keeps b ixs s p :
  keeps s p -> Forall (in_range s) ixs ->
  let '(p', went) := Panel.onFilesChecked (PBool b) ixs p in
  keeps (foldl (spec_check b) s ixs) p' /\ went = true.
Proof.
  revert s p. induction ixs as [|ix ixs IH]; intros s p Hk Hr; [done|]. cbn [Panel.onFilesChecked foldl].
  apply Forall_cons in Hr as [Hr Hrs]. pose proof (check_one_keeps b s p ix Hk Hr) as H.
  destruct (Panel.check_one _ p ix) as [p1 went]. destruct H as [Hk1 ->].
  apply IH; [done|]. eapply Forall_impl; [exact Hrs|]. intros [j|]; [|done].
  intros (id & c & H1 & H2 & H3). unfold in_range, spec_check. destruct ix as [i|]; [|by exists id, c].
  rewrite H1. exists id, (<[Z.to_nat i := b]> c). cbn. by rewrite lookup_alter_eq, H2, length_insert.
Qed.

(** *** A torrent added, and one sent *)

Lemma addTorrent_form s p t :
  keeps s p -> exists l,
    l ∉ dom (Panel.heap p) /\
    Panel.addTorrent t p =
    Panel.mk (oset (Panel.info_hash t) t (Panel.torrents p))
      (MOM.with_stored (Panel.om p)
         (oset (Panel.info_hash t) (oset fp (VArr l) (default [] (oget (Panel.info_hash t) (MOM.stored (Panel.om p)))))
            (MOM.stored (Panel.om p))))
      (<[l := Panel.array_of (Panel.file_indexes (default [] (Panel.files_tree t)))]> (Panel.heap p))
      (Panel.torrentId p) (Panel.root p).
Proof.
  intros Hk. unfold Panel.addTorrent, new_array. set (l := fresh _). exists l.
  assert (Hl : l ∉ dom (Panel.heap p)) by apply is_fresh. split; [done|].
  set (h := <[l := _]> _). cbn [MOM.changeId]. set (o := MOM.with_id _ _).
  destruct (default_is_array s p Hk h (Some (Panel.info_hash t))) as (l0 & Hd & Hin). fold o in Hd.
  assert (Hs : (MOM.setDefault h o (OKey fp) (VArr l)).1 =
    MOM.with_stored o (oset (MOM.idkey o) (oset fp (VArr l) (default [] (MOM.stored_of o))) (MOM.stored o))).
  { unfold MOM.setDefault, MOM.over_arg, MOM.over_key. rewrite decide_False by done.
    unfold MOM.setDefault1. rewrite Hd. unfold OM.convertValueType.
    rewrite decide_True by done. cbn [val_eq]. rewrite bool_decide_false by (intros ->; unfold h in Hin; set_solver). done. }
  destruct (MOM.setDefault h o _ _) as [o' es]. cbn in Hs. subst o'. by destruct (Panel.om p).
Qed.

Lemma add_keeps s p t n :
  keeps s p -> well_formed t n ->
  keeps (mks (shown s) (<[Panel.info_hash t := replicate n true]> (chosen s))
           (<[Panel.info_hash t := Panel.tfilename t]> (paths s))) (Panel.addTorrent t p).
Proof.
  intros Hk Ht. destruct (addTorrent_form s p t Hk) as (l & Hl & ->).
  pose proof (all_chosen t n Ht) as Hall. set (items := Panel.array_of _) in *.
  set (p' := Panel.mk _ _ _ _ _). destruct Hk as [K1 K2 K3 K4 Kp K5 K6].
  assert (Hst : forall i, stored_array p' i = if decide (i = Panel.info_hash t) then VArr l else stored_array p i).
  { intros i. unfold stored_array, p'. cbn. rewrite oget_oset. case_decide; [|done].
    unfold vget. cbn. by rewrite oget_oset_eq. }
  assert (Hd : forall l', l' ∈ dom (Panel.heap p) -> l' ∈ dom (Panel.heap p')) by (cbn; set_solver).
  assert (Hne : forall i, stored_array p i <> VArr l).
  { intros i E. destruct (K4 i) as [Hu|(l' & E' & ?)]; [congruence|]. assert (l = l') by congruence. by subst. }
  split; try done; cbn [chosen shown paths].
  - destruct K2 as (l0 & ? & ?). exists l0. split; [done|by apply Hd].
  - intros i. rewrite Hst. case_decide; [right; exists l; split; [done|cbn; set_solver]|].
    destruct (K4 i) as [|(l' & ? & ?)]; [by left|right; exists l'; split; [done|by apply Hd]].
  - intros i. unfold Panel.getFilename. cbn. rewrite oget_oset. case_decide as Hi.
    + subst i. by rewrite lookup_insert_eq.
    + rewrite lookup_insert_ne by done. apply Kp.
  - intros i c Hc. rewrite Hst. destruct (decide (i = _)) as [->|Hi].
    + rewrite lookup_insert_eq in Hc. injection Hc as <-. destruct Ht as (Hn & _).
      split; [by destruct n; [lia|]|]. split; [rewrite lookup_insert_eq; eauto|]. exists l, items. split; [done|]. cbn. by rewrite lookup_insert_eq.
    + rewrite lookup_insert_ne in Hc by done. destruct (K5 i c Hc) as (? & ? & l' & its & H1 & H2 & H3).
      split; [done|]. split; [by rewrite lookup_insert_ne|]. exists l', its. split; [done|]. cbn. rewrite lookup_insert_ne; [done|].
      intros <-. by apply (Hne i).
  - intros i i' l'. rewrite !Hst. repeat case_decide; naive_solver.
Qed.

(** The choices as they are sent: one and zero. *)
Definition ones (c : list bool) : list val := map (fun b : bool => VPrim (pint (if b then 1 else 0))) c.

Lemma getOptions_keeps s p id c :
  keeps s p -> chosen s !! id = Some c ->
  let '(p', options) := Panel.getOptions (Some id) p in
  keeps s p' /\ (forall i, stored_array p' i = stored_array p i) /\
  exists l, vget fp options = VArr l /\ stored_array p id = VArr l /\ Panel.heap p' = <[l := ones c]> (Panel.heap p).
Proof.
  intros Hk Hc. destruct (choice_items s p Hk id c Hc) as (l & items & Ha & Hh & Ht & Hn & Hd).
  unfold Panel.getOptions. cbn [MOM.changeId].
  assert (Hv : vget fp (MOM.get_all (Panel.heap p) (MOM.with_id (Panel.om p) (Some id))) = VArr l).
  { rewrite get_all_get. rewrite decide_True; [by rewrite (reads_default s p Hk)|].
    destruct (k_option s p Hk) as (l0 & Hl0 & _). apply okeys_elem. cbn [MOM.options MOM.with_id].
    unfold vget in Hl0. destruct (oget fp _); [eauto|done]. }
  rewrite Hv. unfold arr_items. rewrite Hh. change (default [] (Some items)) with items.
  assert (Ho : map (fun v => VPrim (pint (if val_truthy v then 1 else 0))) items = ones c).
  { unfold ones. by rewrite <- Ht, map_map. }
  rewrite Ho. split; [|split; [done|by exists l]].
  assert (Hb : map val_truthy (ones c) = c).
  { unfold ones. rewrite map_map. rewrite <- (map_id c) at 2. apply map_ext. by intros []. }
  assert (Hc' : ones c <> []) by (rewrite <- Ht; by destruct items).
  pose proof (array_written s p id c l (ones c) Hk Hc Ha Hc') as H. rewrite Hb in H.
  apply (keeps_other _ s _ _ H); try done. cbn. by rewrite insert_id. apply (k_current s p Hk).
Qed.

(** *** What the window sends *)

(** What was made of a row: where its torrent was read from, and the choices. *)
Definition sent (s : spec) (h : store) (r : Window.row) (m : string * obj val) : Prop :=
  exists id c, Window.rhash r = Some id /\ chosen s !! id = Some c /\ paths s !! id = Some m.1 /\
    exists l, vget fp m.2 = VArr l /\ arr_items h l = ones c.
Definition known (s : spec) (r : Window.row) : Prop :=
  exists id c, Window.rhash r = Some id /\ chosen s !! id = Some c.

Lemma collect_keeps s rs p :
  keeps s p -> Forall (known s) rs ->
  exists p' msgs, Window.collect rs p = (p', Some msgs) /\ keeps s p' /\
    (forall i, stored_array p' i = stored_array p i) /\
    (forall id c l, chosen s !! id = Some c -> stored_array p id = VArr l ->
       Panel.heap p !! l = Some (ones c) -> Panel.heap p' !! l = Some (ones c)) /\
    Forall2 (sent s (Panel.heap p')) rs msgs.
Proof.
  revert p. induction rs as [|r rs IH]; intros p Hk Hr; [by exists p, []|].
  apply Forall_cons in Hr as [(id & c & Hid & Hc) Hr]. cbn [Window.collect]. rewrite Hid.
  change (default "null" (Some id)) with id. rewrite (k_path s p Hk id).
  destruct (k_choice s p Hk id c Hc) as (_ & [path Hp] & _). rewrite Hp.
  pose proof (getOptions_keeps s p id c Hk Hc) as H.
  destruct (Panel.getOptions (Some id) p) as [p1 options]. destruct H as (Hk1 & Hst & l & Hv & Hl & Hh).
  destruct (IH p1 Hk1 Hr) as (p2 & msgs & E & Hk2 & Hst2 & Hh2 & Hm). rewrite E.
  exists p2, ((path, options) :: msgs). split; [done|]. split; [done|].
  split; [intros i; by rewrite Hst2|].
  assert (Hone : Panel.heap p2 !! l = Some (ones c)).
  { apply (Hh2 id); [done|by rewrite Hst|]. by rewrite Hh, lookup_insert_eq. }
  split.
  - intros id' c' l' Hc' Hl' Hi'. apply (Hh2 id'); [done|by rewrite Hst|]. rewrite Hh.
    destruct (decide (l' = l)) as [->|]; [|by rewrite lookup_insert_ne].
    assert (id' = id) as -> by (by apply (k_apart s p Hk id' id l)).
    rewrite lookup_insert_eq. congruence.
  - constructor; [|done]. exists id, c. do 3 (split; [done|]). exists l. split; [done|].
    unfold arr_items. by rewrite Hone.
Qed.

(** What is done to the panel until the torrents are added. *)
Inductive act := Add (t : Panel.torrent) | Show (id : string) | Check (b : bool) (ixs : list (option Z))
  | Edit (k : string) (v : prim).
Definition doing (p : Panel.state) (e : act) : Panel.state :=
  match e with
  | Add t => Panel.addTorrent t p
  | Show id => (Panel.setTorrent id p).1
  | Check b ixs => (Panel.onFilesChecked (PBool b) ixs p).1
  | Edit k v => Panel.with_om p (MOM.update (Panel.heap p) (Panel.om p) (OKey k) (VPrim v)).1
  end.

(** What it means: every file of a torrent added is chosen, and a box is of the
    torrent shown. *)
Definition spec_doing (s : spec) (e : act) : spec :=
  match e with
  | Add t => mks (shown s) (<[Panel.info_hash t := replicate (length (files_of t)) true]> (chosen s))
               (<[Panel.info_hash t := Panel.tfilename t]> (paths s))
  | Show id => mks (Some id) (chosen s) (paths s)
  | Check b ixs => foldl (spec_check b) s ixs
  | Edit _ _ => s
  end.
Definition valid (s : spec) (e : act) : Prop :=
  match e with
  | Add t => well_formed t (length (files_of t))
  | Show id => id <> ""
  | Check _ ixs => Forall (in_range s) ixs
  | Edit k v => k <> fp /\ v <> PUndef
  end.
Fixpoint valid_all (s : spec) (es : list act) : Prop :=
  match es with [] => True | e :: es' => valid s e /\ valid_all (spec_doing s e) es' end.

Lemma doing_keeps s p e : keeps s p -> valid s e -> keeps (spec_doing s e) (doing p e).
Proof.
  intros Hk. destruct e as [t|id|b ixs|k v]; cbn [valid spec_doing doing].
  - by apply add_keeps.
  - intros Hid. by apply show_keeps.
  - intros Hr. pose proof (checked_keeps b ixs s p Hk Hr) as H.
    destruct (Panel.onFilesChecked _ ixs p). by destruct H.
  - intros [H1 H2]. by apply edit_keeps.
Qed.

Definition fresh_spec : spec := mks None ∅ ∅.
Definition fresh_panel (bound : obj (list field)) (config : obj val) : Panel.state :=
  Panel.onDefaults config (Panel.create bound).

Lemma fresh_keeps bound config : keeps fresh_spec (fresh_panel bound config).
Proof.
  unfold fresh_panel, Panel.onDefaults, new_array, Panel.create. set (l := fresh _).
  split; cbn; try done.
  - exists l. split; [done|]. set_solver.
  - intros id. by left.
Qed.

Lemma doing_all_keeps es s p :
  keeps s p -> valid_all s es -> keeps (foldl spec_doing s es) (foldl doing p es).
Proof.
  revert s p. induction es as [|e es IH]; intros s p Hk Hv; [done|]. destruct Hv as [Hv Hvs].
  cbn [foldl]. apply IH; [by apply doing_keeps|done].
Qed.


(** *** Torrents that are removed, and rows without a torrent *)

Lemma getOptions_default p l b :
  vget fp (MOM.options (Panel.om p)) = VArr l -> MOM.stored (Panel.om p) = [] ->
  vget fp (default [] (oget b (MOM.changed (Panel.om p)))) = undef ->
  let '(p', options) := Panel.getOptions (Some b) p in
  vget fp options = VArr l /\
  Panel.heap p' = <[l := map (fun v => VPrim (pint (if val_truthy v then 1 else 0))) (arr_items (Panel.heap p) l)]> (Panel.heap p).
Proof.
  intros Ho Hs Hc. unfold Panel.getOptions. cbn [MOM.changeId].
  assert (Hv : vget fp (MOM.get_all (Panel.heap p) (MOM.with_id (Panel.om p) (Some b))) = VArr l).
  { rewrite get_all_get. rewrite decide_True by (apply okeys_elem; cbn; unfold vget in Ho; by destruct (oget fp _)).
    rewrite mom_get_not_dirty.
    - unfold MOM.getDefault, MOM.has, MOM.stored_of. cbn. by rewrite Hs.
    - unfold MOM.isDirty, MOM.changed_of. cbn [MOM.changed MOM.with_id MOM.idkey MOM.currentId].
      change (MOM.idkey (MOM.with_id (Panel.om p) (Some b))) with b.
      destruct (oget b _); [|done]. unfold vget in *. cbn in *. by rewrite Hc. }
  by rewrite Hv.
Qed.

(** After a torrent is taken out of the list the others have no
    choices of their own any more: a box set for one of them is written into
    the array all of them read, and sent for every other. *)
Theorem removal_shares_choices p l a b v i :
  vget fp (MOM.options (Panel.om p)) = VArr l -> (Panel.clear p).2 = true -> a <> "" -> (0 <= i)%Z ->
  let '(p', went) := Panel.onFilesChecked (PBool v) [Some i] (Panel.setTorrent a (Panel.clear p).1).1 in
  let '(p'', options) := Panel.getOptions (Some b) p' in
  went = true /\ vget fp options = VArr l /\
  arr_items (Panel.heap p'') l !! Z.to_nat i = Some (VPrim (pint (if v then 1 else 0))).
Proof.
  intros Ho Hc Ha Hi. unfold Panel.clear in *. destruct (clearFiles_rest p) as [r Hr].
  destruct (Panel.clearFiles p) as [p1 went]. cbn in Hr. subst p1. destruct went; [|done]. cbn [fst].
  set (p1 := Panel.with_om _ _). destruct (setTorrent_rest a p1 Ha) as [r' ->].
  cbn [Panel.onFilesChecked]. unfold Panel.check_one.
  rewrite (proj2 (Z.ltb_ge i 0)) by done.
  cbn [Panel.om Panel.heap p1 Panel.with_om]. set (o := MOM.with_id _ _).
  assert (Hd : forall h, MOM.getDefault h o fp = VArr l) by done.
  assert (Hg : forall h, MOM.get h o fp = VArr l) by done.
  rewrite Hg. rewrite update_same by (by rewrite ?Hg, ?Hd). cbn [fst].
  set (p2 := Panel.mk _ _ _ _ _).
  pose proof (getOptions_default p2 l b) as H. destruct (Panel.getOptions (Some b) p2) as [p3 options].
  destruct H as [H1 H2]; [done|done| |].
  - cbn [Panel.om p2]. destruct (opened_rest o) as (_ & _ & _ & ->). done.
  - split; [done|]. split; [done|]. rewrite H2. unfold arr_items at 1. rewrite lookup_insert_eq. cbn.
    rewrite list_lookup_fmap. unfold arr_items at 1. rewrite lookup_insert_eq. cbn.
    rewrite array_assign_at. done.
Qed.

(** A row whose torrent is not known stops everything from being sent. *)
Lemma collect_stops rs p r :
  r ∈ rs -> Window.rhash r = None -> oget "null" (Panel.torrents p) = None ->
  (Window.collect rs p).2 = None.
Proof.
  revert p. induction rs as [|q rs IH]; intros p Hr Hn Hp; [by apply elem_of_nil in Hr|].
  cbn [Window.collect]. destruct (Panel.getFilename _ p) as [path|] eqn:Ef; [|done].
  apply elem_of_cons in Hr as [<-|Hr].
  - rewrite Hn in Ef. unfold Panel.getFilename in Ef. cbn in Ef. by rewrite Hp in Ef.
  - destruct (Panel.getOptions (Window.rhash q) p) as [p1 options] eqn:Eg.
    assert (Panel.torrents p1 = Panel.torrents p) as Ht.
    { unfold Panel.getOptions in Eg. cbn [MOM.changeId] in Eg. by injection Eg as <- _. }
    specialize (IH p1 Hr Hn ltac:(by rewrite Ht)).
    destruct (Window.collect rs p1) as [p2 msgs]. cbn in *. by subst.
Qed.

Lemma add_throws w r :
  r ∈ Window.rows w -> Window.rhash r = None -> oget "null" (Panel.torrents (Window.panel w)) = None ->
  (Window.onAddClick w).2 = [Window.Throw] /\ Window.rows (Window.onAddClick w).1 = Window.rows w.
Proof.
  intros Hr Hn Hp. pose proof (collect_stops _ (Window.panel w) r Hr Hn Hp) as H.
  unfold Window.onAddClick. destruct (Window.collect _ _) as [p sent]. cbn in H. by subst sent.
Qed.

Lemma before_add_rows ids files w :
  let w' := foldl (fun w '(id, f) => Window.onTorrentBeforeAdd id f w) w (zip ids files) in
  Window.rows w' = Window.rows w ++ zip_with (fun id f => Window.mkr id None f) ids files /\
  Window.panel w' = Window.panel w /\ Window.flight w' = Window.flight w.
Proof.
  revert files w. induction ids as [|id ids IH]; intros [|f files] w; cbn -[Window.onTorrentBeforeAdd];
    try by rewrite app_nil_r.
  destruct (IH files (Window.onTorrentBeforeAdd id f w)) as (-> & -> & ->). cbn. by rewrite <- app_assoc.
Qed.

(** When an upload fails its rows stay in the list without their
    torrents, and Add, pressed when the window is shown again, throws: nothing is
    sent, of the other torrents neither. *)
Theorem failed_upload_blocks_adding w r name names w' os :
  oget "null" (Panel.torrents (Window.panel w)) = None ->
  Window.steps w [Window.Files r (name :: names); Window.Answered (length (Window.flight w)) Window.Failed;
                  Window.Show; Window.PressAdd] = Some (w', os) ->
  os = [Window.Called (Window.Upload (imap (fun i _ => r +:+ nat_str (Z.of_nat i)) (name :: names)));
        Window.Alert "Failed to upload torrent"; Window.Called Window.Defaults; Window.Throw] /\
  Window.rows w' = Window.rows w ++
    zip_with (fun id f => Window.mkr id None f) (imap (fun i _ => r +:+ nat_str (Z.of_nat i)) (name :: names)) (name :: names).
Proof.
  intros Hp. unfold Window.steps, run. cbn [foldl mbind option_bind Window.step].
  destruct (existsb _ _); [done|]. unfold Window.onFileSelected, Window.call. set (ids := imap _ _).
  destruct (before_add_rows ids (name :: names) w) as (E1 & E2 & E3). set (w1 := foldl _ w _) in *.
  cbn [mbind option_bind Window.flight Window.with_flight]. rewrite E3.
  rewrite list_lookup_middle by done. cbn [mbind option_bind Window.onAnswer Window.onUploadFailure].
  unfold Window.onShow, Window.call. cbn [mbind option_bind app].
  set (w2 := Window.with_flight _ _).
  assert (Hr : Window.rows w2 = Window.rows w ++ zip_with (fun id f => Window.mkr id None f) ids (name :: names)) by exact E1.
  destruct (add_throws w2 (Window.mkr (r +:+ nat_str 0) None name)) as [A1 A2]; [|done| |].
  - rewrite Hr. apply elem_of_app. right. by left.
  - change (Window.panel w2) with (Window.panel w1). by rewrite E2.
  - destruct (Window.onAddClick w2) as [w3 os3]. cbn in A1, A2 |- *. subst os3. intros [= <- <-].
    split; [done|]. by rewrite A2.
Qed.

(** ** The properties at concrete inputs *)

(** Two torrents of two files each, in a folder. *)
Definition sample_torrent (hash file : string) : Panel.torrent :=
  Panel.mkt hash hash file
    (Some [("dir", Panel.EDir (pint 3) [("one", Panel.EFile 0 (pint 1) (PBool true));
                                         ("two", Panel.EFile 1 (pint 2) (PBool true))])]).
Definition sample_acts : list act :=
  [Add (sample_torrent "aa" "/tmp/a"); Show "aa"; Edit "max_connections" (PStr "7");
   Add (sample_torrent "bb" "/tmp/b"); Check false [Some 1%Z]; Show "bb"; Check false [None; Some 0%Z; Some 1%Z]].
Definition sample_config : obj val := [("max_connections_per_torrent", VPrim (pint 5))].
Definition sample_rows : list Window.row := [Window.mkr "10" (Some "aa") "aa"; Window.mkr "20" (Some "bb") "bb"].
Definition sample_window : Window.state :=
  Window.mk (foldl doing (fresh_panel [] sample_config) sample_acts) sample_rows (Some "20") true [].

Lemma sample_well_formed hash file : well_formed (sample_torrent hash file) 2.
Proof.
  split; [lia|]. split; [reflexivity|]. intros i d Hd. cbn in Hd.
  by apply elem_of_cons in Hd as [[= -> ->]|[[= -> ->]|?%elem_of_nil]%elem_of_cons].
Qed.


(** The first torrent was removed; a box of the second is what a third is sent with. *)
Lemma removal_shares_choices_witness :
  let p := foldl doing (fresh_panel [] sample_config) sample_acts in
  let '(p', went) := Panel.onFilesChecked (PBool true) [Some 1%Z] (Panel.setTorrent "bb" (Panel.clear p).1).1 in
  let '(p'', options) := Panel.getOptions (Some "cc") p' in
  went = true /\ vget fp options = VArr 1%positive /\
  arr_items (Panel.heap p'') 1%positive !! 1 = Some (VPrim (pint 1)).
Proof.
  apply (removal_shares_choices (foldl doing (fresh_panel [] sample_config) sample_acts) 1%positive "bb" "cc" true 1);
    [reflexivity|reflexivity|done|lia].
Defined.

Lemma failed_upload_blocks_adding_witness :
  exists w' os,
    Window.steps sample_window [Window.Files "17" ["a.torrent"]; Window.Answered 0 Window.Failed;
                                Window.Show; Window.PressAdd] = Some (w', os) /\
    os = [Window.Called (Window.Upload ["170"]); Window.Alert "Failed to upload torrent";
          Window.Called Window.Defaults; Window.Throw] /\
    Window.rows w' = sample_rows ++ [Window.mkr "170" None "a.torrent"].
Proof.
  destruct (Window.steps sample_window [Window.Files "17" ["a.torrent"]; Window.Answered 0 Window.Failed;
              Window.Show; Window.PressAdd]) as [[w' os]|] eqn:E; [|by vm_compute in E].
  exists w', os. split; [done|].
  by apply (failed_upload_blocks_adding sample_window "17" "a.torrent" [] w' os).
Defined.
