(* ===== verification/FreeSpace.v ===== *)
(** * The free space line of Deluge.add.OptionsTab

    What is free where a torrent is about to be written: the daemon is asked
    each time the torrent or the folder changes, and an answer about another
    folder than the one asked about last is dropped. *)

From stdpp Require Import base list strings sets.
From Stdlib Require Import Lia ZArith.
From S2P Require Import Prelude JsNum JsString JsValue Formatters.

Local Open Scope nat_scope.

Module Space.

(** [torrentSize], zero before it is known; [pending]; the text and whether it
    is red; the paths of the calls in flight. *)
Record state := mk {
  torrentSize : num; pending : option string; text : string; short : bool; flight : list string
}.
Definition create : state := mk (of_Z 0) None "" false [].

Definition setSpaceText (t : string) (s : bool) (st : state) : state :=
  mk (torrentSize st) (pending st) t s (flight st).

(** [checkFreeSpace], with what the field holds *)
Definition checkFreeSpace (path : string) (st : state) : state :=
  if decide (path = "") then setSpaceText "" false st
  else mk (torrentSize st) (Some path) (text st) (short st) (flight st ++ [path]).

(** [Number(bytes) || 0], and [setTorrentSize] *)
Definition size_of (bytes : prim) : num :=
  let n := to_number bytes in if truthy (PNum n) then n else of_Z 0.
Definition setTorrentSize (bytes : prim) (path : string) (st : state) : state :=
  checkFreeSpace path (mk (size_of bytes) (pending st) (text st) (short st) (flight st)).

Section space.
(** [_], and what the daemon answers about a folder, nothing for a failure. *)
Variable tr : string -> string.
Variable disk : string -> option prim.

(** [showFreeSpace]: the line, and whether it is red. *)
Definition line (size : num) (path : string) (free : num) : string * bool :=
  if negb (num_leb (of_Z 0) free) then ("", false)
  else if negb (truthy (PNum size)) then
    (format (tr "{0} free at {1}") [Fmt.size (PNum free) false; path], false)
  else if num_leb size free then
    (format (tr "{0} needed, {1} free at {2}") [Fmt.size (PNum size) false; Fmt.size (PNum free) false; path], false)
  else
    (format (tr "{0} needed, only {1} free at {2}") [Fmt.size (PNum size) false; Fmt.size (PNum free) false; path], true).
Definition showFreeSpace (path : string) (free : num) (st : state) : state :=
  let '(t, s) := line (torrentSize st) path free in setSpaceText t s st.

(** The answer to a call, or its failure. *)
Definition onFree (path : string) (free : option prim) (st : state) : state :=
  if decide (pending st <> Some path) then st
  else match free with
       | Some f => showFreeSpace path (to_number f) st
       | None => setSpaceText "" false st
       end.

(** What may happen: another torrent is selected, the folder's field is left or
    changed, and a call is answered. *)
Inductive event :=
  | Size (bytes : prim) (path : string) | Check (path : string) | Answered (i : nat).
Definition step (st : state) (e : event) : option (state * list string) :=
  match e with
  | Size bytes path => Some (setTorrentSize bytes path st, [])
  | Check path => Some (checkFreeSpace path st, [])
  | Answered i =>
      path ← flight st !! i;
      Some (onFree path (disk path) (mk (torrentSize st) (pending st) (text st) (short st) (delete i (flight st))), [])
  end.
Definition steps : state -> list event -> option (state * list string) := run step.
End space.

End Space.

Section properties.
Context (tr : string -> string) (disk : string -> option prim).

(** What was asked about last: the size and the folder of the last check. *)
Definition asked (es : list Space.event) : num * string :=
  foldl (fun '(size, path) e => match e with
    | Space.Size bytes p => (Space.size_of bytes, p)
    | Space.Check p => (size, p)
    | Space.Answered _ => (size, path) end) (of_Z 0, "") es.

(** The line for a size and a folder, as the daemon answers for it. *)
Definition line_for (size : num) (path : string) : string * bool :=
  match disk path with Some f => Space.line tr size path (to_number f) | None => ("", false) end.

Definition follows (q : num * string) (st : Space.state) : Prop :=
  Space.torrentSize st = q.1 /\
  (q.2 <> "" -> Space.pending st = Some q.2 /\
    (q.2 ∈ Space.flight st \/ (Space.text st, Space.short st) = line_for q.1 q.2)).

Lemma follows_check size path st :
  Space.torrentSize st = size -> follows (size, path) (Space.checkFreeSpace path st).
Proof.
  intros Hs. unfold follows, Space.checkFreeSpace. case_decide as Hp; cbn; [by split|].
  split; [done|]. intros _. split; [done|]. left. set_solver.
Qed.

Lemma follows_answer q st i path :
  Space.flight st !! i = Some path -> follows q st ->
  follows q (Space.onFree tr path (disk path)
               (Space.mk (Space.torrentSize st) (Space.pending st) (Space.text st) (Space.short st) (delete i (Space.flight st)))).
Proof.
  intros Hi [Hs Hq]. unfold Space.onFree. cbn [Space.pending]. case_decide as Hp.
  - split; [done|]. intros Hne. destruct (Hq Hne) as [Hpe [Hin|Ht]]; (split; [done|]); [left|by right].
      cbn. rewrite (delete_Permutation _ _ _ Hi) in Hin. apply elem_of_cons in Hin as [E|Hin]; [|done].
    rewrite E in Hpe. congruence.
  - split; [|intros Hne; destruct (Hq Hne) as [Hpe _]].
    + destruct (disk path); [unfold Space.showFreeSpace; by destruct (Space.line _ _ _ _)|done].
    + assert (path = q.2) as -> by congruence. unfold line_for, Space.showFreeSpace. rewrite <- Hs.
      destruct (disk q.2) as [f|]; [|by auto]. cbn [Space.torrentSize].
      destruct (Space.line _ _ _ _) as [t b]. cbn. auto.
Qed.

Lemma follows_run es st os st0 q :
  follows q st0 -> Space.steps tr disk st0 es = Some (st, os) ->
  follows (foldl (fun '(size, path) e => match e with
    | Space.Size bytes p => (Space.size_of bytes, p)
    | Space.Check p => (size, p)
    | Space.Answered _ => (size, path) end) q es) st.
Proof.
  revert st0 q os. induction es as [|e es IH]; intros st0 [size path] os Hq Hr.
  - by injection Hr as <- <-.
  - apply (run_app (Space.step tr disk) st0 [e] es) in Hr as (s1 & os1 & os2 & H1 & H2 & _).
    cbn in H1. destruct (Space.step tr disk st0 e) as [[s2 o2]|] eqn:E; [|done]. injection H1 as -> _.
    cbn [foldl]. eapply IH; [|exact H2].
    destruct e as [bytes p|p|i]; cbn [Space.step] in E.
    + injection E as <- _. by apply follows_check.
    + injection E as <- _. apply follows_check. apply Hq.
    + destruct (Space.flight st0 !! i) as [p|] eqn:Ei; [|done]. injection E as <- _.
      by apply follows_answer.
Qed.

(** Once every call is answered, in whatever order the answers came,
    the line is about the torrent and the folder asked about last. *)
Theorem line_settles es st os :
  Space.steps tr disk Space.create es = Some (st, os) ->
  Space.flight st = [] -> (asked es).2 <> "" ->
  (Space.text st, Space.short st) = line_for (asked es).1 (asked es).2.
Proof.
  intros Hr Hf Hne. destruct (follows_run es st os Space.create (of_Z 0, "")) as [_ H]; [by split|done|].
  destruct (H Hne) as [_ [Hin|E]]; [|done]. by rewrite Hf in Hin; apply elem_of_nil in Hin.
Qed.
End properties.

(** ** At concrete inputs *)

Definition sample_disk (path : string) : option prim := Some (if decide (path = "/a") then pint 8192 else pint 2048).

(** A folder that is cleared while its call is out is still shown about. *)
Lemma cleared_folder_shown :
  match Space.steps (fun s => s) sample_disk Space.create [Space.Check "/b"; Space.Check ""; Space.Answered 0] with
  | Some (st, _) => Space.text st = "2.0 KiB free at /b"
  | None => False
  end.
Proof. by vm_compute. Qed.

(** The answers come in the other order than they were asked for. *)
Lemma line_settles_witness :
  match Space.steps (fun s => s) sample_disk Space.create
          [Space.Size (pint 4096) "/a"; Space.Check "/b"; Space.Answered 1; Space.Answered 0] with
  | Some (st, _) => (Space.text st, Space.short st) = ("4.0 KiB needed, only 2.0 KiB free at /b", true)
  | None => False
  end.
Proof.
  set (es := [Space.Size (pint 4096) "/a"; Space.Check "/b"; Space.Answered 1; Space.Answered 0]).
  destruct (Space.steps (fun s => s) sample_disk Space.create es) as [[st os]|] eqn:E; [|by vm_compute in E].
  rewrite (line_settles (fun s => s) sample_disk es st os E); [by vm_compute| |done].
  by vm_compute in E; injection E as <- _.
Defined.
