(* ===== verification/DaemonConfig.v ===== *)
(** * The daemon's configuration

    How what the interface sends is written down ([Ext.util.JSON]), and what the
    daemon does with the settings that come: [Config] is [config.rs] of the
    daemon, with [core.set_config] over it. *)

From stdpp Require Import base list strings gmap.
From Stdlib Require Import Lia ZArith.
From S2P Require Import Prelude JsNum JsString JsValue ExtCore Settings.

Local Open Scope nat_scope.

Module Wire.
Section wire.

(** What an object that is not an array is written as *)
Context (object : loc -> Json.json).

(** [doEncode] and [encodeArray]: a number that is not finite is null, and what
    is undefined is left out of an array. *)
Fixpoint encode (fuel : nat) (h : store) (v : val) : Json.json :=
  match v with
  | VPrim PUndef => Json.JPrim PNull
  | VPrim (PNum n) => if is_finite n then jnum n else Json.JPrim PNull
  | VPrim p => Json.JPrim p
  | VObj l => object l
  | VArr l =>
      match fuel with
      | O => Json.JPrim PNull
      | S fuel' => Json.JArr (map (encode fuel' h) (filter (fun w => w <> VPrim PUndef) (arr_items h l)))
      end
  end.

(** The members of an object, those that are undefined left out; an array nests
    no deeper than there are arrays. *)
Definition members (h : store) (o : obj val) : Json.dict :=
  omap (fun kv => if decide (kv.2 = VPrim PUndef) then None else Some (kv.1, encode (S (size h)) h kv.2)) o.

End wire.
End Wire.

Module Config.

(** [type_name] of a value, and [Config::set]: a value of another type than the
    one there is refused. *)
Definition type_name (v : Json.json) : string :=
  match v with
  | Json.JPrim (PUndef | PNull) => "null"
  | Json.JPrim (PBool _) => "bool"
  | Json.JPrim (PNum _) => "number"
  | Json.JPrim (PStr _) => "string"
  | Json.JArr _ => "list"
  | Json.JObj _ => "dict"
  end.
Definition compatible (current value : Json.json) : bool :=
  bool_decide (type_name current = type_name value) || bool_decide (type_name current = "null") || bool_decide (type_name value = "null").
Definition set (key : string) (value : Json.json) (config : Json.dict) : Json.dict :=
  match oget key config with
  | Some current => if compatible current value then oset key value config else config
  | None => config
  end.

(** [core.set_config]: a key that is refused does not lose the others, and is
    answered all the same. *)
Definition set_config (changes : Json.dict) (config : Json.dict) : Json.dict := foldl (fun c kv => set kv.1 kv.2 c) config changes.

(** [as_i64] and [as_array] of a value, and [boolean] and [integer] of a key *)
Definition as_i64 (v : Json.json) : option Z :=
  z ← match v with
      | Json.JPrim (PNum (SpecFloat.S754_finite s m e as n)) =>
          if (0 <=? e)%Z then Some (signed s m * 2 ^ e)%Z else num_int n
      | Json.JPrim (PNum n) => num_int n
      | _ => None
      end;
  if ((- 2 ^ 63 <=? z) && (z <? 2 ^ 63))%Z then Some z else None.
Definition as_array (v : Json.json) : option (list Json.json) := match v with Json.JArr l => Some l | _ => None end.
Definition boolean (key : string) (config : Json.dict) : option bool :=
  match oget key config with Some (jbool b) => Some b | _ => None end.
Definition integer (key : string) (config : Json.dict) : option Z := v ← oget key config; as_i64 v.

End Config.

(** ** One key of what is set *)

Lemma config_set_get k k' v c :
  oget k (Config.set k' v c) =
  if decide (k = k') then (fun cur => if Config.compatible cur v then v else cur) <$> oget k c else oget k c.
Proof.
  unfold Config.set. destruct (oget k' c) as [cur|] eqn:E.
  - destruct (Config.compatible cur v) eqn:Ec.
    + rewrite oget_oset. case_decide as Hk; [subst; by rewrite E; cbn; rewrite Ec|done].
    + case_decide as Hk; [subst; by rewrite E; cbn; rewrite Ec|done].
  - case_decide as Hk; [subst; by rewrite E|done].
Qed.

Lemma set_config_get k changes c :
  obj_ok changes ->
  oget k (Config.set_config changes c) =
  match oget k changes with
  | Some v => (fun cur => if Config.compatible cur v then v else cur) <$> oget k c
  | None => oget k c
  end.
Proof.
  unfold Config.set_config. revert c. induction changes as [|[k' v] changes IH]; intros c Hok; [done|].
  unfold obj_ok in Hok. cbn in Hok. apply NoDup_cons in Hok as [Hn Hok]. cbn [foldl fst snd oget]. rewrite IH by done. rewrite config_set_get.
  case_decide as Hk.
  - subst k'. destruct (oget k changes) eqn:E; [|done]. exfalso. apply Hn. apply oget_is_Some. eauto.
  - done.
Qed.

Lemma members_keys object h o : (Wire.members object h o).*1 ⊆ o.*1.
Proof.
  induction o as [|[k v] o IH]; [done|]. unfold Wire.members. cbn [omap list_omap fst snd]. case_decide; cbn; set_solver.
Qed.

Lemma members_ok object h o : obj_ok o -> obj_ok (Wire.members object h o).
Proof.
  unfold obj_ok. induction o as [|[k v] o IH]; [done|]. cbn. intros [Hn Ho]%NoDup_cons.
  unfold Wire.members. cbn [omap list_omap fst snd]. case_decide; [by apply IH|].
  cbn. apply NoDup_cons. split; [|by apply IH]. intros Hk. apply Hn. by apply (members_keys object h o).
Qed.

Lemma members_get object h o k :
  obj_ok o ->
  oget k (Wire.members object h o) =
  v ← oget k o; if decide (v = VPrim PUndef) then None else Some (Wire.encode object (S (size h)) h v).
Proof.
  unfold obj_ok. induction o as [|[k' v] o IH]; [done|]. cbn. intros [Hn Ho]%NoDup_cons. specialize (IH Ho).
  unfold Wire.members. cbn [omap list_omap fst snd]. fold (Wire.members object h o).
  destruct (decide (k = k')) as [->|Hk]; cbn [mbind option_bind].
  - destruct (decide (v = VPrim PUndef)).
    + destruct (oget k' (Wire.members object h o)) eqn:E; [|done]. exfalso. apply Hn, (members_keys object h o), oget_is_Some. eauto.
    + cbn [oget]. by rewrite decide_True.
  - destruct (decide (v = VPrim PUndef)); [done|]. cbn [oget]. by rewrite decide_False.
Qed.

Lemma as_i64_of_Z z : (Z.abs z < 2 ^ 52)%Z -> Config.as_i64 (jint z) = Some z.
Proof.
  intros Hz. pose proof (num_int_of_Z z Hz) as Hn. unfold Config.as_i64.
  destruct (of_Z z) as [| | |s m e] eqn:E; try (cbn in Hn; congruence).
  - rewrite Hn. cbn [mbind option_bind]. by rewrite (proj2 (Z.leb_le _ _)), (proj2 (Z.ltb_lt _ _)) by lia.
  - assert (He : (0 <=? e)%Z = false) by (unfold num_int in Hn; by destruct (0 <=? e)%Z).
    rewrite He, Hn. cbn [mbind option_bind]. by rewrite (proj2 (Z.leb_le _ _)), (proj2 (Z.ltb_lt _ _)) by lia.
Qed.
