(* ===== verification/Preferences.v ===== *)
(** * Deluge.preferences.PreferencesWindow

    The window over the daemon's configuration: what is edited on its pages is
    kept by one options manager, sent when Apply or OK is pressed and committed
    when the daemon has taken it.  Some pages have settings of their own, which
    they send themselves.  [Daemon] is the port the daemon listens on with what
    it was sent. *)

From stdpp Require Import base list strings gmap.
From Stdlib Require Import Lia ZArith.
From S2P Require Import Prelude JsNum JsString JsValue ExtCore Fields Settings DaemonConfig OptionsManager.

Local Open Scope nat_scope.

Module Window.

(** A page: its title, and whether it has handlers of its own for the two
    buttons. *)
Record page := mkp { title : string; onApplyHandler : bool; onOkHandler : bool }.

(** [initPages] *)
Definition pages : list page :=
  [mkp "Downloads" true false; mkp "Network" false false; mkp "Bandwidth" false false; mkp "Interface" true true;
   mkp "Other" true false; mkp "Daemon" false false; mkp "Queue" true false; mkp "Proxy" false false;
   mkp "Identity" false false; mkp "Labels" false false; mkp "Watched Folders" true true; mkp "Feeds" true true;
   mkp "Block List" true true; mkp "Schedule" true true; mkp "Notifications" true true].

Inductive ask := GetConfig | SetConfig.

(** The options manager with the arrays there are, whether the window is shown,
    and the calls in flight. *)
Record state := mk { om : OM.state; heap : store; visible : bool; flight : list ask }.

(** What is sent is encoded with the arrays there are then. *)
Inductive output :=
  | Called (a : ask) | Sent (changed : obj val) (h : store) | PageApply (title : string) | PageOk (title : string)
  | Field (e : effect).

Definition create (o : OM.state) : state := mk o ∅ false [].

(** The port is shown as one number and sent as a pair: the object [getDirty]
    answers, which is the manager's own, is written into. *)
Definition doubled (changed : obj val) (h : store) : obj val * store :=
  match oget "listen_ports" changed with
  | Some v => let '(l, h) := new_array [v; v] h in (oset "listen_ports" (VArr l) changed, h)
  | None => (changed, h)
  end.

(** What both buttons send. *)
Definition send (w : state) : state * list output :=
  (mk (om w) (heap w) (visible w) (flight w ++ [SetConfig]), [Called SetConfig; Sent (OM.getDirty (om w)) (heap w)]).

(** [onApply] *)
Definition onApply (w : state) : state * list output :=
  let '(w, os) :=
    if Ext.isObjectEmpty (OM.getDirty (om w)) then (w, [])
    else let '(changed, h) := doubled (OM.getDirty (om w)) (heap w) in
         send (mk (OM.with_changed (om w) changed) h (visible w) (flight w)) in
  (w, os ++ map (fun p => PageApply (title p)) (List.filter onApplyHandler pages)).

(** [onOk] *)
Definition hide (w : state) : state := mk (om w) (heap w) false (flight w).
Definition onOk (w : state) : state * list output :=
  let '(w, os) := if Ext.isObjectEmpty (OM.getDirty (om w)) then (w, []) else send w in
  (hide w, os ++ map (fun p => PageOk (title p)) (List.filter onOkHandler pages)).

(** [onClose], [onShow], [onGotConfig] and [onSetConfig]; an answer brings its
    arrays. *)
Definition onClose : state -> state := hide.
Definition onShow (connected : bool) (w : state) : state * list output :=
  let w := mk (om w) (heap w) true (flight w) in
  if connected then (mk (om w) (heap w) true (flight w ++ [GetConfig]), [Called GetConfig]) else (w, []).
Definition onGotConfig (config : obj val) (arrays : store) (w : state) : state * list output :=
  let '(o, es) := OM.set (om w) (OObj config) undef in
  (mk o (arrays ∪ heap w) (visible w) (flight w), map Field es).
Definition onSetConfig (w : state) : state := mk (OM.commit (om w)) (heap w) (visible w) (flight w).

(** A field of a page that is edited. *)
Definition edit (k : string) (v : val) (w : state) : state * list output :=
  let '(o, es) := OM.update (heap w) (om w) (OKey k) v in
  (mk o (heap w) (visible w) (flight w), map Field es).

Inductive answer := Config (config : obj val) (arrays : store) | Done.
Inductive event :=
  | Show (connected : bool) | Close | Apply | Ok | Edit (k : string) (v : val)
  | Answered (i : nat) (r : answer) | Lost (i : nat).

Definition onAnswer (a : ask) (r : answer) (w : state) : option (state * list output) :=
  match a, r with
  | GetConfig, Config c arrays => Some (onGotConfig c arrays w)
  | SetConfig, Done => Some (onSetConfig w, [])
  | _, _ => None
  end.
Definition step (w : state) (e : event) : option (state * list output) :=
  match e with
  | Show c => Some (onShow c w)
  | Close => Some (onClose w, [])
  | Apply => Some (onApply w)
  | Ok => Some (onOk w)
  | Edit k v => Some (edit k v w)
  | Answered i r => a ← flight w !! i; onAnswer a r (mk (om w) (heap w) (visible w) (delete i (flight w)))
  | Lost i => a ← flight w !! i; Some (mk (om w) (heap w) (visible w) (delete i (flight w)), [])
  end.
Definition steps : state -> list event -> option (state * list output) := run step.

(** The messages among what was done. *)
Definition sent (os : list output) : list (obj val * store) :=
  omap (fun o => match o with Sent c h => Some (c, h) | _ => None end) os.

End Window.

Module Daemon.

(** [listen_interfaces]: the port the daemon listens on: one of its own choosing,
    written as zero, or [listen_random_port], unless [random_port] is off; then
    the first of the list [listen_ports], if it is an integer, and otherwise
    6881. *)
Definition fixed_port (config : Json.dict) : Z :=
  default 6881%Z (v ← oget "listen_ports" config; ports ← Config.as_array v; port ← head ports; Config.as_i64 port).
Definition listen_port (config : Json.dict) : Z :=
  if default true (Config.boolean "random_port" config) then default 0%Z (Config.integer "listen_random_port" config)
  else fixed_port config.

(** The configuration once what a button sent was taken *)
Definition takes (object : loc -> Json.json) (sent : obj val * store) (config : Json.dict) : Json.dict :=
  Config.set_config (Wire.members object sent.2 sent.1) config.

End Daemon.

(** ** What the buttons send *)

Lemma dirty_sent w :
  Ext.isObjectEmpty (OM.getDirty (Window.om w)) = false ->
  Window.sent (Window.onOk w).2 = [(OM.getDirty (Window.om w), Window.heap w)] /\
  let '(changed, h) := Window.doubled (OM.getDirty (Window.om w)) (Window.heap w) in
  Window.sent (Window.onApply w).2 = [(changed, h)] /\
  (Window.onApply w).1 = Window.mk (OM.with_changed (Window.om w) changed) h (Window.visible w)
                           (Window.flight w ++ [Window.SetConfig]).
Proof.
  intros Hd. unfold Window.onOk, Window.onApply. rewrite Hd.
  destruct (Window.doubled _ _) as [changed h]. done.
Qed.

Lemma key_not_empty {A} (o : obj A) k v : oget k o = Some v -> Ext.isObjectEmpty o = false.
Proof.
  intros Ho. assert (Hk : k ∈ okeys o) by (apply okeys_elem; eauto).
  unfold Ext.isObjectEmpty. destruct (okeys o); [by apply elem_of_nil in Hk|done].
Qed.

(** What the daemon has for the list of ports once they were sent as a number or
    as a list. *)
Lemma ports_taken object c h config cur v :
  obj_ok c -> oget "listen_ports" c = Some v -> v <> VPrim PUndef -> oget "listen_ports" config = Some (Json.JArr cur) ->
  oget "listen_ports" (Daemon.takes object (c, h) config) =
  Some (if Config.compatible (Json.JArr cur) (Wire.encode object (S (size h)) h v) then Wire.encode object (S (size h)) h v
        else Json.JArr cur).
Proof.
  intros Hc Hv Hu Hcur. unfold Daemon.takes. cbn [fst snd]. rewrite set_config_get by by apply members_ok.
  rewrite members_get, Hv by done. cbn [mbind option_bind]. rewrite decide_False by done. by rewrite Hcur.
Qed.

(** A pair of the same is encoded as such. *)
Lemma encode_pair object n h l v :
  h !! l = Some [v; v] -> v <> VPrim PUndef ->
  Wire.encode object (S n) h (VArr l) = Json.JArr [Wire.encode object n h v; Wire.encode object n h v].
Proof. intros Hl Hv. cbn [Wire.encode]. unfold arr_items. rewrite Hl. cbn [default from_option id]. by rewrite !filter_cons_True, filter_nil. Qed.

Lemma encode_port object n h p : (0 <= p < 2 ^ 16)%Z -> Wire.encode object n h (VPrim (pint p)) = jint p.
Proof. intros Hp. destruct n; cbn [Wire.encode]; by rewrite is_finite_of_Z by (unfold safe; lia). Qed.

Lemma new_array_get (items : list val) (h : store) :
  (new_array items h).2 !! (new_array items h).1 = Some items /\
  (forall l, l ∈ dom h -> (new_array items h).2 !! l = h !! l) /\
  size (new_array items h).2 = S (size h).
Proof.
  unfold new_array. set (l := fresh (dom h)). pose proof (is_fresh (dom h)) as Hf. fold l in Hf. cbn [fst snd].
  split; [by rewrite lookup_insert_eq|]. split.
  - intros l' Hl'. rewrite lookup_insert_ne; [done|]. by intros <-.
  - apply map_size_insert_None. by apply not_elem_of_dom.
Qed.

(** Claim C35.  A port that is edited and sent by one Apply is the one the daemon has
    for its fixed port.  Confirmed with OK it is sent as a bare number, which the
    daemon refuses for a list: it keeps the ports it had.  With a second Apply
    before the first is committed it is sent as a pair of pairs, which the daemon
    takes, and has 6881 for its fixed port.  The fixed port is the one it listens
    on unless [random_port] is on. *)
Theorem ok_loses_the_port object w p config cur :
  oget "listen_ports" (OM.getDirty (Window.om w)) = Some (VPrim (pint p)) -> (0 <= p < 2 ^ 16)%Z ->
  obj_ok (OM.getDirty (Window.om w)) -> oget "listen_ports" config = Some (Json.JArr cur) ->
  (exists m, Window.sent (Window.onApply w).2 = [m] /\ Daemon.fixed_port (Daemon.takes object m config) = p) /\
  (exists m, Window.sent (Window.onOk w).2 = [m] /\
     oget "listen_ports" (Daemon.takes object m config) = oget "listen_ports" config /\
     Daemon.fixed_port (Daemon.takes object m config) = Daemon.fixed_port config) /\
  (exists m, Window.sent (Window.onApply (Window.onApply w).1).2 = [m] /\
     Daemon.fixed_port (Daemon.takes object m config) = 6881%Z) /\
  (forall c, Config.boolean "random_port" c = Some false -> Daemon.listen_port c = Daemon.fixed_port c).
Proof.
  intros Hp Hr Hok Hcur. pose proof (dirty_sent w (key_not_empty _ _ _ Hp)) as [Hsent Ha].
  unfold Window.doubled in Ha. rewrite Hp in Ha.
  destruct (new_array_get [VPrim (pint p); VPrim (pint p)] (Window.heap w)) as (H1 & _ & _).
  destruct (new_array [VPrim (pint p); VPrim (pint p)] (Window.heap w)) as [l h]. cbn [fst snd] in H1. destruct Ha as [Ha1 Ha2].
  set (c := oset "listen_ports" (VArr l) _) in *.
  assert (Hc : oget "listen_ports" c = Some (VArr l)) by apply oget_oset_eq.
  assert (Hcok : obj_ok c) by by apply oset_ok.
  split_and!.
  - exists (c, h). split; [done|]. unfold Daemon.fixed_port. rewrite (ports_taken object c h config cur (VArr l)) by done.
    rewrite (encode_pair object (size h) h l (VPrim (pint p))), encode_port by done.
    cbn -[Config.as_i64 of_Z]. change (default 6881%Z (Config.as_i64 (jint p)) = p). by rewrite as_i64_of_Z by lia.
  - eexists. split; [exact Hsent|].
    assert (E : oget "listen_ports" (Daemon.takes object (OM.getDirty (Window.om w), Window.heap w) config) = oget "listen_ports" config).
    { rewrite (ports_taken object _ _ config cur (VPrim (pint p))) by done. by rewrite encode_port, Hcur. }
    split; [exact E|]. unfold Daemon.fixed_port. by rewrite E.
  - rewrite Ha2. set (w1 := Window.mk _ _ _ _).
    assert (Hp1 : oget "listen_ports" (OM.getDirty (Window.om w1)) = Some (VArr l)) by exact Hc.
    pose proof (dirty_sent w1 (key_not_empty _ _ _ Hp1)) as [_ Hb].
    unfold Window.doubled in Hb. rewrite Hp1 in Hb.
    destruct (new_array_get [VArr l; VArr l] (Window.heap w1)) as (G1 & G2 & G3).
    destruct (new_array [VArr l; VArr l] (Window.heap w1)) as [l2 h2]. cbn [fst snd] in G1, G2, G3. destruct Hb as [Hb _].
    eexists. split; [exact Hb|]. unfold Daemon.fixed_port.
    rewrite (ports_taken object _ h2 config cur (VArr l2)); [|by apply oset_ok|apply oget_oset_eq|done|done].
    rewrite (encode_pair object (size h2) h2 l2 (VArr l)), G3 by done.
    rewrite (encode_pair object (size (Window.heap w1)) h2 l (VPrim (pint p))); [done| |done].
    rewrite G2; [exact H1|]. apply elem_of_dom. by exists [VPrim (pint p); VPrim (pint p)].
  - intros c' Hf. unfold Daemon.listen_port. by rewrite Hf.
Qed.

(** What Apply leaves of the manager. *)
Lemma applied w :
  Ext.isObjectEmpty (OM.getDirty (Window.om w)) = false ->
  exists c h, Window.sent (Window.onApply w).2 = [(c, h)] /\
    (Window.onApply w).1 = Window.mk (OM.with_changed (Window.om w) c) h (Window.visible w)
                             (Window.flight w ++ [Window.SetConfig]) /\
    (forall k, k <> "listen_ports" -> oget k c = oget k (OM.getDirty (Window.om w))) /\
    (obj_ok (OM.getDirty (Window.om w)) -> obj_ok c).
Proof.
  intros Hd. pose proof (dirty_sent w Hd) as [_ H]. unfold Window.doubled, new_array in H.
  destruct (oget "listen_ports" _) as [v|]; destruct H as [H1 H2]; eexists _, _; split; [exact H1| |exact H1|];
    (split; [exact H2|]); [|done].
  split; [intros k Hk; by apply oget_oset_ne|intros Hok; by apply oset_ok].
Qed.

Lemma onApply_clean w : OM.getDirty (Window.om w) = [] ->
  (Window.onApply w).1 = w /\ Window.sent (Window.onApply w).2 = [].
Proof. intros Hd. unfold Window.onApply. rewrite Hd. done. Qed.

Lemma sent_app os os' : Window.sent (os ++ os') = Window.sent os ++ Window.sent os'.
Proof. apply omap_app. Qed.

Lemma sent_fields es : Window.sent (map Window.Field es) = [].
Proof. induction es; done. Qed.

(** Apply, then the daemon's answer. *)
Lemma committed w c h : Window.om w = OM.with_changed (Window.om w) c -> obj_ok c ->
  forall k, OM.get h (OM.commit (Window.om w)) k =
    match oget k c with Some v => v | None => vget k (OM.options (Window.om w)) end.
Proof.
  intros Hw Hc k. rewrite Hw. by destruct (commit_spec h (OM.with_changed (Window.om w) c) k Hc).
Qed.

(** Claim C18.  When nothing is edited meanwhile, what Apply sends is what the
    options read once the daemon has taken it, and nothing is left to be sent. *)
Theorem apply_saves w w' os :
  Ext.isObjectEmpty (OM.getDirty (Window.om w)) = false -> obj_ok (OM.getDirty (Window.om w)) ->
  Window.steps w [Window.Apply; Window.Answered (length (Window.flight w)) Window.Done; Window.Apply] = Some (w', os) ->
  exists c h, Window.sent os = [(c, h)] /\ OM.getDirty (Window.om w') = [] /\
    forall k, OM.get (Window.heap w') (Window.om w') k =
      match oget k c with Some v => v | None => vget k (OM.options (Window.om w)) end.
Proof.
  intros Hd Hok. destruct (applied w Hd) as (c & h & Hs & Hw & _ & Hc).
  unfold Window.steps, run. cbn [foldl mbind option_bind Window.step].
  destruct (Window.onApply w) as [w1 os1]. cbn [fst snd] in Hs, Hw. subst w1. cbn [mbind option_bind Window.flight].
  rewrite list_lookup_middle by done. cbn [mbind option_bind Window.onAnswer].
  set (w2 := Window.onSetConfig _). destruct (onApply_clean w2 ltac:(done)) as [E1 E2].
  destruct (Window.onApply w2) as [w3 os3]. cbn [fst snd] in E1, E2. subst w3. cbn [mbind option_bind app]. intros [= <- <-].
  exists c, h. rewrite !sent_app, Hs, E2. split; [done|]. split; [done|]. intros k.
  by destruct (commit_spec h (OM.with_changed (Window.om w) c) k (Hc Hok)).
Qed.

(** An option edited while the daemon's answer to Apply is awaited is
    committed with the others though it was not sent: it reads as edited, is not
    sent by the next Apply either, and the daemon keeps the old value. *)
Theorem edit_while_applying_lost w k v w' os :
  Ext.isObjectEmpty (OM.getDirty (Window.om w)) = false -> obj_ok (OM.getDirty (Window.om w)) ->
  oget k (OM.getDirty (Window.om w)) = None -> k <> "listen_ports" -> v <> undef ->
  let h := Window.heap (Window.onApply w).1 in
  let cv := OM.convertValueType h (vget k (OM.options (Window.om w))) v in
  val_eq h (vget k (OM.options (Window.om w))) cv = false ->
  Window.steps w [Window.Apply; Window.Edit k v; Window.Answered (length (Window.flight w)) Window.Done; Window.Apply]
    = Some (w', os) ->
  (exists c h', Window.sent os = [(c, h')] /\ oget k c = None) /\
  OM.getDirty (Window.om w') = [] /\ OM.get (Window.heap w') (Window.om w') k = cv.
Proof.
  intros Hd Hok Hk Hl Hv. destruct (applied w Hd) as (c & h & Hs & Hw & Hck & Hc).
  cbn zeta. rewrite Hw. cbn [Window.heap]. set (cv := OM.convertValueType _ _ _). intros He.
  unfold Window.steps, run. cbn [foldl mbind option_bind Window.step].
  destruct (Window.onApply w) as [w1 os1]. cbn [fst snd] in Hs, Hw. subst w1. cbn [mbind option_bind].
  set (o1 := OM.with_changed (Window.om w) c).
  assert (Hc0 : oget k c = None) by (by rewrite Hck).
  assert (Hu : (OM.update h o1 (OKey k) v).1 = OM.with_changed o1 (oset k cv c)).
  { unfold OM.update, OM.update_key. rewrite decide_False by done. unfold OM.update1.
    assert (Hg : OM.get h o1 k = vget k (OM.options (Window.om w))).
    { unfold OM.get, OM.isDirty, vget. cbn [OM.changed o1 OM.with_changed]. by rewrite Hc0. }
    rewrite Hg. change (OM.getDefault o1 k) with (vget k (OM.options (Window.om w))). fold cv. by rewrite He. }
  unfold Window.edit. cbn [Window.heap Window.om]. fold o1.
  destruct (OM.update h o1 (OKey k) v) as [o2 es]. cbn in Hu. subst o2.
  cbn [mbind option_bind Window.flight]. rewrite list_lookup_middle by done.
  cbn [mbind option_bind Window.onAnswer].
  set (w2 := Window.onSetConfig _). destruct (onApply_clean w2 ltac:(done)) as [E1 E2].
  destruct (Window.onApply w2) as [w3 os3]. cbn [fst snd] in E1, E2. subst w3. cbn [mbind option_bind app]. intros [= <- <-].
  split; [|split; [done|]].
  - exists c, h. by rewrite !sent_app, Hs, E2, sent_fields.
  - destruct (commit_spec h (OM.with_changed o1 (oset k cv c)) k) as [_ E]; [by apply oset_ok, Hc|].
    cbn [OM.changed OM.with_changed] in E. rewrite oget_oset_eq in E. exact E.
Qed.

(** The pages whose own settings Apply sends and OK does not. *)
Lemma ok_skips_pages :
  map Window.title (List.filter (fun p => Window.onApplyHandler p && negb (Window.onOkHandler p)) Window.pages) =
  ["Downloads"; "Other"; "Queue"].
Proof. reflexivity. Qed.

(** ** At concrete inputs *)

Definition sample_options : OM.state :=
  OM.create (Some [("listen_ports", VArr 1%positive); ("max_connections_global", VPrim (pint 200))]).
Definition sample_prefs : Window.state :=
  Window.mk (OM.with_changed sample_options [("listen_ports", VPrim (pint 7000))])
    {[ 1%positive := [VPrim (pint 6881); VPrim (pint 6891)] ]} true [].

Definition sample_config : Json.dict :=
  [("listen_ports", Json.JArr [jint 6900; jint 6910]); ("random_port", jbool false); ("max_connections_global", jint 200)].

Lemma ok_loses_the_port_witness :
  (exists m, Window.sent (Window.onApply sample_prefs).2 = [m] /\
     Daemon.fixed_port (Daemon.takes (fun _ => Json.undef) m sample_config) = 7000%Z) /\
  (exists m, Window.sent (Window.onOk sample_prefs).2 = [m] /\
     Daemon.fixed_port (Daemon.takes (fun _ => Json.undef) m sample_config) = 6900%Z) /\
  (exists m, Window.sent (Window.onApply (Window.onApply sample_prefs).1).2 = [m] /\
     Daemon.fixed_port (Daemon.takes (fun _ => Json.undef) m sample_config) = 6881%Z) /\
  Daemon.listen_port sample_config = 6900%Z.
Proof.
  destruct (ok_loses_the_port (fun _ => Json.undef) sample_prefs 7000 sample_config [jint 6900; jint 6910]) as (H1 & (m & E & _ & H2) & H3 & H4);
    [reflexivity|lia|by vm_compute; repeat constructor; set_solver|reflexivity|].
  split; [exact H1|]. split; [by exists m|]. split; [exact H3|]. by rewrite H4.
Defined.

Lemma apply_saves_witness :
  exists w' os c h,
    Window.steps sample_prefs [Window.Apply; Window.Answered 0 Window.Done; Window.Apply] = Some (w', os) /\
    Window.sent os = [(c, h)] /\ OM.getDirty (Window.om w') = [] /\
    OM.get (Window.heap w') (Window.om w') "max_connections_global" = VPrim (pint 200).
Proof.
  destruct (Window.steps sample_prefs [Window.Apply; Window.Answered 0 Window.Done; Window.Apply])
    as [[w' os]|] eqn:E; [|by vm_compute in E].
  destruct (apply_saves sample_prefs w' os) as (c & h & H1 & H2 & H3); [reflexivity|by vm_compute; repeat constructor; set_solver|exact E|].
  exists w', os, c, h. split; [done|]. split; [done|]. split; [done|]. rewrite H3.
  assert (c = (Window.doubled (OM.getDirty (Window.om sample_prefs)) (Window.heap sample_prefs)).1) as ->; [|reflexivity].
  vm_compute in E. injection E as <- <-. by injection H1 as <- _.
Defined.

Lemma edit_while_applying_lost_witness :
  exists w' os,
    Window.steps sample_prefs [Window.Apply; Window.Edit "max_connections_global" (VPrim (pint 50));
                               Window.Answered 0 Window.Done; Window.Apply] = Some (w', os) /\
    ((exists c h', Window.sent os = [(c, h')] /\ oget "max_connections_global" c = None) /\
     OM.getDirty (Window.om w') = [] /\
     OM.get (Window.heap w') (Window.om w') "max_connections_global" = VPrim (pint 50)).
Proof.
  destruct (Window.steps sample_prefs [Window.Apply; Window.Edit "max_connections_global" (VPrim (pint 50));
                               Window.Answered 0 Window.Done; Window.Apply]) as [[w' os]|] eqn:E; [|by vm_compute in E].
  exists w', os. split; [done|].
  apply (edit_while_applying_lost sample_prefs "max_connections_global" (VPrim (pint 50)) w' os);
    [reflexivity|by vm_compute; repeat constructor; set_solver|reflexivity|done|done|by vm_compute|exact E].
Defined.
