(* ===== verification/Details.v ===== *)
(** * The tabs of a torrent: Deluge.details

    [Options] is [OptionsTab]: the options of the torrent selected, over the
    [MultiOptionsManager].  [Peers] is [PeersTab], a grid kept the way the list
    of torrents is.  [Details] is [DetailsTab]: texts written when they change.
    The files are in [Files]. *)

From stdpp Require Import base list strings gmap.
From Stdlib Require Import Lia ZArith.
From S2P Require Import Prelude JsNum JsString JsValue ExtCore OptionsManager MultiOptionsManager Formatters SortTypes Collection Store TorrentGrid.

Local Open Scope nat_scope.

Module Options.

(** The defaults the manager is made with. *)
Definition options : obj val :=
  [("max_download_speed", VPrim (pint (-1))); ("max_upload_speed", VPrim (pint (-1)));
   ("max_connections", VPrim (pint (-1))); ("max_upload_slots", VPrim (pint (-1)));
   ("auto_managed", VPrim (PBool false)); ("stop_at_ratio", VPrim (PBool false));
   ("stop_ratio", VPrim (pint 2)); ("remove_at_ratio", VPrim (PBool false));
   ("move_completed", VPrim (PBool false)); ("move_completed_path", VPrim (PStr ""));
   ("private", VPrim (PBool false)); ("prioritize_first_last", VPrim (PBool false));
   ("super_seeding", VPrim (PBool false)); ("label", VPrim (PStr ""))].

(** A call for the status of a torrent, and one that sets its options. *)
Inductive ask := Status (id : string) | SetOptions (id : option string).

(** The manager, the torrent, whether the fields of the ratio and of the folder
    can be used, and the calls in flight.  No option is an array. *)
Record state := mk {
  om : MOM.state; torrentId : option string; ratioEnabled : bool; pathEnabled : bool; flight : list ask
}.
Definition with_om w o := mk o (torrentId w) (ratioEnabled w) (pathEnabled w) (flight w).

Inductive output := Called (a : ask) (options : obj val) | Field (e : effect).

Definition create (bound : obj (list field)) : state :=
  mk (MOM.mk options [] [] bound None None) None false false [].

Definition changeId (id : option string) (w : state) : state * list output :=
  let '(o, es, _) := MOM.changeId ∅ (om w) id false in
  (mk o id (ratioEnabled w) (pathEnabled w) (flight w), map Field es).

(** [clear], [reset] *)
Definition clear (w : state) : state * list output :=
  match torrentId w with None => (w, []) | Some _ => changeId None w end.
Definition reset (w : state) : state :=
  match torrentId w with Some i => if decide (i = "") then w else with_om w (MOM.reset (om w)) | None => w end.

(** [update] of a torrent *)
Definition call (a : ask) (o : obj val) (w : state) : state * list output :=
  (mk (om w) (torrentId w) (ratioEnabled w) (pathEnabled w) (flight w ++ [a]), [Called a o]).
Definition update (id : string) (w : state) : state * list output :=
  let '(w, os) := if decide (torrentId w = Some id) then (w, []) else changeId (Some id) w in
  let '(w, os') := call (Status id) [] w in (w, os ++ os').

(** [onApply] *)
Definition onApply (w : state) : state * list output := call (SetOptions (torrentId w)) (MOM.getDirty (om w)) w.

(** [onMoveCompletedChecked], [onStopRatioChecked] *)
Definition onMoveCompletedChecked (checked : bool) (w : state) : state :=
  mk (om w) (torrentId w) (ratioEnabled w) checked (flight w).
Definition onStopRatioChecked (checked : bool) (w : state) : state :=
  mk (om w) (torrentId w) checked (pathEnabled w) (flight w).

(** [onRequestComplete] *)
Definition renamed (torrent : obj val) : obj val :=
  let torrent := odel "private" torrent in
  let torrent := oset "auto_managed" (vget "is_auto_managed" torrent) torrent in
  oset "prioritize_first_last_pieces" (vget "prioritize_first_last" torrent) torrent.
Definition onRequestComplete (torrent : obj val) (w : state) : state * list output :=
  let '(o, es) := MOM.setDefault ∅ (om w) (OObj (renamed torrent)) undef in
  (mk o (torrentId w) (val_truthy (MOM.get ∅ o "stop_at_ratio")) (val_truthy (MOM.get ∅ o "move_completed")) (flight w),
   map Field es).

(** A field that is edited. *)
Definition edit (k : string) (v : val) (w : state) : state * list output :=
  let '(o, es) := MOM.update ∅ (om w) (OKey k) v in (with_om w o, map Field es).

Inductive answer := Torrent (torrent : obj val) | Done.
Inductive event :=
  | Update (id : string) | Clear | Apply | Edit (k : string) (v : val) | Answered (i : nat) (r : answer) | Lost (i : nat).
Definition onAnswer (a : ask) (r : answer) (w : state) : option (state * list output) :=
  match a, r with
  | Status _, Torrent t => Some (onRequestComplete t w)
  | SetOptions _, Done => Some (with_om w (MOM.commit (om w)), [])
  | _, _ => None
  end.
Definition step (w : state) (e : event) : option (state * list output) :=
  match e with
  | Update i => if decide (i = "") then None else Some (update i w)
  | Clear => Some (clear w)
  | Apply => Some (onApply w)
  | Edit k v => Some (edit k v w)
  | Answered i r => a ← flight w !! i;
      onAnswer a r (mk (om w) (torrentId w) (ratioEnabled w) (pathEnabled w) (delete i (flight w)))
  | Lost i => a ← flight w !! i; Some (mk (om w) (torrentId w) (ratioEnabled w) (pathEnabled w) (delete i (flight w)), [])
  end.
Definition steps : state -> list event -> option (state * list output) := run step.

(** The options sent, and for which torrent. *)
Definition sent (os : list output) : list (option string * obj val) :=
  omap (fun o => match o with Called (SetOptions i) c => Some (i, c) | _ => None end) os.

End Options.

(** ** What Apply does to another torrent *)

Lemma options_sent_fields es : Options.sent (map Options.Field es) = [].
Proof. induction es; done. Qed.

Lemma options_sent_app os os' : Options.sent (os ++ os') = Options.sent os ++ Options.sent os'.
Proof. apply omap_app. Qed.

Lemma update_form id w :
  exists es, Options.update id w =
    (Options.mk (MOM.with_id (Options.om w) (if decide (Options.torrentId w = Some id) then MOM.currentId (Options.om w) else Some id))
       (Some id) (Options.ratioEnabled w) (Options.pathEnabled w) (Options.flight w ++ [Options.Status id]), es) /\
    Options.sent es = [].
Proof.
  unfold Options.update. case_decide as Hi.
  - exists [Options.Called (Options.Status id) []]. split; [|done]. unfold Options.call. rewrite Hi.
    by destruct w as [[] ? ? ? ?].
  - unfold Options.changeId, MOM.changeId. cbn [Options.call Options.om Options.torrentId Options.flight app].
    eexists. split; [reflexivity|]. by rewrite options_sent_app, options_sent_fields.
Qed.

(** Apply is answered after another torrent was selected: what was
    edited for that one in the meantime is thrown away, its options read as the
    constructor's, and only the first torrent's were ever sent. *)
Theorem apply_forgets_other_edits w a b k v w' os :
  Options.torrentId w = Some a -> a <> b ->
  Options.steps w [Options.Apply; Options.Update b; Options.Edit k v;
                   Options.Answered (length (Options.flight w)) Options.Done] = Some (w', os) ->
  Options.torrentId w' = Some b /\ MOM.currentId (Options.om w') = Some b /\
  Options.sent os = [(Some a, MOM.getDirty (Options.om w))] /\
  forall j, MOM.get ∅ (Options.om w') j = vget j (MOM.options (Options.om w)).
Proof.
  intros Ha Hab. unfold Options.steps, run. cbn [foldl mbind option_bind Options.step].
  unfold Options.onApply at 1, Options.call at 1. cbn [mbind option_bind].
  case_decide; [done|]. set (w1 := Options.mk _ _ _ _ _).
  destruct (update_form b w1) as (es & E & Hes). cbn [mbind option_bind]. rewrite E. cbn [mbind option_bind].
  assert (Hne : Options.torrentId w1 <> Some b) by (cbn; congruence). rewrite decide_False by done.
  set (o1 := MOM.with_id _ _). unfold Options.edit. cbn [Options.om].
  pose proof (update_elsewhere ∅ o1 (OKey k) v) as (Ho & Hi & _).
  destruct (MOM.update ∅ o1 (OKey k) v) as [o2 es2]. cbn [fst] in Ho, Hi.
  cbn [mbind option_bind Options.flight Options.with_om Options.torrentId Options.ratioEnabled Options.pathEnabled].
  change (Options.flight w1) with (Options.flight w ++ [Options.SetOptions (Options.torrentId w)]).
  rewrite <- (app_assoc (Options.flight w)). cbn [app]. rewrite (list_lookup_middle (Options.flight w)) by done.
  cbn [mbind option_bind Options.onAnswer]. intros [= <- <-].
  assert (Hc : MOM.currentId (MOM.commit o2) = MOM.currentId o2).
  { unfold MOM.commit, MOM.reset. repeat case_match; done. }
  cbn [Options.torrentId Options.om Options.with_om]. split; [done|]. split; [by rewrite Hc, Hi|]. split.
  - cbn [app]. rewrite app_nil_r. unfold Options.sent. cbn [omap list_omap]. rewrite <- Ha. f_equal.
    change (Options.sent (es ++ map Options.Field es2) = []). by rewrite options_sent_app, Hes, options_sent_fields.
  - intros j. rewrite multi_commit_forgets. by rewrite Ho.
Qed.

(** An answer about one torrent that comes after another was selected
    is taken for the other's: the options shown for it, and what its edits are
    compared with, are those of the first. *)
Theorem answer_for_another_shown w a b t k v w' os :
  a <> b -> b <> "" -> obj_ok (Options.renamed t) ->
  (forall j, j ∈ okeys (Options.renamed t) -> vget j (Options.renamed t) <> undef) ->
  oget k (Options.renamed t) = Some v ->
  let cv := OM.convertValueType ∅ (MOM.getDefault ∅ (MOM.with_id (Options.om w) (Some b)) k) v in
  Ext.isEmpty ∅ cv false = false -> self_eq ∅ cv ->
  Options.steps w [Options.Update a; Options.Update b; Options.Answered (length (Options.flight w)) (Options.Torrent t)]
    = Some (w', os) ->
  Options.torrentId w' = Some b /\ MOM.currentId (Options.om w') = Some b /\
  val_eq ∅ (MOM.getDefault ∅ (Options.om w') k) cv = true.
Proof.
  intros Hab Hb Hok Hd Hk cv He Hs. unfold Options.steps, run. cbn [foldl mbind option_bind Options.step].
  destruct (update_form a w) as (es & -> & _).
  set (w1 := Options.mk (MOM.with_id (Options.om w) _) (Some a) _ _ _).
  destruct (decide (a = "")); [done|]. destruct (decide (b = "")); [done|]. cbn [mbind option_bind].
  destruct (update_form b w1) as (es2 & E & _). rewrite E. cbn [mbind option_bind Options.flight].
  rewrite decide_False by (cbn; congruence).
  change (Options.flight w1) with (Options.flight w ++ [Options.Status a]).
  rewrite <- (app_assoc (Options.flight w)). cbn [app]. rewrite (list_lookup_middle (Options.flight w)) by done.
  cbn [mbind option_bind Options.onAnswer]. unfold Options.onRequestComplete. cbn [Options.om].
  change (MOM.with_id (Options.om w1) (Some b)) with (MOM.with_id (Options.om w) (Some b)).
  set (o1 := MOM.with_id _ _) in *.
  pose proof (setDefault_object ∅ o1 (Options.renamed t) k v Hok Hd Hk He Hs) as H1.
  pose proof (setDefault_elsewhere ∅ o1 (OObj (Options.renamed t)) undef) as (_ & Hi & _).
  destruct (MOM.setDefault ∅ o1 _ undef) as [o2 es3]. cbn [fst] in H1, Hi. intros [= <- <-].
  cbn [Options.torrentId Options.om]. split; [done|]. by split; [rewrite Hi|].
Qed.

(** ** The peers *)

Module Peers.

(** [store], and [peers], the addresses the store has. *)
Record state := mk { store : Store.state; peers : obj Z }.

Definition create : state := mk no_store [].

(** [clear] *)
Definition clear (p : state) : state := mk (Store.removeAll (store p)) [].

(** A peer that has a record: the fields that differ are set. *)
Definition edit : Store.state -> loc -> loc -> Store.state := Grid.edit.

(** The loop over the peers: the store, the addresses known, the records made
    and the addresses of the answer.  [None] is the [TypeError] of a known
    address that has no record. *)
Fixpoint update_all (ps : list (string * loc)) (acc : Store.state * obj Z * list loc * obj Z)
    : option (Store.state * obj Z * list loc * obj Z) :=
  match ps with
  | [] => Some acc
  | (ip, peer) :: ps' =>
      let '(s, known, newPeers, addresses) := acc in
      acc ← match oget ip known with
            | Some _ => r ← Store.getById s ip; Some (edit s r peer, known, newPeers, oset ip 1%Z addresses)
            | None => let '(r, s) := Rec.create s peer ip in
                      Some (s, oset ip 1%Z known, newPeers ++ [r], oset ip 1%Z addresses)
            end;
      update_all ps' acc
  end.

(** The records of peers that are gone are removed. *)
Definition remove_one (addresses : obj Z) (sk : Store.state * obj Z) (r : loc) : (Store.state * obj Z) * bool :=
  let '(s, known) := sk in
  let i := Store.id (record_at s r) in
  match oget i addresses with
  | Some _ => ((s, known), true)
  | None => ((Store.remove s r, odel i known), true)
  end.

Section peers.
(** The fields of a peer. *)
Variable fields : list Field.field.

(** [onRequestComplete], given the peers of the answer. *)
Definition onRequestComplete (ps : list (string * loc)) (p : state) : option state :=
  '(s, known, newPeers, addresses) ← update_all ps (store p, peers p, [], []);
  let s := Store.add s newPeers in
  let '(s, known) := Store.each s (remove_one addresses) (s, known) in
  let s := Store.commitChanges s in
  let s := match Store.getSortState s with
           | Some (f, d) => Store.sort fields s f d
           | None => s
           end in
  Some (mk s known).

(** An answer, with the objects it is parsed into; [None] is one that is
    nothing. *)
Inductive event := Answer (torrent : option (list (string * object))) | Clear.
Definition step (p : state) (e : event) : option state :=
  match e with
  | Answer None => Some p
  | Answer (Some ps) =>
      let '(s, m) := Grid.parse (store p) ps in onRequestComplete m (mk s (peers p))
  | Clear => Some (clear p)
  end.
Definition steps (p : state) (es : list event) : option state :=
  foldl (fun p e => p ← p; step p e) (Some p) es.
End peers.

End Peers.

(** The tab as a grid without a list or hidden labels. *)
Definition as_grid (p : Peers.state) : Grid.state := Grid.mk (Peers.store p) (Peers.peers p) None [] [].

Lemma peers_loop ps m acc addresses :
  (forall ip l, (ip, l) ∈ ps -> oget ip m = Some l) ->
  Peers.update_all ps (acc, addresses) =
  (fun x => (x, foldl (fun a ip => oset ip 1%Z a) addresses ps.*1)) <$> Grid.update_all m ps.*1 acc.
Proof.
  revert acc addresses. induction ps as [|[ip l] ps IH]; intros [[s known] news] addresses Hm; [done|].
  cbn [Peers.update_all fmap list_fmap fst Grid.update_all foldl]. unfold Grid.update_one.
  rewrite (Hm ip l) by (by left).
  assert (Hm' : forall ip l, (ip, l) ∈ ps -> oget ip m = Some l) by (intros; apply Hm; by right).
  destruct (oget ip known).
  - destruct (Store.getById s ip) as [r|]; cbn [mbind option_bind]; [|done]. by rewrite IH.
  - destruct (Rec.create s l ip) as [r s']. cbn [mbind option_bind]. by rewrite IH.
Qed.

Lemma addresses_get ips (a : obj Z) i :
  is_Some (oget i (foldl (fun a ip => oset ip 1%Z a) a ips)) <-> i ∈ ips \/ is_Some (oget i a).
Proof.
  revert a. induction ips as [|ip ips IH]; intros a; cbn [foldl]; [set_solver|].
  rewrite IH, oget_oset. case_decide as Hi.
  - subst. split; [intros _; left; by left|]. intros _. right. eauto.
  - set_solver.
Qed.

Lemma each_go_ext {A S} (l : list A) (f g : S -> A -> S * bool) s :
  (forall s x, f s x = g s x) -> MC.each_go l f s = MC.each_go l g s.
Proof.
  intros H. revert s. induction l as [|x l IH]; intros s; [done|]. cbn. rewrite H.
  destruct (g s x) as [s' []]; [apply IH|done].
Qed.

Definition peers_shown (p : Peers.state) (ps : obj object) : Prop :=
  forall ip, match oget ip ps with
             | Some o => exists r, Store.getById (Peers.store p) ip = Some r /\
                 forall k, is_Some (oget k o) -> shown_same (Rec.get (Peers.store p) r k) (pget k o)
             | None => Store.getById (Peers.store p) ip = None
             end.

Section peers.
Context (fields : list Field.field).

Lemma answer_shown own p ps :
  grid_ok own (as_grid p) -> obj_ok ps ->
  exists own' p', Peers.step fields p (Peers.Answer (Some ps)) = Some p' /\ grid_ok own' (as_grid p') /\ peers_shown p' ps.
Proof.
  intros Hg Hok. cbn [Peers.step].
  pose proof (parse_spec ps own (as_grid p) Hg Hok) as Hp. cbn [as_grid Grid.store] in Hp.
  destruct (Grid.parse (Peers.store p) ps) as [s m]. destruct Hp as (own1 & Hg1 & [Hmok Hmw] & Hd & Hm1 & _).
  exists own1. unfold Peers.onRequestComplete. cbn [Peers.store Peers.peers].
  set (g1 := Grid.with_store _ s) in *.
  rewrite (peers_loop m m) by (intros; by apply oget_elem).
  destruct (update_all_inv own1 m s m.*1 [] (s, Peers.peers p, []) (loop_start own1 g1 m Hg1 Hmw))
    as ([[st known] news] & E1 & Hi); [exact Hmok| |].
  { intros t Ht. split; [apply not_elem_of_nil|]. by apply oget_is_Some. }
  rewrite E1. cbn [fmap option_fmap option_map mbind option_bind].
  assert (Hdn : forall t l, oget t m = Some l -> t ∈ reverse m.*1 ++ []).
  { intros t l Ht. rewrite app_nil_r, elem_of_reverse. apply oget_is_Some. eauto. }
  destruct (added own1 g1 m st known news _ Hi Hdn) as (Hs' & _ & Hod' & Hos' & Hobj & Hdo' & Hk' & Hrow).
  set (st' := Store.add st news) in *. clearbody st'. clear Hi E1 Hdn.
  set (addresses := foldl _ _ _).
  assert (Ee : Store.each st' (Peers.remove_one addresses) (st', known) = Store.each st' (Grid.remove_one m) (st', known)).
  { apply each_go_ext. intros [s0 k0] r. unfold Peers.remove_one, Grid.remove_one.
    pose proof (addresses_get m.*1 [] (Store.id (record_at s0 r))) as H. fold addresses in H.
    rewrite <- oget_is_Some in H.
    destruct (oget _ addresses), (oget _ m); try done; exfalso; destruct H as [H1 H2].
    - destruct (H1 ltac:(eauto)) as [[]|[]]; done.
    - destruct (H2 ltac:(left; eauto)); done. }
  rewrite Ee. clear Ee. clearbody addresses. pose proof (finished fields own1 st' known m Hs' Hk') as Hf. cbv zeta in Hf.
  destruct (Store.each st' (Grid.remove_one m) _) as [st1 known1].
  set (st3 := match Store.getSortState (Store.commitChanges st1) with
    Some (f, d) => Store.sort fields (Store.commitChanges st1) f d | None => _ end) in *. clearbody st3.
  destruct Hf as (Hs3 & Ho3 & Hr3 & Hk3 & Hg3).
  eexists. split; [reflexivity|]. split.
  - split; simpl; [done|done| |done]. intros k r. rewrite Hg3. destruct (decide _); [done|]. intros Hr.
    destruct (Hod' k r Hr) as [H1 H2]. unfold rec_owned. destruct (Hr3 r) as [-> ->]. by rewrite Ho3.
  - intros ip. cbn [Peers.store]. rewrite Hg3.
    assert (Hip : oget ip ps = object_at s <$> oget ip m) by (rewrite <- Hd; apply deref_get).
    rewrite Hip. destruct (oget ip m) as [l|] eqn:El; [|by rewrite decide_True].
    rewrite decide_False by done. destruct (Hrow ip l El) as (r & Hr & Hsh). exists r. split; [done|].
    assert (Hl : object_at st3 l = object_at s l).
    { unfold object_at. rewrite Ho3. cbn in Hobj. rewrite Hobj; [done|]. destruct (Hmw ip l El) as [-> _]. congruence. }
    intros k Hk. rewrite <- Hl. apply (same_rows_shows st'); [done|exact Hsh|by rewrite Hl].
Qed.

(** After any sequence of answers, each about different addresses,
    with the tab emptied in between, none has thrown and the rows are exactly
    the peers of the last one, every field as it was sent. *)
Theorem rows_are_peers es ps :
  Forall (fun e => match e with Peers.Answer (Some qs) => obj_ok qs | _ => True end) es -> obj_ok ps ->
  exists p, Peers.steps fields Peers.create (es ++ [Peers.Answer (Some ps)]) = Some p /\ peers_shown p ps.
Proof.
  intros Hes Hps. unfold Peers.steps. rewrite foldl_app. cbn [foldl].
  enough (exists own p, foldl (fun p e => p ← p; Peers.step fields p e) (Some Peers.create) es = Some p /\ grid_ok own (as_grid p))
    as (own & p & -> & Hg).
  { destruct (answer_shown own p ps Hg Hps) as (_ & p' & E & _ & H). by exists p'. }
  induction es as [|e es IH] using rev_ind.
  - exists (fun _ => ""), Peers.create. split; [done|]. split; [|by intros t; split; intros []|by intros k r|by intros m].
    split; simpl; [apply empty_ok|apply NoDup_nil_2| |by intros k r|]; intros r Hr; by apply elem_of_nil in Hr.
  - apply Forall_app in Hes as [Hes He]. destruct (IH Hes) as (own & p & E & Hg).
    rewrite foldl_app, E. cbn [foldl mbind option_bind].
    apply Forall_cons in He as [He _]. destruct e as [[qs|]|].
    + destruct (answer_shown own p qs Hg He) as (own' & p' & E' & Hg' & _). by exists own', p'.
    + by exists own, p.
    + exists own, (Peers.clear p). split; [done|]. exact (wiped_ok own (as_grid p) Hg).
Qed.
End peers.

(** ** How a peer is drawn *)

Module Renderers.

(** Markup: its double quotes are written as single ones here. *)
Definition markup (s : string) : string := str_map (fun c => if decide (c = chr 39) then chr 34 else c) s.

(** [flagRenderer]: past the guard it reads [p], a variable nothing declares,
    which throws. *)
Definition flagRenderer (value : prim) : option string :=
  if negb (truthy value) || bool_decide (trim (to_str value) = "") then Some "" else None.

Section renderers.
(** [_] *)
Variable tr : string -> string.

(** [connectionRenderer], [usefulRenderer] *)
Definition connectionRenderer (utp encrypted : prim) : string :=
  join ", " ((if truthy utp then "uTP" else "TCP") :: (if truthy encrypted then [tr "encrypted"] else [])).
Definition usefulRenderer (value seed : prim) : string :=
  let useful := to_number value in
  let useful := if truthy (PNum useful) then useful else of_Z 0 in
  if num_leb useful (of_Z 0) then (if truthy seed then tr "nothing new" else "0") else num_str useful.
End renderers.

(** [peerAddressRenderer]: an address of more than two parts is one of IPv6. *)
Definition address (value : string) : string :=
  let parts := split_on (chr 58) value in
  if (2 <? length parts) then "[" +:+ join ":" (removelast parts) +:+ "]:" +:+ List.last parts "" else value.
Definition peerAddressRenderer (value : string) (seed : prim) : string :=
  format (markup "<div class='{0}'>{1}</div>")
    [if loose_eq seed (pint 1024) then "x-deluge-seed" else "x-deluge-peer"; address value].

(** [peerProgressRenderer], given the style of the column *)
Definition peerProgressRenderer (value : prim) (style : option string) : string :=
  let progress := to_fixed 0 (num_mul (to_number value) (of_Z 100)) in
  let width := Deluge.columnWidth style (of_Z 150) in
  Deluge.progressBar (str_num progress) (num_sub width (of_Z 8)) (progress +:+ "%") None.

End Renderers.

(** A peer whose country is known takes the whole grid's render with it. *)
Lemma flag_throws s : s <> "" -> trim s = s -> Renderers.flagRenderer (PStr s) = None.
Proof.
  intros Hs Ht. unfold Renderers.flagRenderer. cbn [truthy to_str]. rewrite Ht. by rewrite bool_decide_false.
Qed.

(** The address of IPv6 is put in brackets, its port left outside. *)
Lemma address_ipv6 parts port :
  2 <= length parts -> Forall (fun l => str_has (chr 58) l = false) (parts ++ [port]) ->
  Renderers.address (join ":" (parts ++ [port])) = "[" +:+ join ":" parts +:+ "]:" +:+ port.
Proof.
  intros Hp Hc. unfold Renderers.address. cbv zeta. change ":" with (String.String (chr 58) "").
  rewrite split_on_join by (done || by destruct parts).
  rewrite length_app. cbn [length]. rewrite (proj2 (Nat.ltb_lt _ _)) by lia.
  by rewrite List.removelast_last, List.last_last.
Qed.

(** ** The details *)

Module Details.

(** What each field shows, what was written last, and the torrents asked about. *)
Record state := mk { html : obj string; oldData : obj prim; flight : list string }.

Definition ids : list string :=
  ["torrent_name"; "hash"; "path"; "size"; "files"; "comment"; "status"; "tracker"; "creator"].

(** The tab once it is rendered, [clear], and [update] *)
Definition create : state := mk (map (fun i => (i, "")) ids) [] [].
Definition clear (d : state) : state := mk (map (fun p => (p.1, "")) (html d)) [] (flight d).
Definition update (id : string) (d : state) : state := mk (html d) (oldData d) (flight d ++ [id]).

(** [onRequestComplete] *)
Definition data (id : string) (torrent : obj prim) : obj prim :=
  [("torrent_name", pget "name" torrent); ("hash", PStr id); ("path", pget "download_location" torrent);
   ("size", PStr (Fmt.size (pget "total_size" torrent) false)); ("files", pget "num_files" torrent);
   ("status", pget "message" torrent); ("tracker", pget "tracker_host" torrent);
   ("comment", pget "comment" torrent); ("creator", pget "creator" torrent)].
Definition text (v : prim) : string := match Fmt.htmlEncode v with PNull => "" | w => to_str w end.
Definition write (new old : obj prim) (p : string * string) : string * string :=
  let v := pget p.1 new in
  if bool_decide (v = PUndef) || loose_eq v (pget p.1 old) then p else (p.1, text v).
Definition onRequestComplete (id : string) (torrent : obj prim) (d : state) : state :=
  let new := data id torrent in mk (map (write new (oldData d)) (html d)) new (flight d).

Inductive event := Update (id : string) | Clear | Answered (i : nat) (torrent : obj prim).
Definition step (d : state) (e : event) : option state :=
  match e with
  | Update id => Some (update id d)
  | Clear => Some (clear d)
  | Answered i t => id ← flight d !! i; Some (onRequestComplete id t (mk (html d) (oldData d) (delete i (flight d))))
  end.
Definition steps (d : state) (es : list event) : option state := foldl (fun d e => d ← d; step d e) (Some d) es.

End Details.

(** What is shown of a field that always comes as a string. *)
Definition written (f : string) (d : Details.state) : Prop :=
  f ∈ (Details.html d).*1 /\
  (pget f (Details.oldData d) = PUndef \/
   exists s, pget f (Details.oldData d) = PStr s /\ oget f (Details.html d) = Some (Details.text (PStr s))).

Lemma map_write_get new old f html :
  oget f (map (Details.write new old) html) =
  (fun h => if bool_decide (pget f new = PUndef) || loose_eq (pget f new) (pget f old) then h else Details.text (pget f new))
    <$> oget f html.
Proof.
  induction html as [|[g h] html IH]; [done|]. cbn [map]. unfold Details.write at 1. cbn [fst].
  assert (E : forall (b : bool) u, oget f ((if b then (g, h) else (g, u)) :: map (Details.write new old) html) =
    if decide (f = g) then Some (if b then h else u) else oget f (map (Details.write new old) html)) by (by intros []).
  rewrite E, IH. change (oget f ((g, h) :: html)) with (if decide (f = g) then Some h else oget f html).
  by destruct (decide (f = g)) as [<-|Hg].
Qed.

Lemma write_keys new old html : (map (Details.write new old) html).*1 = html.*1.
Proof.
  induction html as [|[g h] html IH]; [done|]. cbn [map]. rewrite !fmap_cons, IH. f_equal.
  unfold Details.write. by destruct (_ || _).
Qed.

Lemma answer_written f id t d s :
  written f d -> pget f (Details.data id t) = PStr s ->
  let d' := Details.onRequestComplete id t d in
  written f d' /\ oget f (Details.html d') = Some (Details.text (PStr s)).
Proof.
  intros [Hf Hw] Hs. cbn zeta. unfold Details.onRequestComplete.
  assert (Hg : oget f (map (Details.write (Details.data id t) (Details.oldData d)) (Details.html d)) = Some (Details.text (PStr s))).
  { rewrite map_write_get, Hs. rewrite bool_decide_false by done. cbn [orb].
    apply oget_is_Some in Hf as [h Hh]. rewrite Hh. cbn. f_equal.
    destruct Hw as [->|(s' & -> & Hh')]; [done|]. cbn [loose_eq]. case_bool_decide as E; [|done]. subst. congruence. }
  split; [|exact Hg]. split; [cbn; by rewrite write_keys|]. right. by exists s.
Qed.

(** A field that comes as a string in every answer shows the one of
    the last answer, encoded, whatever was shown and cleared before. *)
Theorem details_shown f es i t d s :
  f ∈ Details.ids -> (forall id t', Details.Answered id t' ∈ es -> forall j, exists s', pget f (Details.data j t') = PStr s') ->
  (forall j, pget f (Details.data j t) = PStr (s j)) ->
  Details.steps Details.create (es ++ [Details.Answered i t]) = Some d ->
  exists j, oget f (Details.html d) = Some (Details.text (PStr (s j))).
Proof.
  intros Hf Hes Ht. unfold Details.steps. rewrite foldl_app. cbn [foldl].
  assert (H : forall d0, foldl (fun d e => d ← d; Details.step d e) (Some Details.create) es = Some d0 -> written f d0).
  { induction es as [|e es IH] using rev_ind; intros d0.
    - intros [= <-]. split; [|by left]. unfold Details.create. cbn [Details.html]. by rewrite map_map, map_id.
    - rewrite foldl_app. destruct (foldl _ _ es) as [d1|] eqn:E; cbn [foldl mbind option_bind]; [|done].
      assert (Hw : written f d1) by (apply IH; [|done]; intros id t' Hin; apply (Hes id t'); set_solver).
      destruct e as [id| |k t']; cbn [Details.step].
      + intros [= <-]. exact Hw.
      + intros [= <-]. destruct Hw as [Hw _]. split; [|by left]. cbn. by rewrite map_map.
      + destruct (Details.flight d1 !! k) as [id|]; [|done]. cbn [mbind option_bind]. intros [= <-].
        destruct (Hes k t' ltac:(set_solver) id) as [s' Hs']. by apply (answer_written f id t' _ s'). }
  destruct (foldl _ _ es) as [d0|]; cbn [mbind option_bind Details.step]; [|done].
  destruct (Details.flight d0 !! i) as [j|]; [|done]. cbn [mbind option_bind]. intros [= <-].
  exists j. by apply (answer_written f j t _ (s j)); [apply (H d0)|].
Qed.

(** ** The properties at concrete inputs *)

(** The torrent ["aa"] selected, its speed edited. *)
Definition sample_tab : Options.state :=
  (Options.edit "max_download_speed" (VPrim (pint 50)) (Options.update "aa" (Options.create [])).1).1.

Lemma apply_forgets_other_edits_witness :
  exists w' os,
    Options.steps sample_tab [Options.Apply; Options.Update "bb"; Options.Edit "max_upload_speed" (VPrim (pint 9));
                              Options.Answered 1 Options.Done] = Some (w', os) /\
    (Options.torrentId w' = Some "bb" /\ MOM.currentId (Options.om w') = Some "bb" /\
     Options.sent os = [(Some "aa", [("max_download_speed", VPrim (pint 50))])] /\
     forall j, MOM.get ∅ (Options.om w') j = vget j Options.options).
Proof.
  destruct (Options.steps sample_tab [Options.Apply; Options.Update "bb";
      Options.Edit "max_upload_speed" (VPrim (pint 9)); Options.Answered 1 Options.Done]) as [[w' os]|] eqn:E;
    [|by vm_compute in E].
  exists w', os. split; [done|].
  apply (apply_forgets_other_edits sample_tab "aa" "bb" "max_upload_speed" (VPrim (pint 9)) w' os); [reflexivity|done|exact E].
Defined.

Definition sample_status : obj val :=
  [("max_download_speed", VPrim (pint 50)); ("is_auto_managed", VPrim (PBool true));
   ("prioritize_first_last", VPrim (PBool false)); ("private", VPrim (PBool false))].

Lemma answer_for_another_shown_witness :
  exists w' os,
    Options.steps (Options.create []) [Options.Update "aa"; Options.Update "bb"; Options.Answered 0 (Options.Torrent sample_status)]
      = Some (w', os) /\
    (Options.torrentId w' = Some "bb" /\ MOM.currentId (Options.om w') = Some "bb" /\
     val_eq ∅ (MOM.getDefault ∅ (Options.om w') "max_download_speed") (VPrim (pint 50)) = true).
Proof.
  destruct (Options.steps (Options.create []) [Options.Update "aa"; Options.Update "bb";
      Options.Answered 0 (Options.Torrent sample_status)]) as [[w' os]|] eqn:E; [|by vm_compute in E].
  exists w', os. split; [done|].
  apply (answer_for_another_shown (Options.create []) "aa" "bb" sample_status "max_download_speed" (VPrim (pint 50)) w' os);
    [done|done| | |by vm_compute|by vm_compute|by vm_compute|exact E].
  - unfold obj_ok. by apply (bool_decide_unpack _); vm_compute.
  - intros j Hj. vm_compute in Hj. repeat (apply elem_of_cons in Hj as [->|Hj]; [done|]). destruct (proj1 (elem_of_nil _) Hj).
Defined.

Definition sample_peer (client : string) (progress : Z) : object :=
  [("ip", PStr "1.2.3.4:80"); ("client", PStr client); ("progress", pint progress)].

Lemma rows_are_peers_witness :
  exists p, Peers.steps [] Peers.create
    ([Peers.Answer (Some [("1.2.3.4:80", sample_peer "x" 0)]); Peers.Clear; Peers.Answer None;
      Peers.Answer (Some [("5.6.7.8:90", sample_peer "y" 1)])] ++
     [Peers.Answer (Some [("1.2.3.4:80", sample_peer "x" 1)])]) = Some p /\
    peers_shown p [("1.2.3.4:80", sample_peer "x" 1)].
Proof.
  apply (rows_are_peers []).
  - repeat constructor; by apply not_elem_of_nil.
  - repeat constructor; by apply not_elem_of_nil.
Defined.

Lemma details_shown_witness :
  exists d j, Details.steps Details.create [Details.Update "aa"; Details.Answered 0 [("name", PStr "a<b")]] = Some d /\
    oget "torrent_name" (Details.html d) = Some (Details.text (PStr j)).
Proof.
  destruct (Details.steps Details.create [Details.Update "aa"; Details.Answered 0 [("name", PStr "a<b")]]) as [d|] eqn:E;
    [|by vm_compute in E].
  destruct (details_shown "torrent_name" [Details.Update "aa"] 0 [("name", PStr "a<b")] d (fun _ => "a<b"))
    as [j Hj]; [by left|by intros ? ? ?%list_elem_of_singleton|done|exact E|].
  by exists d, "a<b".
Defined.
