(* ===== verification/PreferencePages.v ===== *)
(** * The pages of the preferences with settings of their own

    Free space ([DownloadsPage.js]), idle and stuck downloads
    ([QueuePage.js]), the schedule ([SchedulerPage.js]), the block list
    ([BlocklistPage.js]), the country database ([OtherPage.js]) and the
    notifications ([NotificationsPage.js]), each an instance of the interface of
    [Settings]; and when the daemon fetches the country database again. *)

From stdpp Require Import base list strings sets.
From Stdlib Require Import Lia ZArith.
From S2P Require Import Prelude JsNum JsString JsValue Integers ExtCore Fields Settings SortTypes.

Local Open Scope nat_scope.

(** ** What the pages have in common *)

(** A spinner as it is made, and what is given to it. *)
Definition spinner (precision : nat) (min max : num) (v : prim) : NumberField.state :=
  NumberField.mk precision min max v false.
Definition give (v : Json.json) (f : NumberField.state) : NumberField.state := NumberField.setValue (Json.prim_of v) f.
Definition typed (s : string) (f : NumberField.state) : NumberField.state := NumberField.with_value f (PStr s).

(** The text a value is shown as in a field: nothing where it is empty. *)
Definition shown_text (v : Json.json) : string := if Json.isEmpty v then "" else Json.str v.

Definition to_num (v : Json.json) : num := to_number (Json.prim_of v).
Definition field_number (f : NumberField.state) (d : num) : num := Deluge.number (NumberField.getValue f) d.

(** ** Free space *)

Module Space.

Record fields := mk { enabled : Checkbox.state; min_free : NumberField.state; resume_free : NumberField.state }.

Definition gib : num := num_mul (num_mul (of_Z 1024) (of_Z 1024)) (of_Z 1024).

(** [spaceSpinner] *)
Definition spaceSpinner : NumberField.state := spinner 1 (of_Z 0) (of_Z 1024) PUndef.

(** [onSpaceToggled] *)
Definition onSpaceToggled (f : fields) : fields :=
  let on := Checkbox.getValue (enabled f) in
  mk (enabled f) (NumberField.setDisabled (negb on) (min_free f)) (NumberField.setDisabled (negb on) (resume_free f)).

(** The box, whose handler that is *)
Definition set_enabled (v : prim) (f : fields) : fields :=
  let '(c, fired) := Checkbox.setValue v (enabled f) in
  let f := mk c (min_free f) (resume_free f) in if fired then onSpaceToggled f else f.

(** [toGiB] *)
Definition toGiB (bytes : Json.json) (fallback : num) : num :=
  let value := to_num bytes in
  if negb (is_finite value) || num_ltb value (of_Z 0) then fallback
  else num_div (num_round (num_mul (num_div value gib) (of_Z 10))) (of_Z 10).

(** [onPageShow]'s success *)
Definition load (settings : Json.json) (f : fields) : option fields :=
  settings ← Json.dict_of settings;
  let f := set_enabled (PBool (Json.not_false (Json.get "enabled" settings))) f in
  let f := mk (enabled f) (NumberField.setValue (PNum (toGiB (Json.get "min_free" settings) (of_Z 1))) (min_free f))
              (NumberField.setValue (PNum (toGiB (Json.get "resume_free" settings) (of_Z 2))) (resume_free f)) in
  Some (onSpaceToggled f).

(** [onApply] *)
Definition onApply (f : fields) : Json.dict :=
  [("enabled", jbool (Checkbox.getValue (enabled f)));
   ("min_free", jnum (num_round (num_mul (field_number (min_free f) (of_Z 1)) gib)));
   ("resume_free", jnum (num_round (num_mul (field_number (resume_free f) (of_Z 2)) gib)))].

(** What is done with its fields *)
Inductive edit := Enabled (b : bool) | MinFree (s : string) | ResumeFree (s : string).
Definition change (e : edit) (f : fields) : fields :=
  match e with
  | Enabled b => set_enabled (PBool b) f
  | MinFree s => mk (enabled f) (typed s (min_free f)) (resume_free f)
  | ResumeFree s => mk (enabled f) (min_free f) (typed s (resume_free f))
  end.

#[global] Instance page : Page fields edit := {
  key := "disk_space"; made := mk (Checkbox.mk false false) spaceSpinner spaceSpinner;
  load := load; failed := onSpaceToggled; reads_again := false;
  apply f := (f, onApply f); handle _ e f := Some (change e f, [])
}.

End Space.

(** ** Idle downloads *)

Module Idle.

Record fields := mk {
  enabled : Checkbox.state; inactive_rate : NumberField.state; grace : NumberField.state;
  pause_for : NumberField.state; min_active : NumberField.state; only_when_queued : Checkbox.state
}.

(** [idleSpinner] *)
Definition idleSpinner (precision : nat) : NumberField.state := spinner precision (of_Z 0) (of_Z 99999) PUndef.

(** [onIdleToggled] *)
Definition onIdleToggled (f : fields) : fields :=
  let off := negb (Checkbox.getValue (enabled f)) in
  mk (enabled f) (NumberField.setDisabled off (inactive_rate f)) (NumberField.setDisabled off (grace f))
     (NumberField.setDisabled off (pause_for f)) (NumberField.setDisabled off (min_active f))
     (Checkbox.setDisabled off (only_when_queued f)).

Definition set_enabled (v : prim) (f : fields) : fields :=
  let '(c, fired) := Checkbox.setValue v (enabled f) in
  let f := mk c (inactive_rate f) (grace f) (pause_for f) (min_active f) (only_when_queued f) in
  if fired then onIdleToggled f else f.

(** Seconds as minutes *)
Definition minutes (v : Json.json) : num := num_round (num_div (to_num v) (of_Z 60)).

(** [onPageShow]'s success *)
Definition load (settings : Json.json) (f : fields) : option fields :=
  settings ← Json.dict_of settings;
  let f := set_enabled (PBool (Json.is_true (Json.get "enabled" settings))) f in
  let f := mk (enabled f)
    (NumberField.setValue (PNum (num_div (to_num (Json.value (Json.get "inactive_rate" settings) (jint 2048))) (of_Z 1024))) (inactive_rate f))
    (NumberField.setValue (PNum (minutes (Json.value (Json.get "grace" settings) (jint 300)))) (grace f))
    (NumberField.setValue (PNum (minutes (Json.value (Json.get "pause_for" settings) (jint 3600)))) (pause_for f))
    (give (Json.value (Json.get "min_active" settings) (jint 1)) (min_active f))
    (Checkbox.setValue (PBool (Json.not_false (Json.get "only_when_queued" settings))) (only_when_queued f)).1 in
  Some (onIdleToggled f).

(** [onApply] *)
Definition onApply (f : fields) : Json.dict :=
  [("enabled", jbool (Checkbox.getValue (enabled f)));
   ("inactive_rate", jnum (num_round (num_mul (field_number (inactive_rate f) (of_Z 2)) (of_Z 1024))));
   ("grace", jnum (num_mul (field_number (grace f) (of_Z 5)) (of_Z 60)));
   ("pause_for", jnum (num_mul (field_number (pause_for f) (of_Z 60)) (of_Z 60)));
   ("min_active", jnum (field_number (min_active f) (of_Z 1)));
   ("only_when_queued", jbool (Checkbox.getValue (only_when_queued f)))].

Inductive edit := Enabled (b : bool) | Rate (s : string) | Grace (s : string) | PauseFor (s : string)
  | MinActive (s : string) | OnlyWhenQueued (b : bool).
Definition change (e : edit) (f : fields) : fields :=
  let '(mk c r g p m o) := f in
  match e with
  | Enabled b => set_enabled (PBool b) f
  | Rate s => mk c (typed s r) g p m o
  | Grace s => mk c r (typed s g) p m o
  | PauseFor s => mk c r g (typed s p) m o
  | MinActive s => mk c r g p (typed s m) o
  | OnlyWhenQueued b => mk c r g p m (Checkbox.setValue (PBool b) o).1
  end.

#[global] Instance page : Page fields edit := {
  key := "idle_pause";
  made := mk (Checkbox.mk false false) (idleSpinner 1) (idleSpinner 0) (idleSpinner 0) (idleSpinner 0) (Checkbox.mk false false);
  load := load; failed := onIdleToggled; reads_again := false;
  apply f := (f, onApply f); handle _ e f := Some (change e f, [])
}.

End Idle.

(** ** Stuck downloads *)

Module Stuck.

(** [action] is a choice: what it holds is what was given to it. *)
Record fields := mk {
  enabled : Checkbox.state; hours : Duration.state; max_progress : NumberField.state;
  action : Json.json; action_disabled : bool; label : TextField.state; remove_data : Checkbox.state;
  stuckWarning : bool
}.

(** [onStuckToggled] *)
Definition onStuckToggled (f : fields) : fields :=
  let on := Checkbox.getValue (enabled f) in
  let removing := match action f with Json.JPrim (PStr s) => bool_decide (s = "remove") | _ => false end in
  mk (enabled f) (Duration.setDisabled (negb on) (hours f)) (NumberField.setDisabled (negb on) (max_progress f))
     (action f) (negb on) (TextField.setDisabled (negb on || removing) (label f))
     (Checkbox.setDisabled (negb on || negb removing) (remove_data f))
     (on && removing && Checkbox.getValue (remove_data f)).

Definition with_enabled (f : fields) c := mk c (hours f) (max_progress f) (action f) (action_disabled f) (label f) (remove_data f) (stuckWarning f).
Definition with_action (f : fields) a := mk (enabled f) (hours f) (max_progress f) a (action_disabled f) (label f) (remove_data f) (stuckWarning f).
Definition with_remove (f : fields) c := mk (enabled f) (hours f) (max_progress f) (action f) (action_disabled f) (label f) c (stuckWarning f).

(** The two boxes, whose handler that is *)
Definition set_enabled (v : prim) (f : fields) : fields :=
  let '(c, fired) := Checkbox.setValue v (enabled f) in if fired then onStuckToggled (with_enabled f c) else with_enabled f c.
Definition set_remove (v : prim) (f : fields) : fields :=
  let '(c, fired) := Checkbox.setValue v (remove_data f) in if fired then onStuckToggled (with_remove f c) else with_remove f c.

(** [loadStuck]'s success *)
Definition load (settings : Json.json) (f : fields) : option fields :=
  settings ← Json.dict_of settings;
  let f := set_enabled (PBool (Json.is_true (Json.get "enabled" settings))) f in
  let f := mk (enabled f)
    (Duration.setValue (PNum (Json.number (Json.get "hours" settings) (of_Z 0))) (hours f))
    (NumberField.setValue (PNum (Json.number (Json.get "max_progress" settings) (of_Z 0))) (max_progress f))
    (Json.or (Json.get "action" settings) (jstr "pause")) (action_disabled f)
    (TextField.setValue (shown_text (Json.or (Json.get "label" settings) (jstr ""))) (label f))
    (remove_data f) (stuckWarning f) in
  Some (onStuckToggled (set_remove (PBool (Json.not_false (Json.get "remove_data" settings))) f)).

(** [onApply]; [Deluge.number] of the number the delay answers *)
Definition onApply (f : fields) : Json.dict :=
  [("enabled", jbool (Checkbox.getValue (enabled f)));
   ("hours", jnum (Deluge.number (PNum (Duration.getValue (hours f))) (of_Z 0)));
   ("max_progress", jnum (field_number (max_progress f) (of_Z 0)));
   ("action", Json.or (action f) (jstr "pause"));
   ("label", jstr (TextField.getValue (label f)));
   ("remove_data", jbool (Checkbox.getValue (remove_data f)))].

Inductive edit := Enabled (b : bool) | Days (s : string) | Hours (s : string) | PartChanged | MaxProgress (s : string)
  | Action (s : string) | Label (s : string) | RemoveData (b : bool).
Definition with_hours (f : fields) h := mk (enabled f) h (max_progress f) (action f) (action_disabled f) (label f) (remove_data f) (stuckWarning f).
Definition change (e : edit) (f : fields) : fields :=
  let h := hours f in
  match e with
  | Enabled b => set_enabled (PBool b) f
  | Days s => with_hours f (Duration.mk (typed s (Duration.days h)) (Duration.hours h) (Duration.lastValue h) (Duration.disabled h))
  | Hours s => with_hours f (Duration.mk (Duration.days h) (typed s (Duration.hours h)) (Duration.lastValue h) (Duration.disabled h))
  | PartChanged => with_hours f (Duration.onPartChanged h).1
  | MaxProgress s => mk (enabled f) h (typed s (max_progress f)) (action f) (action_disabled f) (label f) (remove_data f) (stuckWarning f)
  | Action s => onStuckToggled (with_action f (jstr s))
  | Label s => mk (enabled f) h (max_progress f) (action f) (action_disabled f) (TextField.setValue s (label f)) (remove_data f) (stuckWarning f)
  | RemoveData b => set_remove (PBool b) f
  end.

(** The hint of the empty label is translated. *)
Definition made (tr : string -> string) : fields :=
  mk (Checkbox.mk false false) Duration.create (Idle.idleSpinner 0) (jstr "pause") false
     (TextField.mk (tr "leave its label alone") "" false) (Checkbox.mk false false) false.

#[global] Instance page (tr : string -> string) : Page fields edit := {
  key := "stuck"; made := made tr; load := load; failed f := f; reads_again := true;
  apply f := (f, onApply f); handle _ e f := Some (change e f, [])
}.

End Stuck.

(** ** The schedule *)

Module Scheduler.

(** [grid], by hour and day, and the classes each cell of the table has. *)
Record fields := mk {
  enabled : Checkbox.state; grid : list (list num); cells : list (list (list string));
  low_down : NumberField.state; low_up : NumberField.state; low_active : NumberField.state;
  low_active_down : NumberField.state; low_active_up : NumberField.state
}.

Definition STATES : num := of_Z 3.

Definition state_class (state : num) : string := "x-deluge-schedule-" +:+ num_str state.

(** [paintCell] *)
Definition paintCell (state : num) (classes : list string) : list string :=
  let classes := filter (fun c => c ∉ map state_class [of_Z 0; of_Z 1; of_Z 2]) classes in
  if decide (state_class state ∈ classes) then classes else classes ++ [state_class state].

(** [repaint] *)
Definition repaint (f : fields) : fields :=
  mk (enabled f) (grid f) (zip_with (zip_with paintCell) (grid f) (cells f))
     (low_down f) (low_up f) (low_active f) (low_active_down f) (low_active_up f).

(** [initComponent] and [gridHtml]; a limit is a spinner at -1. *)
Definition limit (precision : nat) : NumberField.state := spinner precision (of_Z (-1)) max_value (pint (-1)).
Definition made : fields :=
  mk (Checkbox.mk false false) (replicate 24 (replicate 7 (of_Z 0))) (replicate 24 (replicate 7 [state_class (of_Z 0)]))
     (limit 1) (limit 1) (limit 0) (limit 0) (limit 0).

(** [v[n]] of what is not null or undefined; a character of a string is not
    told from nothing, since only a number counts. *)
Definition item (n : nat) (v : Json.json) : Json.json :=
  match v with
  | Json.JArr l => default Json.undef (l !! n)
  | Json.JObj o => Json.get (nat_str (Z.of_nat n)) o
  | _ => Json.undef
  end.

(** A cell as it is stored, zero where there is none, within the states *)
Definition stored_state (stored : Json.json) (hour day : nat) : num :=
  let value := if Json.truthy stored && Json.truthy (item hour stored)
               then match item day (item hour stored) with jnum n => n | _ => of_Z 0 end
               else of_Z 0 in
  num_rem value STATES.

(** [onGotConfig], of the dictionary under [scheduler] *)
Definition load (settings : Json.json) (f : fields) : option fields :=
  settings ← Json.dict_of settings;
  let limit_of k g := give (Json.value (Json.get k settings) (jint (-1))) g in
  let stored := Json.get "button_state" settings in
  Some (repaint (mk
    (Checkbox.setValue (PBool (Json.is_true (Json.get "enabled" settings))) (enabled f)).1
    (map (fun hour => map (stored_state stored hour) (seq 0 7)) (seq 0 24)) (cells f)
    (limit_of "low_down" (low_down f)) (limit_of "low_up" (low_up f)) (limit_of "low_active" (low_active f))
    (limit_of "low_active_down" (low_active_down f)) (limit_of "low_active_up" (low_active_up f)))).

(** [onCellClick] on a cell of the table *)
Definition onCellClick (hour day : nat) (f : fields) : option fields :=
  row ← grid f !! hour; state ← row !! day;
  classes ← cells f !! hour; cell ← classes !! day;
  let next := num_rem (num_add state (of_Z 1)) STATES in
  Some (mk (enabled f) (<[hour := <[day := next]> row]> (grid f)) (<[hour := <[day := paintCell next cell]> classes]> (cells f))
          (low_down f) (low_up f) (low_active f) (low_active_down f) (low_active_up f)).

(** [onApply], which [onOk] calls *)
Definition onApply (f : fields) : Json.dict :=
  let number g := jnum (field_number g (of_Z (-1))) in
  [("enabled", jbool (Checkbox.getValue (enabled f)));
   ("button_state", Json.JArr (map (fun row => Json.JArr (map (fun n => jnum n) row)) (grid f)));
   ("low_down", number (low_down f)); ("low_up", number (low_up f)); ("low_active", number (low_active f));
   ("low_active_down", number (low_active_down f)); ("low_active_up", number (low_active_up f))].

Inductive edit := Cell (hour day : nat) | Enabled (b : bool) | LowDown (s : string) | LowUp (s : string)
  | LowActive (s : string) | LowActiveDown (s : string) | LowActiveUp (s : string).
Definition change (e : edit) (f : fields) : option fields :=
  let '(mk c g k d u a ad au) := f in
  match e with
  | Cell hour day => onCellClick hour day f
  | Enabled b => Some (mk (Checkbox.setValue (PBool b) c).1 g k d u a ad au)
  | LowDown s => Some (mk c g k (typed s d) u a ad au)
  | LowUp s => Some (mk c g k d (typed s u) a ad au)
  | LowActive s => Some (mk c g k d u (typed s a) ad au)
  | LowActiveDown s => Some (mk c g k d u a (typed s ad) au)
  | LowActiveUp s => Some (mk c g k d u a ad (typed s au))
  end.

#[global] Instance page : Page fields edit := {
  key := "scheduler"; made := made; load := load; failed f := f; reads_again := false;
  apply f := (f, onApply f); handle _ e f := f ← change e f; Some (f, [])
}.

End Scheduler.

(** ** The block list *)

Module Blocklist.

Inductive status := NotLoaded | NeverFetched | Fetched (size last : num) | FetchingSoon.

Record fields := mk {
  settings : option Json.dict; enabled : Checkbox.state; url : TextField.state;
  check_after_days : NumberField.state; timeout : NumberField.state; try_times : NumberField.state;
  whitelisted : string; line : status
}.

Definition made : fields :=
  mk None (Checkbox.mk false false) (TextField.mk "" "" false)
     (spinner 0 (of_Z 0) max_value PUndef) (spinner 0 (of_Z 1) max_value PUndef) (spinner 0 (of_Z 1) max_value PUndef)
     "" NotLoaded.

(** [onGotConfig], of the dictionary under [blocklist]; [join] is one of
    arrays. *)
Definition load (stored : Json.json) (f : fields) : option fields :=
  stored ← Json.dict_of stored;
  lines ← match Json.or (Json.get "whitelisted" stored) (Json.JArr []) with Json.JArr l => Some l | _ => None end;
  let last := to_num (Json.or (Json.get "last_update" stored) (jint 0)) in
  let size := to_num (Json.or (Json.get "list_size" stored) (jint 0)) in
  Some (mk (Some stored)
    (Checkbox.setValue (PBool (Json.is_true (Json.get "enabled" stored))) (enabled f)).1
    (TextField.setValue (shown_text (Json.value (Json.get "url" stored) (jstr ""))) (url f))
    (give (Json.value (Json.get "check_after_days" stored) (jint 4)) (check_after_days f))
    (give (Json.value (Json.get "timeout" stored) (jint 180)) (timeout f))
    (give (Json.value (Json.get "try_times" stored) (jint 3)) (try_times f))
    (TextArea.line_feeds (join (String.String (chr 10) "")
       (map (fun v => match v with Json.JPrim (PUndef | PNull) => "" | _ => Json.str v end) lines)))
    (if num_ltb (of_Z 0) last then Fetched size last else NeverFetched)).

(** [write]: the dictionary kept with the changes over it *)
Definition write (changes : Json.dict) (f : fields) : fields * Json.dict :=
  let s := Ext.apply (Ext.apply [] (default [] (settings f))) changes in
  (mk (Some s) (enabled f) (url f) (check_after_days f) (timeout f) (try_times f) (whitelisted f) (line f), s).

(** The lines of the addresses that are never blocked *)
Definition lines (s : string) : list string :=
  filter (fun l => 0 < String.length l) (map trim (split_on (chr 10) s)).

(** [onApply], which [onOk] calls *)
Definition onApply (f : fields) : fields * Json.dict :=
  write [("enabled", jbool (Checkbox.getValue (enabled f))); ("url", jstr (TextField.getValue (url f)));
         ("check_after_days", jnum (field_number (check_after_days f) (of_Z 4)));
         ("timeout", jnum (field_number (timeout f) (of_Z 180))); ("try_times", jnum (field_number (try_times f) (of_Z 3)));
         ("whitelisted", Json.JArr (map (fun l => jstr l) (lines (whitelisted f))))] f.

(** [onFetchNow] *)
Definition with_line (f : fields) (l : status) : fields :=
  mk (settings f) (enabled f) (url f) (check_after_days f) (timeout f) (try_times f) (whitelisted f) l.
Definition onFetchNow (loaded : bool) (f : fields) : fields * list Json.dict :=
  if loaded then
    let '(f, s) := onApply f in
    let '(f, s') := write [("last_update", jint 0)] f in
    (with_line f FetchingSoon, [s; s'])
  else (f, []).

Inductive edit := FetchNow | Enabled (b : bool) | Url (s : string) | Days (s : string) | Timeout (s : string)
  | TryTimes (s : string) | Whitelisted (s : string).
Definition change (loaded : bool) (e : edit) (f : fields) : fields * list Json.dict :=
  let '(mk s c u d t n w l) := f in
  match e with
  | FetchNow => onFetchNow loaded f
  | Enabled b => (mk s (Checkbox.setValue (PBool b) c).1 u d t n w l, [])
  | Url x => (mk s c (TextField.setValue x u) d t n w l, [])
  | Days x => (mk s c u (typed x d) t n w l, [])
  | Timeout x => (mk s c u d (typed x t) n w l, [])
  | TryTimes x => (mk s c u d t (typed x n) w l, [])
  | Whitelisted x => (mk s c u d t n (TextArea.line_feeds x) l, [])
  end.

#[global] Instance page : Page fields edit := {
  key := "blocklist"; made := made; load := load; failed f := f; reads_again := false;
  apply := onApply; handle loaded e f := Some (change loaded e f)
}.

End Blocklist.

(** ** The country database *)

Module CountryDb.

Record fields := mk { enabled : Checkbox.state; url : TextField.state; lastDownloaded : option num }.

(** [setDatabaseEnabled] and [onDatabaseToggled] *)
Definition setDatabaseEnabled (on : bool) (f : fields) : fields :=
  mk (enabled f) (TextField.setDisabled (negb on) (url f)) (lastDownloaded f).
Definition onDatabaseToggled (f : fields) : fields := setDatabaseEnabled (Checkbox.getValue (enabled f)) f.

Definition set_enabled (v : prim) (f : fields) : fields :=
  let '(c, fired) := Checkbox.setValue v (enabled f) in
  let f := mk c (url f) (lastDownloaded f) in if fired then onDatabaseToggled f else f.

Definition made : fields := setDatabaseEnabled false (mk (Checkbox.mk false false) (TextField.mk "" "" false) None).

(** [onPageShow]'s success *)
Definition load (settings : Json.json) (f : fields) : option fields :=
  settings ← Json.dict_of settings;
  let f := set_enabled (PBool (Json.is_true (Json.get "enabled" settings))) f in
  let last := to_num (Json.or (Json.get "last_update" settings) (jint 0)) in
  Some (onDatabaseToggled (mk (enabled f)
    (TextField.setValue (shown_text (Json.value (Json.get "url" settings) (jstr ""))) (url f))
    (if num_ltb (of_Z 0) last then Some last else None))).

(** [onApply] *)
Definition onApply (f : fields) : Json.dict :=
  [("enabled", jbool (Checkbox.getValue (enabled f))); ("url", jstr (TextField.getValue (url f)))].

Inductive edit := Enabled (b : bool) | Url (s : string).
Definition change (e : edit) (f : fields) : fields :=
  match e with
  | Enabled b => set_enabled (PBool b) f
  | Url s => mk (enabled f) (TextField.setValue s (url f)) (lastDownloaded f)
  end.

#[global] Instance page : Page fields edit := {
  key := "countrydb"; made := made; load := load; failed := onDatabaseToggled; reads_again := false;
  apply f := (f, onApply f); handle _ e f := Some (change e f, [])
}.

(** [is_stale] of the daemon, over the stored dictionary: a key that is missing
    has its default. *)
Definition is_stale (settings : Json.dict) (now : num) : bool :=
  let days := match oget "check_after_days" settings with Some (jnum n) => n | _ => of_Z 7 end in
  let last := match oget "last_update" settings with Some (jnum n) => n | _ => of_Z 0 end in
  if num_leb days (of_Z 0) then false
  else if num_leb last (of_Z 0) then true
  else num_leb (num_mul days (of_Z 86400)) (num_sub now last).

End CountryDb.

(** ** Notifications *)

Module Notifications.

(** A row of the store, each field of its type. *)
Record row := mkr { r_enabled : prim; r_kind : prim; r_url : prim; r_token : prim }.

(** [timeout] and [tryTimes] are kept for writing back; [pollFor] is how often
    a test is still asked about, and [timers] and [calls] are the ones set and in
    flight that do. *)
Record fields := mk {
  enabled : Checkbox.state; finishedBox : Checkbox.state; errorBox : Checkbox.state;
  addedBox : Checkbox.state; trackerBox : Checkbox.state;
  rows : list row; timeout : Json.json; tryTimes : Json.json; result : string;
  pollFor : Z; timers : nat; calls : nat
}.

Definition made : fields :=
  let box := Checkbox.mk false false in mk box box box box box [] Json.undef Json.undef "" 0 0 0.

(** The record of a row, as the store's reader converts it; an object given is
    converted by its text. *)
Definition record (enabled kind url token : Json.json) : row :=
  mkr (Field.convert Field.BOOL (Json.prim_of enabled)) (Field.convert Field.STRING (Json.prim_of kind))
      (Field.convert Field.STRING (Json.prim_of url)) (Field.convert Field.STRING (Json.prim_of token)).

(** [onGotConfig]; a row of nothing throws. *)
Definition endpoint_row (e : Json.json) : option row :=
  enabled ← Json.prop "enabled" e; kind ← Json.prop "kind" e; url ← Json.prop "url" e; token ← Json.prop "token" e;
  Some (record (jbool (Json.not_false enabled)) (Json.value kind (jstr "discord")) (Json.value url (jstr ""))
          (Json.value token (jstr ""))).
Definition load (settings : Json.json) (f : fields) : option fields :=
  settings ← Json.dict_of settings;
  let box b g := (Checkbox.setValue (PBool b) g).1 in
  endpoints ← match Json.or (Json.get "endpoints" settings) (Json.JArr []) with Json.JArr l => Some l | _ => None end;
  rows ← mapM endpoint_row endpoints;
  Some (mk (box (Json.is_true (Json.get "enabled" settings)) (enabled f))
    (box (Json.not_false (Json.get "on_finished" settings)) (finishedBox f))
    (box (Json.not_false (Json.get "on_error" settings)) (errorBox f))
    (box (Json.is_true (Json.get "on_added" settings)) (addedBox f))
    (box (Json.is_true (Json.get "on_tracker" settings)) (trackerBox f))
    rows (Json.value (Json.get "timeout" settings) (jint 15)) (Json.value (Json.get "try_times" settings) (jint 3))
    (Json.str (Json.or (Json.get "last_test" settings) (jstr ""))) (pollFor f) (timers f) (calls f)).

(** What [apply] makes of a row, nothing of one without an address *)
Definition endpoint (r : row) : option Json.json :=
  let url := trim (if truthy (r_url r) then to_str (r_url r) else "") in
  if decide (url = "") then None
  else Some (Json.JObj [("enabled", jbool (strict_eq (r_enabled r) (PBool true)));
    ("kind", if truthy (r_kind r) then Json.JPrim (r_kind r) else jstr "discord"); ("url", jstr url);
    ("token", if truthy (r_token r) then Json.JPrim (r_token r) else jstr "")]).

(** [apply(test)], of a page that was shown *)
Definition written (test : bool) (f : fields) : Json.dict :=
  [("enabled", jbool (Checkbox.getValue (enabled f))); ("on_finished", jbool (Checkbox.getValue (finishedBox f)));
   ("on_error", jbool (Checkbox.getValue (errorBox f))); ("on_added", jbool (Checkbox.getValue (addedBox f)));
   ("on_tracker", jbool (Checkbox.getValue (trackerBox f))); ("endpoints", Json.JArr (omap endpoint (rows f)));
   ("timeout", Json.value (timeout f) (jint 15)); ("try_times", Json.value (tryTimes f) (jint 3)); ("test", jbool test)].

(** [onAddEndpoint] and [onRemoveEndpoint] of the row selected *)
Definition with_rows (f : fields) (l : list row) : fields :=
  mk (enabled f) (finishedBox f) (errorBox f) (addedBox f) (trackerBox f) l (timeout f) (tryTimes f) (result f)
     (pollFor f) (timers f) (calls f).
Definition onAddEndpoint (f : fields) : fields :=
  with_rows f (rows f ++ [mkr (PBool true) (PStr "discord") (PStr "") (PStr "")]).
Definition onRemoveEndpoint (selected : option nat) (f : fields) : fields :=
  match selected with Some i => with_rows f (delete i (rows f)) | None => f end.

(** The test: [onSendTest], then [pollTest] when its timer goes off, and the
    answers to it *)
Definition polling (f : fields) (r : string) (p : Z) (t c : nat) : fields :=
  mk (enabled f) (finishedBox f) (errorBox f) (addedBox f) (trackerBox f) (rows f) (timeout f) (tryTimes f) r p t c.
Definition onSendTest (tr : string -> string) (loaded : bool) (f : fields) : fields * list Json.dict :=
  (polling f (tr "Sending...") 10 (S (timers f)) (calls f), if loaded then [written true f] else []).
Definition pollTest (f : fields) : option fields :=
  match timers f with O => None | S t => Some (polling f (result f) (pollFor f) t (S (calls f))) end.
Definition onTested (tr : string -> string) (settings : Json.json) (f : fields) : option fields :=
  match calls f with
  | O => None
  | S c =>
      settings ← Json.dict_of settings;
      let test := Json.is_true (Json.get "test" settings) in
      let p := if test then (pollFor f - 1)%Z else pollFor f in
      if test && (0 <? pollFor f)%Z then Some (polling f (result f) p (S (timers f)) c)
      else Some (polling f (Json.str (Json.or (Json.get "last_test" settings) (jstr (tr "No answer from the daemon")))) p (timers f) c)
  end.
Definition onTestFailed (tr : string -> string) (f : fields) : option fields :=
  match calls f with O => None | S c => Some (polling f (tr "No answer from the daemon") (pollFor f) (timers f) c) end.

Inductive edit := Box (i : nat) (b : bool) | AddEndpoint | RemoveEndpoint (selected : option nat)
  | Edit (i : nat) (r : row) | SendTest | Timer | Tested (settings : Json.json) | TestFailed.
Definition change (tr : string -> string) (loaded : bool) (e : edit) (f : fields) : option (fields * list Json.dict) :=
  let box b g := (Checkbox.setValue (PBool b) g).1 in
  match e with
  | Box i b =>
      let at_ j g := if decide (i = j) then box b g else g in
      Some (mk (at_ 0 (enabled f)) (at_ 1 (finishedBox f)) (at_ 2 (errorBox f)) (at_ 3 (addedBox f)) (at_ 4 (trackerBox f))
              (rows f) (timeout f) (tryTimes f) (result f) (pollFor f) (timers f) (calls f), [])
  | AddEndpoint => Some (onAddEndpoint f, [])
  | RemoveEndpoint i => Some (onRemoveEndpoint i f, [])
  | Edit i r => Some (with_rows f (<[i := r]> (rows f)), [])
  | SendTest => Some (onSendTest tr loaded f)
  | Timer => f ← pollTest f; Some (f, [])
  | Tested s => f ← onTested tr s f; Some (f, [])
  | TestFailed => f ← onTestFailed tr f; Some (f, [])
  end.

#[global] Instance page (tr : string -> string) : Page fields edit := {
  key := "webhook"; made := made; load := load; failed f := f; reads_again := false;
  apply f := (f, written false f); handle := change tr
}.

End Notifications.

(** ** Nothing is written before a page is shown *)

#[export] Instance space_guarded : Guarded Space.fields Space.edit.
Proof. constructor. by intros e f f' ss [= <- <-]. Qed.
#[export] Instance idle_guarded : Guarded Idle.fields Idle.edit.
Proof. constructor. by intros e f f' ss [= <- <-]. Qed.
#[export] Instance stuck_guarded tr : @Guarded _ _ (Stuck.page tr).
Proof. constructor. by intros e f f' ss [= <- <-]. Qed.
#[export] Instance scheduler_guarded : Guarded Scheduler.fields Scheduler.edit.
Proof. constructor. intros e f f' ss. cbn. destruct (Scheduler.change e f); [|done]. by intros [= <- <-]. Qed.
#[export] Instance blocklist_guarded : Guarded Blocklist.fields Blocklist.edit.
Proof. constructor. intros e [] f' ss. by destruct e; intros [= <- <-]. Qed.
#[export] Instance countrydb_guarded : Guarded CountryDb.fields CountryDb.edit.
Proof. constructor. by intros e f f' ss [= <- <-]. Qed.
#[export] Instance notifications_guarded tr : @Guarded _ _ (Notifications.page tr).
Proof.
  constructor. intros e f f' ss. destruct e; cbn;
    repeat match goal with |- context [?x ≫= _] => destruct x; cbn end; try done; by intros [= <- <-].
Qed.

(** ** What is read is written back *)

Lemma give_number z f d : (Z.abs z < 2 ^ 52)%Z -> field_number (NumberField.setValue (pint z) f) d = of_Z z.
Proof. intros Hz. unfold field_number. rewrite number_field_roundtrip by done. apply number_int. unfold safe. lia. Qed.

Lemma to_num_int z : to_num (jint z) = of_Z z.
Proof. done. Qed.

Lemma gib_value : Space.gib = of_Z (2 ^ 30).
Proof. vm_compute. reflexivity. Qed.

(** Whole gibibytes are shown and stored exactly. *)
Lemma toGiB_int g d : (0 <= g < 2 ^ 20)%Z -> Space.toGiB (jint (g * 2 ^ 30)) d = of_Z g.
Proof.
  intros Hg. unfold Space.toGiB. rewrite to_num_int, gib_value, is_finite_of_Z, ltb_of_Z by (unfold safe; lia).
  cbn [negb orb]. rewrite (proj2 (Z.ltb_ge _ 0)) by lia. rewrite num_div_of_Z, num_mul_of_Z, num_round_of_Z, num_div_of_Z by lia. done.
Qed.

Lemma of_gib g : (0 <= g < 2 ^ 20)%Z -> num_round (num_mul (of_Z g) Space.gib) = of_Z (g * 2 ^ 30).
Proof. intros Hg. rewrite gib_value, num_mul_of_Z, num_round_of_Z by lia. done. Qed.

Lemma get_here k v o : Json.get k ((k, v) :: o) = v.
Proof. unfold Json.get. cbn [oget]. by rewrite decide_True. Qed.

Lemma get_next k k' v o : k <> k' -> Json.get k ((k', v) :: o) = Json.get k o.
Proof. intros Hk. unfold Json.get. cbn [oget]. by rewrite decide_False. Qed.

Ltac gets := repeat (rewrite get_here || rewrite get_next by discriminate).

Lemma is_true_bool b : Json.is_true (jbool b) = b.
Proof. by destruct b. Qed.

Lemma not_false_bool b : Json.not_false (jbool b) = b.
Proof. by destruct b. Qed.

(** A dictionary of which just what is shown is written. *)
Lemma shown_written o e w : Json.within e o -> w = e -> Json.within e w /\ Json.within w o.
Proof. by intros Ho ->. Qed.

(** *** Free space, in whole gibibytes *)

Lemma space_checked v f : Checkbox.getValue (Space.enabled (Space.set_enabled v f)) = Checkbox.is_checked v.
Proof. unfold Space.set_enabled, Checkbox.setValue. by destruct (negb _). Qed.

#[global, refine] Instance space_settings : Settings Space.fields Space.edit := {
  settings := bool * Z * Z;
  encode '(on, min, resume) := [("enabled", jbool on); ("min_free", jint (min * 2 ^ 30)); ("resume_free", jint (resume * 2 ^ 30))];
  fits _ '(on, min, resume) := (0 <= min < 2 ^ 20)%Z /\ (0 <= resume < 2 ^ 20)%Z
}.
Proof.
  intros [[on min] resume] o f [Hm Hr] _ Ho. eexists. split; [reflexivity|]. eapply shown_written; [exact Ho|].
  cbn [apply Space.page snd]. unfold Space.onApply. rewrite !(within_get _ _ _ Ho) by (eexists; reflexivity). gets.
  rewrite !toGiB_int, not_false_bool by done.
  cbn [Space.onSpaceToggled Space.enabled Space.min_free Space.resume_free]. rewrite space_checked.
  change (field_number (NumberField.setDisabled ?b ?g) ?d) with (field_number g d).
  by rewrite !give_number, !of_gib by lia.
Defined.

(** *** Idle downloads, in whole minutes and kibibytes *)

Lemma idle_checked v f : Checkbox.getValue (Idle.enabled (Idle.set_enabled v f)) = Checkbox.is_checked v.
Proof. unfold Idle.set_enabled, Checkbox.setValue. by destruct (negb _). Qed.

Lemma minutes_int m : (0 <= m < 2 ^ 40)%Z -> Idle.minutes (jint (m * 60)) = of_Z m.
Proof. intros Hm. unfold Idle.minutes. rewrite to_num_int, num_div_of_Z, num_round_of_Z by lia. done. Qed.

#[global, refine] Instance idle_settings : Settings Idle.fields Idle.edit := {
  settings := bool * bool * (Z * Z * Z * Z);
  encode '(on, queued, (rate, grace, pause, active)) :=
    [("enabled", jbool on); ("inactive_rate", jint (rate * 1024)); ("grace", jint (grace * 60)); ("pause_for", jint (pause * 60));
     ("min_active", jint active); ("only_when_queued", jbool queued)];
  fits _ '(on, queued, (rate, grace, pause, active)) :=
    Forall (fun z => 0 <= z < 2 ^ 40)%Z [rate; grace; pause; active]
}.
Proof.
  intros [[on queued] [[[rate grace] pause] active]] o f Hf _ Ho.
  apply Forall_cons in Hf as [Hr Hf]. apply Forall_cons in Hf as [Hg Hf]. apply Forall_cons in Hf as [Hp Hf].
  apply Forall_cons in Hf as [Ha _].
  eexists. split; [reflexivity|]. eapply shown_written; [exact Ho|].
  cbn [apply Idle.page snd]. unfold Idle.onApply. rewrite !(within_get _ _ _ Ho) by (eexists; reflexivity). gets.
  change (Json.value (jint ?z) ?d) with (jint z). rewrite !minutes_int, to_num_int, num_div_of_Z, is_true_bool, not_false_bool by lia.
  cbn [Idle.onIdleToggled Idle.enabled Idle.inactive_rate Idle.grace Idle.pause_for Idle.min_active Idle.only_when_queued].
  rewrite idle_checked. change (field_number (NumberField.setDisabled ?b ?g) ?d) with (field_number g d).
  unfold give. cbn [Json.prim_of].
  rewrite !give_number, !num_mul_of_Z, num_round_of_Z by lia. done.
Defined.

(** *** Stuck downloads *)

Lemma stuck_checked v f : Checkbox.getValue (Stuck.enabled (Stuck.set_enabled v f)) = Checkbox.is_checked v.
Proof. unfold Stuck.set_enabled, Checkbox.setValue. by destruct (negb _). Qed.

Lemma stuck_hours f b : Duration.getValue (Duration.setDisabled b f) = Duration.getValue f.
Proof. unfold Duration.getValue. reflexivity. Qed.

Lemma stuck_remove v f :
  let f' := Stuck.set_remove v f in
  Checkbox.getValue (Stuck.remove_data f') = Checkbox.is_checked v /\
  Checkbox.getValue (Stuck.enabled f') = Checkbox.getValue (Stuck.enabled f) /\
  Duration.getValue (Stuck.hours f') = Duration.getValue (Stuck.hours f) /\
  NumberField.getValue (Stuck.max_progress f') = NumberField.getValue (Stuck.max_progress f) /\
  Stuck.action f' = Stuck.action f /\ TextField.getValue (Stuck.label f') = TextField.getValue (Stuck.label f).
Proof.
  cbv zeta. unfold Stuck.set_remove, Checkbox.setValue. destruct (negb _); [|repeat split].
  unfold Stuck.onStuckToggled. cbn [Stuck.enabled Stuck.hours Stuck.max_progress Stuck.action Stuck.label Stuck.remove_data Stuck.with_remove].
  rewrite stuck_hours. repeat split.
Qed.

Lemma or_str s d : s <> "" -> Json.or (jstr s) d = jstr s.
Proof. intros Hs. unfold Json.or, Json.truthy, truthy. by rewrite bool_decide_eq_false_2. Qed.

Lemma shown_or_empty s : shown_text (Json.or (jstr s) (jstr "")) = s.
Proof.
  destruct (decide (s = "")) as [-> |Hs]; [done|]. rewrite or_str by done. unfold shown_text, Json.isEmpty.
  by rewrite bool_decide_eq_false_2.
Qed.

#[global, refine] Instance stuck_settings tr : @Settings _ _ (Stuck.page tr) := {
  settings := bool * bool * Z * Z * string * string;
  encode '(on, remove, hours, progress, action, label) :=
    [("enabled", jbool on); ("hours", jint hours); ("max_progress", jint progress); ("action", jstr action);
     ("label", jstr label); ("remove_data", jbool remove)];
  fits f '(on, remove, hours, progress, action, label) :=
    (0 <= hours <= 87600)%Z /\ (0 <= progress <= 100)%Z /\ action <> "" /\ line label /\
    label <> TextField.emptyText (Stuck.label f)
}.
Proof.
  intros [[[[[on remove] hours] progress] action] label] o f (Hh & Hp & Ha & Hl & Hne) _ Ho.
  eexists. split; [reflexivity|]. eapply shown_written; [exact Ho|].
  cbn [apply Stuck.page snd]. unfold Stuck.onApply. rewrite !(within_get _ _ _ Ho) by (eexists; reflexivity). gets.
  rewrite not_false_bool, is_true_bool, shown_or_empty, (or_str action) by done.
  cbn [Json.number]. rewrite !number_int by (unfold safe; lia).
  set (f1 := Stuck.set_enabled _ f). set (f2 := Stuck.mk (Stuck.enabled f1) _ _ _ _ _ _ _).
  destruct (stuck_remove (PBool remove) f2) as (H1 & H2 & H3 & H4 & H5 & H6).
  set (f3 := Stuck.set_remove (PBool remove) f2) in *.
  cbn [Stuck.onStuckToggled Stuck.enabled Stuck.hours Stuck.max_progress Stuck.action Stuck.label Stuck.remove_data].
  unfold field_number. change (NumberField.getValue (NumberField.setDisabled ?b ?g)) with (NumberField.getValue g).
  change (TextField.getValue (TextField.setDisabled ?b ?g)) with (TextField.getValue g).
  change (Checkbox.getValue (Checkbox.setDisabled ?b ?g)) with (Checkbox.getValue g).
  rewrite stuck_hours, H1, H2, H3, H4, H5, H6. unfold f2.
  cbn [Stuck.enabled Stuck.hours Stuck.max_progress Stuck.action Stuck.label Checkbox.is_checked].
  unfold f1. rewrite stuck_checked. cbn [Checkbox.is_checked].
  rewrite duration_value, number_field_roundtrip, !number_int, or_str by (done || unfold safe; lia).
  rewrite text_field_roundtrip; [done|done|]. left. unfold Stuck.set_enabled. by destruct (Checkbox.setValue _ _) as [c []].
Defined.

(** *** The schedule *)

Lemma map_seq {A B} (f : nat -> B) (g : A -> B) (l : list A) :
  (forall i x, l !! i = Some x -> f i = g x) -> map f (seq 0 (length l)) = map g l.
Proof.
  revert f. induction l as [|x l IH]; intros f Hf; [done|]. cbn [length seq map]. rewrite (Hf 0 x) by done.
  f_equal. rewrite <- seq_shift, map_map. apply IH. intros i y Hi. by apply Hf.
Qed.

(** A week of states, as it is stored *)
Definition stored_grid (g : list (list Z)) : Json.json := Json.JArr (map (fun row => Json.JArr (map (fun z => jint z) row)) g).
Definition week (g : list (list Z)) : Prop :=
  length g = 24 /\ Forall (fun row => length row = 7 /\ Forall (fun z => 0 <= z < 3)%Z row) g.

Lemma stored_cell g hour day row z :
  g !! hour = Some row -> row !! day = Some z -> (0 <= z < 2 ^ 53)%Z ->
  Scheduler.stored_state (stored_grid g) hour day = of_Z (z mod 3).
Proof.
  intros Hr Hz Hb. unfold Scheduler.stored_state, stored_grid. cbn [Scheduler.item Json.truthy].
  change (map ?f g) with (f <$> g). rewrite list_lookup_fmap, Hr. cbn [fmap option_fmap option_map default from_option andb Json.truthy].
  change (id ?x) with x. cbn [Json.truthy Scheduler.item]. change (map ?f row) with (f <$> row). rewrite list_lookup_fmap, Hz.
  cbn [fmap option_fmap option_map default from_option]. change (id ?x) with x. cbv beta iota. by apply num_rem_of_Z.
Qed.

Lemma stored_week g : week g ->
  map (fun hour => map (Scheduler.stored_state (stored_grid g) hour) (seq 0 7)) (seq 0 24) = map (map of_Z) g.
Proof.
  intros [Hl Hg]. rewrite <- Hl. apply map_seq. intros hour row Hr.
  rewrite Forall_lookup in Hg. destruct (Hg _ _ Hr) as [Hl7 Hz]. rewrite <- Hl7. apply map_seq. intros day z Hd.
  rewrite Forall_lookup in Hz. specialize (Hz _ _ Hd). rewrite (stored_cell g hour day row z) by (done || lia).
  by rewrite Z.mod_small.
Qed.

Lemma sent_week g : Json.JArr (map (fun row => Json.JArr (map (fun n => jnum n) row)) (map (map of_Z) g)) = stored_grid g.
Proof. unfold stored_grid. rewrite map_map. f_equal. apply map_ext. intros row. by rewrite map_map. Qed.

Lemma limit_given z f : (Z.abs z < 2 ^ 52)%Z -> field_number (give (Json.value (jint z) (jint (-1))) f) (of_Z (-1)) = of_Z z.
Proof. apply give_number. Qed.

#[global, refine] Instance scheduler_settings : Settings Scheduler.fields Scheduler.edit := {
  settings := bool * list (list Z) * (Z * Z * Z * Z * Z);
  encode '(on, g, (d, u, a, ad, au)) :=
    [("enabled", jbool on); ("button_state", stored_grid g); ("low_down", jint d); ("low_up", jint u); ("low_active", jint a);
     ("low_active_down", jint ad); ("low_active_up", jint au)];
  fits _ '(on, g, (d, u, a, ad, au)) := week g /\ Forall (fun z => Z.abs z < 2 ^ 52)%Z [d; u; a; ad; au]
}.
Proof.
  intros [[on g] [[[[d u] a] ad] au]] o f [Hg Hf] _ Ho. rewrite !Forall_cons in Hf. destruct Hf as (Hd & Hu & Ha & Had & Hau & _).
  assert (G : forall k v, oget k o = Some v -> Json.get k o = v) by (intros k v Hv; unfold Json.get; by rewrite Hv).
  cbn [load Scheduler.page]. unfold Scheduler.load. change (Json.dict_of (Json.JObj o)) with (Some o). cbn [mbind option_bind].
  rewrite (G "enabled" _ (Ho "enabled" _ eq_refl)), (G "button_state" _ (Ho "button_state" _ eq_refl)), (G "low_down" _ (Ho "low_down" _ eq_refl)),
    (G "low_up" _ (Ho "low_up" _ eq_refl)), (G "low_active" _ (Ho "low_active" _ eq_refl)), (G "low_active_down" _ (Ho "low_active_down" _ eq_refl)),
    (G "low_active_up" _ (Ho "low_active_up" _ eq_refl)).
  eexists. split; [reflexivity|]. eapply shown_written; [exact Ho|].
  cbn [apply Scheduler.page snd]. unfold Scheduler.onApply, Scheduler.repaint.
  cbn [Scheduler.enabled Scheduler.grid Scheduler.low_down Scheduler.low_up Scheduler.low_active Scheduler.low_active_down Scheduler.low_active_up].
  rewrite (stored_week g Hg), !limit_given, is_true_bool by done. unfold Checkbox.setValue. cbn [fst Checkbox.getValue Checkbox.checked Checkbox.is_checked].
  by rewrite sent_week.
Defined.

(** *** The country database: the two keys the page writes *)

Lemma country_checked v f : Checkbox.getValue (CountryDb.enabled (CountryDb.set_enabled v f)) = Checkbox.is_checked v.
Proof. unfold CountryDb.set_enabled, Checkbox.setValue. by destruct (negb _). Qed.

Lemma value_str s : shown_text (Json.value (jstr s) (jstr "")) = s.
Proof.
  unfold shown_text, Json.value, Json.isEmpty. destruct (decide (s = "")) as [-> |Hs]; [done|].
  by rewrite !bool_decide_eq_false_2.
Qed.

#[global, refine] Instance country_settings : Settings CountryDb.fields CountryDb.edit := {
  settings := bool * string;
  encode '(on, url) := [("enabled", jbool on); ("url", jstr url)];
  fits f '(on, url) := line url /\ (url <> TextField.emptyText (CountryDb.url f) \/ url = "")
}.
Proof.
  intros [on url] o f [Hl Hne] _ Ho. eexists. split; [reflexivity|]. eapply shown_written; [exact Ho|].
  cbn [apply CountryDb.page snd]. unfold CountryDb.onApply. rewrite !(within_get _ _ _ Ho) by (eexists; reflexivity). gets.
  rewrite is_true_bool, value_str.
  cbn [CountryDb.onDatabaseToggled CountryDb.setDatabaseEnabled CountryDb.enabled CountryDb.url].
  change (TextField.getValue (TextField.setDisabled ?b ?g)) with (TextField.getValue g).
  rewrite country_checked, text_field_roundtrip; [done|done|].
  unfold CountryDb.set_enabled. by destruct (Checkbox.setValue _ _) as [c []].
Defined.

(** *** The block list, with whatever else is under its key *)

Lemma join_has c sep ls : c <> sep -> Forall (fun l => str_has c l = false) ls -> str_has c (join (String.String sep "") ls) = false.
Proof.
  intros Hne H. unfold str_has in *. rewrite negb_false_iff. induction H as [|l ls Hl Hls IH]; [done|].
  rewrite negb_false_iff in Hl. destruct ls as [|m ls]; [done|].
  change (join _ _) with (l +:+ String.String sep "" +:+ join (String.String sep "") (m :: ls)).
  rewrite !str_all_app, Hl, IH. cbn [str_all]. rewrite bool_decide_eq_false_2 by congruence. done.
Qed.

(** The settings of the block list the page shows as they are. *)
Record block_settings (f : Blocklist.fields) (d : Json.dict) (on : bool) (url : string) (days timeout tries : Z) (ls : list string) : Prop := {
  bs_keys : oget "enabled" d = Some (jbool on) /\ oget "url" d = Some (jstr url) /\
    oget "check_after_days" d = Some (jint days) /\ oget "timeout" d = Some (jint timeout) /\
    oget "try_times" d = Some (jint tries) /\ oget "whitelisted" d = Some (Json.JArr (map (fun l => jstr l) ls));
  bs_url : line url /\ (url <> TextField.emptyText (Blocklist.url f) \/ url = "");
  bs_ints : Forall (fun z => Z.abs z < 2 ^ 52)%Z [days; timeout; tries];
  bs_lines : Forall (fun l => clean_line l /\ str_has (chr 13) l = false) ls
}.

Lemma write_within d o c : obj_ok o -> obj_ok c -> Json.within d o -> Forall (fun kv => oget kv.1 d = Some kv.2) c ->
  Json.within d (Ext.apply (Ext.apply [] o) c) /\ Json.within (Ext.apply (Ext.apply [] o) c) o.
Proof.
  intros Ho Hc Hd H.
  assert (G : forall k, oget k (Ext.apply (Ext.apply [] o) c) = match oget k c with Some v => Some v | None => oget k o end).
  { intros k. rewrite apply_get by done. destruct (oget k c); [done|]. rewrite apply_get by done. by destruct (oget k o). }
  assert (Hk : forall k v, oget k c = Some v -> oget k d = Some v).
  { intros k v Hv%oget_Some_elem. rewrite Forall_forall in H. exact (H _ Hv). }
  split; intros k v; rewrite G; destruct (oget k c) as [u|] eqn:E.
  - apply Hk in E. congruence.
  - apply Hd.
  - intros [= ->]. by apply Hd, Hk.
  - done.
Qed.

#[global, refine] Instance blocklist_settings : Settings Blocklist.fields Blocklist.edit := {
  settings := Json.dict;
  encode d := d;
  fits f d := exists on url days timeout tries ls, block_settings f d on url days timeout tries ls
}.
Proof.
  intros d o f (on & url & days & timeout & tries & ls & [Hk [Hu1 Hu2] Hi Hl]) Hok Ho.
  destruct Hk as (K1 & K2 & K3 & K4 & K5 & K6). rewrite !Forall_cons in Hi. destruct Hi as (I1 & I2 & I3 & _).
  assert (G : forall k v, oget k d = Some v -> Json.get k o = v) by (intros k v Hv; unfold Json.get; by rewrite (Ho k v Hv)).
  cbn [load Blocklist.page]. unfold Blocklist.load. change (Json.dict_of (Json.JObj o)) with (Some o). cbn [mbind option_bind].
  rewrite (G _ _ K1), (G _ _ K2), (G _ _ K3), (G _ _ K4), (G _ _ K5), (G _ _ K6).
  cbn [Json.or Json.truthy mbind option_bind]. eexists. split; [reflexivity|].
  cbn [apply Blocklist.page]. unfold Blocklist.onApply, Blocklist.write. cbn [snd Blocklist.settings default from_option].
  change (id o) with o. cbn [Blocklist.enabled Blocklist.url Blocklist.check_after_days Blocklist.timeout Blocklist.try_times Blocklist.whitelisted].
  rewrite is_true_bool, value_str, text_field_roundtrip by done.
  change (give (Json.value (jint ?z) ?v) ?g) with (NumberField.setValue (pint z) g). rewrite !give_number by done.
  rewrite map_map. change (map (fun l => match jstr l with Json.JPrim (PUndef | PNull) => "" | _ => Json.str (jstr l) end) ls) with (map id ls).
  assert (Hls : Blocklist.lines (TextArea.line_feeds (join (String.String (chr 10) "") ls)) = ls).
  { rewrite line_feeds_id; [apply clean_lines|apply join_has; [done|]]; by eapply Forall_impl; [exact Hl|intros x []]. }
  rewrite map_id, Hls. apply write_within; [done| |done|].
  - unfold obj_ok. cbn. repeat constructor; set_solver.
  - repeat constructor; cbn [fst snd]; assumption.
Defined.

(** *** The notifications *)

(** A destination: whether it is on, its service, address and token. *)
Definition destination := (bool * string * string * string)%type.
Definition stored_endpoint (d : destination) : Json.json :=
  let '(on, kind, url, token) := d in
  Json.JObj [("enabled", jbool on); ("kind", jstr kind); ("url", jstr url); ("token", jstr token)].
Definition endpoint_row (d : destination) : Notifications.row :=
  let '(on, kind, url, token) := d in Notifications.mkr (PBool on) (PStr kind) (PStr url) (PStr token).
Definition filled (d : destination) : Prop := let '(_, kind, url, _) := d in kind <> "" /\ url <> "" /\ trim url = url.

Lemma row_of_endpoint d : filled d -> Notifications.endpoint_row (stored_endpoint d) = Some (endpoint_row d).
Proof.
  destruct d as [[[on kind] url] token]. intros (Hk & Hu & _). unfold Notifications.endpoint_row, stored_endpoint. cbn [Json.prop].
  gets. cbn [mbind option_bind]. rewrite not_false_bool.
  assert (V : forall s d, (s = "" -> d = jstr "") -> Json.value (jstr s) d = jstr s).
  { intros s d Hs. unfold Json.value, Json.isEmpty. case_bool_decide as E; [|done]. by rewrite E, Hs. }
  rewrite !V by done. unfold Notifications.record, endpoint_row. cbn [Json.prim_of]. f_equal. f_equal. by destruct on.
Qed.

Lemma endpoint_of_row d : filled d -> Notifications.endpoint (endpoint_row d) = Some (stored_endpoint d).
Proof.
  destruct d as [[[on kind] url] token]. intros (Hk & Hu & Ht). unfold Notifications.endpoint, endpoint_row, stored_endpoint.
  cbn [Notifications.r_enabled Notifications.r_kind Notifications.r_url Notifications.r_token truthy].
  rewrite !(bool_decide_eq_false_2 (kind = "")), !(bool_decide_eq_false_2 (url = "")) by done. cbn [negb to_str].
  rewrite Ht, decide_False by done. f_equal. f_equal. f_equal; [by destruct on|]. do 3 f_equal.
  f_equal. case_bool_decide as E; [by rewrite E|done].
Qed.

Lemma rows_read ds : Forall filled ds -> mapM Notifications.endpoint_row (map stored_endpoint ds) = Some (map endpoint_row ds).
Proof. intros H. induction H as [|d ds Hd _ IH]; [done|]. cbn [map mapM mbind option_bind]. by rewrite row_of_endpoint, IH. Qed.

Lemma rows_written ds : Forall filled ds -> omap Notifications.endpoint (map endpoint_row ds) = map stored_endpoint ds.
Proof. intros H. induction H as [|d ds Hd _ IH]; [done|]. cbn [map]. cbn [omap list_omap]. rewrite endpoint_of_row by done. by rewrite <- IH. Qed.

#[global, refine] Instance notifications_settings tr : @Settings _ _ (Notifications.page tr) := {
  settings := bool * bool * bool * bool * bool * list destination * Z * Z;
  encode '(on, finished, error, added, tracker, ds, timeout, tries) :=
    [("enabled", jbool on); ("on_finished", jbool finished); ("on_error", jbool error); ("on_added", jbool added);
     ("on_tracker", jbool tracker); ("endpoints", Json.JArr (map stored_endpoint ds)); ("timeout", jint timeout);
     ("try_times", jint tries); ("test", jbool false)];
  fits _ '(_, ds, _, _) := Forall filled ds
}.
Proof.
  intros [[[[[[[on finished] error] added] tracker] ds] timeout] tries] o f Hds _ Ho.
  assert (G : forall k v, oget k o = Some v -> Json.get k o = v) by (intros k v Hv; unfold Json.get; by rewrite Hv).
  cbn [load Notifications.page]. unfold Notifications.load. change (Json.dict_of (Json.JObj o)) with (Some o).
  cbn [mbind option_bind].
  rewrite (G "endpoints" _ (Ho "endpoints" _ eq_refl)), (G "enabled" _ (Ho "enabled" _ eq_refl)), (G "on_finished" _ (Ho "on_finished" _ eq_refl)),
    (G "on_error" _ (Ho "on_error" _ eq_refl)), (G "on_added" _ (Ho "on_added" _ eq_refl)), (G "on_tracker" _ (Ho "on_tracker" _ eq_refl)),
    (G "timeout" _ (Ho "timeout" _ eq_refl)), (G "try_times" _ (Ho "try_times" _ eq_refl)).
  cbn [Json.or Json.truthy mbind option_bind].
  rewrite rows_read by done. eexists. split; [reflexivity|]. eapply shown_written; [exact Ho|].
  cbn [apply Notifications.page snd]. unfold Notifications.written.
  cbn [Notifications.enabled Notifications.finishedBox Notifications.errorBox Notifications.addedBox Notifications.trackerBox
       Notifications.rows Notifications.timeout Notifications.tryTimes].
  change (Json.value (jint ?z) ?v) with (jint z). rewrite rows_written by done.
  unfold Checkbox.setValue. cbn [fst Checkbox.getValue Checkbox.checked Checkbox.is_checked].
  by rewrite !is_true_bool, !not_false_bool.
Defined.

(** ** The pages together *)


(** What the daemon keeps of the notifications after a test was sent: with the
    outcome of the test, which the page does not show. *)
Definition tested_webhook : Json.dict :=
  [("enabled", jbool false); ("endpoints", Json.JArr []); ("on_finished", jbool true); ("on_error", jbool true);
   ("on_added", jbool false); ("on_tracker", jbool false); ("timeout", jint 15); ("try_times", jint 3); ("test", jbool false);
   ("last_test", jstr "delivered")].


(** What is written by a page that is applied before it was answered, and by
    one that could not read. *)
Definition overwrites {F E} `{Page F E} (d : Json.dict) : Prop :=
  (fun r => Pages.written r.2) <$> Pages.steps Pages.create [Pages.Show; Pages.Apply] = Some [d] /\
  (fun r => Pages.written r.2) <$> Pages.steps Pages.create [Pages.Show; Pages.Failed; Pages.Apply] =
    Some (if reads_again then [] else [d]).

Lemma overwrites_made {F E} `{Page F E} d : (apply made).2 = d -> (apply (failed made)).2 = d -> overwrites d.
Proof. intros E1 E2. destruct unread_written as [U1 U2]. split; [by rewrite U1, E1|]. rewrite U2, E2. by destruct reads_again. Qed.

(** A page that was shown but not answered yet, or (all but the
    stuck downloads) could not read, overwrites the daemon's settings with what
    its fields were made with: an empty schedule, no notifications, no block
    list. *)
Theorem unread_pages_overwrite tr :
  @overwrites _ _ Space.page [("enabled", jbool false); ("min_free", jint (2 ^ 30)); ("resume_free", jint (2 ^ 31))] /\
  @overwrites _ _ Idle.page [("enabled", jbool false); ("inactive_rate", jint 2048); ("grace", jint 300); ("pause_for", jint 3600);
    ("min_active", jint 1); ("only_when_queued", jbool false)] /\
  @overwrites _ _ (Stuck.page tr) [("enabled", jbool false); ("hours", jint 0); ("max_progress", jint 0); ("action", jstr "pause");
    ("label", jstr ""); ("remove_data", jbool false)] /\
  @overwrites _ _ Scheduler.page [("enabled", jbool false); ("button_state", stored_grid (replicate 24 (replicate 7 0%Z)));
    ("low_down", jint (-1)); ("low_up", jint (-1)); ("low_active", jint (-1)); ("low_active_down", jint (-1));
    ("low_active_up", jint (-1))] /\
  @overwrites _ _ Blocklist.page [("enabled", jbool false); ("url", jstr ""); ("check_after_days", jint 4); ("timeout", jint 180);
    ("try_times", jint 3); ("whitelisted", Json.JArr [])] /\
  @overwrites _ _ CountryDb.page [("enabled", jbool false); ("url", jstr "")] /\
  @overwrites _ _ (Notifications.page tr) [("enabled", jbool false); ("on_finished", jbool false); ("on_error", jbool false);
    ("on_added", jbool false); ("on_tracker", jbool false); ("endpoints", Json.JArr []); ("timeout", jint 15); ("try_times", jint 3);
    ("test", jbool false)].
Proof.
  assert (Hl : TextField.getValue (Stuck.label (Stuck.made tr)) = "") by (unfold TextField.getValue; by case_decide).
  split_conj; apply overwrites_made; try (vm_compute; reflexivity);
    (cbn [apply Stuck.page failed made snd]; unfold Stuck.onApply; rewrite Hl; vm_compute; reflexivity).
Qed.

(** ** What the pages lose *)

(** Reading and applying the country database, with nothing edited,
    drops the time of the last fetch and the period that was set: the daemon,
    for which the database was fresh, fetches it again, and the page says that
    none was downloaded. *)
Theorem country_fetched_again o days last now :
  oget "check_after_days" o = Some (jint days) -> oget "last_update" o = Some (jint last) ->
  (0 < days < 2 ^ 20)%Z -> (0 < last <= now)%Z -> (now - last < days * 86400)%Z -> (now < 2 ^ 52)%Z ->
  CountryDb.is_stale o (of_Z now) = false /\
  CountryDb.load (Json.JObj o) CountryDb.made ≫= CountryDb.lastDownloaded = Some (of_Z last) /\
  exists p os s, Pages.steps (F := CountryDb.fields) Pages.create [Pages.Show; Pages.Answered (Json.JObj o); Pages.Apply] = Some (p, os) /\
    Pages.written os = [s] /\ CountryDb.is_stale s (of_Z now) = true /\
    CountryDb.load (Json.JObj s) CountryDb.made ≫= CountryDb.lastDownloaded = None.
Proof.
  intros Hd Hl Rd Rl Rn Rb. split; [|split].
  - unfold CountryDb.is_stale. rewrite Hd, Hl, !leb_of_Z by (unfold safe; lia).
    rewrite !(proj2 (Z.leb_gt _ 0)) by lia. rewrite num_mul_of_Z, num_sub_of_Z, leb_of_Z by (unfold safe; lia).
    apply Z.leb_gt. lia.
  - unfold CountryDb.load. cbn [Json.dict_of Json.truthy mbind option_bind CountryDb.onDatabaseToggled CountryDb.setDatabaseEnabled CountryDb.lastDownloaded].
    unfold Json.get. rewrite Hl. cbn [default from_option]. change (id ?x) with x. unfold Json.or, Json.truthy.
    rewrite pint_truthy by (unfold safe; lia). rewrite (proj2 (Z.eqb_neq last 0)) by lia. cbn [negb].
    rewrite to_num_int, ltb_of_Z by (unfold safe; lia). by rewrite (proj2 (Z.ltb_lt 0 last)) by lia.
  - do 3 eexists. split; [reflexivity|]. split; [reflexivity|]. split; reflexivity.
Qed.

Lemma country_fetched_again_witness :
  let o := [("enabled", jbool true); ("url", jstr "u"); ("check_after_days", jint 7); ("last_update", jint 1800000000)] in
  CountryDb.is_stale o (of_Z 1800003600) = false /\
  exists p os s, Pages.steps (F := CountryDb.fields) Pages.create [Pages.Show; Pages.Answered (Json.JObj o); Pages.Apply] = Some (p, os) /\
    Pages.written os = [s] /\ CountryDb.is_stale s (of_Z 1800003600) = true.
Proof.
  intros o. destruct (country_fetched_again o 7 1800000000 1800003600) as (H1 & _ & p & os & s & H2 & H3 & H4 & _);
    [reflexivity|reflexivity|lia|lia|lia|lia|].
  split; [exact H1|]. exists p, os, s. split; [exact H2|]. split; [exact H3|exact H4].
Defined.

(** ** A test message *)

(** What goes on about a test once it was asked for. *)
Definition test_event (e : Notifications.edit) : bool :=
  match e with Notifications.Timer | Notifications.Tested _ | Notifications.TestFailed => true | _ => false end.
Definition test_fuel (f : Notifications.fields) : nat :=
  2 * Notifications.timers f + Notifications.calls f + 2 * Z.to_nat (Notifications.pollFor f).

Lemma test_step tr l e f f' ss :
  Notifications.change tr l e f = Some (f', ss) -> test_event e = true -> ss = [] /\ S (test_fuel f') <= test_fuel f.
Proof.
  intros Hc He. unfold test_fuel. destruct e as [| | | | | |s|]; try done; cbn [Notifications.change] in Hc.
  - unfold Notifications.pollTest in Hc. destruct (Notifications.timers f) as [|t] eqn:Et; [done|].
    injection Hc as <- <-. cbn. split; [done|lia].
  - unfold Notifications.onTested in Hc. destruct (Notifications.calls f) as [|c] eqn:Ec; [done|].
    destruct (Json.dict_of s) as [d|]; [|done]. cbn [mbind option_bind] in Hc.
    destruct (Json.is_true (Json.get "test" d)), (Z.ltb_spec 0 (Notifications.pollFor f));
      injection Hc as <- <-; cbn; (split; [done|]); lia.
  - unfold Notifications.onTestFailed in Hc. destruct (Notifications.calls f) as [|c] eqn:Ec; [done|].
    injection Hc as <- <-. cbn. split; [done|lia].
Qed.

(** Claim C22.  After a test message was asked for, the page asks the daemon
    what became of it a bounded number of times, whatever the daemon answers:
    from no test under way, at most twenty-two timers and answers; as long as a
    question is pending one of them can come, and none of them writes. *)
Theorem test_ends tr l f es f' ss :
  run (fun f e => Notifications.change tr l e f) (Notifications.onSendTest tr l f).1 es = Some (f', ss) ->
  Forall (fun e => test_event e = true) es -> Notifications.timers f = 0 -> Notifications.calls f = 0 ->
  length es <= 22 /\ ss = [] /\
  (0 < Notifications.timers f' + Notifications.calls f' ->
   exists e f'', test_event e = true /\ Notifications.change tr l e f' = Some (f'', [])).
Proof.
  intros Hr He Ht Hc.
  assert (Forall (fun e => test_event e = true) es -> ss = [] /\ length es + test_fuel f' <= 22) as Hm.
  { clear He. revert es f' ss Hr. apply (run_ind (fun f e => Notifications.change tr l e f)
      (fun f' es ss => Forall (fun e => test_event e = true) es -> ss = [] /\ length es + test_fuel f' <= 22)).
    - intros _. split; [done|]. unfold test_fuel, Notifications.onSendTest. cbn. rewrite Ht, Hc. lia.
    - intros es f1 s1 e f2 s2 _ IH Hs H. apply Forall_app in H as [H1 H2]. apply Forall_inv in H2.
      destruct (IH H1) as [-> Hl]. destruct (test_step _ _ _ _ _ _ Hs H2) as [-> Hf]. split; [done|].
      rewrite length_app. cbn [length]. lia. }
  destruct (Hm He) as [-> Hl]. split; [lia|]. split; [done|]. intros Hp.
  destruct (Notifications.timers f') as [|t] eqn:Et.
  - destruct (Notifications.calls f') as [|c] eqn:Ec; [cbn in Hp; lia|]. exists Notifications.TestFailed. eexists. split; [done|].
    cbn [Notifications.change]. unfold Notifications.onTestFailed. rewrite Ec. done.
  - exists Notifications.Timer. eexists. split; [done|]. cbn [Notifications.change]. unfold Notifications.pollTest. by rewrite Et.
Qed.

Definition unchanged (s : string) : string := s.
Definition still_testing : Json.json := Json.JObj [("test", jbool true)].

Lemma test_ends_witness :
  let es := [Notifications.Timer; Notifications.Tested still_testing; Notifications.Timer; Notifications.Tested (Json.JObj [])] in
  exists f', run (fun f e => Notifications.change unchanged true e f) (Notifications.onSendTest unchanged true Notifications.made).1 es = Some (f', [])
    /\ length es <= 22.
Proof.
  intros es. destruct (run (fun f e => Notifications.change unchanged true e f) (Notifications.onSendTest unchanged true Notifications.made).1 es)
    as [[f' ss]|] eqn:E; [|by vm_compute in E].
  destruct (test_ends unchanged true Notifications.made es f' ss E) as (H1 & -> & _); [by repeat constructor|done|done|].
  exists f'. split; [done|exact H1].
Defined.

(** ** The table of the schedule *)

(** A cell holds one of the three states and has its class and no other. *)
Definition cell_ok (state : num) (classes : list string) : Prop :=
  exists z, (0 <= z < 3)%Z /\ state = of_Z z /\ classes = [Scheduler.state_class (of_Z z)].
Definition is_state (n : num) : Prop := exists z, (0 <= z < 3)%Z /\ n = of_Z z.
Definition is_class (c : list string) : Prop := exists z, (0 <= z < 3)%Z /\ c = [Scheduler.state_class (of_Z z)].

(** A week of hours and a table of as many cells, of each of which something
    holds. *)
Definition row_of (P : num -> list string -> Prop) (row : list num) (classes : list (list string)) : Prop :=
  length row = 7 /\ Forall2 P row classes.
Definition table_of (P : num -> list string -> Prop) (f : Scheduler.fields) : Prop :=
  length (Scheduler.grid f) = 24 /\ Forall2 (row_of P) (Scheduler.grid f) (Scheduler.cells f).
Notation row_ok := (row_of cell_ok).
Notation table_ok := (table_of cell_ok).
Definition any_cell (n : num) (c : list string) : Prop := True.

(** Painting a cell leaves one class. *)
Lemma paint_cell z z' :
  (0 <= z < 3)%Z -> (0 <= z' < 3)%Z ->
  Scheduler.paintCell (of_Z z) [Scheduler.state_class (of_Z z')] = [Scheduler.state_class (of_Z z)].
Proof.
  intros H H'. assert (z = 0 \/ z = 1 \/ z = 2)%Z as [-> |[-> | ->]] by lia;
    (assert (z' = 0 \/ z' = 1 \/ z' = 2)%Z as [-> |[-> | ->]] by lia); reflexivity.
Qed.

Lemma painted n c : is_state n -> is_class c -> cell_ok n (Scheduler.paintCell n c).
Proof. intros (z & Hz & ->) (z' & Hz' & ->). exists z. split; [done|]. split; [done|]. by apply paint_cell. Qed.

Lemma zip_with_ok {A B} (P : A -> Prop) (Q : B -> Prop) (R : A -> B -> Prop) (f : A -> B -> B) l k :
  (forall a b, P a -> Q b -> R a (f a b)) -> Forall P l -> Forall Q k -> length l = length k -> Forall2 R l (zip_with f l k).
Proof.
  intros Hf Hl. revert k. induction Hl as [|a l Ha _ IH]; intros [|b k] Hk Hlen; try done.
  inversion Hk; subst. constructor; [by apply Hf|]. apply IH; [done|]. cbn in Hlen. lia.
Qed.

Lemma cells_are_classes row classes : row_ok row classes -> length classes = 7 /\ Forall is_class classes.
Proof.
  intros [Hl H]. split; [by rewrite <- (Forall2_length _ _ _ H)|]. eapply Forall2_Forall_r; [exact H|].
  apply Forall_forall. intros n _ c (z & Hz & _ & ->). by exists z.
Qed.

(** Repainting a grid of states over such a table. *)
Lemma repaint_ok g cells grid :
  length grid = 24 -> Forall2 row_ok grid cells ->
  length g = 24 -> Forall (fun row => length row = 7 /\ Forall is_state row) g ->
  Forall2 row_ok g (zip_with (zip_with Scheduler.paintCell) g cells).
Proof.
  intros Hl Hc Hg Hs. apply (zip_with_ok (fun row => length row = 7 /\ Forall is_state row)
    (fun classes => length classes = 7 /\ Forall is_class classes)); [|done| |].
  - intros row classes [H1 H2] [H3 H4]. split; [done|].
    apply (zip_with_ok is_state is_class); [apply painted|done|done|by rewrite H1, H3].
  - eapply Forall2_Forall_r; [exact Hc|]. apply Forall_forall. intros row _ classes. apply cells_are_classes.
  - by rewrite Hg, <- (Forall2_length _ _ _ Hc).
Qed.

(** The states the daemon keeps: integers that are not negative. *)
Definition stored_ok (settings : Json.json) : Prop :=
  forall o hour day n, settings = Json.JObj o ->
  Scheduler.item day (Scheduler.item hour (Json.get "button_state" o)) = jnum n -> exists z, (0 <= z < 2 ^ 53)%Z /\ n = of_Z z.

Lemma stored_is_state o hour day : stored_ok (Json.JObj o) -> is_state (Scheduler.stored_state (Json.get "button_state" o) hour day).
Proof.
  intros Ho. unfold Scheduler.stored_state. set (s := Json.get _ o).
  assert (Hz : forall z, (0 <= z < 2 ^ 53)%Z -> is_state (num_rem (of_Z z) Scheduler.STATES)).
  { intros z Hz. exists (z mod 3)%Z. split; [by apply Z.mod_pos_bound|]. by apply num_rem_of_Z. }
  destruct (_ && _); [|by apply (Hz 0%Z)]. pose proof (Ho o hour day) as Hi. fold s in Hi.
  destruct (Scheduler.item day _) as [[| | |n|]| |]; try (by apply (Hz 0%Z)).
  destruct (Hi n eq_refl eq_refl) as (z & Hb & ->). by apply Hz.
Qed.

Lemma forall_table {A} (P : A -> Prop) (h : nat -> nat -> A) n m :
  (forall i j, P (h i j)) -> Forall (fun row => length row = m /\ Forall P row) (map (fun i => map (h i) (seq 0 m)) (seq 0 n)).
Proof.
  intros Hh. apply Forall_fmap, Forall_forall. intros i _. cbn. split; [by rewrite length_map, length_seq|].
  apply Forall_fmap, Forall_forall. intros j _. apply Hh.
Qed.

Lemma made_table (P : num -> list string -> Prop) :
  P (of_Z 0) [Scheduler.state_class (of_Z 0)] -> table_of P Scheduler.made.
Proof.
  intros HP. split; [done|]. cbn [Scheduler.made Scheduler.grid Scheduler.cells].
  apply Forall2_replicate. split; [done|]. by apply Forall2_replicate.
Qed.

(** Whatever is read, a week is made of it. *)
Lemma load_shape s f f' : Scheduler.load s f = Some f' -> table_of any_cell f -> table_of any_cell f'.
Proof.
  intros Hl [Hlen Ht]. unfold Scheduler.load in Hl. destruct (Json.dict_of s) as [o|]; [|done].
  cbn [mbind option_bind] in Hl. injection Hl as <-. split; [done|].
  cbn [Scheduler.repaint Scheduler.grid Scheduler.cells].
  apply (zip_with_ok (fun row => length row = 7) (fun classes => length classes = 7)).
  - intros row classes H1 H2. split; [done|]. apply (zip_with_ok (fun _ => True) (fun _ => True)); [done|by apply Forall_true..|].
    by rewrite H1, H2.
  - by repeat constructor.
  - eapply Forall2_Forall_r; [exact Ht|]. apply Forall_forall. intros row _ classes [H1 H2].
    by rewrite <- (Forall2_length _ _ _ H2).
  - by rewrite <- (Forall2_length _ _ _ Ht), Hlen.
Qed.

Lemma load_table s f f' : stored_ok s -> Scheduler.load s f = Some f' -> table_ok f -> table_ok f'.
Proof.
  intros Hs Hl [Hlen Ht]. unfold Scheduler.load in Hl. destruct (Json.dict_of s) as [o|] eqn:Eo; [|done].
  cbn [mbind option_bind] in Hl. injection Hl as <-. split; [done|].
  cbn [Scheduler.repaint Scheduler.grid Scheduler.cells]. apply (repaint_ok _ _ (Scheduler.grid f)); [done|done|done|].
  apply (forall_table is_state (Scheduler.stored_state (Json.get "button_state" o)) 24 7). intros hour day.
  unfold Json.dict_of in Eo. destruct (Json.truthy s); [|injection Eo as <-; by exists 0%Z].
  destruct s; try done. injection Eo as <-. by apply stored_is_state.
Qed.

Lemma click_shape (P : num -> list string -> Prop) hour day f f' :
  (forall n c, P n c -> let n' := num_rem (num_add n (of_Z 1)) Scheduler.STATES in P n' (Scheduler.paintCell n' c)) ->
  Scheduler.onCellClick hour day f = Some f' -> table_of P f -> table_of P f'.
Proof.
  intros HP Hc [Hlen Ht]. unfold Scheduler.onCellClick in Hc.
  destruct (Scheduler.grid f !! hour) as [row|] eqn:Eg; [|done]. cbn [mbind option_bind] in Hc.
  destruct (row !! day) as [state|] eqn:Er; [|done]. cbn [mbind option_bind] in Hc.
  destruct (Scheduler.cells f !! hour) as [classes|] eqn:Ec; [|done]. cbn [mbind option_bind] in Hc.
  destruct (classes !! day) as [cell|] eqn:Ed; [|done]. cbn [mbind option_bind] in Hc. injection Hc as <-.
  destruct (Forall2_lookup_lr _ _ _ _ _ _ Ht Eg Ec) as [H7 Hr].
  pose proof (Forall2_lookup_lr _ _ _ _ _ _ Hr Er Ed) as Hcell.
  split; cbn [Scheduler.grid Scheduler.cells]; [by rewrite length_insert|].
  apply Forall2_insert; [done|]. split; [by rewrite length_insert|]. apply Forall2_insert; [done|]. by apply HP.
Qed.

Lemma click_cell n c : cell_ok n c ->
  let n' := num_rem (num_add n (of_Z 1)) Scheduler.STATES in cell_ok n' (Scheduler.paintCell n' c).
Proof.
  intros (z & Hz & -> & ->). cbn zeta. rewrite num_add_of_Z by lia. unfold Scheduler.STATES. rewrite num_rem_of_Z by lia.
  apply painted; [exists ((z + 1) mod 3)%Z; split; [by apply Z.mod_pos_bound|done]|by exists z].
Qed.

(** What every answer and every click leaves of the table holds over any
    events. *)
Lemma table_kept (P : num -> list string -> Prop) (ok : Json.json -> Prop) es p os :
  P (of_Z 0) [Scheduler.state_class (of_Z 0)] ->
  (forall s f f', ok s -> Scheduler.load s f = Some f' -> table_of P f -> table_of P f') ->
  (forall n c, P n c -> let n' := num_rem (num_add n (of_Z 1)) Scheduler.STATES in P n' (Scheduler.paintCell n' c)) ->
  Pages.steps (F := Scheduler.fields) Pages.create es = Some (p, os) ->
  Forall (fun e => match e with Pages.Answered s => ok s | _ => True end) es -> table_of P (Pages.fields p).
Proof.
  intros H0 Hload Hclick Hs. revert es p os Hs. apply (run_ind Pages.step
    (fun p es _ => Forall (fun e => match e with Pages.Answered s => ok s | _ => True end) es -> table_of P (Pages.fields p))).
  - intros _. by apply made_table.
  - intros es [f l n] os1 e p2 os2 _ IH Hs H. apply Forall_app in H as [H1 H2]. apply Forall_inv in H2.
    specialize (IH H1). cbn [Pages.fields] in IH. destruct e as [|s| | |e]; cbn [Pages.step] in Hs.
    + unfold Pages.onPageShow in Hs. destruct l; by injection Hs as <- <-.
    + destruct n as [|n]; [done|]. cbn [Pages.take Pages.flight mbind option_bind] in Hs. unfold Pages.onGotConfig in Hs.
      cbn [Pages.fields Pages.loaded Pages.flight] in Hs. destruct (load s f) as [f'|] eqn:El; [|done].
      cbn [mbind option_bind] in Hs. injection Hs as <- <-. by apply (Hload s f f').
    + destruct n as [|n]; [done|]. by injection Hs as <- <-.
    + unfold Pages.onApply in Hs. destruct l; by injection Hs as <- <-.
    + unfold Pages.onEvent in Hs. cbn [Pages.fields Pages.loaded handle Scheduler.page] in Hs.
      destruct (Scheduler.change e f) as [f'|] eqn:Ee; [|done]. cbn [mbind option_bind] in Hs. injection Hs as <- <-.
      cbn [Pages.fields]. destruct f, e; cbn [Scheduler.change] in Ee; try (by injection Ee as <-). by eapply click_shape.
Qed.

(** Claim C20.  Whatever is clicked and read, the schedule is twenty-four hours of
    seven days with as many cells in the table; and as long as no cell that is
    read is a number below zero or with a fraction, each hour is in one of the
    three states and its cell shows that state and no other. *)
Theorem schedule_shown es p os :
  Pages.steps (F := Scheduler.fields) Pages.create es = Some (p, os) ->
  table_of any_cell (Pages.fields p) /\
  (Forall (fun e => match e with Pages.Answered s => stored_ok s | _ => True end) es -> table_ok (Pages.fields p)).
Proof.
  intros Hs. split.
  - apply (table_kept any_cell (fun _ => True) es p os); [done|intros ? ? ? _; apply load_shape|done|exact Hs|].
    apply Forall_forall. by intros [].
  - intros H. refine (table_kept cell_ok stored_ok es p os _ load_table click_cell Hs H). by exists 0%Z.
Qed.

(** What is read below zero or with a fraction is kept as it is, in a state there
    is not. *)
Example other_states :
  let s := Json.JObj [("button_state", Json.JArr [Json.JArr [jint (-1); jnum (num_div (of_Z 3) (of_Z 2))]])] in
  (fun f => map num_str (take 2 (default [] (Scheduler.grid f !! 0)))) <$> Scheduler.load s Scheduler.made = Some ["-1"; "1.5"].
Proof. vm_compute. reflexivity. Qed.

Lemma schedule_shown_witness :
  let s := Json.JObj [("button_state", Json.JArr [Json.JArr [jint 2; jint 4]])] in
  exists p os, Pages.steps (F := Scheduler.fields) Pages.create [Pages.Show; Pages.Answered s; Pages.Do (Scheduler.Cell 0 1)] = Some (p, os) /\
    table_ok (Pages.fields p).
Proof.
  intros s. destruct (Pages.steps (F := Scheduler.fields) Pages.create [Pages.Show; Pages.Answered s; Pages.Do (Scheduler.Cell 0 1)])
    as [[p os]|] eqn:E; [|by vm_compute in E].
  exists p, os. split; [done|]. apply (schedule_shown [Pages.Show; Pages.Answered s; Pages.Do (Scheduler.Cell 0 1)] p os E).
  repeat constructor. intros o hour day n [= <-].
  destruct hour as [|hour]; [|done]. destruct day as [|[|day]]; [| |done]; intros [= <-];
    [exists 2%Z|exists 4%Z]; by split; [lia|].
Defined.

(** What is not whole in the units shown is changed by an Apply with nothing
    edited: ninety seconds become two minutes, 2500 bytes 2.4 KiB. *)
Example idle_rounds :
  option_map (fun f => (Json.get "grace" (Idle.onApply f), Json.get "inactive_rate" (Idle.onApply f)))
    (Idle.load (Json.JObj [("grace", jint 90); ("inactive_rate", jint 2500)]) (made (Page := Idle.page)))
  = Some (jint 120, jint 2458).
Proof. vm_compute. reflexivity. Qed.

(** What became of the last test is not written back. *)
Lemma test_result_dropped f b : oget "last_test" (Notifications.written b f) = None.
Proof. done. Qed.
