(* ===== verification/Forms.v ===== *)
(** * Forms built from a table

    The windows of the label settings and of the tracker settings keep their
    fields in one dictionary, by the name of the setting, and fill it from a
    dictionary of options and read it back in one loop each, by the type of the
    field.  This file is what the two loops share. *)

From stdpp Require Import base list strings.
From Stdlib Require Import Lia ZArith.
From S2P Require Import Prelude JsNum JsString JsValue Integers ExtCore Fields Settings.

Local Open Scope nat_scope.

Module Form.

(** A field of any type, and whether it is disabled. *)
Inductive field :=
  | FCheck (f : Checkbox.state)
  | FNumber (f : NumberField.state)
  | FDelay (f : Duration.state)
  | FText (f : TextField.state)
  | FChoice (value : Json.json) (disabled : bool).

(** [getValue]; a choice without a value answers the empty string. *)
Definition getValue (f : field) : Json.json :=
  match f with
  | FCheck c => jbool (Checkbox.getValue c)
  | FNumber n => Json.JPrim (NumberField.getValue n)
  | FDelay d => jnum (Duration.getValue d)
  | FText t => jstr (TextField.getValue t)
  | FChoice v _ => match v with Json.JPrim PUndef => jstr "" | _ => v end
  end.

(** [setValue], and whether a box changed *)
Definition setValue (v : Json.json) (f : field) : field * bool :=
  match f with
  | FCheck c => let '(c, fired) := Checkbox.setValue (Json.prim_of v) c in (FCheck c, fired)
  | FNumber n => (FNumber (NumberField.setValue (Json.prim_of v) n), false)
  | FDelay d => (FDelay (Duration.setValue (Json.prim_of v) d), false)
  | FText t => (FText (TextField.setValue (if Json.isEmpty v then "" else Json.str v) t), false)
  | FChoice _ b => (FChoice v b, false)
  end.

Definition setDisabled (b : bool) (f : field) : field :=
  match f with
  | FCheck c => FCheck (Checkbox.setDisabled b c)
  | FNumber n => FNumber (NumberField.setDisabled b n)
  | FDelay d => FDelay (Duration.setDisabled b d)
  | FText t => FText (TextField.setDisabled b t)
  | FChoice v _ => FChoice v b
  end.

Definition disabled (f : field) : bool :=
  match f with
  | FCheck c => Checkbox.disabled c
  | FNumber n => NumberField.disabled n
  | FDelay d => Duration.disabled d
  | FText t => TextField.disabled t
  | FChoice _ b => b
  end.

Definition is_check (f : field) : bool := match f with FCheck _ => true | _ => false end.

Definition is_typed (f : field) : bool := match f with FCheck _ | FChoice _ _ => false | _ => true end.

(** [isNumber] of the field's type *)
Definition isNumber (f : field) : bool := match f with FNumber _ | FDelay _ => true | _ => false end.

(** [this.fields[name]] *)
Definition on (name : string) (fs : obj field) : bool :=
  match oget name fs with Some f => Json.is_true (getValue f) | None => false end.
Definition change (name : string) (g : field -> field) (fs : obj field) : obj field :=
  match oget name fs with Some f => oset name (g f) fs | None => fs end.

(** What one field is in the options: a box, a number with what it is when it
    is blank, or a text. *)
Definition option_of (blank : num) (f : field) : Json.json :=
  if is_check f then jbool (Json.is_true (getValue f))
  else if isNumber f then jnum (Json.number (getValue f) blank)
  else Json.or (getValue f) (jstr "").

(** The loop of [options] *)
Definition options (blank : string -> num) (fs : obj field) : Json.dict :=
  map (fun nf => (nf.1, option_of (blank nf.1) nf.2)) fs.

End Form.

(** ** Windows with such a form

    A window has its fields, and a handler of the switches among them, which
    the boxes that listen call when they change. *)
Class FormWindow (W : Type) := {
  fields : W -> obj Form.field;
  with_fields : obj Form.field -> W -> W;
  listens : string -> bool;
  onSwitched : W -> W
}.

Module Filling.
Section window.
Context {W : Type} `{FormWindow W}.

(** [field.setValue(value)] of one of the fields *)
Definition assign (name : string) (v : Json.json) (w : W) : W :=
  match oget name (fields w) with
  | Some f =>
      let '(f, fired) := Form.setValue v f in
      let w := with_fields (oset name f (fields w)) w in
      if fired && listens name then onSwitched w else w
  | None => w
  end.

(** The loop of [setOptions]: each field is given a value that depends on its
    name and type, and then the switches are looked at. *)
Definition fill (value_for : string -> Form.field -> Json.json) (w : W) : W :=
  onSwitched (foldl (fun w name => match oget name (fields w) with
                                   | Some f => assign name (value_for name f) w
                                   | None => w
                                   end) w (okeys (fields w))).

End window.
End Filling.

(** ** What is given to a field is read from it *)

(** The values a field of a type holds. *)
Definition fits_field (f : Form.field) (v : Json.json) : Prop :=
  match f with
  | Form.FCheck _ => exists b, v = jbool b
  | Form.FNumber _ => exists z, (Z.abs z < 2 ^ 52)%Z /\ v = jint z
  | Form.FDelay _ => exists z, (0 <= z <= 87600)%Z /\ v = jint z
  | Form.FText t => exists s, line s /\ (s <> TextField.emptyText t \/ s = "") /\ v = jstr s
  | Form.FChoice _ _ => exists s, s <> "" /\ v = jstr s
  end.

Lemma json_number_int z d : safe z -> Json.number (jint z) d = of_Z z.
Proof. intros Hz. unfold Json.number. cbn [Json.prim_of]. by apply number_int. Qed.


Lemma or_string s : Json.or (jstr s) (jstr "") = jstr s.
Proof. unfold Json.or. cbn. case_bool_decide as E; [by rewrite E|done]. Qed.

Lemma field_roundtrip f v blank : fits_field f v -> Form.option_of blank (Form.setValue v f).1 = v.
Proof.
  destruct f as [c|n|d|t|w b]; cbn [fits_field].
  - intros [b ->]. cbn. by destruct b.
  - intros (z & Hz & ->). unfold Form.option_of. cbn [Form.setValue fst Form.is_check Form.isNumber Form.getValue Json.prim_of Json.number].
    rewrite number_field_roundtrip, number_int by (done || (unfold safe; lia)). done.
  - intros (z & Hz & ->). unfold Form.option_of. cbn [Form.setValue fst Form.is_check Form.isNumber Form.getValue Json.prim_of Json.number].
    rewrite duration_value, number_int by (done || (unfold safe; lia)). done.
  - intros (s & Hl & Hs & ->). unfold Form.option_of. cbn [Form.setValue fst Form.is_check Form.isNumber Form.getValue].
    assert ((if Json.isEmpty (jstr s) then "" else Json.str (jstr s)) = s) as ->.
    { unfold Json.isEmpty. case_bool_decide as E; [done|done]. }
    rewrite text_field_roundtrip by done. apply or_string.
  - intros (s & Hs & ->). unfold Form.option_of. cbn [Form.setValue fst Form.is_check Form.isNumber Form.getValue]. apply or_string.
Qed.

(** ** Fields up to being disabled *)

Definition similar (f g : Form.field) : Prop := Form.setDisabled false f = Form.setDisabled false g.

#[export] Instance similar_equivalence : Equivalence similar.
Proof. unfold similar. split; [by intros f|by intros f g|intros f g h; congruence]. Qed.

Lemma similar_disabled b f : similar (Form.setDisabled b f) f.
Proof. by destruct f. Qed.

#[export] Instance getValue_proper : Proper (similar ==> eq) Form.getValue.
Proof.
  intros f g Hs. unfold similar in Hs.
  destruct f as [[]|[]|[]|[]|], g as [[]|[]|[]|[]|]; cbn in Hs; try discriminate; by injection Hs; intros; subst.
Qed.

#[export] Instance option_of_proper blank : Proper (similar ==> eq) (Form.option_of blank).
Proof.
  intros f g Hs. pose proof (getValue_proper _ _ Hs) as Hv. unfold Form.option_of. rewrite Hv.
  destruct f, g; by try discriminate Hs.
Qed.

#[export] Instance setValue_proper v : Proper (similar ==> similar) (fun f => (Form.setValue v f).1).
Proof.
  intros f g Hs. unfold similar in *.
  destruct f as [[]|[]|[]|[]|], g as [[]|[]|[]|[]|]; cbn in Hs; try discriminate; by injection Hs; intros; subst.
Qed.

#[export] Instance fits_proper : Proper (similar ==> eq ==> iff) fits_field.
Proof.
  intros f g Hs v _ <-. unfold similar in Hs.
  destruct f as [[]|[]|[]|[]|], g as [[]|[]|[]|[]|]; cbn in Hs; try discriminate; by injection Hs; intros; subst.
Qed.

Lemma similar_some mf g : option_Forall2 similar mf (Some g) -> exists f, mf = Some f /\ similar f g.
Proof. intros H. inversion H; subst. eauto. Qed.

(** ** Kinds of fields, and greying *)

Lemma change_similar name g fs k :
  (forall f, similar (g f) f) -> option_Forall2 similar (oget k (Form.change name g fs)) (oget k fs).
Proof.
  intros Hg. unfold Form.change. destruct (oget name fs) as [f|] eqn:E; [|reflexivity].
  rewrite oget_oset. destruct (decide (k = name)) as [-> |]; [|reflexivity]. rewrite E. constructor. apply Hg.
Qed.

Lemma disable_all_similar b names fs k :
  option_Forall2 similar (oget k (foldl (fun fs name => Form.change name (Form.setDisabled b) fs) fs names)) (oget k fs).
Proof.
  revert fs. induction names as [|n names IH]; intros fs; [reflexivity|]. cbn [foldl].
  etransitivity; [apply IH|]. apply change_similar. intros f. apply similar_disabled.
Qed.

Lemma change_names name g (fs : obj Form.field) : (Form.change name g fs).*1 = fs.*1.
Proof.
  unfold Form.change. destruct (oget name fs) as [f|] eqn:E; [|done]. generalize (g f) as f'. intros f'. revert E.
  induction fs as [|[n h] fs IH]; [done|]. cbn. destruct (decide (name = n)) as [-> |]; [done|].
  intros E. cbn. by rewrite IH.
Qed.

(** Two dictionaries with the same names *)
Lemma oset_names {A} name (v f : A) (fs : obj A) : oget name fs = Some f -> (oset name v fs).*1 = fs.*1.
Proof.
  induction fs as [|[n h] fs IH]; [done|]. cbn. destruct (decide (name = n)) as [-> |]; [done|].
  intros E. cbn. by rewrite IH.
Qed.

Lemma fits_set v f u : fits_field (Form.setValue v f).1 u <-> fits_field f u.
Proof.
  destruct f as [c|n|d|t|x b]; cbn [Form.setValue]; [|done|done|done|done]. by destruct (Checkbox.setValue (Json.prim_of v) c).
Qed.

Lemma fits_string f s : fits_field f (jstr s) -> match f with Form.FText _ | Form.FChoice _ _ => True | _ => False end.
Proof. destruct f; cbn [fits_field]; [by intros (?&?)|by intros (?&?&?)|by intros (?&?&?)|done|done]. Qed.

Lemma fits_bool f b : fits_field f (jbool b) -> Form.is_check f = true.
Proof. destruct f; cbn [fits_field]; [done|by intros (?&?&?)|by intros (?&?&?)|by intros (?&?&?&?)|by intros (?&?&?)]. Qed.

Lemma disabled_set b f : Form.disabled (Form.setDisabled b f) = b.
Proof. by destruct f. Qed.

Lemma disabled_absorb b c f : Form.setDisabled b (Form.setDisabled c f) = Form.setDisabled b f.
Proof. by destruct f. Qed.

(** ** Filling a form *)

(** Looking at the switches leaves what the fields hold, and their names. *)
Class FormLaws (W : Type) `{FormWindow W} := {
  fields_with fs w : fields (with_fields fs w) = fs;
  switched_names w : (fields (onSwitched w)).*1 = (fields w).*1;
  switched_fields w k : option_Forall2 similar (oget k (fields (onSwitched w))) (oget k (fields w))
}.

Section filling.
Context {W : Type} `{FormLaws W}.
Implicit Types (w : W).

Lemma assign_fields name v w k :
  option_Forall2 similar (oget k (fields (Filling.assign name v w)))
    (if decide (k = name) then (fun f => (Form.setValue v f).1) <$> oget k (fields w) else oget k (fields w)).
Proof.
  unfold Filling.assign. destruct (oget name (fields w)) as [f|] eqn:E.
  - destruct (Form.setValue v f) as [f' fired] eqn:Ef. set (w1 := with_fields _ w).
    assert (Hw : oget k (fields w1) = if decide (k = name) then (fun f => (Form.setValue v f).1) <$> oget k (fields w) else oget k (fields w)).
    { unfold w1. rewrite fields_with. destruct (decide (k = name)) as [-> |Hk]; [|by apply oget_oset_ne].
      by rewrite oget_oset_eq, E; cbn; rewrite Ef. }
    rewrite <- Hw. destruct (fired && listens name); [apply switched_fields|reflexivity].
  - destruct (decide (k = name)) as [-> |]; [rewrite E|]; reflexivity.
Qed.

Lemma fill_spec value_for w k :
  obj_ok (fields w) -> (forall n f g, similar f g -> value_for n f = value_for n g) ->
  option_Forall2 similar (oget k (fields (Filling.fill value_for w)))
    ((fun f => (Form.setValue (value_for k f) f).1) <$> oget k (fields w)).
Proof.
  intros Hok Hv. unfold Filling.fill. etransitivity; [apply switched_fields|].
  assert (Hin : oget k (fields w) = None \/ k ∈ okeys (fields w)).
  { destruct (oget k (fields w)) eqn:E; [right|by left]. apply okeys_elem. eauto. }
  pose proof (okeys_NoDup (fields w) Hok) as Hnd. revert Hnd Hin. generalize (okeys (fields w)) as ns.
  enough (G : forall ns w, NoDup ns -> option_Forall2 similar
    (oget k (fields (foldl (fun w name => match oget name (fields w) with
       Some f => Filling.assign name (value_for name f) w | None => w end) w ns)))
    (if decide (k ∈ ns) then (fun f => (Form.setValue (value_for k f) f).1) <$> oget k (fields w) else oget k (fields w))).
  { intros ns Hnd [Hn|Hn]; (etransitivity; [by apply G|]); [rewrite Hn; by destruct (decide _)|by rewrite decide_True]. }
  clear Hok w. intros ns. induction ns as [|n ns IH]; intros w Hnd; [done|]. apply NoDup_cons in Hnd as [Hn Hnd].
  cbn [foldl]. etransitivity; [by apply IH|]. destruct (oget n (fields w)) as [f|] eqn:E.
  - pose proof (assign_fields n (value_for n f) w k) as Ha. destruct (decide (k = n)) as [-> |Hk].
    + rewrite decide_False, decide_True by (done || by constructor). rewrite E in Ha |- *. exact Ha.
    + destruct (decide (k ∈ ns)) as [Hk'|Hk'].
      * rewrite decide_True by (by constructor). inversion Ha as [f1 f2 Hs E1 E2|E1 E2]; cbn; [|constructor].
        constructor. rewrite (Hv k _ _ Hs). by apply setValue_proper.
      * rewrite decide_False by (rewrite elem_of_cons; tauto). exact Ha.
  - destruct (decide (k ∈ ns)) as [Hk|Hk]; [rewrite decide_True by (by constructor); reflexivity|].
    destruct (decide (k ∈ n :: ns)) as [Hk'|]; [|reflexivity].
    apply elem_of_cons in Hk' as [-> |]; [|done]. rewrite E. reflexivity.
Qed.

Lemma fill_some value_for w k f :
  obj_ok (fields w) -> (forall n f g, similar f g -> value_for n f = value_for n g) -> oget k (fields w) = Some f ->
  exists g, oget k (fields (Filling.fill value_for w)) = Some g /\ similar g (Form.setValue (value_for k f) f).1.
Proof.
  intros Hok Hv Hk. pose proof (fill_spec value_for w k Hok Hv) as Hs. rewrite Hk in Hs. by apply similar_some in Hs.
Qed.

(** The options read from fields that were given what they hold. *)
Lemma oget_options blank (fs : obj Form.field) k : oget k (Form.options blank fs) = Form.option_of (blank k) <$> oget k fs.
Proof.
  unfold Form.options. induction fs as [|[n f] fs IH]; [done|]. cbn. destruct (decide (k = n)) as [-> |]; [done|exact IH].
Qed.

Lemma fill_options value_for blank w k f :
  obj_ok (fields w) -> (forall n f g, similar f g -> value_for n f = value_for n g) ->
  oget k (fields w) = Some f -> fits_field f (value_for k f) ->
  oget k (Form.options blank (fields (Filling.fill value_for w))) = Some (value_for k f).
Proof.
  intros Hok Hv Hk Hf. rewrite oget_options. pose proof (fill_spec value_for w k Hok Hv) as Hs. rewrite Hk in Hs.
  apply similar_some in Hs as (f1 & -> & H1). cbn. by rewrite H1, field_roundtrip.
Qed.

(** The names stay. *)
Lemma assign_names name v w : (fields (Filling.assign name v w)).*1 = (fields w).*1.
Proof.
  unfold Filling.assign. destruct (oget name (fields w)) as [f|] eqn:E; [|done]. destruct (Form.setValue v f) as [f' fired].
  destruct (fired && _); rewrite ?switched_names, fields_with; by apply oset_names with f.
Qed.

Lemma fill_names value_for w : (fields (Filling.fill value_for w)).*1 = (fields w).*1.
Proof.
  unfold Filling.fill. rewrite switched_names. generalize (okeys (fields w)) as ns. intros ns. revert w.
  induction ns as [|n ns IH]; intros w; [done|]. cbn [foldl]. rewrite IH.
  destruct (oget n (fields w)); [apply assign_names|done].
Qed.

(** The fields of a window are of the kinds they were made with. *)
Definition of_kinds (made : obj Form.field) (w : W) : Prop :=
  (fields w).*1 = made.*1 /\
  forall k f, oget k made = Some f -> exists g, oget k (fields w) = Some g /\ forall v, fits_field g v <-> fits_field f v.

Lemma kinds_ok made w : obj_ok made -> of_kinds made w -> obj_ok (fields w).
Proof. intros Hm [Hn _]. unfold obj_ok. by rewrite Hn. Qed.

(** Two windows with fields of the same kinds. *)
Lemma kinds_alike made w w' :
  of_kinds made w -> (fields w').*1 = (fields w).*1 ->
  (forall k f, oget k (fields w) = Some f -> exists g, oget k (fields w') = Some g /\ forall v, fits_field g v <-> fits_field f v) ->
  of_kinds made w'.
Proof.
  intros [Hn Hk] Hn' Hkk. split; [congruence|]. intros k f Hf. destruct (Hk k f Hf) as (g & Hg & Hfg).
  destruct (Hkk k g Hg) as (g' & Hg' & Hgg'). exists g'. split; [done|]. intros v. by rewrite Hgg'.
Qed.

Lemma switched_kinds made w : of_kinds made w -> of_kinds made (onSwitched w).
Proof.
  intros Hw. apply (kinds_alike made w); [done|apply switched_names|]. intros k f Hf.
  pose proof (switched_fields w k) as Hs. rewrite Hf in Hs. apply similar_some in Hs as (g & Hg & Hs).
  exists g. split; [done|]. intros v. by rewrite Hs.
Qed.

Lemma assign_kinds made name v w : of_kinds made w -> of_kinds made (Filling.assign name v w).
Proof.
  intros Hw. apply (kinds_alike made w); [done|apply assign_names|]. intros k f Hf.
  pose proof (assign_fields name v w k) as Hs. rewrite Hf in Hs.
  destruct (decide (k = name)); apply similar_some in Hs as (g & Hg & Hs); exists g; (split; [done|]); intros u;
    rewrite Hs; [apply fits_set|done].
Qed.

Lemma fill_kinds made value_for w : of_kinds made w -> of_kinds made (Filling.fill value_for w).
Proof.
  intros Hw. unfold Filling.fill. apply switched_kinds. generalize (okeys (fields w)) as ns. intros ns. revert w Hw.
  induction ns as [|n ns IH]; intros w Hw; [done|]. cbn [foldl]. apply IH.
  destruct (oget n (fields w)); [by apply assign_kinds|done].
Qed.

(** A window that was filled holds what it was given. *)
Lemma fill_value made value_for blank w k f v :
  obj_ok made -> of_kinds made w -> (forall n f g, similar f g -> value_for n f = value_for n g) ->
  (forall f g, fits_field f v -> fits_field g v -> value_for k g = value_for k f) ->
  oget k made = Some f -> fits_field f v -> value_for k f = v ->
  oget k (Form.options blank (fields (Filling.fill value_for w))) = Some v.
Proof.
  intros Hmade Hw Hs Hkind Hm Hf Ho. pose proof (kinds_ok made w Hmade Hw) as Hok. destruct Hw as [Hn Hk].
  destruct (Hk k f Hm) as (g & Hg & Hfits).
  assert (Hv : value_for k g = v) by (rewrite <- Ho; apply Hkind; [done|by apply Hfits]).
  rewrite <- Hv. apply (fill_options value_for blank w k g); try done. rewrite Hv. by apply Hfits.
Qed.

End filling.
