(* ===== verification/LabelSettings.v ===== *)
(** * Deluge.LabelSettingsWindow

    What a label does to the torrents in it: one form, filled from what the
    daemon has for the label and sent back with [label.set_options]. *)

From stdpp Require Import base list strings.
From Stdlib Require Import Lia ZArith.
From S2P Require Import Prelude JsNum JsString JsValue Integers ExtCore Fields Settings Forms.

Local Open Scope nat_scope.

Module Labels.
Section window.

(** The translation *)
Context (tr : string -> string).

(** [GROUPS] and [DEFAULTS] *)
Definition GROUPS : obj (list string) :=
  [("apply_max", ["max_download_speed"; "max_upload_speed"; "max_connections"; "max_upload_slots"]);
   ("apply_queue", ["stop_at_ratio"; "stop_ratio"; "remove_at_ratio"]);
   ("apply_move_completed", ["move_completed_path"]);
   ("apply_stuck", ["stuck_hours"; "stuck_max_progress"; "stuck_action"; "stuck_label"; "stuck_remove_data"])].

Definition DEFAULTS : Json.dict :=
  [("max_download_speed", jint (-1)); ("max_upload_speed", jint (-1)); ("max_connections", jint (-1));
   ("max_upload_slots", jint (-1)); ("stop_ratio", jint 2); ("stuck_hours", jint 0); ("stuck_max_progress", jint 0);
   ("stuck_action", jstr "pause")].

(** [defaultOf] *)
Definition defaultOf (name : string) : num := match oget name DEFAULTS with Some (jnum n) => n | _ => of_Z (-1) end.

(** A call of the daemon, in flight, and what is done outside. *)
Inductive call := GetOptions (name : string) | SetOptions (name : string).
Inductive output :=
  | Title (name : string) | Sent (name : string) (options : Json.dict)
  | LabelHidden (name : string) (hidden : bool) | Saved (name : string) | Updated | Warned.

(** [label], [fields], whether the window and its warning are shown, and the
    calls in flight. *)
Record state := mk {
  label : option string; form : obj Form.field; visible : bool; stuckWarning : bool; flight : list call
}.

(** [spinner]: its floor is -1 where none is given. *)
Definition spinner (precision : nat) (minValue : Z) : Form.field :=
  Form.FNumber (NumberField.mk precision (of_Z minValue) (of_Z 9999999) PUndef false).
Definition check : Form.field := Form.FCheck (Checkbox.mk false false).

(** The fields, in the order [initComponent] makes them. *)
Definition made : obj Form.field :=
  [("apply_max", check); ("max_download_speed", spinner 1 (-1)); ("max_upload_speed", spinner 1 (-1));
   ("max_connections", spinner 0 (-1)); ("max_upload_slots", spinner 0 (-1));
   ("apply_queue", check); ("stop_at_ratio", check); ("stop_ratio", spinner 1 (-1)); ("remove_at_ratio", check);
   ("apply_move_completed", check); ("move_completed_path", Form.FText (TextField.mk "" "" false));
   ("apply_stuck", check); ("stuck_hours", Form.FDelay Duration.create); ("stuck_max_progress", spinner 0 0);
   ("stuck_action", Form.FChoice (jstr "pause") false);
   ("stuck_label", Form.FText (TextField.mk (tr "leave its label alone") "" false)); ("stuck_remove_data", check);
   ("never_remove", check); ("hide_by_default", check)].
Definition create : state := mk None made false false [].

(** [onSwitched] *)
Definition switch_group (fs : obj Form.field) (g : string * list string) : obj Form.field :=
  let on := Form.on g.1 fs in
  foldl (fun fs name => Form.change name (Form.setDisabled (negb on)) fs) fs g.2.
Definition is_remove (v : Json.json) : bool := match v with jstr s => bool_decide (s = "remove") | _ => false end.
Definition removing (fs : obj Form.field) : bool :=
  match oget "stuck_action" fs with Some f => is_remove (Form.getValue f) | None => false end.
Definition switched (w : state) : state :=
  let fs := foldl switch_group (form w) GROUPS in
  let on := Form.on "apply_stuck" fs in
  let remove := removing fs in
  let fs := Form.change "stuck_label" (Form.setDisabled (negb on || remove)) fs in
  let fs := Form.change "stuck_remove_data" (Form.setDisabled (negb on || negb remove)) fs in
  mk (label w) fs (visible w) (on && remove && Form.on "stuck_remove_data" fs) (flight w).

Definition with_form (fs : obj Form.field) (w : state) : state := mk (label w) fs (visible w) (stuckWarning w) (flight w).
#[global] Instance form_window : FormWindow state := {
  fields := form;
  with_fields := with_form;
  listens name := bool_decide (name ∈ ["apply_max"; "apply_queue"; "apply_move_completed"; "apply_stuck"; "stuck_remove_data"]);
  onSwitched := switched
}.

(** [setOptions] *)
Definition value_for (options : Json.dict) (name : string) (f : Form.field) : Json.json :=
  let value := Json.get name options in
  if Form.is_check f then jbool (Json.is_true value)
  else if Form.isNumber f then jnum (Json.number value (defaultOf name))
  else
    let text := match value with Json.JPrim (PUndef | PNull) => Json.get name DEFAULTS
                               | jstr s => if decide (s = "") then Json.get name DEFAULTS else value
                               | _ => value end in
    match text with Json.JPrim PUndef => jstr "" | _ => text end.
Definition setOptions (options : Json.dict) (w : state) : state := Filling.fill (value_for options) w.

(** [options] *)
Definition options (w : state) : Json.dict :=
  let o := Form.options defaultOf (form w) in
  oset "move_completed" (Json.get "apply_move_completed" o) o.

(** [show], with [load] *)
Definition show (name : string) (w : state) : state * list output :=
  let w := mk (Some name) (form w) true (stuckWarning w) (flight w) in
  let w := setOptions [] w in
  (mk (label w) (form w) (visible w) (stuckWarning w) (flight w ++ [GetOptions name]), [Title name]).

(** The answer to it, or a failure; an answer is a dictionary, if there is
    one. *)
Definition onGotOptions (name : string) (answer : option Json.json) (w : state) : option state :=
  if negb (visible w) || negb (bool_decide (label w = Some name)) then Some w
  else match answer with
       | Some a => options ← Json.dict_of a; Some (setOptions options w)
       | None => Some (setOptions [] w)
       end.

(** [onCancel] and [onOk] *)
Definition hide (w : state) : state := mk (label w) (form w) false (stuckWarning w) (flight w).
Definition onOk (w : state) : state * list output :=
  match label w with
  | None => (hide w, [])
  | Some name =>
      if decide (name = "") then (hide w, [])
      else
        let o := options w in
        (hide (mk (label w) (form w) (visible w) (stuckWarning w) (flight w ++ [SetOptions name])),
         [LabelHidden name (Json.is_true (Json.get "hide_by_default" o)); Sent name o])
  end.

(** The answer to what was sent *)
Definition onSaved (name : string) (ok : bool) : list output := if ok then [Saved name; Updated] else [Warned].

(** What is done in the window: a box that is clicked, an action that is
    chosen, text that is typed into another field, the two buttons, and the
    answers to calls.  Nothing is done to a field that is greyed. *)
Inductive event :=
  | Show (name : string) | Cancel | Ok | Click (name : string) (b : bool) | Select (action : string)
  | Edit (name : string) (f : Form.field) | Answered (i : nat) (answer : option Json.json).
Definition enabled (kind : Form.field -> bool) (name : string) (w : state) : bool :=
  match oget name (form w) with Some f => kind f && negb (Form.disabled f) | None => false end.
Definition take_call (i : nat) (w : state) : option (call * state) :=
  c ← flight w !! i; Some (c, mk (label w) (form w) (visible w) (stuckWarning w) (delete i (flight w))).
Definition step (w : state) (e : event) : option (state * list output) :=
  match e with
  | Show name => Some (show name w)
  | Cancel => Some (hide w, [])
  | Ok => Some (onOk w)
  | Click name b => Some (if enabled Form.is_check name w then Filling.assign name (jbool b) w else w, [])
  | Select action =>
      Some (if enabled (fun _ => true) "stuck_action" w
            then switched (Filling.assign "stuck_action" (jstr action) w) else w, [])
  | Edit name f => Some (if enabled Form.is_typed name w then with_form (oset name (Form.setDisabled false f) (form w)) w else w, [])
  | Answered i a =>
      '(c, w) ← take_call i w;
      match c with
      | GetOptions name => w ← onGotOptions name a w; Some (w, [])
      | SetOptions name => Some (w, onSaved name (match a with Some _ => true | None => false end))
      end
  end.
Definition steps : state -> list event -> option (state * list output) := run step.
Definition sent (os : list output) : list (string * Json.dict) :=
  omap (fun o => match o with Sent n o => Some (n, o) | _ => None end) os.

End window.
End Labels.

(** ** The form and its switches *)

Lemma switched_similar w k : option_Forall2 similar (oget k (Labels.form (Labels.switched w))) (oget k (Labels.form w)).
Proof.
  unfold Labels.switched. cbn [Labels.form].
  do 2 (etransitivity; [apply change_similar; intros f; apply similar_disabled|]).
  generalize (Labels.form w). induction Labels.GROUPS as [|g gs IH]; intros fs; [reflexivity|]. cbn [foldl].
  etransitivity; [apply IH|]. apply disable_all_similar.
Qed.

Lemma disable_all_names b names (fs : obj Form.field) :
  (foldl (fun fs name => Form.change name (Form.setDisabled b) fs) fs names).*1 = fs.*1.
Proof. revert fs. induction names as [|n names IH]; intros fs; [done|]. cbn [foldl]. by rewrite IH, change_names. Qed.

Lemma label_names w : (Labels.form (Labels.switched w)).*1 = (Labels.form w).*1.
Proof.
  unfold Labels.switched. cbn [Labels.form]. rewrite !change_names.
  generalize (Labels.form w). induction Labels.GROUPS as [|g gs IH]; intros fs; [done|]. cbn [foldl]. rewrite IH.
  apply disable_all_names.
Qed.

#[global] Instance label_laws : FormLaws Labels.state.
Proof. split; [done|apply label_names|]. intros w k. apply switched_similar. Qed.

(** What filling leaves of the rest of the window *)
Definition frame (w : Labels.state) := (Labels.label w, Labels.visible w, Labels.flight w, (Labels.form w).*1).

Lemma frame_eq a b :
  frame a = frame b ->
  Labels.label a = Labels.label b /\ Labels.visible a = Labels.visible b /\ Labels.flight a = Labels.flight b /\
  (Labels.form a).*1 = (Labels.form b).*1.
Proof. unfold frame. intros E. by injection E. Qed.

Lemma assign_frame name v w : frame (Filling.assign name v w) = frame w.
Proof.
  unfold Filling.assign. cbn [fields Labels.form_window]. destruct (oget name (Labels.form w)) as [f|] eqn:E; [|done].
  destruct (Form.setValue v f) as [f' fired].
  assert (Hw : frame (with_fields (oset name f' (Labels.form w)) w) = frame w).
  { unfold frame. cbn. by erewrite oset_names. }
  destruct (fired && _); [|done]. cbn [onSwitched Labels.form_window]. rewrite <- Hw. unfold frame. by rewrite label_names.
Qed.

Lemma setOptions_frame o w : frame (Labels.setOptions o w) = frame w.
Proof.
  unfold Labels.setOptions, Filling.fill. cbn [onSwitched Labels.form_window].
  assert (G : forall ns w, frame (foldl (fun w name => match oget name (fields w) with
     Some f => Filling.assign name (Labels.value_for o name f) w | None => w end) w ns) = frame w).
  { induction ns as [|n ns IH]; intros w'; [done|]. cbn [foldl]. rewrite IH.
    destruct (oget n (fields w')); [apply assign_frame|done]. }
  rewrite <- (G (okeys (fields w)) w). unfold frame. by rewrite label_names.
Qed.

Lemma value_for_similar o n f g : similar f g -> Labels.value_for o n f = Labels.value_for o n g.
Proof. intros Hs. unfold Labels.value_for. destruct f, g; by try discriminate Hs. Qed.

Lemma made_ok tr : obj_ok (Labels.made tr).
Proof. unfold obj_ok. cbn. apply (bool_decide_unpack _). vm_compute. exact I. Qed.

(** The window's names for what the form calls its fields *)
Lemma fields_form (w : Labels.state) : Labels.form w = fields w.
Proof. reflexivity. Qed.
Lemma setOptions_fill o w : Labels.setOptions o w = Filling.fill (Labels.value_for o) w.
Proof. reflexivity. Qed.

Lemma setOptions_kinds tr o w : of_kinds (Labels.made tr) w -> of_kinds (Labels.made tr) (Labels.setOptions o w).
Proof. rewrite setOptions_fill. apply fill_kinds. Qed.

Lemma made_kinds tr l b s fl : of_kinds (Labels.made tr) (Labels.mk l (Labels.made tr) b s fl).
Proof. split; [done|]. intros k f E. by exists f. Qed.

(** Settings that a label has in full: a value of the field's type for every
    one. *)
Definition complete (tr : string -> string) (o : Json.dict) : Prop :=
  forall k f, oget k (Labels.made tr) = Some f -> exists v, oget k o = Some v /\ fits_field f v.

(** The texts have no default. *)
Lemma text_default tr k t : oget k (Labels.made tr) = Some (Form.FText t) -> Json.get k Labels.DEFAULTS = Json.undef.
Proof.
  cbn [oget Labels.made]. repeat (destruct (decide _) as [-> |]; [first [discriminate|reflexivity]|]). done.
Qed.

Lemma value_for_fits tr o k f v :
  oget k (Labels.made tr) = Some f -> oget k o = Some v -> fits_field f v -> Labels.value_for o k f = v.
Proof.
  intros Hm Ho Hf. assert (Json.get k o = v) as Hg by (unfold Json.get; by rewrite Ho).
  unfold Labels.value_for. rewrite Hg.
  destruct f as [c|n|d|t|x b]; cbn [fits_field Form.is_check Form.isNumber] in *.
  - destruct Hf as [b ->]. by destruct b.
  - destruct Hf as (z & Hz & ->). rewrite json_number_int by (unfold safe; lia). done.
  - destruct Hf as (z & Hz & ->). rewrite json_number_int by (unfold safe; lia). done.
  - destruct Hf as (s & Hl & Hs & ->). rewrite (text_default tr k t Hm). by destruct (decide (s = "")) as [-> |].
  - destruct Hf as (s & Hs & ->). by rewrite decide_False.
Qed.

(** A value that two fields hold is of one type for both, but for a text and a
    choice, which are read alike. *)
Lemma value_for_kind o k f g v : fits_field f v -> fits_field g v -> Labels.value_for o k g = Labels.value_for o k f.
Proof.
  unfold Labels.value_for. destruct f, g; cbn [fits_field Form.is_check Form.isNumber]; try reflexivity;
    intros Hf Hg; exfalso; naive_solver.
Qed.

(** A window that was given settings holds what it takes for them. *)
Lemma setOptions_value tr o w k f v :
  of_kinds (Labels.made tr) w -> oget k (Labels.made tr) = Some f -> fits_field f v -> Labels.value_for o k f = v ->
  oget k (Form.options Labels.defaultOf (Labels.form (Labels.setOptions o w))) = Some v.
Proof.
  intros Hw Hm Hf Ho. rewrite fields_form, setOptions_fill. eapply fill_value; eauto using made_ok, value_for_similar.
  intros g g'. apply value_for_kind.
Qed.

(** The options of a window that agree with a dictionary of settings: every
    field, and the switch of moving twice. *)
Definition agrees (tr : string -> string) (o d : Json.dict) : Prop :=
  (forall k f, oget k (Labels.made tr) = Some f -> oget k d = oget k o) /\
  oget "move_completed" d = oget "apply_move_completed" o.

Lemma options_agree tr o w :
  (forall k f, oget k (Labels.made tr) = Some f -> oget k (Form.options Labels.defaultOf (Labels.form w)) = oget k o) ->
  (exists v, oget "apply_move_completed" o = Some v) ->
  agrees tr o (Labels.options w).
Proof.
  intros H [v Hv]. unfold Labels.options. set (d := Form.options _ _) in *. split.
  - intros k f Hk. rewrite oget_oset_ne; [by apply H with f|]. intros ->. discriminate Hk.
  - rewrite oget_oset_eq. unfold Json.get. rewrite (H "apply_move_completed" Labels.check eq_refl), Hv. done.
Qed.

Lemma setOptions_agrees tr o w : of_kinds (Labels.made tr) w -> complete tr o -> agrees tr o (Labels.options (Labels.setOptions o w)).
Proof.
  intros Hw Hc. apply options_agree.
  - intros k f Hk. destruct (Hc k f Hk) as (v & Hv & Hf). rewrite Hv.
    eapply setOptions_value; eauto using value_for_fits.
  - destruct (Hc "apply_move_completed" Labels.check eq_refl) as (v & Hv & _). eauto.
Qed.

(** What the window takes for a label that has no settings. *)
Definition blank : Json.dict :=
  [("apply_max", jbool false); ("max_download_speed", jint (-1)); ("max_upload_speed", jint (-1));
   ("max_connections", jint (-1)); ("max_upload_slots", jint (-1));
   ("apply_queue", jbool false); ("stop_at_ratio", jbool false); ("stop_ratio", jint 2); ("remove_at_ratio", jbool false);
   ("apply_move_completed", jbool false); ("move_completed_path", jstr "");
   ("apply_stuck", jbool false); ("stuck_hours", jint 0); ("stuck_max_progress", jint 0);
   ("stuck_action", jstr "pause"); ("stuck_label", jstr ""); ("stuck_remove_data", jbool false);
   ("never_remove", jbool false); ("hide_by_default", jbool false)].

Lemma blank_value tr k f :
  oget k (Labels.made tr) = Some f -> oget k blank = Some (Labels.value_for [] k f) /\ fits_field f (Labels.value_for [] k f).
Proof.
  assert (Hb : exists b, Labels.value_for [] k Labels.check = jbool b) by (exists false; done).
  unfold Labels.made. cbn [oget].
  repeat (destruct (decide _) as [-> |];
    [intros [= <-]; split;
      [reflexivity
      |first [exact Hb|eexists; (split; [|reflexivity]); lia
             |exists ""; split; [by split|split; [by right|reflexivity]]
             |exists "pause"; done]]
    |]).
  done.
Qed.

Lemma reset_agrees tr w : of_kinds (Labels.made tr) w -> agrees tr blank (Labels.options (Labels.setOptions [] w)).
Proof.
  intros Hw. apply options_agree; [|by exists (jbool false)].
  intros k f Hk. destruct (blank_value tr k f Hk) as [-> Hf]. eapply setOptions_value; eauto.
Qed.

(** ** What is done while the settings are on their way *)

(** An edit of the form: a box, the action, or another field that stays of its
    type. *)
Definition edits (tr : string -> string) (e : Labels.event) : Prop :=
  match e with
  | Labels.Click _ _ | Labels.Select _ => True
  | Labels.Edit name f => exists g, oget name (Labels.made tr) = Some g /\ forall v, fits_field f v <-> fits_field g v
  | _ => False
  end.

Lemma label_switched_kinds tr w : of_kinds (Labels.made tr) w -> of_kinds (Labels.made tr) (Labels.switched w).
Proof. exact (switched_kinds (Labels.made tr) w). Qed.

Lemma edit_frame tr e w :
  edits tr e -> of_kinds (Labels.made tr) w ->
  exists w', Labels.step w e = Some (w', []) /\ of_kinds (Labels.made tr) w' /\ frame w' = frame w.
Proof.
  intros He Hw. destruct e as [| | |name b|act|name f|]; try done; cbn [Labels.step]; eexists; (split; [done|]).
  - destruct (Labels.enabled _ name w); [|done]. split; [by apply assign_kinds|apply assign_frame].
  - destruct (Labels.enabled _ _ w); [|done]. split; [by apply label_switched_kinds, assign_kinds|].
    rewrite <- (assign_frame "stuck_action" (jstr act) w). unfold frame. by rewrite label_names.
  - destruct (Labels.enabled _ name w); [|done]. destruct He as (g & Hg & Hfits). destruct Hw as [Hn Hk].
    destruct (Hk name g Hg) as (h & Hh & Hgh).
    split; [|unfold frame; cbn; by erewrite oset_names].
    apply (kinds_alike (Labels.made tr) w); [by split|cbn; by erewrite oset_names|]. cbn [fields Labels.form_window Labels.form Labels.with_form]. intros k f' Hf'.
    destruct (decide (k = name)) as [-> |Hk']; [|exists f'; by rewrite oget_oset_ne].
    rewrite oget_oset_eq. exists (Form.setDisabled false f). split; [done|]. intros v. assert (f' = h) as -> by (cbn in Hh; congruence).
    rewrite (similar_disabled false f). by rewrite Hfits, Hgh.
Qed.

Lemma edits_frame tr es w :
  Forall (edits tr) es -> of_kinds (Labels.made tr) w ->
  exists w', Labels.steps w es = Some (w', []) /\ of_kinds (Labels.made tr) w' /\ frame w' = frame w.
Proof.
  intros Hes Hw. induction es as [|e es IH] using rev_ind; [by exists w|].
  rewrite Forall_app in Hes; destruct Hes as [Hes He]. rewrite Forall_cons in He; destruct He as [He _]. destruct (IH Hes) as (w1 & H1 & Hw1 & Hf1).
  destruct (edit_frame tr e w1 He Hw1) as (w2 & H2 & Hw2 & Hf2).
  exists w2. split; [|by split; [|congruence]]. unfold Labels.steps. apply run_snoc. by exists w1, [], [].
Qed.

(** The window opens on the blank form, and asks. *)
Lemma show_frame tr name w :
  of_kinds (Labels.made tr) w ->
  exists w', Labels.step w (Labels.Show name) = Some (w', [Labels.Title name]) /\ of_kinds (Labels.made tr) w' /\
    agrees tr blank (Labels.options w') /\
    Labels.label w' = Some name /\ Labels.visible w' = true /\ Labels.flight w' = Labels.flight w ++ [Labels.GetOptions name].
Proof.
  intros Hw. cbn [Labels.step]. unfold Labels.show.
  set (w0 := Labels.mk (Some name) (Labels.form w) true (Labels.stuckWarning w) (Labels.flight w)).
  assert (Hw0 : of_kinds (Labels.made tr) w0) by exact Hw.
  pose proof (frame_eq _ _ (setOptions_frame [] w0)) as (El & Ev & Ef & _).
  pose proof (reset_agrees tr w0 Hw0) as Hr. pose proof (setOptions_kinds tr [] w0 Hw0) as Hk.
  revert El Ev Ef Hr Hk. generalize (Labels.setOptions [] w0) as w1. intros w1 El Ev Ef Hr Hk.
  eexists. split; [done|]. split_and!; try done. cbn. by rewrite Ef.
Qed.

(** ** What the window writes *)

(** The answer to the window that is still open on its label fills it. *)
Lemma answer_step tr name o i w :
  of_kinds (Labels.made tr) w -> Labels.label w = Some name -> Labels.visible w = true ->
  Labels.flight w !! i = Some (Labels.GetOptions name) ->
  exists w', Labels.step w (Labels.Answered i (Some (Json.JObj o))) = Some (w', []) /\
    of_kinds (Labels.made tr) w' /\ Labels.label w' = Some name /\ Labels.visible w' = true /\
    Labels.flight w' = delete i (Labels.flight w) /\ (complete tr o -> agrees tr o (Labels.options w')).
Proof.
  intros Hw Hl Hv Hf. cbn [Labels.step]. unfold Labels.take_call. rewrite Hf. cbn [mbind option_bind].
  set (w0 := Labels.mk _ _ _ _ (delete i _)). unfold Labels.onGotOptions. cbn [Labels.visible Labels.label w0].
  rewrite Hv, Hl, bool_decide_true by done. cbn [negb orb Json.dict_of Json.truthy mbind option_bind].
  assert (Hw0 : of_kinds (Labels.made tr) w0) by exact Hw.
  pose proof (frame_eq _ _ (setOptions_frame o w0)) as (El & Ev & Ef & _).
  pose proof (setOptions_agrees tr o w0 Hw0) as Ha. pose proof (setOptions_kinds tr o w0 Hw0) as Hk.
  revert El Ev Ef Ha Hk. generalize (Labels.setOptions o w0) as w1. intros w1 El Ev Ef Ha Hk.
  exists w1. unfold w0 in *. cbn in El, Ev, Ef. rewrite Hl in El. rewrite Hv in Ev. by split_and!.
Qed.

(** An answer about another label is let go. *)
Lemma other_answer name other a i w :
  Labels.label w = Some name -> name <> other -> Labels.flight w !! i = Some (Labels.GetOptions other) ->
  Labels.step w (Labels.Answered i a) =
    Some (Labels.mk (Labels.label w) (Labels.form w) (Labels.visible w) (Labels.stuckWarning w) (delete i (Labels.flight w)), []).
Proof.
  intros Hl Hn Hf. cbn [Labels.step]. unfold Labels.take_call. rewrite Hf. cbn [mbind option_bind].
  unfold Labels.onGotOptions. cbn [Labels.visible Labels.label].
  rewrite Hl, (bool_decide_false (Some name = Some other)), orb_true_r by congruence. cbn [mbind option_bind].
  by rewrite <- Hl.
Qed.

Lemma ok_step name w :
  name <> "" -> Labels.label w = Some name ->
  exists w', Labels.step w Labels.Ok =
    Some (w', [Labels.LabelHidden name (Json.is_true (Json.get "hide_by_default" (Labels.options w))); Labels.Sent name (Labels.options w)]).
Proof.
  intros Hn Hl. cbn [Labels.step]. unfold Labels.onOk. rewrite Hl, decide_False by done. eauto.
Qed.

(** [run] of one step more, from the front *)
Lemma steps_cons w e es w1 os1 w2 os2 :
  Labels.step w e = Some (w1, os1) -> Labels.steps w1 es = Some (w2, os2) -> Labels.steps w (e :: es) = Some (w2, os1 ++ os2).
Proof.
  intros H1 H2. unfold Labels.steps in *. change (e :: es) with ([e] ++ es). apply run_app.
  exists w1, os1, os2. split_and!; [|done|done]. cbn. by rewrite H1.
Qed.

(** The settings that the daemon has for a label, once they have arrived, are
    what OK writes back, whatever was done in the form before they arrived. *)
Theorem label_settings_kept tr w name es o :
  of_kinds (Labels.made tr) w -> name <> "" -> Forall (edits tr) es -> complete tr o ->
  exists w' d, Labels.steps w (Labels.Show name :: es ++
      [Labels.Answered (length (Labels.flight w)) (Some (Json.JObj o)); Labels.Ok]) =
    Some (w', [Labels.Title name; Labels.LabelHidden name (Json.is_true (Json.get "hide_by_default" d)); Labels.Sent name d]) /\
    agrees tr o d.
Proof.
  intros Hw Hn Hes Hc. destruct (show_frame tr name w Hw) as (w1 & H1 & Hw1 & _ & Hl1 & Hv1 & Hf1).
  destruct (edits_frame tr es w1 Hes Hw1) as (w2 & H2 & Hw2 & Hf2).
  apply frame_eq in Hf2 as (El & Ev & Ef & _). rewrite Hl1 in El. rewrite Hv1 in Ev. rewrite Hf1 in Ef.
  destruct (answer_step tr name o (length (Labels.flight w)) w2 Hw2 El Ev) as (w3 & H3 & Hw3 & Hl3 & _ & _ & Ha3).
  { rewrite Ef. apply list_lookup_middle. done. }
  destruct (ok_step name w3 Hn Hl3) as (w4 & H4). exists w4, (Labels.options w3). split; [|by apply Ha3].
  apply (steps_cons w _ _ w1 [Labels.Title name] w4 [_; _] H1). unfold Labels.steps in *. apply run_app.
  exists w2, [], [Labels.LabelHidden name (Json.is_true (Json.get "hide_by_default" (Labels.options w3))); Labels.Sent name (Labels.options w3)].
  split_and!; [done| |done].
  apply (steps_cons w2 _ _ w3 [] w4 _ H3). apply (steps_cons w3 _ [] w4 _ w4 [] H4). done.
Qed.

(** A window that is opened on a second label before the answer about the
    first writes the settings of the second to the second, in whichever order
    the two answers arrive. *)
Theorem second_label_wins tr w a b answer ob (first : bool) :
  of_kinds (Labels.made tr) w -> Labels.flight w = [] -> a <> b -> b <> "" -> complete tr ob ->
  exists w' d, Labels.steps w (Labels.Show a :: Labels.Show b ::
      (if first then [Labels.Answered 0 answer; Labels.Answered 0 (Some (Json.JObj ob))]
       else [Labels.Answered 1 (Some (Json.JObj ob)); Labels.Answered 0 answer]) ++ [Labels.Ok]) =
    Some (w', [Labels.Title a; Labels.Title b;
               Labels.LabelHidden b (Json.is_true (Json.get "hide_by_default" d)); Labels.Sent b d]) /\
    agrees tr ob d.
Proof.
  intros Hw Hf Hab Hb Hc. destruct (show_frame tr a w Hw) as (w1 & H1 & Hw1 & _ & _ & _ & Hf1).
  destruct (show_frame tr b w1 Hw1) as (w2 & H2 & Hw2 & _ & Hl2 & Hv2 & Hf2). rewrite Hf1, Hf in Hf2. cbn in Hf2.
  assert (Hba : b <> a) by congruence.
  destruct first.
  - pose proof (other_answer b a answer 0 w2 Hl2 Hba ltac:(by rewrite Hf2)) as H3. set (w3 := Labels.mk _ _ _ _ _) in H3.
    destruct (answer_step tr b ob 0 w3) as (w4 & H4 & _ & Hl4 & _ & _ & Ha); [done|done|done|by unfold w3; cbn; rewrite Hf2|].
    destruct (ok_step b w4 Hb Hl4) as (w5 & H5). exists w5, (Labels.options w4). split; [|by apply Ha].
    apply (steps_cons _ _ _ _ [_] _ [_; _; _] H1), (steps_cons _ _ _ _ [_] _ [_; _] H2), (steps_cons _ _ _ _ [] _ _ H3),
      (steps_cons _ _ _ _ [] _ _ H4), (steps_cons _ _ [] _ _ _ [] H5). done.
  - destruct (answer_step tr b ob 1 w2 Hw2 Hl2 Hv2) as (w3 & H3 & _ & Hl3 & _ & Hf3 & Ha); [by rewrite Hf2|].
    rewrite Hf2 in Hf3. pose proof (other_answer b a answer 0 w3 Hl3 Hba ltac:(by rewrite Hf3)) as H4.
    set (w4 := Labels.mk _ _ _ _ _) in H4.
    destruct (ok_step b w4 Hb Hl3) as (w5 & H5). exists w5, (Labels.options w4). split; [|by apply Ha].
    apply (steps_cons _ _ _ _ [_] _ [_; _; _] H1), (steps_cons _ _ _ _ [_] _ [_; _] H2), (steps_cons _ _ _ _ [] _ _ H3),
      (steps_cons _ _ _ _ [] _ _ H4), (steps_cons _ _ [] _ _ _ [] H5). done.
Qed.

(** OK before the settings arrive writes the blank form over what the label
    had, and so it does when the settings could not be had. *)
Theorem early_ok_resets tr w name (failed : bool) :
  of_kinds (Labels.made tr) w -> name <> "" ->
  exists w' d, Labels.steps w (Labels.Show name ::
      (if failed then [Labels.Answered (length (Labels.flight w)) None] else []) ++ [Labels.Ok]) =
    Some (w', [Labels.Title name; Labels.LabelHidden name (Json.is_true (Json.get "hide_by_default" d)); Labels.Sent name d]) /\
    agrees tr blank d.
Proof.
  intros Hw Hn. destruct (show_frame tr name w Hw) as (w1 & H1 & Hw1 & Ha1 & Hl1 & Hv1 & Hf1). destruct failed.
  - assert (Hlook : Labels.flight w1 !! length (Labels.flight w) = Some (Labels.GetOptions name)).
    { rewrite Hf1. by apply list_lookup_middle. }
    set (w0 := Labels.mk (Labels.label w1) (Labels.form w1) (Labels.visible w1) (Labels.stuckWarning w1)
                         (delete (length (Labels.flight w)) (Labels.flight w1))).
    assert (Hw0 : of_kinds (Labels.made tr) w0) by exact Hw1.
    assert (H2 : Labels.step w1 (Labels.Answered (length (Labels.flight w)) None) = Some (Labels.setOptions [] w0, [])).
    { cbn [Labels.step]. unfold Labels.take_call. rewrite Hlook. cbn [mbind option_bind]. fold w0. unfold Labels.onGotOptions.
      cbn [Labels.visible Labels.label w0]. rewrite Hv1, Hl1, bool_decide_true by done. done. }
    pose proof (frame_eq _ _ (setOptions_frame [] w0)) as (El & _). pose proof (reset_agrees tr w0 Hw0) as Hr.
    assert (Hl0 : Labels.label w0 = Some name) by exact Hl1. rewrite Hl0 in El.
    revert El Hr H2. generalize (Labels.setOptions [] w0) as w2. intros w2 El Hr H2.
    destruct (ok_step name w2 Hn El) as (w3 & H3). exists w3, (Labels.options w2). split; [|done].
    apply (steps_cons _ _ _ _ [_] _ [_; _] H1), (steps_cons _ _ _ _ [] _ _ H2), (steps_cons _ _ [] _ _ _ [] H3). done.
  - destruct (ok_step name w1 Hn Hl1) as (w2 & H2). exists w2, (Labels.options w1). split; [|done].
    apply (steps_cons _ _ _ _ [_] _ [_; _] H1), (steps_cons _ _ [] _ _ _ [] H2). done.
Qed.

(** ** What the switches govern *)

(** Whether a field of a group should be greyed: its switch is off, or it
    belongs to the other action. *)
Definition greyed (fs : obj Form.field) (group name : string) : bool :=
  if decide (name = "stuck_label") then negb (Form.on group fs) || Labels.removing fs
  else if decide (name = "stuck_remove_data") then negb (Form.on group fs) || negb (Labels.removing fs)
  else negb (Form.on group fs).
Definition governs (g : string * list string) (name : string) : Prop := g ∈ Labels.GROUPS /\ name ∈ g.2.

(** Every field of a group is greyed as its switch and the action say, and the
    warning is shown when files would be deleted. *)
Definition governed (w : Labels.state) : Prop :=
  (forall g name f, governs g name -> oget name (Labels.form w) = Some f ->
     Form.disabled f = greyed (Labels.form w) g.1 name) /\
  Labels.stuckWarning w =
    Form.on "apply_stuck" (Labels.form w) && Labels.removing (Labels.form w) && Form.on "stuck_remove_data" (Labels.form w).

(** The same settings in the fields, whatever is greyed *)
Definition alike (a b : obj Form.field) : Prop := forall k, option_Forall2 similar (oget k a) (oget k b).

Lemma on_alike a b k : alike a b -> Form.on k a = Form.on k b.
Proof. intros H. unfold Form.on. destruct (H k) as [f g Hs|]; [|done]. by rewrite Hs. Qed.
Lemma removing_alike a b : alike a b -> Labels.removing a = Labels.removing b.
Proof. intros H. unfold Labels.removing. destruct (H "stuck_action") as [f g Hs|]; [|done]. by rewrite Hs. Qed.
Lemma greyed_alike a b g n : alike a b -> greyed a g n = greyed b g n.
Proof. intros H. unfold greyed. by rewrite (on_alike a b g H), (removing_alike a b H). Qed.

Lemma disable_all_oget b names fs k :
  oget k (foldl (fun fs name => Form.change name (Form.setDisabled b) fs) fs names) =
  if decide (k ∈ names) then Form.setDisabled b <$> oget k fs else oget k fs.
Proof.
  revert fs. induction names as [|n names IH]; intros fs; [done|]. cbn [foldl]. rewrite IH. clear IH.
  unfold Form.change. destruct (decide (k = n)) as [-> |Hk].
  - rewrite (decide_True (P := n ∈ n :: names)) by constructor. destruct (oget n fs) as [f|] eqn:E; [|by rewrite E; destruct (decide _)].
    rewrite oget_oset_eq. destruct (decide _); [|done]. cbn. by destruct f.
  - assert (oget k (match oget n fs with Some f => oset n (Form.setDisabled b f) fs | None => fs end) = oget k fs) as ->.
    { destruct (oget n fs); [by apply oget_oset_ne|done]. }
    by rewrite (decide_ext (k ∈ names) (k ∈ n :: names)) by (rewrite elem_of_cons; tauto).
Qed.

Lemma switch_groups_alike gs fs : alike (foldl Labels.switch_group fs gs) fs.
Proof.
  intros k. revert fs. induction gs as [|g gs IH]; intros fs; [reflexivity|]. cbn [foldl].
  etransitivity; [apply IH|]. apply disable_all_similar.
Qed.

(** A field of one group alone follows its switch. *)
Lemma switch_groups_oget gs fs g k f :
  g ∈ gs -> k ∈ g.2 -> (forall g', g' ∈ gs -> k ∈ g'.2 -> g' = g) -> oget k fs = Some f ->
  oget k (foldl Labels.switch_group fs gs) = Some (Form.setDisabled (negb (Form.on g.1 fs)) f).
Proof.
  intros Hg Hk Hu Hf.
  enough (G : forall gs fs h, (g ∈ gs \/ h = Form.setDisabled (negb (Form.on g.1 fs)) f) -> Form.setDisabled false h = Form.setDisabled false f ->
    (forall g', g' ∈ gs -> k ∈ g'.2 -> g' = g) -> oget k fs = Some h ->
    oget k (foldl Labels.switch_group fs gs) = Some (Form.setDisabled (negb (Form.on g.1 fs)) f)) by (apply (G gs fs f); auto).
  clear gs fs Hg Hu Hf. intros gs. induction gs as [|g0 gs IH]; intros fs h Hg Hs Hu Hf.
  { cbn. destruct Hg as [Hg| ->]; [by apply elem_of_nil in Hg|done]. }
  cbn [foldl]. pose proof (switch_groups_alike [g0] fs) as Ha. cbn [foldl] in Ha.
  rewrite <- (on_alike _ _ g.1 Ha). destruct (decide (k ∈ g0.2)) as [Hk0|Hk0].
  - assert (g0 = g) as -> by (apply Hu; [constructor|done]).
    apply IH with (Form.setDisabled (negb (Form.on g.1 fs)) h).
    + right. rewrite (on_alike _ _ g.1 Ha). by rewrite <- (disabled_absorb _ false h), Hs, disabled_absorb.
    + by rewrite <- Hs, disabled_absorb.
    + intros g' Hg'. apply Hu. by constructor.
    + unfold Labels.switch_group. rewrite disable_all_oget, decide_True, Hf by done. done.
  - apply IH with h; [|done| |].
    + destruct Hg as [Hg|Hg]; [|right; by rewrite (on_alike _ _ g.1 Ha)].
      apply elem_of_cons in Hg as [-> |Hg]; [done|by left].
    + intros g' Hg'. apply Hu. by constructor.
    + unfold Labels.switch_group. by rewrite disable_all_oget, decide_False.
Qed.

Lemma change_oget name g fs k f :
  oget k (Form.change name g fs) = Some f -> exists h, oget k fs = Some h /\ f = if decide (k = name) then g h else h.
Proof.
  unfold Form.change. destruct (oget name fs) as [h|] eqn:E.
  - rewrite oget_oset. destruct (decide (k = name)) as [-> |]; [intros [= <-]; eauto|eauto].
  - destruct (decide (k = name)) as [-> |]; [by rewrite E|eauto].
Qed.

(** Every field is in one group. *)
Lemma one_group g g' k : governs g k -> governs g' k -> g' = g.
Proof.
  assert (G : forallb (fun g => forallb (fun g' => forallb (fun k => negb (bool_decide (k ∈ g'.2)) || bool_decide (g' = g)) g.2)
                Labels.GROUPS) Labels.GROUPS = true) by (vm_compute; reflexivity).
  intros [Hg Hk] [Hg' Hk']. rewrite forallb_forall in G. specialize (G g ltac:(by apply list_elem_of_In)).
  rewrite forallb_forall in G. specialize (G g' ltac:(by apply list_elem_of_In)).
  rewrite forallb_forall in G. specialize (G k ltac:(by apply list_elem_of_In)).
  rewrite (bool_decide_true (k ∈ g'.2)) in G by done. by apply bool_decide_eq_true in G.
Qed.

Lemma switched_governed w : governed (Labels.switched w).
Proof.
  pose proof (fun k => switched_similar w k) as Hal. fold (alike (Labels.form (Labels.switched w)) (Labels.form w)) in Hal.
  split.
  - intros g n f Hg Hf. rewrite (greyed_alike _ _ _ _ Hal). revert Hf. unfold Labels.switched. cbn [Labels.form].
    set (fs := foldl _ _ _). pose proof (switch_groups_alike Labels.GROUPS (Labels.form w)) as Hfs. fold fs in Hfs.
    intros Hf. apply change_oget in Hf as (h & Hh & ->). apply change_oget in Hh as (h' & Hh' & ->).
    assert (Hd : Form.disabled h' = negb (Form.on g.1 (Labels.form w))).
    { destruct (oget n (Labels.form w)) as [f0|] eqn:E0.
      - unfold fs in Hh'. rewrite (switch_groups_oget _ _ g n f0) in Hh'; try done; try apply Hg.
        + apply (inj Some) in Hh' as <-. apply disabled_set.
        + intros g' ??. by apply (one_group g g' n).
      - pose proof (Hfs n) as Hn. rewrite Hh', E0 in Hn. inversion Hn. }
    assert (Hst : n = "stuck_label" \/ n = "stuck_remove_data" -> g.1 = "apply_stuck").
    { intros Hn. assert (governs ("apply_stuck", ["stuck_hours"; "stuck_max_progress"; "stuck_action"; "stuck_label"; "stuck_remove_data"]) n) as Hs.
      { split; [by do 3 right; left|]. destruct Hn as [-> | ->]; apply (bool_decide_unpack _); vm_compute; exact I. }
      by rewrite (one_group _ g n Hs Hg). }
    unfold greyed. rewrite <- (removing_alike _ _ Hfs).
    destruct (decide (n = "stuck_label")) as [-> |H1].
    + rewrite decide_False by done. rewrite Hst, <- (on_alike _ _ "apply_stuck" Hfs) by auto. apply disabled_set.
    + destruct (decide (n = "stuck_remove_data")) as [-> |H2]; [|done].
      rewrite Hst, <- (on_alike _ _ "apply_stuck" Hfs) by auto. apply disabled_set.
  - rewrite (on_alike _ _ "apply_stuck" Hal), (removing_alike _ _ Hal).
    unfold Labels.switched. cbn [Labels.stuckWarning Labels.form]. set (fs := foldl _ _ _).
    pose proof (switch_groups_alike Labels.GROUPS (Labels.form w)) as Hfs. fold fs in Hfs.
    by rewrite (on_alike _ _ "apply_stuck" Hfs), (removing_alike _ _ Hfs).
Qed.

(** What moves no switch leaves what is greyed. *)
Definition switches : list string :=
  ["apply_max"; "apply_queue"; "apply_move_completed"; "apply_stuck"; "stuck_action"; "stuck_remove_data"].

Lemma governed_same w w' :
  governed w -> Labels.stuckWarning w' = Labels.stuckWarning w ->
  (forall k, k ∈ switches -> Form.getValue <$> oget k (Labels.form w') = Form.getValue <$> oget k (Labels.form w)) ->
  (forall k f, oget k (Labels.form w') = Some f -> exists g, oget k (Labels.form w) = Some g /\ Form.disabled f = Form.disabled g) ->
  governed w'.
Proof.
  intros [Hg Hs] Hw Hv Hd.
  assert (Hon : forall k, k ∈ switches -> Form.on k (Labels.form w') = Form.on k (Labels.form w)).
  { intros k Hk. specialize (Hv k Hk). unfold Form.on. destruct (oget k (Labels.form w')), (oget k (Labels.form w)); try done.
    cbn in Hv. by injection Hv as ->. }
  assert (Hr : Labels.removing (Labels.form w') = Labels.removing (Labels.form w)).
  { specialize (Hv "stuck_action" ltac:(by do 4 right; left)). unfold Labels.removing.
    destruct (oget _ (Labels.form w')), (oget _ (Labels.form w)); try done. cbn in Hv. by injection Hv as ->. }
  split.
  - intros g n f Hgn Hf. destruct (Hd n f Hf) as (f' & Hf' & ->). rewrite (Hg g n f' Hgn Hf').
    unfold greyed. rewrite Hr, Hon; [done|]. destruct Hgn as [Hin _].
    revert Hin. clear. unfold Labels.GROUPS, switches. rewrite !elem_of_cons, elem_of_nil. naive_solver.
  - rewrite Hw, Hs, Hr, !Hon; [done|by do 5 right; left|by do 3 right; left].
Qed.

(** The switches are boxes, and the action a choice. *)
Lemma kind_check tr w k f : of_kinds (Labels.made tr) w -> oget k (Labels.made tr) = Some Labels.check -> oget k (Labels.form w) = Some f -> Form.is_typed f = false.
Proof.
  intros [_ Hk] Hm Hf. destruct (Hk k _ Hm) as (g & Hg & Hfits). assert (g = f) as -> by (cbn in Hg; congruence).
  assert (H : fits_field f (jbool true)) by (apply Hfits; by exists true).
  apply fits_bool in H. by destruct f.
Qed.
Lemma kind_choice tr w f : of_kinds (Labels.made tr) w -> oget "stuck_action" (Labels.form w) = Some f -> Form.is_typed f = false.
Proof.
  intros [_ Hk] Hf. destruct (Hk "stuck_action" _ eq_refl) as (g & Hg & Hfits). assert (g = f) as -> by (cbn in Hg; congruence).
  assert (H : ~ fits_field f (jstr "")) by (rewrite Hfits; intros (s & Hs & [= <-]); by apply Hs).
  assert (H' : fits_field f (jstr "pause")) by (apply Hfits; by exists "pause").
  apply fits_string in H'. destruct f as [| | |t|]; try done. destruct H. exists "". split_and!; [by split|by right|done].
Qed.

Lemma set_box b c : Form.setValue (jbool b) (Form.FCheck c) =
  (Form.FCheck (Checkbox.mk b (Checkbox.disabled c)), negb (Bool.eqb (Checkbox.checked c) b)).
Proof. by destruct b. Qed.

Lemma click_governed tr name b w : of_kinds (Labels.made tr) w -> governed w ->
  governed (if Labels.enabled Form.is_check name w then Filling.assign name (jbool b) w else w).
Proof.
  intros Hw Hg. unfold Labels.enabled. destruct (oget name (Labels.form w)) as [f|] eqn:E; [|done].
  destruct (Form.is_check f) eqn:Ec, (Form.disabled f) eqn:Ed; try done. cbn [andb negb].
  unfold Filling.assign. cbn [fields Labels.form_window]. rewrite E. destruct f as [c| | | |]; try done.
  rewrite set_box. destruct (negb _ && _) eqn:Ef; [apply switched_governed|].
  apply governed_same with w; [done|done| |]; cbn [with_fields Labels.form_window Labels.form Labels.with_form].
  - intros k Hk. destruct (decide (k = name)) as [-> |]; [|by rewrite oget_oset_ne].
    rewrite oget_oset_eq, E. cbn. do 2 f_equal.
    apply andb_false_iff in Ef as [Ef|Ef].
    + apply negb_false_iff, Bool.eqb_prop in Ef. by rewrite <- Ef.
    + cbn in Ef. apply bool_decide_eq_false in Ef. unfold switches in Hk.
      exfalso. rewrite !elem_of_cons, elem_of_nil in Hk. rewrite !elem_of_cons, elem_of_nil in Ef.
      destruct Hk as [?|[?|[?|[?|[->|[?|[]]]]]]]; try tauto.
      destruct Hw as [_ Hk]. destruct (Hk "stuck_action" _ eq_refl) as (g & Hgg & Hfits). assert (g = Form.FCheck c) as -> by (cbn in Hgg; congruence).
      assert (H' : fits_field (Form.FCheck c) (jstr "pause")) by (apply Hfits; by exists "pause").
      by apply fits_string in H'.
  - intros k f. destruct (decide (k = name)) as [-> |]; [|rewrite oget_oset_ne by done; eauto].
    rewrite oget_oset_eq. intros [= <-]. exists (Form.FCheck c). done.
Qed.

Lemma typing_governed tr name f w : of_kinds (Labels.made tr) w -> governed w ->
  governed (if Labels.enabled Form.is_typed name w
            then Labels.with_form (oset name (Form.setDisabled false f) (Labels.form w)) w else w).
Proof.
  intros Hw Hg. unfold Labels.enabled. destruct (oget name (Labels.form w)) as [g|] eqn:E; [|done].
  destruct (Form.is_typed g) eqn:Et, (Form.disabled g) eqn:Ed; try done. cbn [andb negb].
  apply governed_same with w; [done|done| |]; cbn [Labels.form Labels.with_form].
  - intros k Hk. destruct (decide (k = name)) as [-> |]; [|by rewrite oget_oset_ne]. exfalso.
    assert (Hb : forall k, k ∈ switches -> k = "stuck_action" \/ oget k (Labels.made tr) = Some Labels.check).
    { clear. unfold switches. intros k. rewrite !elem_of_cons, elem_of_nil. naive_solver. }
    destruct (Hb name Hk) as [-> | Hb']; [pose proof (kind_choice tr w g Hw E)|pose proof (kind_check tr w name g Hw Hb' E)]; congruence.
  - intros k h. destruct (decide (k = name)) as [-> |]; [|rewrite oget_oset_ne by done; eauto].
    rewrite oget_oset_eq. intros [= <-]. exists g. split; [done|]. rewrite Ed. apply disabled_set.
Qed.

(** An event of the window: no text becomes a number. *)
Definition plain (tr : string -> string) (e : Labels.event) : Prop :=
  match e with Labels.Edit _ _ => edits tr e | _ => True end.

Lemma setOptions_governed o w : governed (Labels.setOptions o w).
Proof. rewrite setOptions_fill. unfold Filling.fill. apply switched_governed. Qed.

Lemma show_governed tr name w w' os :
  of_kinds (Labels.made tr) w -> Labels.step w (Labels.Show name) = Some (w', os) -> of_kinds (Labels.made tr) w' /\ governed w'.
Proof.
  intros Hw Hs. split.
  - destruct (show_frame tr name w Hw) as (w1 & H1 & Hw1 & _). rewrite Hs in H1. by injection H1 as -> _.
  - cbn [Labels.step] in Hs. unfold Labels.show in Hs. revert Hs. set (w0 := Labels.mk (Some name) _ _ _ _).
    pose proof (setOptions_governed [] w0) as H. revert H. generalize (Labels.setOptions [] w0) as w1.
    intros w1 H [= <- _]. exact H.
Qed.

Lemma step_governed tr w e w' os :
  plain tr e -> of_kinds (Labels.made tr) w /\ governed w -> Labels.step w e = Some (w', os) -> of_kinds (Labels.made tr) w' /\ governed w'.
Proof.
  intros He [Hw Hg] Hs. destruct e as [name| | |name b|act|name f|i a].
  - by apply (show_governed tr name w w' os).
  - by injection Hs as <- _.
  - cbn [Labels.step] in Hs. unfold Labels.onOk in Hs. destruct (Labels.label w) as [n|]; [|by injection Hs as <- _].
    destruct (decide _); by injection Hs as <- _.
  - destruct (edit_frame tr (Labels.Click name b) w I Hw) as (w1 & H1 & Hw1 & _). rewrite Hs in H1. injection H1 as -> _.
    split; [done|]. cbn [Labels.step] in Hs. apply (inj Some) in Hs. apply (f_equal fst) in Hs. cbn [fst] in Hs. subst.
    by apply (click_governed tr).
  - destruct (edit_frame tr (Labels.Select act) w I Hw) as (w1 & H1 & Hw1 & _). rewrite Hs in H1. injection H1 as -> _.
    split; [done|]. cbn [Labels.step] in Hs. apply (inj Some) in Hs. apply (f_equal fst) in Hs. cbn [fst] in Hs. subst.
    destruct (Labels.enabled _ _ w); [apply switched_governed|done].
  - destruct (edit_frame tr (Labels.Edit name f) w He Hw) as (w1 & H1 & Hw1 & _). rewrite Hs in H1. injection H1 as -> _.
    split; [done|]. cbn [Labels.step] in Hs. apply (inj Some) in Hs. apply (f_equal fst) in Hs. cbn [fst] in Hs. subst.
    by apply (typing_governed tr).
  - cbn [Labels.step] in Hs. unfold Labels.take_call in Hs. destruct (Labels.flight w !! i) as [[n|n]|]; try done;
      cbn [mbind option_bind] in Hs; revert Hs; set (w0 := Labels.mk _ _ _ _ (delete i _));
      assert (H0 : of_kinds (Labels.made tr) w0 /\ governed w0) by done; [|by intros [= <- _]].
    assert (H : forall o, of_kinds (Labels.made tr) (Labels.setOptions o w0) /\ governed (Labels.setOptions o w0)).
    { intros o. split; [apply setOptions_kinds, Hw|apply setOptions_governed]. }
    unfold Labels.onGotOptions. destruct (_ || _); [by intros [= <- _]|].
    destruct a as [a|]; [|intros E; apply (inj Some), (f_equal fst) in E; cbn [fst] in E; rewrite <- E; apply H].
    destruct (Json.dict_of a) as [o|]; [|done]. cbn [mbind option_bind].
    intros E; apply (inj Some), (f_equal fst) in E; cbn [fst] in E; rewrite <- E; apply H.
Qed.

Lemma steps_governed tr w es w' os :
  Forall (plain tr) es -> of_kinds (Labels.made tr) w /\ governed w -> Labels.steps w es = Some (w', os) -> of_kinds (Labels.made tr) w' /\ governed w'.
Proof.
  intros Hes Hw. revert w' os. induction es as [|e es IH] using rev_ind; intros w' os Hs; [by injection Hs as <- _|].
  apply run_snoc in Hs as (w1 & os1 & os2 & H1 & H2 & _). rewrite Forall_app, Forall_cons in Hes.
  eapply step_governed; [apply Hes|eapply IH; [apply Hes|exact H1]|exact H2].
Qed.

(** Claim C36.  Once the window was shown, whatever is done and answered, a field of the
    form is greyed if and only if its switch is off or it belongs to the other
    action, and the warning shows if and only if files would be deleted. *)
Theorem switches_govern tr w name es w' os :
  of_kinds (Labels.made tr) w -> Forall (plain tr) es -> Labels.steps w (Labels.Show name :: es) = Some (w', os) -> governed w'.
Proof.
  intros Hw Hes Hs. unfold Labels.steps in Hs. change (Labels.Show name :: es) with ([Labels.Show name] ++ es) in Hs.
  apply run_app in Hs as (w1 & os1 & os2 & H1 & H2 & _).
  change [Labels.Show name] with ([] ++ [Labels.Show name]) in H1.
  apply run_snoc in H1 as (w0 & os0 & os3 & H0 & H1 & _). injection H0 as <- _.
  by apply (steps_governed tr w1 es w' os2 Hes (show_governed tr name w w1 os3 Hw H1) H2).
Qed.

(** ** At work *)

Lemma complete_oset tr o k f v : complete tr o -> oget k (Labels.made tr) = Some f -> fits_field f v -> complete tr (oset k v o).
Proof.
  intros Hc Hk Hv k' f' Hf. destruct (decide (k' = k)) as [-> |].
  - exists v. rewrite oget_oset_eq. split; [done|]. rewrite Hk in Hf. by injection Hf as <-.
  - rewrite oget_oset_ne by done. by apply Hc.
Qed.
Lemma blank_complete tr : complete tr blank.
Proof. intros k f Hk. destruct (blank_value tr k f Hk). eauto. Qed.

Definition kept : Json.dict := oset "move_completed_path" (jstr "/srv/tv") (oset "never_remove" (jbool true) blank).
Lemma kept_complete : complete id kept.
Proof.
  apply (complete_oset id _ _ (Form.FText (TextField.mk "" "" false))); [|done|].
  - by apply (complete_oset id _ _ Labels.check); [apply blank_complete| |exists true].
  - exists "/srv/tv". by split_and!; [split|left|].
Qed.

Lemma label_settings_kept_witness :
  exists w' d, Labels.steps (Labels.create id) [Labels.Show "tv"; Labels.Click "apply_max" true;
      Labels.Answered 0 (Some (Json.JObj kept)); Labels.Ok] =
    Some (w', [Labels.Title "tv"; Labels.LabelHidden "tv" (Json.is_true (Json.get "hide_by_default" d)); Labels.Sent "tv" d]) /\
    agrees id kept d.
Proof.
  apply (label_settings_kept id (Labels.create id) "tv" [Labels.Click "apply_max" true] kept).
  - apply made_kinds.
  - done.
  - repeat constructor.
  - apply kept_complete.
Defined.

Lemma second_label_wins_witness :
  exists w' d, Labels.steps (Labels.create id) [Labels.Show "tv"; Labels.Show "films";
      Labels.Answered 1 (Some (Json.JObj kept)); Labels.Answered 0 None; Labels.Ok] =
    Some (w', [Labels.Title "tv"; Labels.Title "films";
               Labels.LabelHidden "films" (Json.is_true (Json.get "hide_by_default" d)); Labels.Sent "films" d]) /\
    agrees id kept d.
Proof.
  apply (second_label_wins id (Labels.create id) "tv" "films" None kept false); try done.
  - apply made_kinds.
  - apply kept_complete.
Defined.

Lemma switches_govern_witness :
  exists w' os, Labels.steps (Labels.create id) [Labels.Show "tv"; Labels.Click "apply_stuck" true; Labels.Select "remove";
      Labels.Click "stuck_remove_data" true] = Some (w', os) /\ governed w' /\ Labels.stuckWarning w' = true.
Proof.
  eexists _, _. split; [vm_compute; reflexivity|]. split; [|reflexivity].
  apply (switches_govern id (Labels.create id) "tv" [Labels.Click "apply_stuck" true; Labels.Select "remove"; Labels.Click "stuck_remove_data" true] _
    [Labels.Title "tv"]).
  - apply made_kinds.
  - repeat constructor.
  - vm_compute. reflexivity.
Defined.
