(* ===== verification/TrackerSettings.v ===== *)
(** * Deluge.TrackerSettingsWindow

    The rules of a tracker: the form built from [RULES], the preview of what it
    would do, the calls it is filled from, and the entry it writes back with
    [core.set_config].  [Sweep] is what the daemon decides once a minute about
    the moves and removals the preview foretells (tracker.rs, mod.rs and label.rs
    of the daemon). *)

From stdpp Require Import base list strings sorting.
From Stdlib Require Import Lia ZArith.
From S2P Require Import Prelude JsNum JsString JsValue Integers ExtCore Fields Settings Formatters Collection Forms Register.

Local Open Scope nat_scope.

Module Rules.

(** A field of [RULES]: its name, what it is made as, the [value] and [dflt] of
    its entry, the field it [needs], and whether it has a line to [warn] with. *)
Record spec := mkspec {
  name : string; field : Form.field; value : Json.json; dflt : Json.json; needs : option string; warn : bool
}.
Record rule := mkrule { key : string; specs : list spec }.

Definition check : Form.field := Form.FCheck (Checkbox.mk false false).
Definition text : Form.field := Form.FText (TextField.mk "" "" false).
Definition delay : Form.field := Form.FDelay Duration.create.
Definition limit (precision : nat) : Form.field :=
  Form.FNumber (NumberField.mk precision (of_Z (-1)) (of_Z 9999999) (pint (-1)) false).

Definition RULES : list rule :=
  [mkrule "auto_limit"
     [mkspec "max_download_speed" (limit 1) (jint (-1)) Json.undef None false;
      mkspec "max_upload_speed" (limit 1) (jint (-1)) Json.undef None false;
      mkspec "max_connections" (limit 0) (jint (-1)) Json.undef None false;
      mkspec "max_upload_slots" (limit 0) (jint (-1)) Json.undef None false];
   mkrule "auto_label"
     [mkspec "label" text Json.undef Json.undef None false;
      mkspec "label_on_add" check Json.undef (jbool true) None false;
      mkspec "label_when_done" check Json.undef Json.undef None false;
      mkspec "label_after_hours" delay (jint 0) Json.undef (Some "label_when_done") false];
   mkrule "auto_move"
     [mkspec "move_path" text Json.undef Json.undef None false;
      mkspec "move_after_hours" delay (jint 0) Json.undef None false];
   mkrule "auto_remove"
     [mkspec "remove_after_hours" delay (jint 0) Json.undef None false;
      mkspec "remove_data" check Json.undef Json.undef None true]].

(** [defaultOf] *)
Definition defaultOf (s : spec) : Json.json :=
  match dflt s with
  | Json.JPrim PUndef =>
      if Form.is_check (field s) then jbool false
      else if Form.isNumber (field s) then Json.or (value s) (jint 0)
      else jstr ""
  | d => d
  end.

(** [this.fields] and [this.defaults], as [addRule] fills them. *)
Definition made : obj Form.field :=
  concat (map (fun r => (key r, check) :: map (fun s => (name s, field s)) (specs r)) RULES).
Definition defaults : Json.dict :=
  concat (map (fun r => (key r, jbool false) :: map (fun s => (name s, defaultOf s)) (specs r)) RULES).
Definition default_number (k : string) : num := match oget k defaults with Some (jnum n) => n | _ => nan end.

End Rules.

(** ** The preview *)

Module Preview.
Section preview.

(** The translation *)
Context (tr : string -> string).

(** The names every object of the language answers to. *)
Definition inherited : list string :=
  ["constructor"; "hasOwnProperty"; "isPrototypeOf"; "propertyIsEnumerable"; "toLocaleString"; "toString"; "valueOf";
   "__defineGetter__"; "__defineSetter__"; "__lookupGetter__"; "__lookupSetter__"; "__proto__"].

(** [Number(v) || 0] and [String(v || '')] *)
Definition number_or_0 (v : Json.json) : num :=
  let n := to_number (Json.prim_of v) in if is_nan n || is_zero n then of_Z 0 else n.
Definition string_or_empty (v : Json.json) : string := Json.str (Json.or v (jstr "")).

(** [isProtected], with the labels that are protected *)
Definition isProtected (labels : list string) (torrent : Json.dict) : bool :=
  let label := string_or_empty (Json.get "label" torrent) in
  bool_decide (label ∈ labels \/ label ∈ inherited).

(** [finishedAt] *)
Definition finishedAt (torrent : Json.dict) (destructive : bool) : num :=
  let completed := number_or_0 (Json.get "completed_time" torrent) in
  if num_ltb (of_Z 0) completed then completed
  else if destructive then of_Z 0
  else number_or_0 (Json.get "time_added" torrent).

(** [when] *)
Definition when (at_ now : num) : string :=
  let left := num_round (num_sub at_ now) in
  if num_leb left (of_Z 0) then tr "at the next sweep, about a minute away"
  else format (tr "the first in {0}") [default "" (Fmt.timeRemaining (PNum left))].

(** [due.sort] by difference *)
Definition sorted (due : list num) : list num := MC.isort (fun a b => negb (num_ltb (of_Z 0) (num_sub a b))) due.
Definition first (due : list num) : num := default nan (sorted due !! 0).

(** [options[k] * 3600] *)
Definition seconds (k : string) (options : Json.dict) : num :=
  num_mul (to_number (Json.prim_of (Json.get k options))) (of_Z 3600).

(** The loop of [describeRemoval]: when each is due, what is freed, and how many
    are kept. *)
Definition removals (labels : list string) (options : Json.dict) (finished : list Json.dict) : list num * num * nat :=
  foldl (fun '(due, freed, kept) t =>
    if isProtected labels t then (due, freed, S kept)
    else
      let from := finishedAt t true in
      if num_leb from (of_Z 0) then (due, freed, kept)
      else (due ++ [num_add from (seconds "remove_after_hours" options)],
            num_add freed (number_or_0 (Json.get "total_wanted" t)), kept))
    ([], of_Z 0, 0) finished.

Definition nat_text (n : nat) : string := Z_str (Z.of_nat n).
Definition describeRemoval (labels : list string) (finished : list Json.dict) (options : Json.dict) (now : num) : string :=
  let '(due, freed, kept) := removals labels options finished in
  let protectedNote :=
    if decide (kept = 0) then ""
    else " " +:+ format (tr "{0} are kept by their label, which outranks this rule.") [nat_text kept] in
  if decide (due = []) then
    if decide (kept = 0) then tr "Nothing would be removed: none of the finished ones has a completion time the daemon saw."
    else format (tr "Nothing would be removed: {0} are kept by their label, which outranks this rule.") [nat_text kept]
  else
    let fate :=
      if Json.truthy (Json.get "remove_data" options)
      then format (tr "{0} would be removed with their files, freeing {1}") [nat_text (length due); Fmt.size (PNum freed) false]
      else format (tr "{0} would be removed, their files kept") [nat_text (length due)] in
    fate +:+ ", " +:+ when (first due) now +:+ "." +:+ protectedNote.

(** [s.replace(/\/+$/, '')] *)
Fixpoint drop_slashes (s : string) : string :=
  match s with String.String c s' => if decide (c = chr 47) then drop_slashes s' else s | EmptyString => "" end.
Definition without_slashes (s : string) : string := str_rev (drop_slashes (str_rev s)).

(** The loop of [describeMove] *)
Definition moves (options : Json.dict) (finished : list Json.dict) : list num :=
  let destination := without_slashes (Json.str (Json.get "move_path" options)) in
  omap (fun t =>
    let from := finishedAt t false in
    if decide (without_slashes (string_or_empty (Json.get "save_path" t)) = destination) then None
    else if num_leb from (of_Z 0) then None
    else Some (num_add from (seconds "move_after_hours" options))) finished.
Definition encoded (v : Json.json) : string := to_str (Fmt.htmlEncode (Json.prim_of v)).
Definition describeMove (finished : list Json.dict) (options : Json.dict) (now : num) : string :=
  let due := moves options finished in
  if decide (due = []) then tr "Nothing would be moved: they are already there."
  else format (tr "{0} would be moved to {1}") [nat_text (length due); encoded (Json.get "move_path" options)] +:+ ", " +:+
         when (first due) now +:+ ".".

(** The loop of [describeLabel] *)
Definition relabelled (options : Json.dict) (torrents : list Json.dict) : nat :=
  let label := to_lower (trim (Json.str (Json.get "label" options))) in
  length (filter (fun t =>
    let current := string_or_empty (Json.get "label" t) in
    current <> label /\
    ((Json.truthy (Json.get "label_on_add" options) = true /\ current = "") \/
     (Json.truthy (Json.get "label_when_done" options) = true /\ Json.truthy (Json.get "is_finished" t) = true))) torrents).
Definition describeLabel (torrents : list Json.dict) (options : Json.dict) : string :=
  let total := relabelled options torrents in
  if decide (total = 0) then format (tr "Every torrent here is already in {0}.") [encoded (Json.get "label" options)]
  else format (tr "{0} would be put in {1}.") [nat_text total; encoded (Json.get "label" options)].

(** [describe] of the options of the form *)
Definition finished_of (torrents : list Json.dict) : list Json.dict :=
  filter (fun t => Json.truthy (Json.get "is_finished" t) = true) torrents.
Definition text (labels : list string) (torrents : list Json.dict) (options : Json.dict) (now : num) : string :=
  if decide (torrents = []) then Fmt.html_text (tr "No torrents announce to this tracker right now.")
  else
    let finished := finished_of torrents in
    let on k := Json.truthy (Json.get k options) in
    join "<br/>"
      ([format (tr "{0} torrents here, {1} of them finished.") [nat_text (length torrents); nat_text (length finished)]] ++
       (if on "auto_remove" then [describeRemoval labels finished options now] else []) ++
       (if on "auto_move" && on "move_path" then [describeMove finished options now] else []) ++
       (if on "auto_label" && on "label" then [describeLabel torrents options] else []) ++
       (if on "auto_limit" then [format (tr "All {0} would be held to these limits.") [nat_text (length torrents)]] else [])).

End preview.
End Preview.

(** ** The window *)

Module Trackers.
Section window.

(** The translation *)
Context (tr : string -> string).

(** A call of the daemon, in flight, and what is done outside. *)
Inductive call := GetConfig | GetTorrents (host : string) | GetLabels | GetThenSet (host : string) (options : Json.dict) | SetConfig.
Inductive output := Title (host : string) | Sent (trackers : Json.dict) | Complain (message : string).

(** [host], [fields], whether the window is shown, which warnings are,
    [torrents] (where it is known), the labels of [protectedLabels], the text of
    the preview, what the clock says, and the calls in flight. *)
Record state := mk {
  host : option string; form : obj Form.field; visible : bool; warnings : obj bool;
  torrents : option (list Json.dict); protectedLabels : list string; preview : string; now : num; flight : list call
}.
Definition create (t : num) : state := mk None Rules.made false [] None [] "" t [].

Definition with_form fs w :=
  mk (host w) fs (visible w) (warnings w) (torrents w) (protectedLabels w) (preview w) (now w) (flight w).
Definition with_warnings ws w :=
  mk (host w) (form w) (visible w) ws (torrents w) (protectedLabels w) (preview w) (now w) (flight w).
Definition with_torrents ts w :=
  mk (host w) (form w) (visible w) (warnings w) ts (protectedLabels w) (preview w) (now w) (flight w).
Definition with_labels ls w :=
  mk (host w) (form w) (visible w) (warnings w) (torrents w) ls (preview w) (now w) (flight w).
Definition with_flight fl w :=
  mk (host w) (form w) (visible w) (warnings w) (torrents w) (protectedLabels w) (preview w) (now w) fl.
Definition setPreview text w :=
  mk (host w) (form w) (visible w) (warnings w) (torrents w) (protectedLabels w) text (now w) (flight w).
Definition hide w :=
  mk (host w) (form w) false (warnings w) (torrents w) (protectedLabels w) (preview w) (now w) (flight w).
Definition at_time t w :=
  mk (host w) (form w) (visible w) (warnings w) (torrents w) (protectedLabels w) (preview w) t (flight w).

(** [options] *)
Definition options (w : state) : Json.dict := Form.options Rules.default_number (form w).

(** [describe] *)
Definition describe (w : state) : state :=
  match torrents w with
  | Some ts => setPreview (Preview.text tr (protectedLabels w) ts (options w) (now w)) w
  | None => w
  end.

(** [onSwitched] *)
Definition switch_rule (fs : obj Form.field) (r : Rules.rule) : obj Form.field :=
  let on := Form.on (Rules.key r) fs in
  foldl (fun fs s =>
    let wanted := on && match Rules.needs s with Some n => Form.on n fs | None => true end in
    Form.change (Rules.name s) (Form.setDisabled (negb wanted)) fs) fs (Rules.specs r).
Definition warned (fs : obj Form.field) : obj bool :=
  concat (map (fun r => omap (fun s =>
    if Rules.warn s then Some (Rules.name s, Form.on (Rules.key r) fs && Form.on (Rules.name s) fs) else None) (Rules.specs r)) Rules.RULES).
Definition switched (w : state) : state :=
  let fs := foldl switch_rule (form w) Rules.RULES in
  describe (with_warnings (warned fs) (with_form fs w)).

#[global] Instance form_window : FormWindow state := {
  fields := form;
  with_fields := with_form;
  listens name := match oget name Rules.made with Some f => Form.is_check f | None => false end;
  onSwitched := switched
}.

(** [setOptions] *)
Definition value_for (options : Json.dict) (name : string) (f : Form.field) : Json.json :=
  let fallback := Json.get name Rules.defaults in
  let value := match Json.get name options with Json.JPrim (PUndef | PNull) => fallback | v => v end in
  if Form.is_check f then jbool (Json.is_true value)
  else if Form.isNumber f then jnum (Json.number value (Rules.default_number name))
  else value.
Definition setOptions (options : Json.dict) (w : state) : state := Filling.fill (value_for options) w.

(** [show], with the three calls it makes *)
Definition show (host : string) (w : state) : state * list output :=
  let w := mk (Some host) (form w) true (warnings w) None (protectedLabels w) (preview w) (now w) (flight w) in
  let w := setPreview (tr "Looking at what is here...") (setOptions [] w) in
  (with_labels [] (with_flight (flight w ++ [GetConfig; GetTorrents host; GetLabels]) w), [Title host]).

(** [trackersOf]; [None] is what no configuration is *)
Definition member (k : string) (v : Json.json) : option Json.dict := w ← Json.prop k v; Json.dict_of w.
Definition trackersOf (config : Json.json) : option Json.dict :=
  if Json.truthy config then tracker ← member "tracker" config; Json.dict_of (Json.get "trackers" tracker) else Some [].
Definition entry (host : string) (trackers : Json.dict) : option Json.dict := Json.dict_of (Json.get host trackers).

(** The answers to [load], [loadTorrents] and [loadProtectedLabels] *)
Definition onGotConfig (answer : option Json.json) (w : state) : option state :=
  if negb (visible w) then Some w
  else match answer with
       | Some config =>
           trackers ← trackersOf config; options ← entry (default "undefined" (host w)) trackers; Some (setOptions options w)
       | None => Some (setOptions [] w)
       end.
Definition onGotTorrents (asked : string) (answer : option Json.json) (w : state) : option state :=
  if negb (visible w) || negb (bool_decide (host w = Some asked)) then Some w
  else match answer with
       | Some a => ts ← Json.dict_of a; ts ← mapM Json.dict_of ts.*2; Some (describe (with_torrents (Some ts) w))
       | None => Some (setPreview "" (with_torrents None w))
       end.
Definition protected_of (labels : Json.dict) : option (list string) :=
  foldl (fun r kv =>
    acc ← r; l ← Json.dict_of kv.2;
    Some (if Json.truthy (Json.get "never_remove" l) then acc ++ [kv.1] else acc)) (Some []) labels.
Definition onGotLabels (answer : option Json.json) (w : state) : option state :=
  match answer with
  | Some config =>
      labels ← (if Json.truthy config then member "labels" config else Some []);
      protected ← protected_of labels;
      Some (describe (with_labels protected w))
  | None => Some (with_labels [] w)
  end.

(** [onCancel] and [onOk], and the answer it writes back to *)
Definition onOk (w : state) : state :=
  match host w with
  | None => hide w
  | Some h => if decide (h = "") then hide w else with_flight (flight w ++ [GetThenSet h (options w)]) w
  end.
Definition onConfig (h : string) (options : Json.dict) (answer : option Json.json) (w : state) : option (state * list output) :=
  match answer with
  | Some config =>
      trackers ← trackersOf config;
      old ← entry h (Ext.apply [] trackers);
      let trackers := oset h (Json.JObj (Ext.apply (Ext.apply [] old) options)) (Ext.apply [] trackers) in
      Some (hide (with_flight (flight w ++ [SetConfig]) w), [Sent trackers])
  | None => Some (w, [Complain (tr "The daemon did not answer; nothing was changed.")])
  end.

(** What is done in the window, and when: a box that is clicked, text that is
    typed into a field that is not greyed (with what [change] calls), the two
    buttons, and the answers to calls. *)
Inductive event :=
  | Show (host : string) | Cancel | Ok | Click (name : string) (b : bool) | Edit (name : string) (f : Form.field)
  | Answered (i : nat) (answer : option Json.json).
Definition enabled (kind : Form.field -> bool) (name : string) (w : state) : bool :=
  match oget name (form w) with Some f => kind f && negb (Form.disabled f) | None => false end.
Definition take_call (i : nat) (w : state) : option (call * state) :=
  c ← flight w !! i; Some (c, with_flight (delete i (flight w)) w).
Definition step (w : state) (te : num * event) : option (state * list output) :=
  let w := at_time te.1 w in
  match te.2 with
  | Show h => Some (show h w)
  | Cancel => Some (hide w, [])
  | Ok => Some (onOk w, [])
  | Click name b => Some (if enabled Form.is_check name w then Filling.assign name (jbool b) w else w, [])
  | Edit name f =>
      Some (if enabled Form.is_typed name w
            then describe (with_form (oset name (Form.setDisabled false f) (form w)) w) else w, [])
  | Answered i a =>
      '(c, w) ← take_call i w;
      match c with
      | GetConfig => w ← onGotConfig a w; Some (w, [])
      | GetTorrents h => w ← onGotTorrents h a w; Some (w, [])
      | GetLabels => w ← onGotLabels a w; Some (w, [])
      | GetThenSet h o => onConfig h o a w
      | SetConfig => Some (w, match a with Some _ => [] | None => [Complain (tr "The daemon did not take the change.")] end)
      end
  end.
Definition steps : state -> list (num * event) -> option (state * list output) := run step.

End window.
End Trackers.

(** ** The daemon's removals *)

Module Sweep.

(** What the daemon knows of a torrent here. *)
Record status := mkstatus {
  completed_time : Z; added_time : Z; is_finished : bool; moving_storage : bool; total_wanted : Z;
  save_path : string; label : string
}.

(** What it reports of it to [get_torrents_status]. *)
Definition row (s : status) : Json.dict :=
  [("is_finished", jbool (is_finished s)); ("completed_time", jint (completed_time s)); ("time_added", jint (added_time s));
   ("total_wanted", jint (total_wanted s)); ("save_path", jstr (save_path s)); ("label", jstr (label s))].

(** [finished_at], [due] and [due_at] of tracker.rs *)
Definition HOUR : num := of_Z 3600.
Definition finished_at (completed_time added_time : Z) (destructive : bool) : num :=
  if (0 <? completed_time)%Z then of_Z completed_time
  else if destructive || (added_time <=? 0)%Z then of_Z 0
  else of_Z added_time.
Definition due (completed_at now hours : num) : bool :=
  num_ltb (of_Z 0) completed_at && num_leb (num_mul hours HOUR) (num_sub now completed_at).
Definition due_at (finished_at hours : num) : num :=
  if num_leb finished_at (of_Z 0) then of_Z 0 else num_add finished_at (num_mul hours HOUR).

(** [never_removes] of label.rs *)
Definition never_removes (labels : obj bool) (l : string) : bool := default false (oget l labels).

(** The part of a tracker's rules that moves and that removes, once [sane] *)
Record rule := mkrule {
  auto_remove : bool; remove_after_hours : num; auto_move : bool; move_path : string; move_after_hours : num
}.
Definition moves (r : rule) : bool := auto_move r && negb (bool_decide (trim (move_path r) = "")).

(** [moving] of [decide_tracker_work]: it is being moved, or is due to be, whether
    or not there is room for it. *)
Definition moving (r : rule) (s : status) (now : num) : bool :=
  moving_storage s ||
  moves r && is_finished s && due (finished_at (completed_time s) (added_time s) false) now (move_after_hours r) &&
    negb (bool_decide (Preview.without_slashes (save_path s) = Preview.without_slashes (move_path r))).

(** What [decide_tracker_work] removes *)
Definition removes (labels : obj bool) (r : rule) (s : status) (now : num) : bool :=
  auto_remove r && is_finished s && negb (moving r s now) &&
  due (finished_at (completed_time s) (added_time s) true) now (remove_after_hours r) &&
  negb (never_removes labels (label s)).

(** Whether [decide_tracker_work] labels it under a rule that labels with
    [wanted]. *)
Definition relabels (wanted : string) (label_on_add label_when_done : bool) (label_after_hours : num) (s : status) (now : num) : bool :=
  let wanted := Register.normalise_label wanted in
  let on_arrival := label_on_add && bool_decide (label s = "") in
  let on_completion :=
    label_when_done && is_finished s && due (finished_at (completed_time s) (added_time s) false) now label_after_hours in
  (on_arrival || on_completion) && negb (bool_decide (label s = wanted)) && negb (bool_decide (wanted = "")).

End Sweep.

(** ** The preview tells what the daemon does *)

(** Sorting the images of a list by a comparison that agrees. *)
Lemma isort_fmap {A B} (f : A -> B) leb leb' (l : list A) :
  (forall a b, a ∈ l -> b ∈ l -> leb (f a) (f b) = leb' a b) -> MC.isort leb (f <$> l) = f <$> MC.isort leb' l.
Proof.
  assert (Hins : forall x l, (forall b, b ∈ l -> leb (f x) (f b) = leb' x b) -> MC.sinsert leb (f x) (f <$> l) = f <$> MC.sinsert leb' x l).
  { clear l. intros x l. induction l as [|y l IH]; intros H; [done|]. cbn. rewrite H by constructor.
    destruct (leb' x y); [done|]. cbn. f_equal. apply IH. intros b Hb. apply H. by constructor. }
  induction l as [|x l IH]; intros H; [done|]. cbn [fmap list_fmap MC.isort]. rewrite IH.
  - apply Hins. intros b Hb. rewrite isort_perm in Hb. apply H; [constructor|by constructor].
  - intros a b Ha Hb. apply H; by constructor.
Qed.

(** The first of times in whole seconds is the earliest. *)
Lemma first_earliest (zs : list Z) :
  Forall (fun z => 0 <= z < 2 ^ 53)%Z zs -> zs <> [] ->
  exists m, m ∈ zs /\ (forall z, z ∈ zs -> (m <= z)%Z) /\ Preview.first (of_Z <$> zs) = of_Z m.
Proof.
  intros Hz Hne. rewrite Forall_forall in Hz. unfold Preview.first, Preview.sorted. rewrite (isort_fmap of_Z _ Z.leb).
  - assert (Hp : MC.isort Z.leb zs ≡ₚ zs) by apply isort_perm.
    pose proof (isort_sorted Z.leb zs ltac:(lia) ltac:(lia)) as Hs.
    destruct (MC.isort Z.leb zs) as [|m l] eqn:E; [by apply Permutation_nil_l in Hp|].
    exists m. split_and!; [rewrite <- Hp; constructor| |done].
    intros z Hin. rewrite <- Hp in Hin. apply elem_of_cons in Hin as [-> |Hin]; [lia|].
    apply StronglySorted_inv in Hs as [_ Hs]. rewrite Forall_forall in Hs. specialize (Hs z Hin). lia.
  - intros a b Ha Hb. pose proof (Hz a Ha). pose proof (Hz b Hb).
    rewrite num_sub_ints, ltb_of_Z by (unfold safe; lia).
    destruct (Z.leb_spec a b), (Z.ltb_spec 0 (a - b)); try lia; done.
Qed.

(** When the rule removes a torrent, if it ever does. *)
Definition removal_time (h : Z) (labels : obj bool) (s : Sweep.status) : option Z :=
  if Sweep.is_finished s && (0 <? Sweep.completed_time s)%Z && negb (Sweep.never_removes labels (Sweep.label s))
  then Some (Sweep.completed_time s + h * 3600)%Z else None.

(** A status of whole seconds, whose label is not a name of every object. *)
Definition usual (s : Sweep.status) : Prop :=
  (0 <= Sweep.completed_time s < 2 ^ 50)%Z /\ (0 <= Sweep.total_wanted s)%Z /\ Sweep.label s ∉ Preview.inherited.

(** The labels that the window reads as protected. *)
Definition protects (labels : obj bool) (ls : list string) : Prop := forall l, l ∈ ls <-> Sweep.never_removes labels l = true.

Lemma number_or_0_int z : (0 <= z < 2 ^ 53)%Z -> Preview.number_or_0 (jint z) = of_Z z.
Proof.
  intros Hz. unfold Preview.number_or_0. cbn [Json.prim_of to_number].
  rewrite of_Z_not_nan by (unfold safe; lia). unfold is_zero. rewrite eqb_of_Z by (unfold safe; lia).
  cbn [orb]. destruct (Z.eqb_spec z 0) as [-> |]; done.
Qed.

Lemma string_or_empty_str s : Preview.string_or_empty (jstr s) = s.
Proof. unfold Preview.string_or_empty. by rewrite or_string. Qed.

Lemma isProtected_row labels ls s : protects labels ls -> usual s -> Preview.isProtected ls (Sweep.row s) = Sweep.never_removes labels (Sweep.label s).
Proof.
  intros Hp (_ & _ & Hl). unfold Preview.isProtected. change (Json.get "label" (Sweep.row s)) with (jstr (Sweep.label s)).
  rewrite string_or_empty_str. destruct (Sweep.never_removes _ _) eqn:E.
  - apply bool_decide_eq_true. left. by apply Hp.
  - apply bool_decide_eq_false. intros [H|H]; [apply Hp in H; congruence|done].
Qed.

(** The window's moment of finishing is the daemon's. *)
Lemma finishedAt_row s destructive :
  (0 <= Sweep.completed_time s < 2 ^ 53)%Z -> (0 <= Sweep.added_time s < 2 ^ 53)%Z ->
  Preview.finishedAt (Sweep.row s) destructive = Sweep.finished_at (Sweep.completed_time s) (Sweep.added_time s) destructive.
Proof.
  intros Hc Ha. unfold Preview.finishedAt, Sweep.finished_at.
  change (Json.get "completed_time" (Sweep.row s)) with (jint (Sweep.completed_time s)).
  change (Json.get "time_added" (Sweep.row s)) with (jint (Sweep.added_time s)).
  rewrite !number_or_0_int, ltb_of_Z by (done || unfold safe; lia).
  destruct (0 <? _)%Z; [done|]. destruct destructive; [done|]. cbn [orb].
  destruct (Z.leb_spec (Sweep.added_time s) 0); [|done]. do 2 f_equal. lia.
Qed.

Lemma finished_rows ss : Preview.finished_of (map Sweep.row ss) = map Sweep.row (filter (fun s => Sweep.is_finished s = true) ss).
Proof.
  unfold Preview.finished_of. induction ss as [|s ss IH]; [done|]. cbn [map]. rewrite !filter_cons, IH.
  change (Json.truthy (Json.get "is_finished" (Sweep.row s))) with (Sweep.is_finished s). by destruct (decide _).
Qed.

Definition wait (h : Z) (o : Json.dict) : Prop := Json.get "remove_after_hours" o = jint h /\ (0 <= h <= 87600)%Z.

Lemma seconds_int h o : wait h o -> Preview.seconds "remove_after_hours" o = of_Z (h * 3600).
Proof. intros [E Hh]. unfold Preview.seconds. rewrite E. cbn [Json.prim_of to_number]. by rewrite num_mul_of_Z by lia. Qed.

Lemma removals_snoc ls o l t due freed kept :
  Preview.removals ls o l = (due, freed, kept) ->
  Preview.removals ls o (l ++ [t]) =
    if Preview.isProtected ls t then (due, freed, S kept)
    else if num_leb (Preview.finishedAt t true) (of_Z 0) then (due, freed, kept)
    else (due ++ [num_add (Preview.finishedAt t true) (Preview.seconds "remove_after_hours" o)],
          num_add freed (Preview.number_or_0 (Json.get "total_wanted" t)), kept).
Proof. intros E. unfold Preview.removals in *. rewrite foldl_app. cbn [foldl]. by rewrite E. Qed.

(** The loop of the preview over the finished torrents: the times of removal, and
    how many are kept by their label. *)
Lemma removals_rows h o labels ls ss :
  wait h o -> protects labels ls -> Forall usual ss ->
  exists freed, Preview.removals ls o (Preview.finished_of (map Sweep.row ss)) =
    (of_Z <$> omap (removal_time h labels) ss, freed,
     length (filter (fun s => Sweep.is_finished s && Sweep.never_removes labels (Sweep.label s) = true) ss)).
Proof.
  intros Hw Hp Hu. rewrite finished_rows. induction ss as [|s ss IH] using rev_ind; [by exists (of_Z 0)|].
  rewrite Forall_app, Forall_cons in Hu; destruct Hu as (Hu & Hs & _). destruct (IH Hu) as [freed E]. clear IH.
  rewrite !filter_app, omap_app, length_app, filter_cons, filter_nil.
  rewrite (fmap_app of_Z).
  destruct (decide (Sweep.is_finished s = true)) as [Hf|Hf].
  - rewrite map_app. change (map Sweep.row [s]) with [Sweep.row s]. rewrite (removals_snoc _ _ _ _ _ _ _ E), (isProtected_row labels ls s Hp Hs). rewrite filter_cons, filter_nil. cbn [omap list_omap]. unfold removal_time.
    rewrite Hf. cbn [andb]. destruct (Sweep.never_removes labels (Sweep.label s)) eqn:En.
    + exists freed. rewrite decide_True by done. rewrite andb_false_r. cbn. rewrite app_nil_r. do 2 f_equal. lia.
    + rewrite decide_False by done. cbn [length]. rewrite Nat.add_0_r, andb_true_r.
      destruct Hs as ((Hc & Hc') & Ht & _). unfold Preview.finishedAt.
      change (Json.get "completed_time" (Sweep.row s)) with (jint (Sweep.completed_time s)).
      rewrite number_or_0_int, ltb_of_Z by (unfold safe; lia). destruct (Z.ltb_spec 0 (Sweep.completed_time s)).
      * rewrite leb_of_Z by (unfold safe; lia). rewrite (proj2 (Z.leb_gt _ _)) by lia.
        rewrite (seconds_int h o Hw). destruct Hw as [_ Hh]. rewrite num_add_of_Z by lia. by eexists.
      * exists freed. cbn. by rewrite app_nil_r.
  - exists freed. rewrite filter_cons, filter_nil. cbn [omap list_omap]. unfold removal_time.
    rewrite (not_true_is_false _ Hf). cbn [andb]. rewrite decide_False by done. cbn. by rewrite !app_nil_r, Nat.add_0_r.
Qed.

(** The daemon removes a torrent from the time of removal on, while it is not
    being moved. *)
Lemma removes_from h labels r s t :
  usual s -> (0 <= h <= 87600)%Z -> (0 <= t < 2 ^ 52)%Z -> Sweep.auto_remove r = true -> Sweep.remove_after_hours r = of_Z h ->
  Sweep.removes labels r s (of_Z t) = true <->
  Sweep.moving r s (of_Z t) = false /\ exists z, removal_time h labels s = Some z /\ (z <= t)%Z.
Proof.
  intros (Hc & _ & _) Hh Ht Ha Hr. unfold Sweep.removes. destruct (Sweep.moving r s (of_Z t)).
  { cbn [negb]. rewrite andb_false_r. cbn [andb]. split; [done|by intros []]. }
  unfold removal_time, Sweep.finished_at, Sweep.due, Sweep.HOUR. rewrite Ha, Hr. cbn [negb orb andb].
  rewrite andb_true_r, num_mul_of_Z by lia.
  destruct (Sweep.is_finished s), (Sweep.never_removes labels (Sweep.label s)), (Z.ltb_spec 0 (Sweep.completed_time s)) as [Hz|Hz];
    cbn [andb negb]; rewrite ?andb_false_r, ?andb_true_r; try (split; [done|naive_solver]).
  - rewrite ltb_of_Z, num_sub_ints, leb_of_Z by (unfold safe; lia). rewrite (proj2 (Z.ltb_lt _ _)) by done. cbn [andb].
    rewrite Z.leb_le. split; [intros; split; [done|]; eexists; split; [done|lia]|intros (_ & z & [= <-] & Hz'); lia].
Qed.

(** A rule that does not move, of a torrent nobody is moving. *)
Lemma not_moving r s now : Sweep.moves r = false -> Sweep.moving_storage s = false -> Sweep.moving r s now = false.
Proof. intros Hr Hs. unfold Sweep.moving. by rewrite Hr, Hs. Qed.

(** The first of the times of removal *)
Lemma first_removal h labels ss :
  Forall usual ss -> (0 <= h <= 87600)%Z ->
  Forall (fun z => 0 <= z < 2 ^ 51)%Z (omap (removal_time h labels) ss) /\
  forall t, (0 <= t < 2 ^ 52)%Z ->
    (of_Z <$> omap (removal_time h labels) ss <> [] /\ num_leb (Preview.first (of_Z <$> omap (removal_time h labels) ss)) (of_Z t) = true) <->
    exists s z, s ∈ ss /\ removal_time h labels s = Some z /\ (z <= t)%Z.
Proof.
  intros Hu Hh. rewrite Forall_forall in Hu.
  assert (Hz : Forall (fun z => 0 <= z < 2 ^ 51)%Z (omap (removal_time h labels) ss)).
  { apply Forall_forall. intros z (s & Hs & Ez)%list_elem_of_omap. destruct (Hu s Hs) as (Hc & _).
    unfold removal_time in Ez. destruct (_ && _); [|done]. injection Ez as <-. lia. }
  split; [done|]. intros t Ht.
  assert (Hf : omap (removal_time h labels) ss <> [] -> exists m, m ∈ omap (removal_time h labels) ss /\
    (forall z, z ∈ omap (removal_time h labels) ss -> (m <= z)%Z) /\ Preview.first (of_Z <$> omap (removal_time h labels) ss) = of_Z m /\
    (0 <= m < 2 ^ 51)%Z).
  { intros Hne. destruct (first_earliest (omap (removal_time h labels) ss)) as (m & Hm & Hle & ->); [|done|].
    - eapply Forall_impl; [exact Hz|]. cbn. lia.
    - exists m. split_and!; try done; rewrite Forall_forall in Hz; by apply Hz. }
  split.
  - intros [Hne Hle]. destruct Hf as (m & Hm & _ & Ef & Hb); [by intros E; rewrite E in Hne|].
    apply list_elem_of_omap in Hm as (s & Hs & Ez). exists s, m. split; [done|]. split; [done|].
    rewrite Ef, leb_of_Z in Hle by (unfold safe; lia). by apply Z.leb_le.
  - intros (s & z & Hs & Ez & Hzt).
    assert (Hin : z ∈ omap (removal_time h labels) ss) by (apply list_elem_of_omap; eauto).
    destruct Hf as (m & Hm & Hmin & -> & Hb); [intros E; rewrite E in Hin; by apply elem_of_nil in Hin|].
    split; [intros E%fmap_nil_inv; rewrite E in Hin; by apply elem_of_nil in Hin|].
    rewrite leb_of_Z by (unfold safe; lia). apply Z.leb_le. specialize (Hmin z Hin). lia.
Qed.


(** ** The form of the rules *)

Section window.
Context (tr : string -> string).
Notation W := (Trackers.form_window tr).

Lemma describe_form w : Trackers.form (Trackers.describe tr w) = Trackers.form w.
Proof. unfold Trackers.describe. by destruct (Trackers.torrents w). Qed.

Lemma switch_fold_similar r (P : Rules.spec -> obj Form.field -> bool) fs k :
  option_Forall2 similar (oget k (foldl (fun fs s => Form.change (Rules.name s) (Form.setDisabled (P s fs)) fs) fs r)) (oget k fs).
Proof.
  revert fs. induction r as [|s r IH]; intros fs; [reflexivity|]. cbn [foldl]. etransitivity; [apply IH|].
  apply change_similar. intros f. apply similar_disabled.
Qed.
Lemma switch_fold_names r (P : Rules.spec -> obj Form.field -> bool) fs :
  (foldl (fun fs s => Form.change (Rules.name s) (Form.setDisabled (P s fs)) fs) fs r).*1 = fs.*1.
Proof. revert fs. induction r as [|s r IH]; intros fs; [done|]. cbn [foldl]. by rewrite IH, change_names. Qed.

Lemma rules_similar rs fs k : option_Forall2 similar (oget k (foldl Trackers.switch_rule fs rs)) (oget k fs).
Proof.
  revert fs. induction rs as [|r rs IH]; intros fs; [reflexivity|]. cbn [foldl]. etransitivity; [apply IH|].
  apply (switch_fold_similar (Rules.specs r) (fun s fs' => negb (Form.on (Rules.key r) fs &&
    match Rules.needs s with Some n => Form.on n fs' | None => true end))).
Qed.
Lemma rules_names rs fs : (foldl Trackers.switch_rule fs rs).*1 = fs.*1.
Proof.
  revert fs. induction rs as [|r rs IH]; intros fs; [done|]. cbn [foldl]. rewrite IH.
  apply (switch_fold_names (Rules.specs r) (fun s fs' => negb (Form.on (Rules.key r) fs &&
    match Rules.needs s with Some n => Form.on n fs' | None => true end))).
Qed.

Lemma switched_form w : Trackers.form (Trackers.switched tr w) = foldl Trackers.switch_rule (Trackers.form w) Rules.RULES.
Proof.
  unfold Trackers.switched. generalize (foldl Trackers.switch_rule (Trackers.form w) Rules.RULES) as fs. intros fs.
  by rewrite describe_form.
Qed.

#[local] Instance tracker_laws : @FormLaws Trackers.state W.
Proof.
  split; [done| |].
  - intros w. change ((Trackers.form (Trackers.switched tr w)).*1 = (Trackers.form w).*1). rewrite switched_form. apply rules_names.
  - intros w k. change (option_Forall2 similar (oget k (Trackers.form (Trackers.switched tr w))) (oget k (Trackers.form w))).
    rewrite switched_form. apply rules_similar.
Qed.

(** What filling leaves of the rest of the window *)
Definition rest (w : Trackers.state) := (Trackers.host w, Trackers.visible w, Trackers.flight w).

Lemma describe_rest w : rest (Trackers.describe tr w) = rest w.
Proof. unfold Trackers.describe. by destruct (Trackers.torrents w). Qed.
Lemma switched_rest w : rest (Trackers.switched tr w) = rest w.
Proof. unfold Trackers.switched. by rewrite describe_rest. Qed.
Lemma assign_rest name v w : rest (@Filling.assign _ W name v w) = rest w.
Proof.
  unfold Filling.assign. cbn [fields onSwitched with_fields Trackers.form_window]. destruct (oget name (Trackers.form w)) as [f|]; [|done].
  destruct (Form.setValue v f) as [f' fired]. destruct (fired && _); [|done]. etransitivity; [apply switched_rest|done].
Qed.
Lemma setOptions_rest o w : rest (Trackers.setOptions tr o w) = rest w.
Proof.
  unfold Trackers.setOptions, Filling.fill. etransitivity; [apply switched_rest|]. generalize (okeys (@fields _ W w)) as ns.
  intros ns. revert w. induction ns as [|n ns IH]; intros w; [done|]. cbn [foldl]. rewrite IH.
  destruct (oget n (@fields _ W w)); [apply assign_rest|done].
Qed.
Lemma rest_eq a b : rest a = rest b -> Trackers.host a = Trackers.host b /\ Trackers.visible a = Trackers.visible b /\ Trackers.flight a = Trackers.flight b.
Proof. unfold rest. intros E. by injection E. Qed.

Lemma rules_ok : obj_ok Rules.made.
Proof. unfold obj_ok. apply (bool_decide_unpack _). vm_compute. exact I. Qed.

Lemma value_for_similar' o n f g : similar f g -> Trackers.value_for o n f = Trackers.value_for o n g.
Proof. intros Hs. unfold Trackers.value_for. destruct f, g; by try discriminate Hs. Qed.
Lemma value_for_kind' o k f g v : fits_field f v -> fits_field g v -> Trackers.value_for o k g = Trackers.value_for o k f.
Proof.
  unfold Trackers.value_for. destruct f, g; cbn [fits_field Form.is_check Form.isNumber]; try reflexivity;
    intros Hf Hg; exfalso; naive_solver.
Qed.

Definition of_rules (w : Trackers.state) : Prop := @of_kinds _ W Rules.made w.

Lemma setOptions_rules o w : of_rules w -> of_rules (Trackers.setOptions tr o w).
Proof. exact (@fill_kinds _ W tracker_laws Rules.made (Trackers.value_for o) w). Qed.

(** A form that was given an entry holds what it takes for it. *)
Lemma rules_value o w k f v :
  of_rules w -> oget k Rules.made = Some f -> fits_field f v -> Trackers.value_for o k f = v ->
  oget k (Trackers.options (Trackers.setOptions tr o w)) = Some v.
Proof.
  intros Hw Hm Hf Ho.
  apply (@fill_value _ W tracker_laws Rules.made (Trackers.value_for o) Rules.default_number w k f v); try done.
  - exact rules_ok.
  - intros n f' g. apply value_for_similar'.
  - intros f' g. apply value_for_kind'.
Qed.

(** An entry in full, as the daemon has it. *)
Definition full (o : Json.dict) : Prop :=
  forall k f, oget k Rules.made = Some f -> exists v, oget k o = Some v /\ fits_field f v.

Lemma value_for_full o k f v : oget k o = Some v -> fits_field f v -> Trackers.value_for o k f = v.
Proof.
  intros Ho Hf. unfold Trackers.value_for. assert (Json.get k o = v) as -> by (unfold Json.get; by rewrite Ho).
  destruct f as [c|n|d|t|x b]; cbn [fits_field Form.is_check Form.isNumber] in *.
  - destruct Hf as [b ->]. by destruct b.
  - destruct Hf as (z & Hz & ->). rewrite json_number_int by (unfold safe; lia). done.
  - destruct Hf as (z & Hz & ->). rewrite json_number_int by (unfold safe; lia). done.
  - by destruct Hf as (s & _ & _ & ->).
  - by destruct Hf as (s & _ & ->).
Qed.

Lemma blank_rules k f : oget k Rules.made = Some f -> exists v, oget k Rules.defaults = Some v /\ fits_field f v /\ Trackers.value_for [] k f = v.
Proof.
  unfold Rules.made. cbn [map concat app Rules.RULES Rules.key Rules.specs Rules.name Rules.field oget].
  repeat (destruct (decide _) as [-> |];
    [intros [= <-]; eexists; split; [reflexivity|]; split;
      [first [eexists; reflexivity|eexists; (split; [|reflexivity]); lia|exists ""; split; [by split|split; [by right|reflexivity]]]
      |reflexivity]
    |]).
  done.
Qed.

(** ** Writing back *)

(** The form agrees with an entry under every name of its own. *)
Definition agree (o d : Json.dict) : Prop := forall k f, oget k Rules.made = Some f -> oget k d = oget k o.

Lemma full_agree o w : of_rules w -> full o -> agree o (Trackers.options (Trackers.setOptions tr o w)).
Proof. intros Hw Ho k f Hk. destruct (Ho k f Hk) as (v & Hv & Hf). rewrite Hv. eapply rules_value; eauto using value_for_full. Qed.
Lemma blank_agree w : of_rules w -> agree Rules.defaults (Trackers.options (Trackers.setOptions tr [] w)).
Proof. intros Hw k f Hk. destruct (blank_rules k f Hk) as (v & -> & Hf & Hv). eapply rules_value; eauto. Qed.

Lemma options_names w k : of_rules w -> oget k Rules.made = None -> oget k (Trackers.options w) = None.
Proof.
  intros [Hn _] Hk. unfold Trackers.options. rewrite oget_options. apply fmap_None.
  rewrite oget_None in Hk |- *. rewrite <- Hn in Hk. exact Hk.
Qed.

(** Without the entry of a tracker, what is written is what is there. *)
Lemma rules_written h opts config w trackers old :
  Trackers.trackersOf config = Some trackers -> obj_ok trackers -> Trackers.entry h trackers = Some old -> obj_ok old -> obj_ok opts ->
  exists w' sent e, Trackers.onConfig tr h opts (Some config) w = Some (w', [Trackers.Sent sent]) /\
    oget h sent = Some (Json.JObj e) /\
    (forall k, oget k e = match oget k opts with Some v => Some v | None => oget k old end) /\
    (forall h', h' <> h -> oget h' sent = oget h' trackers).
Proof.
  intros Et Htok Ee Hook Hpok. unfold Trackers.onConfig. rewrite Et. cbn [mbind option_bind].
  assert (Hs : forall k, oget k (Ext.apply [] trackers) = oget k trackers).
  { intros k. rewrite apply_get by done. by destruct (oget k trackers). }
  assert (Trackers.entry h (Ext.apply [] trackers) = Some old) as ->.
  { rewrite <- Ee. unfold Trackers.entry, Json.get. by rewrite Hs. }
  cbn [mbind option_bind]. eexists _, _, _. split; [done|]. split; [apply oget_oset_eq|]. split.
  - intros k. rewrite apply_get by done. destruct (oget k opts); [done|]. rewrite apply_get by done. by destruct (oget k old).
  - intros h' Hh. rewrite oget_oset_ne by done. apply Hs.
Qed.

Lemma options_ok w : of_rules w -> obj_ok (Trackers.options w).
Proof.
  intros [Hn _]. unfold obj_ok, Trackers.options, Form.options. rewrite map_map. cbn [fst].
  change (map _ (Trackers.form w)) with (Trackers.form w).*1. change (Trackers.form w).*1 with (@fields _ W w).*1. rewrite Hn. apply rules_ok.
Qed.

Lemma steps_cons' w e es w1 os1 w2 os2 :
  Trackers.step tr w e = Some (w1, os1) -> Trackers.steps tr w1 es = Some (w2, os2) -> Trackers.steps tr w (e :: es) = Some (w2, os1 ++ os2).
Proof.
  intros H1 H2. unfold Trackers.steps in *. change (e :: es) with ([e] ++ es). apply run_app.
  exists w1, os1, os2. split_and!; [|done|done]. cbn. by rewrite H1.
Qed.

(** The window opens on the defaults, and asks. *)
Lemma show_rules t h w :
  of_rules w ->
  exists w', Trackers.step tr w (t, Trackers.Show h) = Some (w', [Trackers.Title h]) /\ of_rules w' /\
    agree Rules.defaults (Trackers.options w') /\ Trackers.host w' = Some h /\ Trackers.visible w' = true /\
    Trackers.flight w' = Trackers.flight w ++ [Trackers.GetConfig; Trackers.GetTorrents h; Trackers.GetLabels].
Proof.
  intros Hw. cbn [Trackers.step fst snd]. unfold Trackers.show. set (w0 := Trackers.mk (Some h) _ _ _ _ _ _ _ _).
  assert (Hw0 : of_rules w0) by exact Hw.
  pose proof (rest_eq _ _ (setOptions_rest [] w0)) as (El & Ev & Ef).
  pose proof (blank_agree w0 Hw0) as Ha. pose proof (setOptions_rules [] w0 Hw0) as Hr.
  revert El Ev Ef Ha Hr. generalize (Trackers.setOptions tr [] w0) as w1. intros w1 El Ev Ef Ha Hr.
  eexists. split; [done|]. split_and!; [exact Hr|exact Ha|exact El|exact Ev|]. cbn. by rewrite Ef.
Qed.

Lemma config_step t h i config trackers o w :
  of_rules w -> Trackers.host w = Some h -> Trackers.visible w = true -> Trackers.flight w !! i = Some Trackers.GetConfig ->
  Trackers.trackersOf config = Some trackers -> Trackers.entry h trackers = Some o ->
  exists w', Trackers.step tr w (t, Trackers.Answered i (Some config)) = Some (w', []) /\ of_rules w' /\
    (full o -> agree o (Trackers.options w')) /\ Trackers.host w' = Some h /\
    Trackers.flight w' = delete i (Trackers.flight w).
Proof.
  intros Hw Hh Hv Hf Et Ee. cbn [Trackers.step fst snd]. unfold Trackers.take_call. cbn [Trackers.flight Trackers.at_time].
  rewrite Hf. cbn [mbind option_bind]. set (w0 := Trackers.with_flight _ _). unfold Trackers.onGotConfig.
  assert (Hw0 : of_rules w0) by exact Hw. cbn [Trackers.visible Trackers.host Trackers.with_flight Trackers.at_time w0].
  rewrite Hv, Hh. cbn [negb from_option default]. rewrite Et. cbn [mbind option_bind]. change (id h) with h. rewrite Ee. cbn [mbind option_bind].
  pose proof (rest_eq _ _ (setOptions_rest o w0)) as (El & Ev & Ef).
  pose proof (full_agree o w0 Hw0) as Ha. pose proof (setOptions_rules o w0 Hw0) as Hr.
  revert El Ev Ef Ha Hr. generalize (Trackers.setOptions tr o w0) as w1. intros w1 El Ev Ef Ha Hr.
  exists w1. split_and!; try done. rewrite El. exact Hh.
Qed.

Lemma ok_rules t h w :
  h <> "" -> Trackers.host w = Some h ->
  exists w', Trackers.step tr w (t, Trackers.Ok) = Some (w', []) /\
    Trackers.flight w' = Trackers.flight w ++ [Trackers.GetThenSet h (Trackers.options w)].
Proof.
  intros Hn Hh. cbn [Trackers.step fst snd]. unfold Trackers.onOk. cbn [Trackers.host Trackers.at_time]. rewrite Hh, decide_False by done. eauto.
Qed.

Lemma write_step t h i opts config trackers old w :
  Trackers.flight w !! i = Some (Trackers.GetThenSet h opts) ->
  Trackers.trackersOf config = Some trackers -> obj_ok trackers -> Trackers.entry h trackers = Some old -> obj_ok old -> obj_ok opts ->
  exists w' sent e, Trackers.step tr w (t, Trackers.Answered i (Some config)) = Some (w', [Trackers.Sent sent]) /\
    oget h sent = Some (Json.JObj e) /\
    (forall k, oget k e = match oget k opts with Some v => Some v | None => oget k old end) /\
    (forall h', h' <> h -> oget h' sent = oget h' trackers).
Proof.
  intros Hf Et Htok Ee Hook Hpok. cbn [Trackers.step fst snd]. unfold Trackers.take_call. cbn [Trackers.flight Trackers.at_time].
  rewrite Hf. cbn [mbind option_bind]. by apply rules_written.
Qed.

(** What the entry of a tracker becomes: the settings of the form as another
    dictionary has them, and what else it had. *)
Definition becomes (o old e : Json.dict) : Prop :=
  forall k, oget k e = match oget k Rules.made with Some _ => oget k o | None => oget k old end.

Lemma becomes_options w o old e :
  of_rules w -> agree o (Trackers.options w) ->
  (forall k, oget k e = match oget k (Trackers.options w) with Some v => Some v | None => oget k old end) ->
  becomes o old e.
Proof.
  intros Hw Ha He k. rewrite He. destruct (oget k Rules.made) as [f|] eqn:Em.
  - rewrite <- (Ha k f Em). destruct Hw as [_ Hk]. destruct (Hk k f Em) as (g & Hg & _).
    unfold Trackers.options. rewrite oget_options. change (Trackers.form w) with (@fields _ W w). by rewrite Hg.
  - by rewrite options_names.
Qed.

(** OK writes the rules of one tracker: the settings that were read come back as
    they were, over whatever the entry has become since, what this form does not
    know stays in it, and no other tracker's rules change. *)
Theorem rules_kept t1 t2 t3 t4 w h config trackers o config' trackers' old :
  of_rules w -> Trackers.flight w = [] -> h <> "" ->
  Trackers.trackersOf config = Some trackers -> Trackers.entry h trackers = Some o -> full o ->
  Trackers.trackersOf config' = Some trackers' -> obj_ok trackers' -> Trackers.entry h trackers' = Some old -> obj_ok old ->
  exists w' sent e, Trackers.steps tr w
      [(t1, Trackers.Show h); (t2, Trackers.Answered 0 (Some config)); (t3, Trackers.Ok); (t4, Trackers.Answered 2 (Some config'))] =
    Some (w', [Trackers.Title h; Trackers.Sent sent]) /\
    oget h sent = Some (Json.JObj e) /\ becomes o old e /\ forall h', h' <> h -> oget h' sent = oget h' trackers'.
Proof.
  intros Hw Hf Hh Et Ee Ho Et' Htok Ee' Hook.
  destruct (show_rules t1 h w Hw) as (w1 & H1 & Hw1 & _ & Hh1 & Hv1 & Hf1). rewrite Hf in Hf1.
  destruct (config_step t2 h 0 config trackers o w1) as (w2 & H2 & Hw2 & Ha2 & Hh2 & Hf2); try done; [by rewrite Hf1|].
  rewrite Hf1 in Hf2. destruct (ok_rules t3 h w2 Hh Hh2) as (w3 & H3 & Hf3). rewrite Hf2 in Hf3.
  destruct (write_step t4 h 2 (Trackers.options w2) config' trackers' old w3) as (w4 & sent & e & H4 & Hs & He & Hoth); try done.
  { by rewrite Hf3. }
  { by apply options_ok. }
  exists w4, sent, e. split; [|split_and!; [done|apply (becomes_options w2); auto|done]].
  apply (steps_cons' _ _ _ _ [_] _ [_] H1), (steps_cons' _ _ _ _ [] _ _ H2), (steps_cons' _ _ _ _ [] _ _ H3),
    (steps_cons' _ _ [] _ _ _ [] H4). done.
Qed.

(** OK before the rules arrive writes the defaults over the tracker's rules. *)
Theorem early_ok_defaults t1 t2 t3 w h config trackers old :
  of_rules w -> Trackers.flight w = [] -> h <> "" ->
  Trackers.trackersOf config = Some trackers -> obj_ok trackers -> Trackers.entry h trackers = Some old -> obj_ok old ->
  exists w' sent e, Trackers.steps tr w [(t1, Trackers.Show h); (t2, Trackers.Ok); (t3, Trackers.Answered 3 (Some config))] =
    Some (w', [Trackers.Title h; Trackers.Sent sent]) /\
    oget h sent = Some (Json.JObj e) /\ becomes Rules.defaults old e.
Proof.
  intros Hw Hf Hh Et Htok Ee Hook.
  destruct (show_rules t1 h w Hw) as (w1 & H1 & Hw1 & Ha1 & Hh1 & _ & Hf1). rewrite Hf in Hf1.
  destruct (ok_rules t2 h w1 Hh Hh1) as (w2 & H2 & Hf2). rewrite Hf1 in Hf2.
  destruct (write_step t3 h 3 (Trackers.options w1) config trackers old w2) as (w3 & sent & e & H3 & Hs & He & _); try done.
  { by rewrite Hf2. }
  { by apply options_ok. }
  exists w3, sent, e. split; [|split; [done|by apply (becomes_options w1)]].
  apply (steps_cons' _ _ _ _ [_] _ [_] H1), (steps_cons' _ _ _ _ [] _ _ H2), (steps_cons' _ _ [] _ _ _ [] H3). done.
Qed.

End window.

(** ** A label the daemon cleans *)

(** A torrent that is in the label of the rule already, as the daemon spells it,
    is foretold to be put in it, for ever, where the spelling differs by more
    than case and white space. *)
Theorem label_foretold_again o wanted s hours now on_add when_done :
  Json.get "label" o = jstr wanted -> Json.get "label_when_done" o = jbool true -> Sweep.is_finished s = true ->
  Sweep.label s = Register.normalise_label wanted -> to_lower (trim wanted) <> Register.normalise_label wanted ->
  Sweep.relabels wanted on_add when_done hours s now = false /\ Preview.relabelled o [Sweep.row s] = 1.
Proof.
  intros El Ed Ef Es Hne. split.
  - unfold Sweep.relabels. cbv zeta. rewrite (bool_decide_true (Sweep.label s = Register.normalise_label wanted)) by done. cbn [negb]. by rewrite andb_false_r.
  - unfold Preview.relabelled. rewrite El, Ed. rewrite filter_cons, filter_nil, decide_True; [done|].
    change (Json.get "label" (Sweep.row s)) with (jstr (Sweep.label s)). rewrite string_or_empty_str.
    split; [rewrite Es; cbn [Json.str to_str]; congruence|]. right. split; [done|].
    by change (Json.truthy (Json.get "is_finished" (Sweep.row s))) with (Sweep.is_finished s).
Qed.

(** ** At work *)

Definition week_old : Sweep.status := Sweep.mkstatus 1000000 900000 true false 4096 "/srv" "films".
Definition kept_one : Sweep.status := Sweep.mkstatus 2000000 900000 true false 4096 "/srv" "keep".
Definition unfinished : Sweep.status := Sweep.mkstatus 0 900000 false false 4096 "/srv" "".
Definition after_a_day : Json.dict := [("auto_remove", jbool true); ("remove_after_hours", jint 24)].

Lemma protects_keep : protects [("keep", true); ("films", false)] ["keep"].
Proof.
  intros l. unfold Sweep.never_removes. cbn [oget]. rewrite list_elem_of_singleton.
  
  destruct (decide (l = "keep")) as [-> |]; [by split|]. destruct (decide (l = "films")); cbn; split; congruence.
Qed.

(** The torrents are where the rule moves them to, so that none of them is moved. *)
Definition day_and_srv : Sweep.rule := Sweep.mkrule true (of_Z 24) true "/srv/" (of_Z 1).


(** One that is to be moved is not removed, in its place or not. *)
Example moved_not_removed :
  let r := Sweep.mkrule true (of_Z 24) true "/done" (of_Z 1) in
  map (fun s => Sweep.removes [] r s (of_Z (2 ^ 51))) [week_old; kept_one; unfinished] = [false; false; false].
Proof. vm_compute. reflexivity. Qed.

(** Two trackers with rules, one of them with a setting that this form does not
    know. *)
Definition mine : Json.dict := oset "later" (jint 5) (oset "auto_remove" (jbool true) (oset "remove_after_hours" (jint 36) Rules.defaults)).
Definition others : Json.dict := [("example.org", Json.JObj mine); ("other.net", Json.JObj [("auto_move", jbool true)])].
Definition conf : Json.json := Json.JObj [("tracker", Json.JObj [("trackers", Json.JObj others)])].

Lemma full_oset o k f v : full o -> oget k Rules.made = Some f -> fits_field f v -> full (oset k v o).
Proof.
  intros Hc Hk Hv k' f' Hf. destruct (decide (k' = k)) as [-> |].
  - exists v. rewrite oget_oset_eq. split; [done|]. rewrite Hk in Hf. by injection Hf as <-.
  - rewrite oget_oset_ne by done. by apply Hc.
Qed.
Lemma full_more o k v : full o -> oget k Rules.made = None -> full (oset k v o).
Proof.
  intros Hc Hk k' f' Hf. destruct (decide (k' = k)) as [-> |]; [congruence|]. rewrite oget_oset_ne by done. by apply Hc.
Qed.
Lemma full_defaults : full Rules.defaults.
Proof. intros k f Hk. destruct (blank_rules k f Hk) as (v & Hv & Hf & _). eauto. Qed.
Lemma full_mine : full mine.
Proof.
  apply full_more; [|done]. apply (full_oset _ _ Rules.check); [|done|by exists true].
  apply (full_oset _ _ Rules.delay); [apply full_defaults|done|]. exists 36%Z. split; [lia|done].
Qed.

Lemma others_ok : obj_ok others /\ obj_ok mine.
Proof. split; unfold obj_ok; apply (bool_decide_unpack _); vm_compute; exact I. Qed.

Lemma created_rules tr t : of_rules tr (Trackers.create t).
Proof. split; [done|]. intros k f E. by exists f. Qed.

Lemma rules_kept_witness :
  exists w' sent e, Trackers.steps id (Trackers.create (of_Z 0))
      [(of_Z 0, Trackers.Show "example.org"); (of_Z 1, Trackers.Answered 0 (Some conf)); (of_Z 5, Trackers.Ok);
       (of_Z 6, Trackers.Answered 2 (Some conf))] =
    Some (w', [Trackers.Title "example.org"; Trackers.Sent sent]) /\
    oget "example.org" sent = Some (Json.JObj e) /\ becomes mine mine e /\
    forall h', h' <> "example.org" -> oget h' sent = oget h' others.
Proof.
  apply (rules_kept id (of_Z 0) (of_Z 1) (of_Z 5) (of_Z 6) (Trackers.create (of_Z 0)) "example.org" conf others mine conf others mine); try done.
  - apply created_rules.
  - exact full_mine.
  - apply others_ok.
  - apply others_ok.
Defined.

Lemma early_ok_defaults_witness :
  exists w' sent e, Trackers.steps id (Trackers.create (of_Z 0))
      [(of_Z 0, Trackers.Show "example.org"); (of_Z 1, Trackers.Ok); (of_Z 2, Trackers.Answered 3 (Some conf))] =
    Some (w', [Trackers.Title "example.org"; Trackers.Sent sent]) /\
    oget "example.org" sent = Some (Json.JObj e) /\ becomes Rules.defaults mine e.
Proof.
  apply (early_ok_defaults id (of_Z 0) (of_Z 1) (of_Z 2) (Trackers.create (of_Z 0)) "example.org" conf others mine); try done.
  - apply created_rules.
  - apply others_ok.
  - apply others_ok.
Defined.
