(* ===== verification/LabelsPage.v ===== *)
(** * Deluge.preferences.Labels

    The page that lists the labels: adding, renaming, removing and opening one.
    The page, the daemon's register of labels and what other clients do to it are
    one machine: a call is served at one moment and answered at a later one, or
    fails, served or not. *)

From stdpp Require Import base list sorting strings gmap.
From Stdlib Require Import Lia.
From S2P Require Import Prelude JsNum JsString JsValue Fields Settings Register Collection SortTypes Selection.

Local Open Scope nat_scope.

Module LabelsPage.
Section page.

(** The translation, and the settings of a new label *)
Context (tr : string -> string) (default_options : Json.dict).

(** A row of the store *)
Record row := { label : string; torrents : prim; rules : string }.
(** What a message box has asked *)
Inductive asked := AskAdd | AskRename (from : string) | AskRemove (name : string).
(** The calls the page makes, and their answers *)
Inductive call :=
  | GetConfig | Add (text : string) (from : option string) | Status (from to : string)
  | Move (from : string) (ids : list string) (to : string) | Remove (name : string).
Inductive answer := Config (labels : Json.dict) | Torrents (ids : list string) | Reply (r : Register.reply).
Inductive output := Opened (name : string).

(** The page: [loaded], [config], the grid, [keepSelected], the message box, and
    whether it listens to the window of a label. *)
Record page := mk {
  loaded : bool; config : Json.dict; grid : Grid.state row; keepSelected : option string;
  box : option asked; listening : bool
}.
Definition create : page := mk false [] Grid.empty None None false.
Definition with_config (c : Json.dict) (p : page) := mk (loaded p) c (grid p) (keepSelected p) (box p) (listening p).
Definition with_grid (g : Grid.state row) (p : page) := mk (loaded p) (config p) g (keepSelected p) (box p) (listening p).
Definition with_kept (k : option string) (p : page) := mk (loaded p) (config p) (grid p) k (box p) (listening p).
Definition with_box (b : option asked) (p : page) := mk (loaded p) (config p) (grid p) (keepSelected p) b (listening p).
Definition with_listening (b : bool) (p : page) := mk (loaded p) (config p) (grid p) (keepSelected p) (box p) b.

(** [describe] *)
Definition applies (options : Json.json) (k : string) : bool := match Json.prop k options with Some v => Json.truthy v | None => false end.
Definition describe (options : Json.json) : string :=
  if negb (Json.truthy options) then tr "nothing"
  else
    let part k text := if applies options k then [tr text] else [] in
    let parts := part "apply_max" "bandwidth" ++ part "apply_queue" "seeding" ++
                 part "apply_move_completed" "move on completion" ++ part "apply_stuck" "removes stuck downloads" ++
                 part "hide_by_default" "hidden by default" in
    match parts with [] => tr "nothing" | _ => join ", " parts end.

(** [selected], what the buttons act on, and [onSelect] after a change of the
    selection *)
Definition selected (p : page) : option string := label <$> Grid.getSelected (grid p).
Definition target (p : page) : option string := name ← selected p; if decide (name = "") then None else Some name.
Definition onSelect (p : page) : page := with_kept (selected p) p.
Definition change (g : Grid.state row * bool) (p : page) : page :=
  let p := with_grid g.1 p in if g.2 then onSelect p else p.

(** [refreshGrid], given the counts the sidebar has *)
Definition count_of (states : obj prim) (name : string) : prim :=
  match oget name states with Some v => if truthy v then v else pint 0 | None => pint 0 end.
Definition row_of (states : obj prim) (c : string * Json.json) : row :=
  {| label := c.1; torrents := Field.convert Field.INT (count_of states c.1); rules := describe c.2 |}.
Definition rows_of (states : obj prim) (config : Json.dict) : list (string * row) :=
  (fun r => (label r, r)) <$> MC.isort (fun a b => negb (str_ltb (label b) (label a))) (row_of states <$> config).
Definition refreshGrid (states : obj prim) (p : page) : page :=
  let keep := keepSelected p in
  let p := change (Grid.loadData (rows_of states (config p)) (grid p)) p in
  match keep with
  | Some k => match Grid.find label k (grid p) with
              | Some index => change (Grid.selectRow index (grid p)) p
              | None => p end
  | None => p
  end.

(** [reload] is the call; its answer, or [None] for its failure *)
Definition onConfig (states : obj prim) (answer : option Json.dict) (p : page) : page :=
  refreshGrid states (with_config (default [] answer) p).

(** [onPageShow] *)
Definition onPageShow (p : page) : page * list call :=
  if loaded p then (p, []) else (mk true (config p) (grid p) (keepSelected p) (box p) (listening p), [GetConfig]).

(** [onEditLabel], and [saved] of the window it listens to *)
Definition onEditLabel (p : page) : page * list output :=
  match target p with Some name => (with_listening true p, [Opened name]) | None => (p, []) end.
Definition onSaved (p : page) : page * list call :=
  if listening p then (with_listening false p, [GetConfig]) else (p, []).

(** [onAddLabel], [onRenameLabel] and [onRemoveLabel]: what is asked, and the
    answer: whether the button is the one that goes on, and the text. *)
Definition onAddLabel (p : page) : page := with_box (Some AskAdd) p.
Definition onRenameLabel (p : page) : page :=
  match target p with Some from => with_box (Some (AskRename from)) p | None => p end.
Definition onRemoveLabel (p : page) : page :=
  match target p with Some name => with_box (Some (AskRemove name)) p | None => p end.
Definition onAnswer (ok : bool) (text : string) (p : page) : page * list call :=
  match box p with
  | Some AskAdd =>
      (with_box None p, if negb ok || bool_decide (text = "") then [] else [Add text None])
  | Some (AskRename from) =>
      (with_box None p, if negb ok || bool_decide (text = "") || bool_decide (text = from) then [] else [Add text (Some from)])
  | Some (AskRemove name) =>
      if ok then (with_kept None (with_box None p), [Remove name]) else (with_box None p, [])
  | None => (p, [])
  end.

(** [moveTorrents] is the call; then its answer, and [finishRename] *)
Definition finishRename (from : string) (p : page) : page * list call := (with_kept None p, [Remove from]).
Definition onTorrents (from to : string) (ids : list string) (p : page) : page * list call :=
  match key_order ids with [] => finishRename from p | ids => (p, [Move from ids to]) end.

(** What is done with the answer to a call, or with its failure. *)
Definition onReply (states : obj prim) (c : call) (a : option answer) (p : page) : page * list call :=
  match c, a with
  | GetConfig, Some (Config ls) => (onConfig states (Some ls) p, [])
  | GetConfig, _ => (onConfig states None p, [])
  | Add text (Some from), _ => (p, [Status from text])
  | Add text None, _ => (p, [GetConfig])
  | Status from to, Some (Torrents ids) => onTorrents from to ids p
  | Status _ _, _ => (p, [])
  | Move from _ _, Some (Reply (Register.Value _)) => finishRename from p
  | Move _ _ _, _ => (p, [])
  | Remove _, _ => (p, [GetConfig])
  end.

(** What the daemon does with a call. *)
Definition replied (ra : Register.state * Register.reply) : Register.state * answer := (ra.1, Reply ra.2).
Definition serve (c : call) (r : Register.state) : Register.state * answer :=
  match c with
  | GetConfig => (r, Config (prod_map id Json.JObj <$> map_to_list (Register.labels r)))
  | Add text _ => replied (Register.add default_options text r)
  | Status from _ => (r, Torrents (Register.in_label from r))
  | Move _ ids to => replied (Register.set_option to ids r)
  | Remove name => replied (Register.remove name r)
  end.

(** The page, the daemon, the counts of the sidebar, and the calls in flight with
    the answers of those that were served. *)
Record world := World {
  page_of : page; daemon : Register.state; states : obj prim; flight : list (call * option answer)
}.
Definition with_page (p : page * list call) (w : world) : world :=
  World p.1 (daemon w) (states w) (flight w ++ ((., None) <$> p.2)).

Inductive event :=
  | Show | Select (i : nat) | Deselect | Edit | Saved | AddPressed | RenamePressed | RemovePressed
  | Answered (ok : bool) (text : string)
  | Counted (states : obj prim)
  | Serve (i : nat) | Deliver (i : nat) | Failed (i : nat)
  | Outside (c : call).
Definition step (w : world) (e : event) : option (world * list output) :=
  let act f := Some (with_page (f (page_of w)) w, []) in
  match e with
  | Show => act onPageShow
  | Select i => act (fun p => (change (Grid.selectRow i (grid p)) p, []))
  | Deselect => act (fun p => (change (Grid.mk (Grid.rows (grid p)) None, true) p, []))
  | Edit => let '(p, os) := onEditLabel (page_of w) in Some (with_page (p, []) w, os)
  | Saved => act onSaved
  | AddPressed => act (fun p => (onAddLabel p, []))
  | RenamePressed => act (fun p => (onRenameLabel p, []))
  | RemovePressed => act (fun p => (onRemoveLabel p, []))
  | Answered ok text => act (onAnswer ok text)
  | Counted st => Some (World (page_of w) (daemon w) st (flight w), [])
  | Serve i =>
      '(c, a) ← flight w !! i;
      match a with
      | None => let ra := serve c (daemon w) in
                Some (World (page_of w) ra.1 (states w) (<[i := (c, Some ra.2)]> (flight w)), [])
      | Some _ => None
      end
  | Deliver i =>
      '(c, a) ← flight w !! i;
      a ← a;
      Some (with_page (onReply (states w) c (Some a) (page_of w))
              (World (page_of w) (daemon w) (states w) (delete i (flight w))), [])
  | Failed i =>
      '(c, a) ← flight w !! i;
      Some (with_page (onReply (states w) c None (page_of w))
              (World (page_of w) (daemon w) (states w) (delete i (flight w))), [])
  | Outside c => Some (World (page_of w) (serve c (daemon w)).1 (states w) (flight w), [])
  end.
Definition steps : world -> list event -> option (world * list output) := run step.

End page.
End LabelsPage.

(** ** The page *)

Lemma change_config g p : LabelsPage.config (LabelsPage.change g p) = LabelsPage.config p.
Proof. unfold LabelsPage.change. by destruct g.2. Qed.

Lemma refreshGrid_config tr st p : LabelsPage.config (LabelsPage.refreshGrid tr st p) = LabelsPage.config p.
Proof.
  unfold LabelsPage.refreshGrid. destruct (LabelsPage.keepSelected p); [|by rewrite change_config].
  destruct (Grid.find _ _ _); by rewrite !change_config.
Qed.

(** ** A rename, served *)

Section rename.
Context (tr : string -> string) (dft : Json.dict).
Implicit Types (w : LabelsPage.world) (r : Register.state) (from text : string).

Notation steps := (LabelsPage.steps tr dft).

(** What only carries a call through. *)
Definition carries (e : LabelsPage.event) : bool :=
  match e with
  | LabelsPage.Serve _ | LabelsPage.Deliver _ | LabelsPage.Failed _ | LabelsPage.Counted _
  | LabelsPage.Select _ | LabelsPage.Deselect => true
  | _ => false
  end.

(** The new name has been asked for, and nothing is in flight. *)
Definition asking from w : Prop :=
  LabelsPage.box (LabelsPage.page_of w) = Some (LabelsPage.AskRename from) /\ LabelsPage.flight w = [].

(** The register after the torrents were moved and the old label removed. *)
Definition moved from text r : Register.state :=
  (Register.remove from (Register.set_option text (key_order (Register.in_label from r)) r).1).1.

Lemma steps_app w es1 es2 w1 w2 os1 os2 :
  steps w es1 = Some (w1, os1) -> steps w1 es2 = Some (w2, os2) -> steps w (es1 ++ es2) = Some (w2, os1 ++ os2).
Proof. intros H1 H2. apply run_app. eauto 6. Qed.

(** A call that is served and answered. *)
Lemma carried p r st c :
  steps (LabelsPage.World p r st [(c, None)]) [LabelsPage.Serve 0; LabelsPage.Deliver 0] =
  Some (LabelsPage.with_page (LabelsPage.onReply tr st c (Some (LabelsPage.serve dft c r).2) p)
          (LabelsPage.World p (LabelsPage.serve dft c r).1 st []), []).
Proof. done. Qed.

Lemma set_option_none text r : (Register.set_option text [] r).1 = r.
Proof. by destruct r. Qed.

(** What follows once the label was asked for. *)
Lemma moved_served p r st from text :
  exists es w', steps (LabelsPage.World p r st [(LabelsPage.Status from text, None)]) es = Some (w', []) /\
    forallb carries es = true /\ LabelsPage.flight w' = [] /\ LabelsPage.daemon w' = moved from text r /\
    LabelsPage.config (LabelsPage.page_of w') =
      prod_map id Json.JObj <$> map_to_list (Register.labels (LabelsPage.daemon w')).
Proof.
  set (p2 := LabelsPage.with_kept None p).
  set (r2 := (Register.set_option text (key_order (Register.in_label from r)) r).1).
  set (sd := [LabelsPage.Serve 0; LabelsPage.Deliver 0]).
  assert (exists es, steps (LabelsPage.World p r st [(LabelsPage.Status from text, None)]) es =
            Some (LabelsPage.World p2 r2 st [(LabelsPage.Remove from, None)], []) /\ forallb carries es = true) as (es & H2 & He).
  { pose proof (carried p r st (LabelsPage.Status from text)) as H2.
    cbn [LabelsPage.serve LabelsPage.onReply fst snd] in H2.
    unfold r2. revert H2. unfold LabelsPage.onTorrents.
    destruct (key_order (Register.in_label from r)) as [|i l] eqn:E; intros H2.
    - exists sd. rewrite set_option_none. split; [exact H2|done].
    - exists (sd ++ sd). split; [|done]. change (@nil LabelsPage.output) with (@nil LabelsPage.output ++ []).
      eapply steps_app; [exact H2|]. apply carried. }
  exists (es ++ sd ++ sd). eexists. split.
  - change (@nil LabelsPage.output) with (@nil LabelsPage.output ++ [] ++ []).
    eapply steps_app; [exact H2|]. eapply steps_app; [apply carried|]. apply carried.
  - rewrite !forallb_app, He. repeat split. apply refreshGrid_config.
Qed.

Lemma asking_step from text w :
  asking from w -> text <> "" -> text <> from ->
  steps w [LabelsPage.Answered true text] =
  Some (LabelsPage.World (LabelsPage.with_box None (LabelsPage.page_of w)) (LabelsPage.daemon w) (LabelsPage.states w)
          [(LabelsPage.Add text (Some from), None)], []).
Proof.
  destruct w as [p r st fl]. intros [Hb Hf] Ht Hn. cbn in Hb, Hf. subst fl.
  unfold LabelsPage.steps, run. cbn. unfold LabelsPage.onAnswer. rewrite Hb. by rewrite !bool_decide_false.
Qed.

Lemma rename_served from text w :
  asking from w -> text <> "" -> text <> from ->
  exists es w', steps w (LabelsPage.Answered true text :: es) = Some (w', []) /\ forallb carries es = true /\
    LabelsPage.flight w' = [] /\ LabelsPage.daemon w' = moved from text (Register.add dft text (LabelsPage.daemon w)).1 /\
    LabelsPage.config (LabelsPage.page_of w') =
      prod_map id Json.JObj <$> map_to_list (Register.labels (LabelsPage.daemon w')).
Proof.
  intros Ha Ht Hn. pose proof (asking_step _ _ _ Ha Ht Hn) as H0.
  edestruct moved_served as (es & w' & H1 & He & Hw).
  exists ([LabelsPage.Serve 0; LabelsPage.Deliver 0] ++ es), w'. split.
  - change (@nil LabelsPage.output) with (@nil LabelsPage.output ++ [] ++ []).
    change (?e :: ?l) with ([e] ++ l). eapply steps_app; [exact H0|].
    eapply steps_app; [apply carried|exact H1].
  - by rewrite forallb_app, He.
Qed.

(** The register that a rename leaves. *)
Lemma moved_labels from text r : register_ok r -> is_Some (Register.labels r !! from) ->
  Register.labels (moved from text r) = delete from (Register.labels r).
Proof.
  intros Hr Hf. unfold moved. rewrite remove_labels by done. by rewrite normalise_normal by apply Hr, Hf.
Qed.

Lemma moved_torrents from text r id : register_ok r -> is_Some (Register.labels r !! from) ->
  Register.torrents (moved from text r) !! id =
  (fun l => if decide (l = from) then if decide (Register.normalise_label text = from) then "" else Register.normalise_label text
            else l) <$> Register.torrents r !! id.
Proof.
  intros Hr Hf. unfold moved. destruct (Hr _ Hf) as [Hn _].
  pose proof (normalise_normal _ Hn) as En. rewrite remove_torrents, En, set_option_torrents by (rewrite En; exact Hf).
  destruct (Register.torrents r !! id) as [l|] eqn:E; [|done]. cbn.
  destruct (decide (id ∈ _)) as [Hi|Hi]; rewrite key_order_elem, in_label_elem, E in Hi; repeat case_decide; naive_solver.
Qed.

Lemma add_lookup_ne text r l : l <> Register.normalise_label text ->
  Register.labels (Register.add dft text r).1 !! l = Register.labels r !! l.
Proof.
  intros Hn. unfold Register.add, Register.add_label. case_decide; [done|].
  destruct (Register.labels r !! Register.normalise_label text); [done|]. cbn. by rewrite lookup_insert_ne.
Qed.

(** A label keeps its settings when another is asked for, and a new label has
    those of every new label. *)
Lemma add_lookup text r : Register.normalise_label text <> "" ->
  Register.labels (Register.add dft text r).1 !! Register.normalise_label text =
  Some (default dft (Register.labels r !! Register.normalise_label text)).
Proof.
  intros Hn. unfold Register.add, Register.add_label. rewrite decide_False by done.
  destruct (Register.labels r !! Register.normalise_label text) eqn:E; cbn; [by rewrite E|by rewrite lookup_insert_eq].
Qed.

(** ** What a rename does *)

(** Claim C13.  A rename to a text of which the daemon's normal form is neither
    empty nor the old name, all of whose calls are served and answered, ends with
    every torrent of the old label in the new one, as the daemon spells it, and
    every other torrent where it was; the old label is gone, every other label is
    as it was, and the new one has the settings it had, or those of a new label.
    The other texts are in [rename_unlabels]. *)
Theorem rename_moves from text w :
  let to := Register.normalise_label text in
  let r := LabelsPage.daemon w in
  asking from w -> register_ok r -> is_Some (Register.labels r !! from) -> to <> "" -> to <> from -> text <> from ->
  exists es w', steps w (LabelsPage.Answered true text :: es) = Some (w', []) /\ forallb carries es = true /\
    LabelsPage.flight w' = [] /\
    (forall id, Register.torrents (LabelsPage.daemon w') !! id =
       (fun l => if decide (l = from) then to else l) <$> Register.torrents r !! id) /\
    Register.labels (LabelsPage.daemon w') =
      delete from (<[to := default dft (Register.labels r !! to)]> (Register.labels r)) /\
    okeys (LabelsPage.config (LabelsPage.page_of w')) ≡ₚ (map_to_list (Register.labels (LabelsPage.daemon w'))).*1.
Proof.
  intros to r Ha Hr Hf He Hn Ht.
  assert (text <> "") as Ht' by (intros ->; by apply He).
  destruct (rename_served from text w Ha Ht' Ht) as (es & w' & Hs & Hc & Hfl & Hd & Hcfg).
  assert (is_Some (Register.labels (Register.add dft text r).1 !! from)) as Hf' by (apply add_labels; by left).
  pose proof (register_add_ok dft text _ Hr) as Hr'.
  exists es, w'. split; [done|]. split; [done|]. split; [done|]. fold r in Hd. split_and!.
  - intros id. rewrite Hd, moved_torrents, add_torrents by done. unfold to in *. by rewrite decide_False by done.
  - rewrite Hd, moved_labels by done. f_equal. apply map_eq. intros l.
    destruct (decide (l = to)) as [->|Hl].
    + unfold to in *. by rewrite lookup_insert_eq, add_lookup.
    + by rewrite lookup_insert_ne, add_lookup_ne.
  - rewrite Hcfg. unfold okeys. rewrite key_order_perm, <- list_fmap_compose. done.
Qed.

(** A rename to another spelling of the same label, or to a name the
    daemon leaves nothing of, takes the label off every torrent in it and
    removes it. *)
Theorem rename_unlabels from text w :
  let r := LabelsPage.daemon w in
  asking from w -> register_ok r -> is_Some (Register.labels r !! from) ->
  Register.normalise_label text ∈ [""; from] -> text <> "" -> text <> from ->
  exists es w', steps w (LabelsPage.Answered true text :: es) = Some (w', []) /\ forallb carries es = true /\
    LabelsPage.flight w' = [] /\
    (forall id, Register.torrents (LabelsPage.daemon w') !! id =
       (fun l => if decide (l = from) then "" else l) <$> Register.torrents r !! id) /\
    Register.labels (LabelsPage.daemon w') = delete from (Register.labels r).
Proof.
  intros r Ha Hr Hf He Ht Hn.
  destruct (rename_served from text w Ha Ht Hn) as (es & w' & Hs & Hc & Hfl & Hd & _). fold r in Hd.
  assert (Register.labels (Register.add dft text r).1 = Register.labels r) as El.
  { unfold Register.add, Register.add_label. case_decide as Hx; [done|].
    apply elem_of_cons in He as [? | ->%list_elem_of_singleton]; [done|]. destruct Hf as [o Ho]. by rewrite Ho. }
  assert (is_Some (Register.labels (Register.add dft text r).1 !! from)) as Hf' by (by rewrite El).
  pose proof (register_add_ok dft text _ Hr) as Hr'.
  exists es, w'. split; [done|]. split; [done|]. split; [done|]. split.
  - intros id. rewrite Hd, moved_torrents, add_torrents by done.
    destruct (Register.torrents r !! id) as [l|]; [|done]. cbn. f_equal. case_decide; [|done].
    case_decide; [done|]. apply elem_of_cons in He as [?|?%list_elem_of_singleton]; done.
  - by rewrite Hd, moved_labels, El by done.
Qed.

(** ** A rename, cut short *)

(** Where a rename from a label has brought the register: every torrent that was
    in it is in it or in the new one, in a label that exists, and the others are
    where they were. *)
Definition underway from to r r' : Prop :=
  is_Some (Register.labels r' !! to) /\
  forall id, match Register.torrents r !! id, Register.torrents r' !! id with
    | Some l, Some l' => if decide (l = from) then (l' = from \/ l' = to) /\ is_Some (Register.labels r' !! l') else l' = l
    | None, None => True
    | _, _ => False
    end.

Definition none_in from r : Prop := forall id, Register.torrents r !! id <> Some from.
Definition all_of from r (ids : list string) : Prop := forall id, Register.torrents r !! id = Some from <-> id ∈ ids.
Definition answered_value (a : option LabelsPage.answer) : bool :=
  match a with Some (LabelsPage.Reply (Register.Value _)) => true | _ => false end.

(** What is known of the one call in flight. *)
Definition call_ok from text r (ca : LabelsPage.call * option LabelsPage.answer) : Prop :=
  match ca.1 with
  | LabelsPage.Add t (Some f) => t = text /\ f = from /\ is_Some ca.2
  | LabelsPage.Add _ None => False
  | LabelsPage.Status f t => f = from /\ t = text /\ forall ids, ca.2 = Some (LabelsPage.Torrents ids) -> all_of from r ids
  | LabelsPage.Move f ids t =>
      f = from /\ t = text /\ (ca.2 = None -> all_of from r ids) /\ (answered_value ca.2 = true -> none_in from r)
  | LabelsPage.Remove f => f = from /\ none_in from r
  | LabelsPage.GetConfig => True
  end.
Definition in_flight from text r (fl : list (LabelsPage.call * option LabelsPage.answer)) : Prop :=
  match fl with [] => True | [ca] => call_ok from text r ca | _ => False end.

Definition on_the_way from text r w : Prop :=
  underway from (Register.normalise_label text) r (LabelsPage.daemon w) /\
  in_flight from text (LabelsPage.daemon w) (LabelsPage.flight w).

Lemma one_call fl i ca from text r :
  in_flight from text r fl -> fl !! i = Some ca -> i = 0 /\ fl = [ca] /\ call_ok from text r ca.
Proof.
  destruct fl as [|x [|]]; [done| |done]. intros H. destruct i; [|done]. by intros [= ->].
Qed.

(** The reply to a call, or its failure, sends at most the call that follows. *)
Lemma reply_ok st c a p from text r :
  call_ok from text r (c, a) -> in_flight from text r ((., None) <$> (LabelsPage.onReply tr st c a p).2).
Proof.
  destruct c as [|t [f|]|f t|f ids t|f]; cbn.
  - by destruct a as [[]|].
  - naive_solver.
  - done.
  - intros (-> & -> & H). destruct a as [[ls|ids|x]|]; try done. cbn. specialize (H _ eq_refl). unfold LabelsPage.onTorrents.
    destruct (key_order ids) as [|i l] eqn:E; cbn; unfold call_ok; cbn.
    + split; [done|]. intros i Hi%H. apply key_order_elem in Hi. rewrite E in Hi. by apply elem_of_nil in Hi.
    + split_and!; [done..| |done]. intros _ i'. rewrite (H i'), <- E. symmetry. apply key_order_elem.
  - intros (-> & -> & _ & H). destruct a as [[ls|i|[v|]]|]; try done. cbn. unfold call_ok. cbn. by split; [|apply H].
  - done.
Qed.

Lemma failed_ok st c a p from text r :
  call_ok from text r (c, a) -> in_flight from text r ((., None) <$> (LabelsPage.onReply tr st c None p).2).
Proof. destruct c as [|t [f|]|f t|f ids t|f]; unfold call_ok; cbn; try done. naive_solver. Qed.

(** What the daemon does with a call keeps every torrent in a label. *)
Lemma serve_ok c from text r0 r :
  register_ok r -> normal from -> Register.normalise_label text <> from ->
  underway from (Register.normalise_label text) r0 r -> call_ok from text r (c, None) ->
  let ra := LabelsPage.serve dft c r in
  underway from (Register.normalise_label text) r0 ra.1 /\ call_ok from text ra.1 (c, Some ra.2) /\ register_ok ra.1.
Proof.
  intros Hr Hn Hne [Hto Hu] Hc. destruct c as [|t [f|]|f t|f ids t|f]; unfold call_ok in Hc; cbn [fst snd] in Hc.
  - done.
  - destruct Hc as (_ & _ & [? ?]). done.
  - done.
  - destruct Hc as (-> & -> & _). cbn [LabelsPage.serve fst snd]. split_and!; [done| |done]. unfold call_ok. cbn [fst snd]. split_and!; [done..|].
    intros ids [= <-] id. symmetry. apply in_label_elem.
  - destruct Hc as (-> & -> & Hids & _). specialize (Hids eq_refl). cbn [LabelsPage.serve LabelsPage.replied fst snd].
    assert (none_in from (Register.set_option text ids r).1) as Hnone.
    { intros i. rewrite set_option_torrents. destruct (Register.torrents r !! i) as [l|] eqn:E; [|done]. cbn.
      case_decide as Hi; [congruence|]. intros [= ->]. by apply Hi, Hids. }
    split_and!; [split; [done|]| |done].
    + intros i. specialize (Hu i). rewrite set_option_torrents.
      destruct (Register.torrents r0 !! i) as [l|], (Register.torrents r !! i) as [l'|] eqn:E; try done. cbn.
      destruct (decide (i ∈ ids)) as [Hi|Hi]; [|done]. case_decide; [by eauto|].
      apply Hids in Hi. congruence.
    + by split_and!.
  - destruct Hc as (-> & Hnone). cbn [LabelsPage.serve LabelsPage.replied fst snd].
    assert (forall l, l <> from -> Register.labels (Register.remove from r).1 !! l = Register.labels r !! l) as Hl.
    { intros l Hl. rewrite remove_labels, normalise_normal by done. by rewrite lookup_delete_ne. }
    assert (Register.torrents (Register.remove from r).1 = Register.torrents r) as Ht.
    { apply map_eq. intros i. unfold Register.remove. rewrite normalise_normal by done.
      destruct (Register.labels r !! from) as [o|]; [|done]. cbn. rewrite lookup_fmap.
      destruct (Register.torrents r !! i) as [l|] eqn:E; [|done]. cbn. case_decide; [|done]. subst. by destruct (Hnone i). }
    split_and!; [split| |by apply register_remove_ok].
    + by rewrite Hl.
    + intros i. specialize (Hu i). rewrite Ht.
      destruct (Register.torrents r0 !! i) as [l|], (Register.torrents r !! i) as [l'|] eqn:E; try done.
      case_decide; [|done]. rewrite Hl; [done|]. intros Hx. apply (Hnone i). by rewrite E, Hx.
    + unfold call_ok. cbn. split; [done|]. intros i. rewrite Ht. apply Hnone.
Qed.

Lemma on_the_way_step from text r w e w' os :
  register_ok (LabelsPage.daemon w) -> normal from -> Register.normalise_label text <> from -> carries e = true ->
  on_the_way from text r w -> LabelsPage.step tr dft w e = Some (w', os) ->
  on_the_way from text r w' /\ register_ok (LabelsPage.daemon w').
Proof.
  intros Hr Hn Hne Hc [Hu Hf] Hs. destruct w as [p r' st fl]. cbn in Hr, Hu, Hf.
  destruct e as [ | i | | | | | | | ok t | st' | i | i | i | c]; try done.
  - injection Hs as <- <-. split; [|done]. split; [done|]. cbn. by rewrite app_nil_r.
  - injection Hs as <- <-. split; [|done]. split; [done|]. cbn. by rewrite app_nil_r.
  - injection Hs as <- <-. done.
  - cbn in Hs. destruct (fl !! i) as [[c a]|] eqn:E; [|done]. cbn in Hs.
    destruct (one_call fl i (c, a) from text r' Hf E) as (-> & -> & Hcall).
    destruct a; [done|]. injection Hs as <- <-.
    destruct (serve_ok c from text r r' Hr Hn Hne Hu Hcall) as (H1 & H2 & H3). split; [|done]. by split.
  - cbn in Hs. destruct (fl !! i) as [[c a]|] eqn:E; [|done]. cbn in Hs.
    destruct (one_call fl i (c, a) from text r' Hf E) as (-> & -> & Hcall).
    destruct a as [a|]; [|done]. injection Hs as <- <-. split; [|done]. split; [done|]. by apply reply_ok.
  - cbn in Hs. destruct (fl !! i) as [[c a]|] eqn:E; [|done]. cbn in Hs.
    destruct (one_call fl i (c, a) from text r' Hf E) as (-> & -> & Hcall).
    injection Hs as <- <-. split; [|done]. split; [done|]. by apply failed_ok with a.
Qed.

(** Claim C11.  Once the daemon has made the new label, a rename may be cut short
    anywhere, by calls that are not served or whose answers are lost: every
    torrent of the old label is in it or in the new one, in a label that exists,
    and every other torrent is where it was. *)
Theorem rename_keeps_labels from text w es w' os :
  asking from w -> register_ok (LabelsPage.daemon w) -> is_Some (Register.labels (LabelsPage.daemon w) !! from) ->
  Register.normalise_label text <> "" -> Register.normalise_label text <> from -> text <> from ->
  forallb carries es = true ->
  steps w (LabelsPage.Answered true text :: LabelsPage.Serve 0 :: es) = Some (w', os) ->
  underway from (Register.normalise_label text) (LabelsPage.daemon w) (LabelsPage.daemon w').
Proof.
  intros Ha Hr Hf He Hne Ht Hes Hs.
  assert (text <> "") as Ht' by (intros ->; by apply He).
  pose proof (asking_step _ _ _ Ha Ht' Ht) as H0.
  change (?e1 :: ?e2 :: es) with ([e1] ++ [e2] ++ es) in Hs.
  apply run_app in Hs as (w1 & os1 & os2 & Hs1 & Hs & _). unfold LabelsPage.steps in H0. rewrite H0 in Hs1.
  injection Hs1 as <- <-. apply run_app in Hs as (w2 & os3 & os4 & Hs2 & Hs & _).
  set (r := LabelsPage.daemon w) in *. injection Hs2 as <- <-.
  destruct (Hr _ Hf) as [Hn _].
  enough (on_the_way from text r w' /\ register_ok (LabelsPage.daemon w')) as [[Hu _] _] by exact Hu.
  revert Hes. revert Hs. revert es w' os4. refine (run_ind _ (fun w' es _ => forallb carries es = true -> _) _ _ _).
  - intros _. cbn [LabelsPage.daemon]. split; [|by apply register_add_ok]. split; [|by split_and!].
    split; cbn; [apply add_labels; by right|]. intros i. rewrite add_torrents.
    destruct (Register.torrents r !! i) as [l|]; [|done]. case_decide; [|done]. subst. split; [by left|].
    apply add_labels. by left.
  - intros es1 w1 os1' e w2 os2' _ IH Hst Hes1. rewrite forallb_app in Hes1. cbn in Hes1.
    apply andb_true_iff in Hes1 as [H1 H2]. rewrite andb_true_r in H2. destruct (IH H1). by eapply on_the_way_step.
Qed.

(** When the daemon does not make the new label, a rename goes on all
    the same: every torrent of the old label ends in a label that does not
    exist. *)
Theorem rename_refused from text w id :
  let to := Register.normalise_label text in
  let r := LabelsPage.daemon w in
  asking from w -> register_ok r -> is_Some (Register.labels r !! from) -> to <> from -> text <> "" -> text <> from ->
  Register.labels r !! to = None -> Register.torrents r !! id = Some from ->
  exists es w', steps w (LabelsPage.Answered true text :: LabelsPage.Failed 0 :: es) = Some (w', []) /\
    forallb carries es = true /\ LabelsPage.flight w' = [] /\
    Register.torrents (LabelsPage.daemon w') !! id = Some to /\
    Register.labels (LabelsPage.daemon w') !! to = None /\ Register.labels (LabelsPage.daemon w') !! from = None.
Proof.
  intros to r Ha Hr Hf Hne Ht Hn Hto Hid.
  destruct (moved_served (LabelsPage.with_box None (LabelsPage.page_of w)) r (LabelsPage.states w) from text)
    as (es & w' & Hs & Hc & Hfl & Hd & _).
  exists es, w'. split.
  - change (@nil LabelsPage.output) with (@nil LabelsPage.output ++ [] ++ []).
    change (?e1 :: ?e2 :: es) with ([e1] ++ [e2] ++ es). eapply steps_app; [by apply asking_step|].
    eapply steps_app; [|exact Hs]. done.
  - split; [done|]. split; [done|]. rewrite Hd, moved_torrents, Hid, moved_labels by done.
    rewrite lookup_delete_eq, lookup_delete_ne by done. cbn. by rewrite decide_True, decide_False by done.
Qed.

End rename.

(** ** The grid after a reload *)

Lemma StronglySorted_lookup {A} (R : A -> A -> Prop) l i j x y :
  StronglySorted R l -> l !! i = Some x -> l !! j = Some y -> i < j -> R x y.
Proof.
  intros H. revert i j. induction H as [|a l _ IH Ha]; intros i j Hi Hj Hlt; [done|].
  destruct j as [|j]; [lia|]. cbn in Hj. destruct i as [|i]; cbn in Hi.
  - injection Hi as ->. rewrite Forall_forall in Ha. by eapply Ha, list_elem_of_lookup_2.
  - eapply IH; [done..|lia].
Qed.

Section grid.
Context (tr : string -> string).
Implicit Types (p : LabelsPage.page) (st : obj prim) (c : Json.dict).

Lemma upper_lower a b : upper_char a = upper_char b -> lower_char a = a -> lower_char b = b -> a = b.
Proof.
  intros H Ha Hb. assert (forall x, lower_char (upper_char x) = lower_char x) as E by (apply all_chars_eq; by vm_compute).
  by rewrite <- Ha, <- Hb, <- (E a), <- (E b), H.
Qed.

(** A normal label that begins with another comes after it. *)
Lemma begins_order v t : normal v -> normal t -> Grid.begins v t = true -> negb (str_ltb t v) = true.
Proof.
  intros [_ Hv] [_ Ht]. unfold Grid.begins, to_upper. revert t Hv Ht.
  induction v as [|a v IH]; intros [|b t] Hv Ht; try done.
  cbn [str_map String.prefix str_all str_ltb] in *.
  apply andb_true_iff in Hv as [Ha%bool_decide_eq_true Hv], Ht as [Hb%bool_decide_eq_true Ht].
  destruct (Ascii.ascii_dec _ _) as [E|]; [|done]. intros H. pose proof (upper_lower a b E Ha Hb) as <-.
  rewrite Nat.ltb_irrefl. by apply IH.
Qed.

Lemma begins_refl t : Grid.begins t t = true.
Proof.
  unfold Grid.begins. induction (to_upper t) as [|a u IH]; [done|]. cbn. by destruct (Ascii.ascii_dec a a).
Qed.

Definition normal_names c : Prop := Forall (fun kv => normal kv.1 /\ kv.1 <> "") c.

Lemma rows_of_perm st c : LabelsPage.rows_of tr st c ≡ₚ (fun r => (LabelsPage.label r, r)) <$> (LabelsPage.row_of tr st <$> c).
Proof. unfold LabelsPage.rows_of. by rewrite isort_perm. Qed.

Lemma rows_of_names st c : (LabelsPage.rows_of tr st c).*1 ≡ₚ c.*1.
Proof. rewrite rows_of_perm, <- !list_fmap_compose. done. Qed.

Lemma rows_of_label st c i r : (i, r) ∈ LabelsPage.rows_of tr st c -> i = LabelsPage.label r /\ i ∈ c.*1.
Proof.
  rewrite rows_of_perm. intros (r' & [= -> ->] & (kv & -> & H)%list_elem_of_fmap)%list_elem_of_fmap.
  split; [done|]. by apply (list_elem_of_fmap_2 fst).
Qed.

Lemma rows_of_sorted st c :
  StronglySorted (fun a b => negb (str_ltb b.1 a.1) = true) (LabelsPage.rows_of tr st c).
Proof.
  unfold LabelsPage.rows_of. assert (StronglySorted (fun a b => negb (str_ltb (LabelsPage.label b) (LabelsPage.label a)) = true)
    (MC.isort (fun a b => negb (str_ltb (LabelsPage.label b) (LabelsPage.label a))) (LabelsPage.row_of tr st <$> c))) as H.
  { apply isort_sorted; intros; [apply str_leb_total|by eapply str_leb_trans]. }
  induction H as [|a l _ IH Ha]; constructor; [done|]. by apply Forall_fmap.
Qed.

(** A label that is looked for is found where it is. *)
Lemma find_there st c g k :
  Grid.rows g = LabelsPage.rows_of tr st c -> normal_names c -> k ∈ c.*1 ->
  exists i r, Grid.find LabelsPage.label k g = Some i /\ Grid.rows g !! i = Some (k, r) /\ LabelsPage.label r = k.
Proof.
  intros Hg Hn Hk. unfold Grid.find. rewrite Hg.
  assert (forall i, i ∈ c.*1 -> normal i /\ i <> "") as Hn'.
  { intros i (kv & -> & Hkv)%list_elem_of_fmap. by eapply Forall_forall in Hn. }
  rewrite decide_False by apply Hn', Hk.
  rewrite <- (rows_of_names st) in Hk. apply list_elem_of_fmap in Hk as ([k' r] & -> & Hr). cbn in *.
  destruct (rows_of_label _ _ _ _ Hr) as [-> Hk].
  set (k := LabelsPage.label r) in *. set (P := fun r : string * LabelsPage.row => Grid.begins k (LabelsPage.label r.2) = true).
  destruct (list_find_elem_of P _ _ Hr (begins_refl _)) as [[i [k' r']] Hf]. rewrite Hf.
  apply list_find_Some in Hf as (Hi & HP & Hfirst). unfold P in HP. cbn in HP.
  destruct (rows_of_label _ _ _ _ (list_elem_of_lookup_2 _ _ _ Hi)) as [-> Hk'].
  assert (LabelsPage.label r' = k) as E; [|rewrite E in Hi; eauto].
  apply list_elem_of_lookup in Hr as [j Hj]. apply str_leb_antisym.
  - destruct (decide (i = j)) as [->|Hne].
    { rewrite Hi in Hj. injection Hj as -> _. by rewrite str_ltb_irrefl. }
    assert (i < j) as Hlt.
    { destruct (decide (j < i)) as [Hji|]; [|lia]. destruct (Hfirst j _ Hj Hji). apply begins_refl. }
    exact (StronglySorted_lookup _ _ _ _ _ _ (rows_of_sorted st c) Hi Hj Hlt).
  - by apply begins_order; [apply Hn'|apply Hn'|].
Qed.

(** A row that is selected is the label of that name. *)
Lemma selected_at st c p k :
  Grid.rows (LabelsPage.grid p) = LabelsPage.rows_of tr st c -> Grid.selected (LabelsPage.grid p) = Some k ->
  k ∈ (LabelsPage.rows_of tr st c).*1 -> LabelsPage.selected p = Some k.
Proof.
  intros Hg Hs Hk. unfold LabelsPage.selected, Grid.getSelected. rewrite Hs. cbn.
  apply list_elem_of_fmap in Hk as ([k' r] & -> & Hr). unfold Grid.at_id. rewrite Hg. cbn [fst].
  destruct (list_find_elem_of (fun r => r.1 = k') _ _ Hr eq_refl) as [[i [k2 r2]] Hf]. rewrite Hf. cbn.
  apply list_find_Some in Hf as (Hi & E & _). cbn in E. subst k2. apply list_elem_of_lookup_2 in Hi.
  by destruct (rows_of_label _ _ _ _ Hi) as [<- _].
Qed.

(** The answer to a reload lists the labels there are, in order, and
    the one that is selected stays selected while it is among them. *)
Theorem reload_keeps_selected st c p k :
  LabelsPage.keepSelected p = Some k -> normal_names c -> k ∈ c.*1 ->
  let p' := LabelsPage.onConfig tr st (Some c) p in
  LabelsPage.selected p' = Some k /\ LabelsPage.keepSelected p' = Some k /\
  Grid.rows (LabelsPage.grid p') = LabelsPage.rows_of tr st c.
Proof.
  intros Hk Hn Hc. unfold LabelsPage.onConfig, LabelsPage.refreshGrid. cbn [LabelsPage.keepSelected LabelsPage.with_config default].
  rewrite Hk. cbn [LabelsPage.config LabelsPage.with_config LabelsPage.grid].
  set (g := Grid.loadData _ _). set (p1 := LabelsPage.change g _).
  assert (Grid.rows (LabelsPage.grid p1) = LabelsPage.rows_of tr st c) as Hg.
  { unfold p1, LabelsPage.change, g, Grid.loadData. destruct (Grid.selected _); [case_decide|]; done. }
  destruct (find_there st c (LabelsPage.grid p1) k Hg Hn Hc) as (i & r & -> & Hi & Hl).
  unfold Grid.selectRow. rewrite Hi. cbn [LabelsPage.change fst snd].
  assert (LabelsPage.selected (LabelsPage.with_grid (Grid.mk (Grid.rows (LabelsPage.grid p1)) (Some k)) p1) = Some k) as Hs.
  { apply (selected_at st c); [done..|]. rewrite Hg in Hi. apply list_elem_of_lookup_2 in Hi. by apply (list_elem_of_fmap_2 fst) in Hi. }
  unfold LabelsPage.onSelect. by rewrite Hs.
Qed.

(** When the label that was selected is gone, a label that begins with
    its name is selected in its place, and is what the buttons act on. *)
Theorem reload_selects_another st c p k l :
  LabelsPage.keepSelected p = Some k -> k <> "" -> normal_names c -> k ∉ c.*1 -> l ∈ c.*1 -> Grid.begins k l = true ->
  let p' := LabelsPage.onConfig tr st (Some c) p in
  exists l', LabelsPage.selected p' = Some l' /\ l' <> k /\ l' ∈ c.*1 /\ Grid.begins k l' = true /\
    LabelsPage.box (LabelsPage.onRemoveLabel p') = Some (LabelsPage.AskRemove l').
Proof.
  intros Hk He Hn Hc Hl Hb. unfold LabelsPage.onConfig, LabelsPage.refreshGrid. cbn [LabelsPage.keepSelected LabelsPage.with_config default].
  rewrite Hk. cbn [LabelsPage.config LabelsPage.with_config LabelsPage.grid].
  set (g := Grid.loadData _ _). set (p1 := LabelsPage.change g _).
  assert (Grid.rows (LabelsPage.grid p1) = LabelsPage.rows_of tr st c) as Hg.
  { unfold p1, LabelsPage.change, g, Grid.loadData. destruct (Grid.selected _); [case_decide|]; done. }
  unfold Grid.find. rewrite Hg, decide_False by done.
  rewrite <- (rows_of_names st) in Hl. apply list_elem_of_fmap in Hl as ([l1 r] & -> & Hr). cbn in Hb.
  destruct (rows_of_label _ _ _ _ Hr) as [-> _].
  set (P := fun r : string * LabelsPage.row => Grid.begins k (LabelsPage.label r.2) = true).
  destruct (list_find_elem_of P _ _ Hr Hb) as [[i [k' r']] Hf]. rewrite Hf.
  apply list_find_Some in Hf as (Hi & HP & _). unfold P in HP. cbn in HP. apply list_elem_of_lookup_2 in Hi as Hr'.
  destruct (rows_of_label _ _ _ _ Hr') as [-> Hk']. cbn [fmap option_fmap option_map fst]. unfold Grid.selectRow.
  rewrite Hg, Hi. cbn [LabelsPage.change fst snd]. set (p2 := LabelsPage.onSelect _).
  assert (LabelsPage.selected p2 = Some (LabelsPage.label r')) as Hs.
  { apply (selected_at st c); [done..|]. by apply (list_elem_of_fmap_2 fst) in Hr'. }
  exists (LabelsPage.label r'). split; [done|]. split; [intros E; apply Hc; by rewrite <- E|]. split; [done|]. split; [done|].
  assert (LabelsPage.label r' <> "") as Hne.
  { apply list_elem_of_fmap in Hk' as (kv & -> & Hkv). by eapply Forall_forall in Hn as [_ ?]. }
  unfold LabelsPage.onRemoveLabel, LabelsPage.target. rewrite Hs. cbn [mbind option_bind]. by rewrite decide_False.
Qed.

End grid.

(** ** Examples *)

Module LabelsExamples.
Definition tr : string -> string := id.
Definition dft : Json.dict := [("apply_max", jbool false)].
Definition films : Json.dict := [("apply_max", jbool true)].
Definition daemon : Register.state :=
  Register.mk (<["tv" := dft]> (<["films" := films]> ∅)) (<["a" := "films"]> (<["b" := "tv"]> (<["c" := ""]> ∅))).
Definition asked (from : string) : LabelsPage.world :=
  LabelsPage.World (LabelsPage.mk true [] Grid.empty (Some from) (Some (LabelsPage.AskRename from)) false) daemon [] [].

Lemma daemon_ok : register_ok daemon.
Proof.
  intros l. unfold daemon. cbn [Register.labels]. rewrite !lookup_insert_is_Some, lookup_empty.
  intros [<-|[_ [<-|[_ [? ?]]]]]; by repeat split.
Qed.
Lemma daemon_has l : l ∈ ["tv"; "films"] -> is_Some (Register.labels daemon !! l).
Proof.
  intros [->|[->|[]%elem_of_nil]%elem_of_cons]%elem_of_cons; unfold daemon; cbn [Register.labels];
    rewrite !lookup_insert_is_Some; naive_solver.
Qed.
End LabelsExamples.

Lemma rename_moves_witness :
  exists es w', LabelsPage.steps LabelsExamples.tr LabelsExamples.dft (LabelsExamples.asked "films")
      (LabelsPage.Answered true " Cinema!" :: es) = Some (w', []) /\
    Register.torrents (LabelsPage.daemon w') !! "a" = Some "cinema" /\ Register.torrents (LabelsPage.daemon w') !! "b" = Some "tv".
Proof.
  destruct (rename_moves LabelsExamples.tr LabelsExamples.dft "films" " Cinema!" (LabelsExamples.asked "films"))
    as (es & w' & H & _ & _ & Ht & _).
  - done.
  - apply LabelsExamples.daemon_ok.
  - apply LabelsExamples.daemon_has. by right; left.
  - done.
  - done.
  - done.
  - exists es, w'. split; [exact H|]. split; rewrite Ht; reflexivity.
Defined.

Lemma rename_unlabels_witness :
  exists es w', LabelsPage.steps LabelsExamples.tr LabelsExamples.dft (LabelsExamples.asked "tv")
      (LabelsPage.Answered true "TV" :: es) = Some (w', []) /\
    Register.torrents (LabelsPage.daemon w') !! "b" = Some "" /\ Register.labels (LabelsPage.daemon w') !! "tv" = None.
Proof.
  destruct (rename_unlabels LabelsExamples.tr LabelsExamples.dft "tv" "TV" (LabelsExamples.asked "tv"))
    as (es & w' & H & _ & _ & Ht & Hl).
  - done.
  - apply LabelsExamples.daemon_ok.
  - apply LabelsExamples.daemon_has. by left.
  - by right; left.
  - done.
  - done.
  - exists es, w'. split; [exact H|]. split; [rewrite Ht; reflexivity|]. rewrite Hl. apply lookup_delete_eq.
Defined.

Lemma rename_keeps_labels_witness :
  exists w', LabelsPage.steps LabelsExamples.tr LabelsExamples.dft (LabelsExamples.asked "tv")
      [LabelsPage.Answered true "series"; LabelsPage.Serve 0; LabelsPage.Deliver 0; LabelsPage.Serve 0;
       LabelsPage.Deliver 0; LabelsPage.Failed 0] = Some (w', []) /\
    underway "tv" "series" LabelsExamples.daemon (LabelsPage.daemon w').
Proof.
  eexists. split; [vm_compute; reflexivity|].
  eapply (rename_keeps_labels LabelsExamples.tr LabelsExamples.dft "tv" "series" (LabelsExamples.asked "tv")
    [LabelsPage.Deliver 0; LabelsPage.Serve 0; LabelsPage.Deliver 0; LabelsPage.Failed 0]).
  - done.
  - apply LabelsExamples.daemon_ok.
  - apply LabelsExamples.daemon_has. by left.
  - done.
  - done.
  - done.
  - done.
  - vm_compute. reflexivity.
Defined.

Lemma rename_refused_witness :
  exists es w', LabelsPage.steps LabelsExamples.tr LabelsExamples.dft (LabelsExamples.asked "tv")
      (LabelsPage.Answered true "series" :: LabelsPage.Failed 0 :: es) = Some (w', []) /\
    Register.torrents (LabelsPage.daemon w') !! "b" = Some "series" /\ Register.labels (LabelsPage.daemon w') !! "series" = None.
Proof.
  destruct (rename_refused LabelsExamples.tr LabelsExamples.dft "tv" "series" (LabelsExamples.asked "tv") "b")
    as (es & w' & H & _ & _ & Ht & Hl & _).
  - done.
  - apply LabelsExamples.daemon_ok.
  - apply LabelsExamples.daemon_has. by left.
  - done.
  - done.
  - done.
  - done.
  - done.
  - eauto.
Defined.

Lemma reload_keeps_selected_witness :
  LabelsPage.selected (LabelsPage.onConfig LabelsExamples.tr [] (Some [("tv-hd", (jbool false)); ("tv", (jbool false)); ("films", (jbool false))])
    (LabelsPage.with_kept (Some "tv") LabelsPage.create)) = Some "tv".
Proof.
  apply (reload_keeps_selected LabelsExamples.tr [] [("tv-hd", (jbool false)); ("tv", (jbool false)); ("films", (jbool false))]
    (LabelsPage.with_kept (Some "tv") LabelsPage.create) "tv").
  - done.
  - repeat constructor; done.
  - by right; left.
Defined.

Lemma reload_selects_another_witness :
  exists l', LabelsPage.box (LabelsPage.onRemoveLabel (LabelsPage.onConfig LabelsExamples.tr [] (Some [("tv-hd", (jbool false)); ("films", (jbool false))])
    (LabelsPage.with_kept (Some "tv") LabelsPage.create))) = Some (LabelsPage.AskRemove l') /\ l' <> "tv".
Proof.
  destruct (reload_selects_another LabelsExamples.tr [] [("tv-hd", (jbool false)); ("films", (jbool false))]
    (LabelsPage.with_kept (Some "tv") LabelsPage.create) "tv" "tv-hd") as (l' & _ & Hn & _ & _ & Hb).
  - done.
  - done.
  - repeat constructor; done.
  - intros [?|[?|?%elem_of_nil]%elem_of_cons]%elem_of_cons; done.
  - by left.
  - done.
  - eauto.
Defined.
