(* ===== verification/ListPages.v ===== *)
(** * The pages of the preferences that keep lists

    The watched folders ([AutoAddPage.js]) and the feeds with their rules
    ([RssPage.js]): grids that are edited in place, read from the settings of the
    daemon and written back, as instances of the interface of [Settings]; and the
    test of a feed. *)

From stdpp Require Import base list strings.
From Stdlib Require Import Lia ZArith.
From S2P Require Import Prelude JsNum JsString JsValue Integers ExtCore Fields Settings SortTypes PreferencePages.

Local Open Scope nat_scope.

(** ** A grid that is edited in place *)

Module Table.

(** How a cell is edited: a box, a line of text that may or may not be blank, or
    one of some choices. *)
Inductive editor := Check | Text (allowBlank : bool) | Choice (values : list string).

(** A column: its field's name and type, what is read into it, what is written
    from it, and its editor. *)
Record column := {
  name : string; type : Field.ftype; read : Json.json -> Json.json; write : prim -> Json.json; edited : option editor
}.

(** A record, and the store: whether [getModifiedRecords] has any, and which row
    is selected. *)
Notation row := (obj prim).
Record state := mk { rows : list row; selected : option nat; modified : bool }.
Definition empty : state := mk [] None false.

(** What the page's [map] makes of an entry, as the store's reader converts it;
    an entry of nothing throws. *)
Definition cell (e : Json.json) (c : column) : option (string * prim) :=
  v ← Json.prop (name c) e; Some (name c, Field.convert (type c) (Json.prim_of (read c v))).
Definition row_of (cs : list column) (e : Json.json) : option row := mapM (cell e) cs.
Definition rows_of (cs : list column) (entries : Json.json) : option (list row) :=
  match Json.or entries (Json.JArr []) with Json.JArr l => mapM (row_of cs) l | _ => None end.

(** [loadData]: the records are new ones, so that none is selected; those that
    were modified stay so. *)
Definition loadData (rs : list row) (t : state) : state := mk rs None (modified t).

(** What the page's [each] makes of a record *)
Definition get (k : string) (r : row) : prim := default PUndef (oget k r).
Definition entry (cs : list column) (r : row) : Json.dict := (fun c => (name c, write c (get (name c) r))) <$> cs.

(** [Store.add] of a new record, and [Store.remove] of the one selected *)
Definition add (r : row) (t : state) : state := mk (rows t ++ [r]) (selected t) true.
Definition remove (t : state) : state :=
  match selected t with Some i => mk (delete i (rows t)) None (modified t) | None => t end.
Definition selectRow (i : nat) (t : state) : state := if decide (i < length (rows t)) then mk (rows t) (Some i) (modified t) else t.

(** [onEditComplete], for a value the editor takes *)
Definition takes (ed : editor) (v : prim) : bool :=
  match ed, v with
  | Check, PBool _ => true
  | Text blank, PStr s => blank || negb (bool_decide (s = ""))
  | Choice vs, PStr s => bool_decide (s ∈ vs)
  | _, _ => false
  end.
Definition onEditComplete (i : nat) (k : string) (v : prim) (t : state) : state :=
  match rows t !! i with
  | Some r => if decide (to_str v = to_str (get k r)) then t else mk (<[i := oset k v r]> (rows t)) (selected t) true
  | None => t
  end.
Definition edit (cs : list column) (i : nat) (k : string) (v : prim) (t : state) : state :=
  match List.find (fun c => bool_decide (name c = k)) cs with
  | Some c => match edited c with Some ed => if takes ed v then onEditComplete i k v t else t | None => t end
  | None => t
  end.

(** What is done with a grid. *)
Inductive event := Add | Remove | SelectRow (i : nat) | EditCell (i : nat) (k : string) (v : prim).
Definition handle (cs : list column) (new : row) (e : event) (t : state) : state :=
  match e with
  | Add => add new t
  | Remove => remove t
  | SelectRow i => selectRow i t
  | EditCell i k v => edit cs i k v t
  end.

(** The columns the two pages have: boxes that are on or off where nothing is
    said, and texts. *)
Definition on_box (n : string) : column :=
  {| name := n; type := Field.BOOL; read v := jbool (Json.not_false v); write p := jbool (strict_eq p (PBool true)); edited := Some Check |}.
Definition off_box (n : string) : column :=
  {| name := n; type := Field.BOOL; read v := jbool (Json.is_true v); write p := jbool (strict_eq p (PBool true)); edited := Some Check |}.

End Table.

(** ** Watched folders *)

Module AutoAdd.

Record fields := mk { enabled : Checkbox.state; interval : NumberField.state; watchdirs : Table.state }.

(** A text that is [d] where it is empty, read or written *)
Definition text (n d : string) (ed : option Table.editor) : Table.column :=
  {| Table.name := n; Table.type := Field.STRING; Table.read v := Json.value v (jstr d);
     Table.write p := if truthy p then Json.JPrim p else jstr d; Table.edited := ed |}.
Definition trimmed_path (p : prim) : string := trim (if truthy p then to_str p else "").
Definition path : Table.column :=
  {| Table.name := "path"; Table.type := Field.STRING; Table.read v := Json.value v (jstr "");
     Table.write p := jstr (trimmed_path p); Table.edited := Some (Table.Text false) |}.
Definition columns : list Table.column :=
  [Table.on_box "enabled";
   path; text "download_location" "" (Some (Table.Text true)); text "label" "" (Some (Table.Text true)); Table.off_box "add_paused";
   text "after_add" "rename" (Some (Table.Choice ["rename"; "leave"; "delete"]));
   text "rename_extension" ".added" None; text "copy_to" "" None].

(** [onAddFolder] *)
Definition new : obj prim :=
  [("enabled", PBool true); ("path", PStr ""); ("download_location", PStr ""); ("label", PStr ""); ("add_paused", PBool false);
   ("after_add", PStr "rename"); ("rename_extension", PStr ".added"); ("copy_to", PStr "")].

Definition made : fields := mk (Checkbox.mk false false) (spinner 0 (of_Z 1) max_value PUndef) Table.empty.

(** [onGotConfig] *)
Definition load (settings : Json.json) (f : fields) : option fields :=
  settings ← Json.dict_of settings;
  rows ← Table.rows_of columns (Json.get "watchdirs" settings);
  Some (mk (Checkbox.setValue (PBool (Json.is_true (Json.get "enabled" settings))) (enabled f)).1
          (give (Json.value (Json.get "interval" settings) (jint 5)) (interval f)) (Table.loadData rows (watchdirs f))).

(** [onApply]: a row without a folder is left out. *)
Definition watchdir (r : obj prim) : option Json.json :=
  if decide (trimmed_path (Table.get "path" r) = "") then None else Some (Json.JObj (Table.entry columns r)).
Definition onApply (f : fields) : Json.dict :=
  [("enabled", jbool (Checkbox.getValue (enabled f))); ("interval", jnum (field_number (interval f) (of_Z 5)));
   ("watchdirs", Json.JArr (omap watchdir (Table.rows (watchdirs f))))].

Inductive edit := Enabled (b : bool) | Interval (s : string) | Dirs (e : Table.event).
Definition change (e : edit) (f : fields) : fields :=
  match e with
  | Enabled b => mk (Checkbox.setValue (PBool b) (enabled f)).1 (interval f) (watchdirs f)
  | Interval s => mk (enabled f) (typed s (interval f)) (watchdirs f)
  | Dirs e => mk (enabled f) (interval f) (Table.handle columns new e (watchdirs f))
  end.

#[global] Instance page : Page fields edit := {
  key := "autoadd"; made := made; load := load; failed f := f; reads_again := false;
  apply f := (f, onApply f); handle _ e f := Some (change e f, [])
}.

End AutoAdd.

(** ** Feeds and rules *)

Module Rss.

(** What a test shows: a message, or what the feed offers with a note. *)
Inductive shown := NoFeed | NoAddress | Waiting | Unread (message : string) | Offers (rows : list (list Json.json)) (note : string).

(** The fields, the tests in flight with whether there was something not applied
    yet, and what is shown of a test. *)
Record fields := mk {
  enabled : Checkbox.state; interval : NumberField.state; feeds : Table.state; rules : Table.state;
  tests : list (string * string * bool); result : option shown
}.

(** A text, trimmed as it is written *)
Definition text (n : string) : Table.column :=
  {| Table.name := n; Table.type := Field.STRING; Table.read v := Json.or v (jstr "");
     Table.write p := jstr (trim (to_str (if truthy p then p else PStr ""))); Table.edited := Some (Table.Text true) |}.
Definition feed_columns : list Table.column := [Table.on_box "enabled"; text "name"; text "url"].
Definition rule_columns : list Table.column :=
  [Table.on_box "enabled"; text "name"; text "feed"; text "contains"; text "excludes"; text "label"; text "save_path";
   Table.off_box "paused"].

(** [onAddFeed] and [onAddRule] *)
Definition new_feed : obj prim := [("enabled", PBool true); ("name", PStr ""); ("url", PStr "")].
Definition new_rule : obj prim :=
  [("enabled", PBool true); ("name", PStr ""); ("feed", PStr ""); ("contains", PStr ""); ("excludes", PStr ""); ("label", PStr "");
   ("save_path", PStr ""); ("paused", PBool false)].

Definition made : fields :=
  mk (Checkbox.mk false false) (spinner 0 (of_Z 1) (of_Z 1440) PUndef) Table.empty Table.empty [] None.

(** [onGotConfig] *)
Definition load (settings : Json.json) (f : fields) : option fields :=
  settings ← Json.dict_of settings;
  feed_rows ← Table.rows_of feed_columns (Json.get "feeds" settings);
  rule_rows ← Table.rows_of rule_columns (Json.get "rules" settings);
  Some (mk (Checkbox.setValue (PBool (Json.is_true (Json.get "enabled" settings))) (enabled f)).1
          (NumberField.setValue (PNum (Json.number (Json.get "interval" settings) (of_Z 30))) (interval f))
          (Table.loadData feed_rows (feeds f)) (Table.loadData rule_rows (rules f)) (tests f) (result f)).

(** [onApply] *)
Definition entries (cs : list Table.column) (t : Table.state) : Json.json :=
  Json.JArr ((fun r => Json.JObj (Table.entry cs r)) <$> Table.rows t).
Definition onApply (f : fields) : Json.dict :=
  [("enabled", jbool (Checkbox.getValue (enabled f))); ("interval", jnum (field_number (interval f) (of_Z 30)));
   ("feeds", entries feed_columns (feeds f)); ("rules", entries rule_columns (rules f))].

(** [onTestFeed] *)
Definition dirty (f : fields) : bool := Table.modified (feeds f) || Table.modified (rules f).
Definition testing (ts : list (string * string * bool)) (r : option shown) (f : fields) : fields :=
  mk (enabled f) (interval f) (feeds f) (rules f) ts r.
Definition text_of (k : string) (r : obj prim) : string := let v := Table.get k r in to_str (if truthy v then v else PStr "").
Definition onTestFeed (f : fields) : fields :=
  match i ← Table.selected (feeds f); Table.rows (feeds f) !! i with
  | None => testing (tests f) (Some NoFeed) f
  | Some r =>
      let url := trim (text_of "url" r) in
      if decide (url = "") then testing (tests f) (Some NoAddress) f
      else testing (tests f ++ [(url, text_of "name" r, dirty f)]) (Some Waiting) f
  end.

(** [showFeedResult]; an answer that is no list of items throws, as an item of
    nothing does. *)
Definition offered (item : Json.json) : option (list Json.json) :=
  taken ← Json.prop "taken" item; title ← Json.prop "title" item; rule ← Json.prop "rule" item; label ← Json.prop "label" item;
  Some [jbool (Json.is_true taken); Json.or title (jstr ""); Json.or rule (jstr ""); Json.or label (jstr "")].
Definition is_taken (r : list Json.json) : bool := match r with v :: _ => Json.is_true v | [] => false end.
Definition showFeedResult (tr : string -> string) (answer : Json.json) (dirty : bool) : option shown :=
  items ← (if Json.truthy answer then Json.prop "items" answer else Some answer);
  items ← match Json.or items (Json.JArr []) with Json.JArr l => Some l | _ => None end;
  rows ← mapM offered items;
  let count n := num_str (of_Z (Z.of_nat n)) in
  let note := format (tr "{0} items, {1} of which the rules would take. Nothing was added.")
                [count (length rows); count (length (List.filter is_taken rows))] in
  Some (Offers rows (if dirty then note +:+ " " +:+ tr "The rules used are the ones already saved: apply your changes and test again to try the new ones." else note)).

(** The answer to a test, or its failure with the message it has *)
Definition onTested (tr : string -> string) (i : nat) (answer : Json.json + string) (f : fields) : option fields :=
  '(_, _, d) ← tests f !! i;
  match answer with
  | inl a => s ← showFeedResult tr a d; Some (testing (delete i (tests f)) (Some s) f)
  | inr m => Some (testing (delete i (tests f)) (Some (Unread (if decide (m = "") then tr "That feed could not be read." else m))) f)
  end.

Inductive edit := Enabled (b : bool) | Interval (s : string) | Feeds (e : Table.event) | Rules (e : Table.event)
  | TestFeed | Tested (i : nat) (answer : Json.json + string).
Definition change (tr : string -> string) (e : edit) (f : fields) : option fields :=
  match e with
  | Enabled b => Some (mk (Checkbox.setValue (PBool b) (enabled f)).1 (interval f) (feeds f) (rules f) (tests f) (result f))
  | Interval s => Some (mk (enabled f) (typed s (interval f)) (feeds f) (rules f) (tests f) (result f))
  | Feeds e => Some (mk (enabled f) (interval f) (Table.handle feed_columns new_feed e (feeds f)) (rules f) (tests f) (result f))
  | Rules e => Some (mk (enabled f) (interval f) (feeds f) (Table.handle rule_columns new_rule e (rules f)) (tests f) (result f))
  | TestFeed => Some (onTestFeed f)
  | Tested i a => onTested tr i a f
  end.

#[global] Instance page (tr : string -> string) : Page fields edit := {
  key := "rss"; made := made; load := load; failed f := f; reads_again := false;
  apply f := (f, onApply f); handle _ e f := f ← change tr e f; Some (f, [])
}.

End Rss.

(** ** What a grid keeps *)

Section table.
Implicit Types (cs : list Table.column) (vs : list Json.json) (r : obj prim) (t : Table.state).

(** The value a column writes of one it has read, and one that it keeps *)
Definition through (c : Table.column) (v : Json.json) : prim := Field.convert (Table.type c) (Json.prim_of (Table.read c v)).
Definition keeps (c : Table.column) (v : Json.json) : Prop := Table.write c (through c v) = v.

(** An entry of the settings: its values, in the order of the columns *)
Definition names cs : list string := Table.name <$> cs.
Definition stored cs vs : Json.json := Json.JObj (zip (names cs) vs).
Definition shown cs vs : obj prim := zip_with (fun c v => (Table.name c, through c v)) cs vs.

Lemma zip_oget {A} cs (xs : list A) :
  NoDup (names cs) -> length xs = length cs -> Forall2 (fun c x => oget (Table.name c) (zip (names cs) xs) = Some x) cs xs.
Proof.
  revert xs. induction cs as [|c cs IH]; intros [|x xs] Hn Hl; try done; constructor.
  - cbn. by rewrite decide_True.
  - apply NoDup_cons in Hn as [Hc Hn]. injection Hl as Hl. apply Forall2_same_length_lookup_2; [done|].
    intros i c' x' Hi Hx. cbn. rewrite decide_False.
    + exact (Forall2_lookup_lr _ _ _ _ _ _ (IH xs Hn Hl) Hi Hx).
    + intros E. apply Hc. fold (names cs). rewrite <- E. by apply list_elem_of_fmap_2, list_elem_of_lookup_2 with i.
Qed.

Lemma cells_read o cs vs :
  Forall2 (fun c v => oget (Table.name c) o = Some v) cs vs -> mapM (Table.cell (Json.JObj o)) cs = Some (shown cs vs).
Proof.
  intros H. induction H as [|c v cs vs Hv _ IH]; [done|].
  assert (Table.cell (Json.JObj o) c = Some (Table.name c, through c v)) as E.
  { unfold Table.cell. cbn. unfold Json.get. by rewrite Hv. }
  cbn [mapM]. by rewrite E, IH.
Qed.

Lemma row_read cs vs : NoDup (names cs) -> length vs = length cs -> Table.row_of cs (stored cs vs) = Some (shown cs vs).
Proof. intros Hn Hl. by apply cells_read, zip_oget. Qed.

Lemma shown_zip cs vs : shown cs vs = zip (names cs) (zip_with through cs vs).
Proof. unfold shown, names. revert vs. induction cs as [|c cs IH]; intros [|v vs]; try done. cbn. f_equal. apply IH. Qed.

Lemma entry_written cs vs :
  NoDup (names cs) -> Forall2 keeps cs vs -> Table.entry cs (shown cs vs) = zip (names cs) vs.
Proof.
  intros Hn Hk. pose proof (Forall2_length _ _ _ Hk) as Hl.
  assert (Forall2 (fun c p => oget (Table.name c) (shown cs vs) = Some p) cs (zip_with through cs vs)) as Hg.
  { rewrite shown_zip. apply zip_oget; [done|]. rewrite length_zip_with. lia. }
  revert Hg. unfold Table.entry. generalize (shown cs vs) as r. clear Hn Hl. intros r. induction Hk as [|c v cs vs Hc _ IH]; [done|].
  cbn. intros (Hr & Hg)%Forall2_cons. unfold Table.get. rewrite Hr. cbn. f_equal; [by rewrite Hc|by apply IH].
Qed.

Lemma table_read cs vss :
  NoDup (names cs) -> Forall (Forall2 keeps cs) vss ->
  Table.rows_of cs (Json.JArr (stored cs <$> vss)) = Some (shown cs <$> vss).
Proof.
  intros Hn H. unfold Table.rows_of, Json.or, Json.truthy. induction H as [|vs vss Hk _ IH]; [done|]. cbn [fmap list_fmap mapM].
  rewrite row_read by (done || by rewrite (Forall2_length _ _ _ Hk)). cbn [mbind option_bind]. by rewrite IH.
Qed.
End table.

(** ** What is read is written back *)

Lemma on_box_keeps n b : keeps (Table.on_box n) (jbool b).
Proof. by destruct b. Qed.
Lemma off_box_keeps n b : keeps (Table.off_box n) (jbool b).
Proof. by destruct b. Qed.
Lemma truthy_str s : s <> "" -> truthy (PStr s) = true.
Proof. intros H. cbn. by rewrite bool_decide_false. Qed.
Lemma or_text s d : (s = "" -> d = "") -> Json.or (jstr s) (jstr d) = jstr s.
Proof.
  intros H. unfold Json.or. destruct (decide (s = "")) as [->|E]; [by rewrite H|].
  change (Json.truthy (jstr s)) with (truthy (PStr s)). by rewrite truthy_str.
Qed.
Lemma value_str_or s d : (s = "" -> d = "") -> Json.value (jstr s) (jstr d) = jstr s.
Proof. intros H. unfold Json.value, Json.isEmpty. case_bool_decide as E; [by rewrite E, H|done]. Qed.

Lemma text_keeps n d ed s : (s = "" -> d = "") -> keeps (AutoAdd.text n d ed) (jstr s).
Proof.
  intros H. unfold keeps, through. cbn [AutoAdd.text Table.read Table.write Table.type]. rewrite value_str_or by done.
  cbn [Json.prim_of Field.convert nullish to_str]. destruct (decide (s = "")) as [->|E]; [by rewrite H|by rewrite truthy_str].
Qed.
Lemma trimmed_keeps n s : trim s = s -> keeps (Rss.text n) (jstr s).
Proof.
  intros H. unfold keeps, through. cbn [Rss.text Table.read Table.write Table.type]. rewrite or_text by done.
  cbn [Json.prim_of Field.convert nullish to_str]. destruct (decide (s = "")) as [->|E]; [done|]. rewrite truthy_str by done.
  cbn [to_str]. by rewrite H.
Qed.
Lemma path_keeps s : s <> "" -> trim s = s -> AutoAdd.trimmed_path (PStr s) = s.
Proof. intros H Ht. unfold AutoAdd.trimmed_path. by rewrite truthy_str. Qed.
#[export] Hint Resolve on_box_keeps off_box_keeps text_keeps trimmed_keeps : keeps.

(** A watched folder, a feed and a rule, as they are stored. *)
Record folder := { f_on : bool; f_path : string; f_location : string; f_label : string; f_paused : bool; f_after : string;
  f_extension : string; f_copy : string }.
Definition folder_values (d : folder) : list Json.json :=
  [jbool (f_on d); jstr (f_path d); jstr (f_location d); jstr (f_label d); jbool (f_paused d); jstr (f_after d);
   jstr (f_extension d); jstr (f_copy d)].
Definition folder_ok (d : folder) : Prop := f_path d <> "" /\ trim (f_path d) = f_path d /\ f_after d <> "" /\ f_extension d <> "".

Record feed := { d_on : bool; d_name : string; d_url : string }.
Definition feed_values (d : feed) : list Json.json := [jbool (d_on d); jstr (d_name d); jstr (d_url d)].
Definition feed_ok (d : feed) : Prop := trim (d_name d) = d_name d /\ trim (d_url d) = d_url d.

Record rule := { r_on : bool; r_texts : list string; r_paused : bool }.
Definition rule_ok (d : rule) : Prop := length (r_texts d) = 6 /\ Forall (fun s => trim s = s) (r_texts d).
Definition rule_stored (d : rule) : list Json.json := jbool (r_on d) :: ((fun s : string => jstr s) <$> r_texts d) ++ [jbool (r_paused d)].

Lemma folder_keeps d : folder_ok d -> Forall2 keeps AutoAdd.columns (folder_values d).
Proof.
  intros (Hp & Ht & Ha & He).
  assert (keeps AutoAdd.path (jstr (f_path d))) as Hk.
  { unfold keeps, through. cbn [AutoAdd.path Table.read Table.write Table.type].
    rewrite value_str_or by done. cbn [Json.prim_of Field.convert nullish to_str]. by rewrite path_keeps. }
  repeat (constructor; [first [exact Hk|by apply on_box_keeps|by apply off_box_keeps|by apply text_keeps]|]). done.
Qed.

Lemma feed_keeps d : feed_ok d -> Forall2 keeps Rss.feed_columns (feed_values d).
Proof. intros [H1 H2]. repeat (constructor; [eauto with keeps|]). done. Qed.

Lemma rule_keeps d : rule_ok d -> Forall2 keeps Rss.rule_columns (rule_stored d).
Proof.
  destruct d as [on [|s1 [|s2 [|s3 [|s4 [|s5 [|s6 [|]]]]]]] paused]; intros [Hl Ht]; try done. cbn in Ht.
  rewrite !Forall_cons in Ht. destruct Ht as (H1 & H2 & H3 & H4 & H5 & H6 & _).
  repeat (constructor; [eauto with keeps|]). done.
Qed.

Lemma folder_columns : NoDup (names AutoAdd.columns) /\ NoDup (names Rss.feed_columns) /\ NoDup (names Rss.rule_columns).
Proof. by repeat split; apply (bool_decide_unpack _); vm_compute. Qed.

Lemma folders_written ds : Forall folder_ok ds ->
  omap AutoAdd.watchdir (shown AutoAdd.columns <$> (folder_values <$> ds)) = stored AutoAdd.columns <$> (folder_values <$> ds).
Proof.
  intros H. induction H as [|d ds Hd _ IH]; [done|]. cbn [fmap list_fmap]. cbn [omap list_omap].
  assert (AutoAdd.watchdir (shown AutoAdd.columns (folder_values d)) = Some (stored AutoAdd.columns (folder_values d))) as ->.
  { unfold AutoAdd.watchdir. rewrite entry_written by (apply folder_columns || by apply folder_keeps).
    destruct Hd as (Hp & Ht & _).
    change (Table.get "path" (shown AutoAdd.columns (folder_values d))) with (through AutoAdd.path (jstr (f_path d))).
    unfold through. cbn [AutoAdd.path Table.read Table.write Table.type].
    rewrite value_str_or by done. cbn [Json.prim_of Field.convert nullish to_str]. rewrite path_keeps by done. by rewrite decide_False. }
  f_equal. exact IH.
Qed.

Lemma entries_written cs vss : NoDup (names cs) -> Forall (Forall2 keeps cs) vss ->
  Rss.entries cs (Table.mk (shown cs <$> vss) None false) = Json.JArr (stored cs <$> vss).
Proof.
  intros Hn H. unfold Rss.entries. cbn [Table.rows]. f_equal. induction H as [|vs vss Hk _ IH]; [done|]. cbn [fmap list_fmap].
  rewrite entry_written by done. f_equal. exact IH.
Qed.

#[global, refine] Instance autoadd_settings : Settings AutoAdd.fields AutoAdd.edit := {
  settings := bool * Z * list folder;
  encode '(on, n, ds) := [("enabled", jbool on); ("interval", jint n);
    ("watchdirs", Json.JArr (stored AutoAdd.columns <$> (folder_values <$> ds)))];
  fits _ '(_, n, ds) := (0 < n < 2 ^ 52)%Z /\ Forall folder_ok ds
}.
Proof.
  intros [[on n] ds] o f [Hn Hds] _ Ho.
  assert (G : forall k v, oget k o = Some v -> Json.get k o = v) by (intros k v Hv; unfold Json.get; by rewrite Hv).
  cbn [load AutoAdd.page]. unfold AutoAdd.load. change (Json.dict_of (Json.JObj o)) with (Some o). cbn [mbind option_bind].
  rewrite (G "enabled" _ (Ho "enabled" _ eq_refl)), (G "interval" _ (Ho "interval" _ eq_refl)), (G "watchdirs" _ (Ho "watchdirs" _ eq_refl)).
  rewrite table_read by (apply folder_columns || (apply Forall_fmap; eapply Forall_impl; [exact Hds|exact folder_keeps])).
  cbn [mbind option_bind]. eexists. split; [reflexivity|]. eapply shown_written; [exact Ho|].
  cbn [apply AutoAdd.page snd]. unfold AutoAdd.onApply.
  cbn [AutoAdd.enabled AutoAdd.interval AutoAdd.watchdirs Table.loadData Table.rows]. rewrite folders_written by done.
  change (give (Json.value (jint n) ?v) ?g) with (NumberField.setValue (pint n) g). rewrite give_number by lia.
  unfold Checkbox.setValue. cbn [fst Checkbox.getValue Checkbox.checked Checkbox.is_checked]. by rewrite is_true_bool.
Defined.

#[global, refine] Instance rss_settings tr : @Settings _ _ (Rss.page tr) := {
  settings := bool * Z * list feed * list rule;
  encode '(on, n, fs, rs) := [("enabled", jbool on); ("interval", jint n);
    ("feeds", Json.JArr (stored Rss.feed_columns <$> (feed_values <$> fs)));
    ("rules", Json.JArr (stored Rss.rule_columns <$> (rule_stored <$> rs)))];
  fits _ '(_, n, fs, rs) := (0 < n < 2 ^ 52)%Z /\ Forall feed_ok fs /\ Forall rule_ok rs
}.
Proof.
  intros [[[on n] fs] rs] o f (Hn & Hfs & Hrs) _ Ho.
  assert (G : forall k v, oget k o = Some v -> Json.get k o = v) by (intros k v Hv; unfold Json.get; by rewrite Hv).
  assert (Forall (Forall2 keeps Rss.feed_columns) (feed_values <$> fs)) as Kf
    by (apply Forall_fmap; eapply Forall_impl; [exact Hfs|exact feed_keeps]).
  assert (Forall (Forall2 keeps Rss.rule_columns) (rule_stored <$> rs)) as Kr
    by (apply Forall_fmap; eapply Forall_impl; [exact Hrs|exact rule_keeps]).
  cbn [load Rss.page]. unfold Rss.load. change (Json.dict_of (Json.JObj o)) with (Some o). cbn [mbind option_bind].
  rewrite (G "enabled" _ (Ho "enabled" _ eq_refl)), (G "interval" _ (Ho "interval" _ eq_refl)), (G "feeds" _ (Ho "feeds" _ eq_refl)), (G "rules" _ (Ho "rules" _ eq_refl)).
  rewrite !table_read by (done || apply folder_columns).
  cbn [mbind option_bind]. eexists. split; [reflexivity|]. eapply shown_written; [exact Ho|].
  cbn [apply Rss.page snd]. unfold Rss.onApply. cbn [Rss.enabled Rss.interval Rss.feeds Rss.rules].
  change (Rss.entries ?cs (Table.loadData ?l ?t)) with (Rss.entries cs (Table.mk l None false)).
  rewrite !entries_written by (done || apply folder_columns).
  cbn [Json.number]. rewrite number_int by (unfold safe; lia). rewrite give_number by lia.
  unfold Checkbox.setValue. cbn [fst Checkbox.getValue Checkbox.checked Checkbox.is_checked]. by rewrite is_true_bool.
Defined.

(** The watched folders, and the feeds with their rules, are written
    back as they were read when nothing is edited, however often their page is
    shown in between. *)
Theorem lists_write_back tr : @writes_back _ _ AutoAdd.page _ /\ @writes_back _ _ (Rss.page tr) _.
Proof. split; apply settings_write_back. Qed.

(** A page that was shown but not answered yet, or could not read,
    empties the watched folders, the feeds and the rules. *)
Theorem unread_lists_emptied tr :
  @overwrites _ _ AutoAdd.page [("enabled", jbool false); ("interval", jint 5); ("watchdirs", Json.JArr [])] /\
  @overwrites _ _ (Rss.page tr) [("enabled", jbool false); ("interval", jint 30); ("feeds", Json.JArr []); ("rules", Json.JArr [])].
Proof. split; apply overwrites_made; vm_compute; reflexivity. Qed.

#[export] Instance autoadd_guarded : Guarded AutoAdd.fields AutoAdd.edit.
Proof. constructor. by intros e f f' ss [= <- <-]. Qed.
#[export] Instance rss_guarded tr : @Guarded _ _ (Rss.page tr).
Proof. constructor. intros e f f' ss. cbn. destruct (Rss.change tr e f); [|done]. by intros [= <- <-]. Qed.

(** ** What a grid holds *)

#[export] Instance ftype_eq_dec : EqDecision Field.ftype.
Proof. solve_decision. Defined.

Section typed.
Implicit Types (cs : list Table.column) (r : obj prim) (t : Table.state).

(** A value of a column's type; the columns whose editor gives such values; and
    rows of them. *)
Definition typed (ty : Field.ftype) (p : prim) : bool :=
  match ty, p with Field.BOOL, PBool _ | Field.STRING, PStr _ => true | _, _ => false end.
Definition column_ok (c : Table.column) : bool :=
  match Table.type c with Field.BOOL | Field.STRING => true | _ => false end &&
  match Table.edited c with
  | Some Table.Check => bool_decide (Table.type c = Field.BOOL)
  | Some _ => bool_decide (Table.type c = Field.STRING)
  | None => true
  end.
Definition row_typed cs r : Prop := Forall (fun c => typed (Table.type c) (Table.get (Table.name c) r) = true) cs.
Definition table_typed cs t : Prop := Forall (row_typed cs) (Table.rows t).
Definition columns_ok cs : Prop := NoDup (names cs) /\ forallb column_ok cs = true.

Lemma column_at cs c : columns_ok cs -> c ∈ cs -> column_ok c = true.
Proof. intros [_ H] Hc. rewrite forallb_forall in H. apply H. by apply list_elem_of_In. Qed.

Lemma converted c v : column_ok c = true -> typed (Table.type c) (Field.convert (Table.type c) v) = true.
Proof.
  unfold column_ok. destruct (Table.type c); try done. intros _. unfold Field.convert, typed. by destruct (nullish v).
Qed.

Lemma row_of_typed cs e r : columns_ok cs -> Table.row_of cs e = Some r -> row_typed cs r.
Proof.
  intros Hc Hr. apply mapM_Some in Hr. pose proof (Forall2_length _ _ _ Hr) as Hl.
  assert (r = zip (names cs) r.*2) as Er.
  { clear Hc Hl. unfold names. induction Hr as [|c [k p] cs r Hcell _ IH]; [done|]. cbn. rewrite <- IH. f_equal.
    unfold Table.cell in Hcell. destruct (Json.prop _ _); [|done]. by injection Hcell as <- _. }
  assert (Forall2 (fun c p => oget (Table.name c) r = Some p) cs r.*2) as Hg.
  { pose proof (zip_oget cs r.*2 (proj1 Hc)) as H. rewrite <- Er in H. apply H. by rewrite length_fmap. }
  apply Forall_lookup. intros i c Hi. destruct (lookup_lt_is_Some_2 r i) as [[k p] Hp].
  { rewrite <- Hl. by eapply lookup_lt_Some. }
  assert (r.*2 !! i = Some p) as Hp2 by (by rewrite list_lookup_fmap, Hp).
  unfold Table.get. rewrite (Forall2_lookup_lr _ _ _ _ _ _ Hg Hi Hp2). cbn.
  pose proof (Forall2_lookup_lr _ _ _ _ _ _ Hr Hi Hp) as Hcell. unfold Table.cell in Hcell.
  destruct (Json.prop _ _); [|done]. injection Hcell as <- <-. apply converted. eapply column_at; [done|].
  by eapply list_elem_of_lookup_2.
Qed.

Lemma rows_of_typed cs e rs : columns_ok cs -> Table.rows_of cs e = Some rs -> Forall (row_typed cs) rs.
Proof.
  intros Hc. unfold Table.rows_of. destruct (Json.or _ _) as [|l|]; [done| |done]. intros H%mapM_Some.
  induction H as [|x r l rs Hr _ IH]; constructor; [by eapply row_of_typed|done].
Qed.

Lemma takes_typed c ed v : column_ok c = true -> Table.edited c = Some ed -> Table.takes ed v = true -> typed (Table.type c) v = true.
Proof.
  unfold column_ok. intros [_ Hc]%andb_true_iff He Hv. rewrite He in Hc.
  destruct ed, v; try done; by apply bool_decide_eq_true in Hc as ->.
Qed.

Lemma handle_typed cs new e t :
  columns_ok cs -> row_typed cs new -> table_typed cs t -> table_typed cs (Table.handle cs new e t).
Proof.
  intros Hc Hn Ht. destruct e as [| |i|i k v]; cbn [Table.handle]; unfold table_typed.
  - cbn. apply Forall_app. by split; [|repeat constructor].
  - unfold Table.remove. destruct (Table.selected t); [|done]. cbn. by apply Forall_delete.
  - unfold Table.selectRow. by case_decide.
  - unfold Table.edit. destruct (List.find _ cs) as [c|] eqn:Hf; [|done].
    apply List.find_some in Hf as [Hin Hk%bool_decide_eq_true]. apply list_elem_of_In in Hin. subst k.
    destruct (Table.edited c) as [ed|] eqn:He; [|done]. destruct (Table.takes ed v) eqn:Hv; [|done].
    pose proof (takes_typed c ed v (column_at _ _ Hc Hin) He Hv) as Hty.
    unfold Table.onEditComplete. destruct (Table.rows t !! i) as [r|] eqn:Hi; [|done]. case_decide; [done|]. cbn.
    apply Forall_insert; [done|]. pose proof (Forall_lookup_1 _ _ _ _ Ht Hi) as Hr.
    apply Forall_forall. intros c' Hc'. unfold Table.get. rewrite oget_oset. case_decide as E.
    + cbn. assert (c' = c) as ->; [|done]. destruct Hc as [Hnd _].
      apply list_elem_of_lookup in Hin as [a Ha]. apply list_elem_of_lookup in Hc' as [b Hb].
      assert (names cs !! a = Some (Table.name c)) as Ha' by (unfold names; by rewrite list_lookup_fmap, Ha).
      assert (names cs !! b = Some (Table.name c)) as Hb' by (unfold names; rewrite list_lookup_fmap, Hb; cbn; congruence).
      pose proof (NoDup_lookup _ _ _ _ Hnd Ha' Hb') as ->. congruence.
    + unfold row_typed in Hr. rewrite Forall_forall in Hr. by apply Hr.
Qed.
End typed.

(** The watched folders a page writes *)
Definition folder_written (e : Json.json) : Prop :=
  match e with
  | Json.JObj o =>
      o.*1 = names AutoAdd.columns /\
      Forall2 (fun c kv => exists p, kv.2 = Json.JPrim p /\ typed (Table.type c) p = true) AutoAdd.columns o /\
      exists s, oget "path" o = Some (jstr s) /\ s <> "" /\ trim s = s
  | _ => False
  end.

Lemma autoadd_columns_ok : columns_ok AutoAdd.columns.
Proof. split; [apply folder_columns|done]. Qed.

Lemma columns_write :
  Forall (fun c => forall p, typed (Table.type c) p = true ->
    exists q, Table.write c p = Json.JPrim q /\ typed (Table.type c) q = true) AutoAdd.columns.
Proof.
  repeat (apply Forall_cons; split); try done; intros p Hp; destruct p; try done; cbn;
    try case_bool_decide; cbn; by eexists.
Qed.

Lemma watchdir_written r e : row_typed AutoAdd.columns r -> AutoAdd.watchdir r = Some e -> folder_written e.
Proof.
  intros Hr. unfold AutoAdd.watchdir. case_decide as Hp; [done|]. intros H. apply (inj Some) in H. subst e. unfold folder_written. split; [done|]. split.
  - unfold Table.entry. apply Forall2_fmap_r, Forall_Forall2_diag. eapply Forall_impl.
    { apply Forall_and. split; [exact Hr|exact columns_write]. }
    cbn. intros c [Hc Hw]. by apply Hw.
  - eexists. split; [reflexivity|]. split; [exact Hp|]. apply str_trim_idemp.
Qed.

(** Whatever is read, typed and clicked, every watched folder that is
    written has all the settings of one, each a box or a text as it should be,
    with a path that is not blank. *)
Theorem folders_written_typed es p os s :
  Pages.steps (F := AutoAdd.fields) Pages.create es = Some (p, os) -> s ∈ Pages.written os ->
  exists l, oget "watchdirs" s = Some (Json.JArr l) /\ Forall folder_written l.
Proof.
  intros Hs. enough (table_typed AutoAdd.columns (AutoAdd.watchdirs (Pages.fields p)) /\
    Forall (fun s => exists l, oget "watchdirs" s = Some (Json.JArr l) /\ Forall folder_written l) (Pages.written os)) as [_ H].
  { rewrite Forall_forall in H. apply H. }
  revert es p os Hs. refine (run_ind (Pages.step (F := AutoAdd.fields)) (fun p _ os =>
    table_typed AutoAdd.columns (AutoAdd.watchdirs (Pages.fields p)) /\
    Forall (fun s => exists l, oget "watchdirs" s = Some (Json.JArr l) /\ Forall folder_written l) (Pages.written os)) _ _ _).
  - split; constructor.
  - intros es [f l n] os1 e p2 os2 _ [Ht Hw] Hst. rewrite written_app, Forall_app. cbn [Pages.fields] in Ht.
    destruct e as [|settings| | |ed]; cbn [Pages.step] in Hst.
    + unfold Pages.onPageShow in Hst. cbn [Pages.loaded Pages.fields] in Hst. destruct l; injection Hst as <- <-; by repeat split; [..|constructor].
    + destruct n as [|n]; [done|]. cbn in Hst. unfold Pages.onGotConfig in Hst. cbn in Hst. unfold AutoAdd.load in Hst.
      destruct (Json.dict_of settings) as [o|]; [|done]. cbn in Hst.
      destruct (Table.rows_of _ _) as [rs|] eqn:Hrs; [|done]. injection Hst as <- <-.
      split; [|split; [done|constructor]]. cbn. by eapply rows_of_typed, Hrs; apply autoadd_columns_ok.
    + destruct n as [|n]; [done|]. injection Hst as <- <-. by repeat split; [..|constructor].
    + unfold Pages.onApply in Hst. cbn [Pages.loaded Pages.fields] in Hst. destruct l; injection Hst as <- <-; [|by repeat split; [..|constructor]].
      split; [done|]. split; [done|]. cbn. constructor; [|constructor]. eexists. split; [reflexivity|].
      apply Forall_forall. intros e (r & Hr & He)%list_elem_of_omap. eapply watchdir_written; [|exact He].
      unfold table_typed in Ht. rewrite Forall_forall in Ht. by apply Ht.
    + unfold Pages.onEvent in Hst. cbn in Hst. injection Hst as <- <-. split; [|split; [done|constructor]].
      destruct ed as [b|t|e]; [done|done|]. apply handle_typed; [apply autoadd_columns_ok| |done].
      by repeat constructor.
Qed.

Definition folder_events : list (Pages.event AutoAdd.edit) :=
  [Pages.Show; Pages.Answered (Json.JObj [("watchdirs", Json.JArr [Json.JObj [("path", jstr "/in"); ("label", jint 3)]])]);
   Pages.Do (AutoAdd.Dirs Table.Add); Pages.Do (AutoAdd.Dirs (Table.EditCell 1 "path" (PStr " ")));
   Pages.Do (AutoAdd.Dirs (Table.EditCell 0 "add_paused" (PBool true))); Pages.Apply].

Lemma folders_written_typed_witness :
  exists p os s, Pages.steps (F := AutoAdd.fields) Pages.create folder_events = Some (p, os) /\
    s ∈ Pages.written os /\ exists l, oget "watchdirs" s = Some (Json.JArr l) /\ Forall folder_written l.
Proof.
  eexists _, _, _. split; [vm_compute; reflexivity|]. split; [by left|].
  eapply (folders_written_typed folder_events); [vm_compute; reflexivity|by left].
Defined.

(** ** The test of a feed *)

(** A feed that was added stays unapplied for the test after it was applied, and
    a rule that was removed does not count as a change: what is counted is what
    was ever edited in the two grids. *)
Lemma apply_stays_dirty tr p p' os :
  Pages.step (F := Rss.fields) (H := Rss.page tr) p Pages.Apply = Some (p', os) -> Rss.dirty (Pages.fields p') = Rss.dirty (Pages.fields p).
Proof. destruct p as [f [] n]; by intros [= <- _]. Qed.

Lemma remove_not_dirty tr f e f' :
  e ∈ [Rss.Feeds Table.Remove; Rss.Rules Table.Remove] -> Rss.change tr e f = Some f' -> Rss.dirty f' = Rss.dirty f.
Proof.
  intros He. assert (forall t, Table.modified (Table.remove t) = Table.modified t) as Hm.
  { intros t. unfold Table.remove. by destruct (Table.selected t). }
  apply elem_of_cons in He as [->|He]; [|apply list_elem_of_singleton in He as ->]; intros [= <-]; unfold Rss.dirty;
    cbn [Table.handle Rss.feeds Rss.rules]; by rewrite Hm.
Qed.
