(* ===== verification/Watching.v ===== *)
(** * Windows that refresh themselves

    What the three windows that ask the daemon again on an interval have in
    common, as a class, and the one that shows a tracker
    ([TrackerInfoWindow.js]), what the daemon did on its own
    ([ActivityWindow.js]), and the peers it remembers ([PeersWindow.js]). *)

From stdpp Require Import base list strings.
From Stdlib Require Import Lia ZArith.
From S2P Require Import Prelude JsNum JsString JsValue Integers ExtCore Fields Settings Formatters SortTypes Selection.

Local Open Scope nat_scope.

(** ** The class *)

(** What is shown ([S]), what it is shown for ([H]), the question asked of the
    daemon ([Q]), its answers ([A]) and the window's other handlers ([E]), which
    may do something outside ([O]) and ask again.  [shows_again] says whether
    showing a window that is shown starts it over. *)
Class Watch (S H Q A E O : Type) := {
  initial : S;
  shows_again : bool;
  on_show : H -> S -> S * list O;
  question : S -> option Q;
  answered : option A -> S -> S;
  handle : bool -> E -> S -> option (S * list O * bool)
}.

Module Watching.
Section watch.
Context {S H Q A E O : Type} `{Watch S H Q A E O}.

(** The window, with the interval in [timer], those that run, and the questions
    in flight. *)
Record state := mk {
  inner : S; visible : bool; timer : option nat; timers : list nat; next : nat; flight : list Q
}.
Definition create : state := mk initial false None [] 0 [].
Inductive event := Show (h : H) | Hide | Tick (t : nat) | Refresh | Answered (i : nat) (a : option A) | Do (e : E).
Inductive output := Asked (q : Q) | Did (o : O).

Definition with_inner (x : S) (w : state) : state := mk x (visible w) (timer w) (timers w) (next w) (flight w).

(** [load] *)
Definition load (w : state) : state * list output :=
  match question (inner w) with
  | Some q => (mk (inner w) (visible w) (timer w) (timers w) (next w) (flight w ++ [q]), [Asked q])
  | None => (w, [])
  end.

(** [stopTimer], or [stopPolling], and [startTimer] *)
Definition stopTimer (w : state) : state :=
  match timer w with
  | Some t => mk (inner w) (visible w) None (List.filter (fun u => negb (bool_decide (u = t))) (timers w)) (next w) (flight w)
  | None => w
  end.
Definition startTimer (w : state) : state :=
  let w := stopTimer w in
  mk (inner w) (visible w) (Some (next w)) (next w :: timers w) (1 + next w) (flight w).

(** [show], with [onShown] *)
Definition show (h : H) (w : state) : state * list output :=
  if visible w && negb shows_again then (w, [])
  else
    let '(x, os) := on_show h (inner w) in
    let '(w, os') := load (mk x true (timer w) (timers w) (next w) (flight w)) in
    (startTimer w, map Did os ++ os').

(** [hide], and what follows it *)
Definition hide (w : state) : state :=
  if visible w then stopTimer (mk (inner w) false (timer w) (timers w) (next w) (flight w)) else w.

Definition step (w : state) (e : event) : option (state * list output) :=
  match e with
  | Show h => Some (show h w)
  | Hide => Some (hide w, [])
  | Tick t => if bool_decide (t ∈ timers w) then Some (load w) else None
  | Refresh => if visible w then Some (load w) else None
  | Answered i a =>
      _ ← flight w !! i;
      let w := mk (inner w) (visible w) (timer w) (timers w) (next w) (delete i (flight w)) in
      Some (if visible w then with_inner (answered a (inner w)) w else w, [])
  | Do e =>
      '(x, os, again) ← handle (visible w) e (inner w);
      let w := with_inner x w in
      let '(w, os') := if again : bool then load w else (w, []) in Some (w, map Did os ++ os')
  end.
Definition steps : state -> list event -> option (state * list output) := run step.

(** One interval runs while the window is shown, and none while it is hidden. *)
Definition timer_ok (w : state) : Prop :=
  Forall (fun t => t < next w) (timers w) /\
  if visible w then exists t, timer w = Some t /\ timers w = [t] else timer w = None /\ timers w = [].
End watch.
End Watching.
Arguments Watching.state : clear implicits.
Arguments Watching.event : clear implicits.
Arguments Watching.output : clear implicits.

Section watch.
Context {S H Q A E O : Type} `{Watch S H Q A E O}.
Implicit Types (w : Watching.state S Q).

Lemma load_same w :
  Watching.visible (Watching.load w).1 = Watching.visible w /\ Watching.timer (Watching.load w).1 = Watching.timer w /\
  Watching.timers (Watching.load w).1 = Watching.timers w /\ Watching.next (Watching.load w).1 = Watching.next w /\
  Watching.inner (Watching.load w).1 = Watching.inner w.
Proof. unfold Watching.load. by destruct (question _). Qed.

Lemma inner_stop w : Watching.inner (Watching.stopTimer w) = Watching.inner w.
Proof. unfold Watching.stopTimer. by destruct (Watching.timer w). Qed.
Lemma inner_start w : Watching.inner (Watching.startTimer w) = Watching.inner w.
Proof. apply inner_stop. Qed.
Lemma inner_hide w : Watching.inner (Watching.hide w) = Watching.inner w.
Proof. unfold Watching.hide. destruct (Watching.visible w); [by rewrite inner_stop|done]. Qed.

Lemma timer_ok_same w w' :
  Watching.visible w' = Watching.visible w -> Watching.timer w' = Watching.timer w ->
  Watching.timers w' = Watching.timers w -> Watching.next w' = Watching.next w -> Watching.timer_ok w -> Watching.timer_ok w'.
Proof. unfold Watching.timer_ok. by intros -> -> -> ->. Qed.

Lemma timer_ok_load w : Watching.timer_ok w -> Watching.timer_ok (Watching.load w).1.
Proof. destruct (load_same w) as (H1 & H2 & H3 & H4 & _). by apply timer_ok_same. Qed.

Lemma stop_stops w : Watching.timer_ok w -> Watching.timers (Watching.stopTimer w) = [] /\ Watching.timer (Watching.stopTimer w) = None.
Proof.
  unfold Watching.timer_ok, Watching.stopTimer. intros [_ Ht]. destruct (Watching.visible w).
  - destruct Ht as (t & -> & ->). cbn. rewrite bool_decide_true by done. split; reflexivity.
  - destruct Ht as [E1 E2]. rewrite E1. by split.
Qed.

Lemma start_starts w b :
  Watching.timer_ok (Watching.mk (Watching.inner w) b (Watching.timer w) (Watching.timers w) (Watching.next w) (Watching.flight w)) ->
  Watching.visible w = true -> Watching.timer_ok (Watching.startTimer w).
Proof.
  intros Ht Hv. apply stop_stops in Ht.
  assert (Watching.timers (Watching.stopTimer w) = []) as Et by (revert Ht; unfold Watching.stopTimer; cbn; by destruct (Watching.timer w); intros []).
  unfold Watching.startTimer, Watching.timer_ok. cbn. rewrite Et.
  assert (Watching.visible (Watching.stopTimer w) = true) as -> by (unfold Watching.stopTimer; by destruct (Watching.timer w)).
  split; [repeat constructor|eauto]. 
Qed.

Lemma watch_step w e w' os : Watching.step w e = Some (w', os) -> Watching.timer_ok w -> Watching.timer_ok w'.
Proof.
  intros Hs Ht. destruct e as [h| |t| |i a|e]; cbn in Hs.
  - injection Hs as Hs. unfold Watching.show in Hs. destruct (Watching.visible w && negb shows_again).
    + by injection Hs as <- <-.
    + destruct (on_show h (Watching.inner w)) as [x os1].
      set (w1 := Watching.mk x true _ _ _ _) in Hs. destruct (load_same w1) as (H1 & H2 & H3 & H4 & _).
      destruct (Watching.load w1) as [w2 os2]. cbn in H1, H2, H3, H4. injection Hs as <- <-.
      apply (start_starts w2 (Watching.visible w)); [|done]. eapply timer_ok_same; [..|exact Ht]; done.
  - injection Hs as <- <-. unfold Watching.hide. destruct (Watching.visible w) eqn:Hv; [|done].
    set (w1 := Watching.mk _ false _ _ _ _).
    assert (Watching.timers (Watching.stopTimer w1) = [] /\ Watching.timer (Watching.stopTimer w1) = None) as [E1 E2].
    { destruct (stop_stops w Ht) as [E1 E2]. unfold Watching.stopTimer, w1 in *. cbn. by destruct (Watching.timer w). }
    unfold Watching.timer_ok. rewrite E1, E2.
    assert (Watching.visible (Watching.stopTimer w1) = false) as -> by (unfold Watching.stopTimer, w1; cbn; by destruct (Watching.timer w)).
    done.
  - case_bool_decide; [|done]. injection Hs as Hs. pose proof (timer_ok_load w Ht). by rewrite Hs in *.
  - destruct (Watching.visible w); [|done]. injection Hs as Hs. pose proof (timer_ok_load w Ht). by rewrite Hs in *.
  - destruct (Watching.flight w !! i); [|done]. cbn in Hs. injection Hs as <- <-.
    destruct (Watching.visible w) eqn:Hv; (eapply timer_ok_same; [..|exact Ht]; done).
  - destruct (handle _ e _) as [[[x os1] again]|]; [|done]. cbn in Hs.
    assert (Watching.timer_ok (Watching.with_inner x w)) as Ht' by (eapply timer_ok_same; [..|exact Ht]; done).
    destruct again; [|by injection Hs as <- <-]. pose proof (timer_ok_load _ Ht').
    destruct (Watching.load _) as [w2 os2]. by injection Hs as <- <-.
Qed.

Lemma watch_timer es w os : Watching.steps Watching.create es = Some (w, os) -> Watching.timer_ok w.
Proof.
  revert es w os. apply (run_ind Watching.step (fun w _ _ => Watching.timer_ok w)).
  - by split.
  - intros es w os e w' os' _ IH Hs. by eapply watch_step.
Qed.

(** What a window promises over any events: exactly one interval while it is
    shown and none while it is hidden; each time it goes off it asks the window's
    question; and an answer that comes while it is hidden changes nothing. *)
Definition watches : Prop :=
  forall es w os, Watching.steps Watching.create es = Some (w, os) ->
  (if Watching.visible w then exists t, Watching.timers w = [t] else Watching.timers w = []) /\
  (forall t, is_Some (Watching.step w (Watching.Tick t)) <-> t ∈ Watching.timers w) /\
  (forall t w' os', Watching.step w (Watching.Tick t) = Some (w', os') ->
     os' = match question (Watching.inner w) with Some q => [Watching.Asked q] | None => [] end) /\
  (forall i a w' os', Watching.visible w = false -> Watching.step w (Watching.Answered i a) = Some (w', os') ->
     Watching.inner w' = Watching.inner w /\ os' = []).

Lemma all_watch : watches.
Proof.
  intros es w os Hs. apply watch_timer in Hs as [_ Ht]. split; [|split; [|split]].
  - destruct (Watching.visible w); [|by destruct Ht]. destruct Ht as (t & _ & ->). eauto.
  - intros t. cbn. case_bool_decide; split; intros Hx; [done|by eexists|by destruct Hx|done].
  - intros t w' os'. cbn. case_bool_decide; [|done]. unfold Watching.load. destruct (question _); by intros [= <- <-].
  - intros i a w' os' Hv. cbn. destruct (Watching.flight w !! i); [|done]. cbn. rewrite Hv. by intros [= <- <-].
Qed.
End watch.
