(* ===== verification/TrackerInfo.v ===== *)
(** * Deluge.TrackerInfoWindow

    What a tracker is doing: a summary of its domain and a tab for each announce
    address, drawn from the daemon's answer each time the window asks. *)

From stdpp Require Import base list strings.
From Stdlib Require Import Lia ZArith.
From S2P Require Import Prelude JsNum JsString JsValue Integers ExtCore Fields Settings Formatters SortTypes Selection Watching.

Local Open Scope nat_scope.

Module TrackerInfo.

(** What the daemon says of a domain or of one address, and an answer. *)
Record entry := {
  host : string; url : string; health : string; message : string; updating : bool;
  failing : num; working : num; fails : num;
  tier : num; torrents : num; announcing : num; seeds : num; peers : num; next_announce : num;
  size : num; downloaded : num; uploaded : num; unregistered : num; states : option (obj num)
}.
Record info := { domain : entry; trackers : list entry }.

(** A tab, and the window: [host], the title, and the tabs with the active one. *)
Record tab := mkt { title : string; trackerUrl : option string; html : string }.
Record window := mk { shown_host : option string; caption : string; tabs : list tab; active : nat }.

Section draw.
(** The translation *)
Context (tr : string -> string).

(** [x || 0] of a number, and its text *)
Definition or_0 (n : num) : num := if truthy (PNum n) then n else of_Z 0.
Definition count (n : num) : string := num_str (or_0 n).
Definition positive (n : num) : bool := truthy (PNum n).

(** Double quotes, written as single ones here *)
Definition q (s : string) : string := str_map (fun c => if decide (c = chr 39) then chr 34 else c) s.

(** [row], [code], [bad] and [quiet] *)
Definition encode (s : string) : string := to_str (Fmt.htmlEncode (PStr s)).
Definition row (label value : string) : string := "<tr><th>" +:+ encode label +:+ "</th><td>" +:+ value +:+ "</td></tr>".
Definition code (text : string) : string := (q "<span class='x-deluge-tracker-url'>") +:+ encode text +:+ "</span>".
Definition bad (text : string) : string := (q "<span class='x-deluge-tracker-bad'>") +:+ encode text +:+ "</span>".
Definition quiet (text : string) : string := (q "<span class='x-deluge-tracker-quiet'>") +:+ encode text +:+ "</span>".

(** [size]: zero is a size. *)
Definition size_text (bytes : num) : string :=
  let value := or_0 bytes in
  if num_ltb (of_Z 0) value then Fmt.size (PNum value) false else quiet (tr "nothing").

(** [transfer] *)
Definition ratio_of (down up : num) : string :=
  let ratio := if num_ltb (of_Z 0) down then to_fixed 3 (num_div up down) else tr "∞" in
  if num_leb down (of_Z 0) && num_leb up (of_Z 0) then "—" else ratio.
Definition transfer (e : entry) : string :=
  let down := or_0 (downloaded e) in
  let up := or_0 (uploaded e) in
  row (tr "Downloaded") (size_text down) +:+ row (tr "Uploaded") (size_text up) +:+ row (tr "Ratio") (ratio_of down up).

(** [STATE_ORDER] and [states] *)
Definition STATE_ORDER : list string :=
  ["Downloading"; "Seeding"; "Queued"; "Paused"; "Checking"; "Allocating"; "Moving"; "Error"].
Definition state_part (ss : obj num) (state : string) : string :=
  encode (tr state) +:+ " " +:+ match oget state ss with Some n => num_str n | None => "undefined" end.
Definition listed (ss : obj num) : list string :=
  List.filter (fun state => match oget state ss with Some n => positive n | None => false end) STATE_ORDER ++
  List.filter (fun state => negb (bool_decide (state ∈ STATE_ORDER))) (okeys ss).
Definition states_text (ss : option (obj num)) : string :=
  match ss with
  | None => quiet (tr "none")
  | Some ss => match listed ss with [] => quiet (tr "none") | l => join " &middot; " (map (state_part ss) l) end
  end.

(** [HEALTH] and [banner] *)
Definition HEALTH : obj (string * string) :=
  [("ok", ("Working", "ok")); ("warning", ("Trouble", "warning")); ("down", ("Down", "down"));
   ("unknown", ("Not contacted yet", "unknown"))].
Definition health_of (h : string) : string * string := default ("Not contacted yet", "unknown") (oget h HEALTH).
Definition detail (e : entry) : string :=
  if positive (failing e) then
    format (tr "{0} of {1} announces are failing") [num_str (failing e); num_str (num_add (failing e) (working e))] +:+
    (if num_ltb (of_Z 1) (fails e) then format (tr ", {0} tries deep") [num_str (fails e)] else "")
  else if updating e then tr "an announce is in flight" else "".
Definition block (cls text : string) : string :=
  if decide (text = "") then "" else (q "<div class='") +:+ cls +:+ (q "'>") +:+ encode text +:+ "</div>".
Definition banner (e : entry) (subject : string) : string :=
  (q "<div class='x-deluge-tracker-banner x-deluge-tracker-") +:+ (health_of (health e)).2 +:+ (q "'>") +:+
  (q "<span class='x-deluge-tracker-state'>") +:+ encode (tr (health_of (health e)).1) +:+ "</span>" +:+
  (q "<span class='x-deluge-tracker-subject'>") +:+ encode subject +:+ "</span>" +:+
  block "x-deluge-tracker-detail" (detail e) +:+ block "x-deluge-tracker-message" (message e) +:+ "</div>".

(** [titlesFor] *)
Definition seen (ts : list entry) : obj Z := foldl (fun s t => oset (host t) (default 0%Z (oget (host t) s) + 1)%Z s) [] ts.
Definition without_scheme (url : string) : string :=
  match str_find "://" url with Some i => str_drop (i + 3) url | None => url end.
Definition title_of (s : obj Z) (t : entry) : string :=
  if (default 0%Z (oget (host t) s) <? 2)%Z then if decide (host t = "") then tr "Unknown" else host t
  else without_scheme (url t).
Definition titlesFor (ts : list entry) : list string := map (title_of (seen ts)) ts.

(** [summaryPanel] and [trackerPanel] *)
Definition gone (e : entry) : string :=
  if positive (unregistered e)
  then row (tr "Unregistered") (bad (format (tr "{0} torrents this tracker no longer recognises") [num_str (unregistered e)]))
  else "".
Definition swarm (e : entry) : string := format (tr "{0} seeds, {1} peers") [count (seeds e); count (peers e)].
Definition table (rows : string) : string := (q "<table class='x-deluge-tracker-info'>") +:+ rows +:+ "</table>".
Definition summaryPanel (i : info) : tab :=
  let e := domain i in
  mkt (tr "Summary") None
    (banner e (format (tr "All of {0}") [host e]) +:+
     table (row (tr "Trackers") (num_str (of_Z (Z.of_nat (length (trackers i))))) +:+ row (tr "Torrents") (count (torrents e)) +:+
            row (tr "States") (states_text (states e)) +:+ row (tr "Swarm") (swarm e) +:+ row (tr "Size") (size_text (size e)) +:+
            transfer e +:+ gone e)).
Definition trackerPanel (e : entry) (title : string) : tab :=
  mkt title (Some (url e))
    (banner e (url e) +:+
     table (row (tr "URL") (code (url e)) +:+ row (tr "Tier") (count (tier e)) +:+
            row (tr "Torrents") (if num_eqb (torrents e) (announcing e) then count (torrents e)
                                 else format (tr "{0} listed, {1} announcing here") [count (torrents e); count (announcing e)]) +:+
            row (tr "States") (states_text (states e)) +:+
            row (tr "Swarm") (if positive (announcing e) then swarm e else quiet (tr "nothing announces here, so it has said nothing")) +:+
            row (tr "Next announce")
              (if positive (next_announce e) then default "" (Fmt.timeRemaining (PNum (next_announce e))) else quiet (tr "none due")) +:+
            row (tr "Size") (size_text (size e)) +:+ transfer e +:+ gone e)).

(** [show] *)
Definition message_tab (title text : string) : tab := mkt title None (encode text).
Definition show (h : string) (w : window) : window :=
  mk (Some h) (format (tr "Tracker Info: {0}") [h]) [message_tab (tr "Loading") (tr "Asking the daemon...")] 0.

(** [onFailure] and [onInfo], of a window that is shown *)
Definition onFailure (w : window) : window :=
  mk (shown_host w) (caption w) [message_tab (tr "Tracker") (tr "The daemon did not answer. It may not be connected.")] 0.
Definition wanted (w : window) : option string :=
  t ← tabs w !! active w; u ← trackerUrl t; if decide (u = "") then None else Some u.
Definition found (wanted : option string) (ts : list entry) : nat :=
  match wanted with
  | Some u => Ext.each ts (fun found t i => (if decide (url t = u) then i + 1 else found, true)) 0
  | None => 0
  end.
Definition onInfo (i : info) (w : window) : window :=
  mk (shown_host w) (caption w)
     (summaryPanel i :: zip_with trackerPanel (trackers i) (titlesFor (trackers i))) (found (wanted w) (trackers i)).

(** The window asks for the host it shows, if it has one; a tab can be opened. *)
Definition asks (w : window) : option string := h ← shown_host w; if decide (h = "") then None else Some h.
Definition activate (i : nat) (w : window) : window :=
  if decide (i < length (tabs w)) then mk (shown_host w) (caption w) (tabs w) i else w.

#[global] Instance watch : Watch window string string (option info) nat Empty_set := {
  initial := mk None (tr "Tracker Info") [] 0;
  shows_again := true;
  on_show h w := (show h w, []);
  question := asks;
  answered a w := match a with Some (Some i) => onInfo i w | Some None => w | None => onFailure w end;
  handle _ i w := Some (activate i w, [], false)
}.

(** The window from when it is made *)
Definition steps (es : list (Watching.event string (option info) nat)) :
    option (Watching.state window string * list (Watching.output string Empty_set)) :=
  Watching.steps (H0 := watch) (Watching.create (H0 := watch)) es.
End draw.
End TrackerInfo.

(** ** The tabs *)

Section tabs.
Context (tr : string -> string).
Implicit Types (ts : list TrackerInfo.entry) (t : TrackerInfo.entry).

(** How many of the addresses have a host *)
Definition hosts ts (h : string) : Z := Z.of_nat (length (filter (fun t => TrackerInfo.host t = h) ts)).

Lemma seen_counts ts h : default 0%Z (oget h (TrackerInfo.seen ts)) = hosts ts h.
Proof.
  unfold TrackerInfo.seen. induction ts as [|t ts IH] using rev_ind; [done|]. rewrite foldl_app. cbn [foldl].
  unfold hosts in *. rewrite filter_app, length_app, oget_oset. case_decide as E.
  - rewrite <- E, IH. rewrite (filter_cons_True (fun t' => TrackerInfo.host t' = h)) by done. cbn. rewrite E. lia.
  - rewrite IH, (filter_cons_False (fun t' => TrackerInfo.host t' = h)) by congruence. cbn. lia.
Qed.

Lemma hosts_twice_lt ts i j a b :
  ts !! i = Some a -> ts !! j = Some b -> i < j -> TrackerInfo.host a = TrackerInfo.host b -> (2 <= hosts ts (TrackerInfo.host a))%Z.
Proof.
  intros Hi Hj Hlt Eh. unfold hosts. rewrite <- (take_drop_middle ts i a Hi), filter_app, length_app.
  rewrite (filter_cons_True (fun t => TrackerInfo.host t = TrackerInfo.host a)) by done. cbn [length].
  assert (b ∈ filter (fun t => TrackerInfo.host t = TrackerInfo.host a) (drop (S i) ts)) as Hb.
  { apply list_elem_of_filter. split; [done|]. apply list_elem_of_lookup. exists (j - S i).
    rewrite lookup_drop. by replace (S i + (j - S i)) with j by lia. }
  destruct (filter _ (drop (S i) ts)); [by apply elem_of_nil in Hb|]. cbn. lia.
Qed.

Lemma hosts_twice ts i j a b :
  ts !! i = Some a -> ts !! j = Some b -> i <> j -> TrackerInfo.host a = TrackerInfo.host b -> (2 <= hosts ts (TrackerInfo.host a))%Z.
Proof.
  intros Hi Hj Hne Eh. destruct (decide (i < j)); [by eapply hosts_twice_lt|]. rewrite Eh.
  apply (hosts_twice_lt ts j i b a); [done|done|lia|done].
Qed.

(** An address as an announce address is: a host, and more than the host after
    the scheme. *)
Definition addressed t : Prop :=
  TrackerInfo.host t <> "" /\ str_has (chr 47) (TrackerInfo.host t) = false /\
  str_has (chr 47) (TrackerInfo.without_scheme (TrackerInfo.url t)) = true.

Lemma title_cases ts t : addressed t ->
  TrackerInfo.title_of tr (TrackerInfo.seen ts) t =
  if (hosts ts (TrackerInfo.host t) <? 2)%Z then TrackerInfo.host t else TrackerInfo.without_scheme (TrackerInfo.url t).
Proof. intros (H & _). unfold TrackerInfo.title_of. by rewrite seen_counts, (decide_False (P := TrackerInfo.host t = "")). Qed.

(** There is a tab for each address, and two of them share a title if
    and only if their addresses differ in their scheme alone. *)
Theorem titles_tell_apart ts i j a b :
  Forall addressed ts -> ts !! i = Some a -> ts !! j = Some b -> i <> j ->
  (TrackerInfo.without_scheme (TrackerInfo.url a) = TrackerInfo.without_scheme (TrackerInfo.url b) ->
   TrackerInfo.host a = TrackerInfo.host b) ->
  length (TrackerInfo.titlesFor tr ts) = length ts /\
  (TrackerInfo.titlesFor tr ts !! i = TrackerInfo.titlesFor tr ts !! j <->
   TrackerInfo.without_scheme (TrackerInfo.url a) = TrackerInfo.without_scheme (TrackerInfo.url b)).
Proof.
  intros Ht Hi Hj Hne Hh. rewrite Forall_forall in Ht.
  pose proof (Ht a (list_elem_of_lookup_2 _ _ _ Hi)) as Ha. pose proof (Ht b (list_elem_of_lookup_2 _ _ _ Hj)) as Hb.
  unfold TrackerInfo.titlesFor. rewrite length_map. split; [done|].
  change (map ?f ts) with (f <$> ts). rewrite !list_lookup_fmap, Hi, Hj. cbn [fmap option_fmap option_map].
  rewrite !title_cases by done. destruct Ha as (_ & Ha1 & Ha2), Hb as (_ & Hb1 & Hb2). split.
  - intros E. apply (inj Some) in E. revert E.
    destruct (Z.ltb_spec (hosts ts (TrackerInfo.host a)) 2), (Z.ltb_spec (hosts ts (TrackerInfo.host b)) 2); intros E; [| | |done].
    + pose proof (hosts_twice ts i j a b Hi Hj Hne E). lia.
    + rewrite E in Ha1. congruence.
    + rewrite <- E in Hb1. congruence.
  - intros E. pose proof (Hh E) as Eh. pose proof (hosts_twice ts i j a b Hi Hj Hne Eh) as H2. rewrite <- Eh.
    rewrite (proj2 (Z.ltb_ge _ _) H2). by rewrite E.
Qed.

(** The tabs of an answer, after the summary *)
Lemma info_tabs i w k t :
  TrackerInfo.trackers i !! k = Some t ->
  TrackerInfo.trackerUrl <$> TrackerInfo.tabs (TrackerInfo.onInfo tr i w) !! S k = Some (Some (TrackerInfo.url t)).
Proof.
  intros Hk.
  change (TrackerInfo.tabs (TrackerInfo.onInfo tr i w) !! S k)
    with (zip_with (TrackerInfo.trackerPanel tr) (TrackerInfo.trackers i) (TrackerInfo.titlesFor tr (TrackerInfo.trackers i)) !! k).
  rewrite lookup_zip_with, Hk. cbn [mbind option_bind]. unfold TrackerInfo.titlesFor. change (map ?f ?l) with (f <$> l).
  by rewrite list_lookup_fmap, Hk.
Qed.

(** The loop over the trackers keeps the last with the address. *)
Lemma found_spec u ts :
  TrackerInfo.found (Some u) ts = 0 /\ (forall t, t ∈ ts -> TrackerInfo.url t <> u) \/
  exists k t, TrackerInfo.found (Some u) ts = S k /\ ts !! k = Some t /\ TrackerInfo.url t = u.
Proof.
  unfold TrackerInfo.found, Ext.each.
  assert (forall start acc, 
    Ext.each_go start ts (fun found t i => (if decide (TrackerInfo.url t = u) then i + 1 else found, true)) acc = acc /\
      (forall t, t ∈ ts -> TrackerInfo.url t <> u) \/
    exists k t, Ext.each_go start ts (fun found t i => (if decide (TrackerInfo.url t = u) then i + 1 else found, true)) acc = S (start + k) /\
      ts !! k = Some t /\ TrackerInfo.url t = u) as H.
  { induction ts as [|t ts IH]; intros start acc.
    - left. split; [done|]. by intros t ?%elem_of_nil.
    - cbn [Ext.each_go]. destruct (IH (start + 1) (if decide (TrackerInfo.url t = u) then start + 1 else acc)) as [[-> Hn]|(k & t' & -> & Hk & Hu)].
      + case_decide as Hu; [right; exists 0, t; split; [lia|done]|left]. split; [done|].
        intros t' [->|Ht]%elem_of_cons; [done|by apply Hn].
      + right. exists (S k), t'. split; [lia|done]. }
  destruct (H 0 0) as [?|(k & t & -> & ?)]; [by left|right; eauto].
Qed.

(** An answer leaves the tab that was being read open, while its
    address is still there, and the summary otherwise. *)
Theorem reading_kept i w u :
  TrackerInfo.wanted w = Some u ->
  let w' := TrackerInfo.onInfo tr i w in
  if bool_decide (u ∈ TrackerInfo.url <$> TrackerInfo.trackers i)
  then TrackerInfo.trackerUrl <$> TrackerInfo.tabs w' !! TrackerInfo.active w' = Some (Some u)
  else TrackerInfo.active w' = 0 /\ TrackerInfo.tabs w' !! 0 = Some (TrackerInfo.summaryPanel tr i).
Proof.
  intros Hw w'. change (TrackerInfo.active w') with (TrackerInfo.found (TrackerInfo.wanted w) (TrackerInfo.trackers i)).
  rewrite Hw. destruct (found_spec u (TrackerInfo.trackers i)) as [[-> Hn]|(k & t & -> & Hk & Hu)].
  - rewrite bool_decide_false; [by split|]. intros (t & -> & Ht)%list_elem_of_fmap. by apply (Hn t).
  - rewrite bool_decide_true.
    + unfold w'. by rewrite (info_tabs i w k t Hk), Hu.
    + rewrite <- Hu. by apply list_elem_of_fmap_2, list_elem_of_lookup_2 with k.
Qed.
End tabs.

(** ** The markup *)

Section markup.
Context (tr : string -> string).
Implicit Types (e : TrackerInfo.entry).

(** The characters of a text that are markup *)
Definition tags (s : string) : string := str_filter is_markup s.

Lemma tags_app a b : tags (a +:+ b) = tags a +:+ tags b.
Proof.
  unfold tags. induction a as [|c a IH]; [done|]. rewrite str_app_cons. cbn [str_filter]. rewrite IH. by destruct (is_markup c).
Qed.

Lemma tags_none s : str_all (fun c => negb (is_markup c)) s = true -> tags s = "".
Proof.
  unfold tags. induction s as [|c s IH]; [done|]. cbn [str_all str_filter]. intros [Hc Hs]%andb_true_iff. rewrite IH by done.
  by destruct (is_markup c).
Qed.

Lemma tags_encode s : tags (TrackerInfo.encode s) = "".
Proof.
  apply tags_none. unfold TrackerInfo.encode, Fmt.htmlEncode. cbn [truthy to_str]. case_bool_decide as E; cbn [negb]; [by rewrite E|].
  apply str_flat_map_all. intros c.
  by apply (all_chars_spec (fun c => str_all (fun c => negb (is_markup c)) (Fmt.htmlEncodeReplaceFn c))).
Qed.

Lemma tags_block cls text : tags cls = "" ->
  tags (TrackerInfo.block cls text) = if decide (text = "") then "" else tags (TrackerInfo.q "<div class=''></div>").
Proof.
  intros Hc. unfold TrackerInfo.block. case_decide; [done|]. by rewrite !tags_app, Hc, tags_encode.
Qed.

Lemma tags_health h : tags (TrackerInfo.health_of h).2 = "".
Proof.
  unfold TrackerInfo.health_of, TrackerInfo.HEALTH. cbn [oget]. by repeat (case_decide; [done|]).
Qed.

(** Nothing a tracker says, and nothing in its name or its address,
    adds markup to its banner: the markup is that of the parts it has. *)
Theorem banner_markup e e' subject subject' :
  (TrackerInfo.detail tr e = "" <-> TrackerInfo.detail tr e' = "") ->
  (TrackerInfo.message e = "" <-> TrackerInfo.message e' = "") ->
  tags (TrackerInfo.banner tr e subject) = tags (TrackerInfo.banner tr e' subject').
Proof.
  intros Hd Hm. unfold TrackerInfo.banner. rewrite !tags_app, !tags_health, !tags_encode, !tags_block by done.
  by rewrite (decide_ext _ _ _ _ Hd), (decide_ext _ _ _ _ Hm).
Qed.
End markup.

(** ** Late answers *)

(** The answer for a tracker shown before is drawn under the name of
    the one shown now. *)
Theorem late_answer_shown tr a b i :
  a <> "" -> b <> "" ->
  exists w, TrackerInfo.steps tr
      [Watching.Show a; Watching.Show b; Watching.Answered 0 (Some (Some i))] =
    Some (w, [Watching.Asked a; Watching.Asked b]) /\
    TrackerInfo.caption (Watching.inner w) = format (tr "Tracker Info: {0}") [b] /\
    TrackerInfo.tabs (Watching.inner w) !! 0 = Some (TrackerInfo.summaryPanel tr i).
Proof.
  intros Ha Hb. unfold TrackerInfo.steps, Watching.steps, run.
  cbn [foldl mbind option_bind Watching.step]. unfold Watching.show. cbn [Watching.create Watching.visible andb negb on_show TrackerInfo.watch].
  unfold Watching.load at 1. cbn [question TrackerInfo.watch Watching.inner]. unfold TrackerInfo.asks at 1.
  cbn [TrackerInfo.show TrackerInfo.shown_host mbind option_bind]. rewrite decide_False by done.
  cbn -[format TrackerInfo.summaryPanel TrackerInfo.onInfo]. unfold Watching.load, TrackerInfo.asks. cbn -[format TrackerInfo.summaryPanel TrackerInfo.onInfo].
  rewrite decide_False by done. cbn -[format TrackerInfo.summaryPanel TrackerInfo.onInfo]. eexists. split; [reflexivity|].
  by split.
Qed.

(** ** Examples *)

Module TrackerInfoExamples.
Definition entry (host url : string) : TrackerInfo.entry :=
  {| TrackerInfo.host := host; TrackerInfo.url := url; TrackerInfo.health := "ok"; TrackerInfo.message := "<b>"; TrackerInfo.updating := true;
     TrackerInfo.failing := of_Z 0; TrackerInfo.working := of_Z 2; TrackerInfo.fails := of_Z 0; TrackerInfo.tier := of_Z 0;
     TrackerInfo.torrents := of_Z 2; TrackerInfo.announcing := of_Z 2; TrackerInfo.seeds := of_Z 5; TrackerInfo.peers := of_Z 1;
     TrackerInfo.next_announce := of_Z 90; TrackerInfo.size := of_Z 2048; TrackerInfo.downloaded := of_Z 0; TrackerInfo.uploaded := of_Z 0;
     TrackerInfo.unregistered := of_Z 0; TrackerInfo.states := Some [("Seeding", of_Z 2)] |}.
Definition http : TrackerInfo.entry := entry "t.example" "http://t.example:80/announce".
Definition udp : TrackerInfo.entry := entry "t.example" "udp://t.example:80/announce".
Definition other : TrackerInfo.entry := entry "u.example" "udp://u.example:80/announce".
Definition answer : TrackerInfo.info := {| TrackerInfo.domain := entry "example" ""; TrackerInfo.trackers := [http; udp; other] |}.
Definition reading : TrackerInfo.window := TrackerInfo.activate 2 (TrackerInfo.onInfo id answer (TrackerInfo.mk (Some "example") "" [] 0)).
End TrackerInfoExamples.

Lemma titles_tell_apart_witness :
  TrackerInfo.titlesFor id [TrackerInfoExamples.http; TrackerInfoExamples.udp; TrackerInfoExamples.other] =
    ["t.example:80/announce"; "t.example:80/announce"; "u.example"] /\
  TrackerInfo.titlesFor id [TrackerInfoExamples.http; TrackerInfoExamples.udp; TrackerInfoExamples.other] !! 0 =
  TrackerInfo.titlesFor id [TrackerInfoExamples.http; TrackerInfoExamples.udp; TrackerInfoExamples.other] !! 1.
Proof.
  split; [reflexivity|].
  apply (titles_tell_apart id [TrackerInfoExamples.http; TrackerInfoExamples.udp; TrackerInfoExamples.other] 0 1
    TrackerInfoExamples.http TrackerInfoExamples.udp).
  - repeat constructor; done.
  - done.
  - done.
  - done.
  - done.
  - done.
Defined.

Lemma reading_kept_witness :
  TrackerInfo.wanted TrackerInfoExamples.reading = Some "udp://t.example:80/announce" /\
  (let w' := TrackerInfo.onInfo id TrackerInfoExamples.answer TrackerInfoExamples.reading in
   TrackerInfo.trackerUrl <$> TrackerInfo.tabs w' !! TrackerInfo.active w' = Some (Some "udp://t.example:80/announce")).
Proof.
  split; [vm_compute; reflexivity|].
  exact (reading_kept id TrackerInfoExamples.answer TrackerInfoExamples.reading "udp://t.example:80/announce" eq_refl).
Defined.

Lemma banner_markup_witness :
  tags (TrackerInfo.banner id TrackerInfoExamples.http "<script>") = tags (TrackerInfo.banner id TrackerInfoExamples.udp "").
Proof. apply (banner_markup id TrackerInfoExamples.http TrackerInfoExamples.udp); vm_compute; done. Defined.

Lemma late_answer_shown_witness :
  exists w, TrackerInfo.steps id
      [Watching.Show "a.example"; Watching.Show "b.example"; Watching.Answered 0 (Some (Some TrackerInfoExamples.answer))] =
    Some (w, [Watching.Asked "a.example"; Watching.Asked "b.example"]) /\
    TrackerInfo.caption (Watching.inner w) = "Tracker Info: b.example".
Proof.
  destruct (late_answer_shown id "a.example" "b.example" TrackerInfoExamples.answer) as (w & H & Hc & _); [done|done|].
  exists w. by rewrite Hc.
Defined.
