(* ===== verification/Ledgers.v ===== *)
(** * What the daemon did, and the peers it remembers

    [ActivityWindow.js] and [PeersWindow.js], as windows of [Watching]. *)

From stdpp Require Import base list strings.
From Stdlib Require Import Lia ZArith.
From S2P Require Import Prelude JsNum JsString JsValue Integers ExtCore Fields Settings Formatters Collection SortTypes Selection Store Watching.

Local Open Scope nat_scope.

(** How long ago, below a day; [recent] is the least that is said as such. *)
Definition when (tr : string -> string) (tz : Z -> Z) (recent : Z) (now : num) (value : prim) : string :=
  let seconds := num_round (num_sub now (to_number value)) in
  if negb (truthy value) then ""
  else if num_ltb seconds (of_Z recent) then tr "just now"
  else if num_ltb seconds (of_Z 86400) then format (tr "{0} ago") [default "" (Fmt.timeRemaining (PNum seconds))]
  else Fmt.date tz value.

(** A record of a store without a type, from the values of its fields *)
Definition record (fields : list (string * Field.ftype)) (values : list Json.json) : obj prim :=
  zip_with (fun f v => (f.1, Field.convert f.2 (Json.prim_of v))) fields values.

(** ** Activity *)

Module Activity.
Section window.
Context (tr : string -> string) (tz : Z -> Z).

Definition fields : list (string * Field.ftype) :=
  [("time", Field.FLOAT); ("rule", Field.STRING); ("did", Field.STRING); ("name", Field.STRING); ("detail", Field.STRING)].

(** The rows made of the answer to [load] *)
Definition row (action : Json.dict) : list Json.json :=
  [Json.get "time" action; Json.get "rule" action; Json.get "did" action;
   Json.or (Json.or (Json.get "name" action) (Json.get "torrent_id" action)) (jstr ""); Json.or (Json.get "detail" action) (jstr "")].
Definition rows (actions : list Json.dict) : list (obj prim) := (fun a => record fields (row a)) <$> actions.

(** [renderWhen], [renderRule] and [renderDid] *)
Definition renderWhen : num -> prim -> string := when tr tz 5.
Definition RULES : obj string :=
  [("tracker", "Tracker"); ("label", "Label"); ("idle", "Idle"); ("disk", "Disk"); ("schedule", "Schedule"); ("ratio", "Ratio");
   ("feed", "Feed")].
Definition DID : obj string :=
  [("labelled", "Labelled"); ("moved", "Moved"); ("removed", "Removed"); ("paused", "Paused"); ("resumed", "Resumed");
   ("changed", "Changed"); ("limited", "Limited"); ("added", "Added")].
Definition named (names : obj string) (value : prim) : string :=
  match oget (to_str value) names with Some s => tr s | None => to_str (Fmt.htmlEncode value) end.
Definition renderRule : prim -> string := named RULES.
Definition renderDid : prim -> string := named DID.

(** The window holds its rows; it asks for the last 200 actions. *)
#[global] Instance watch : Watch (list (obj prim)) unit nat (option (list Json.dict)) Empty_set Empty_set := {
  initial := [];
  shows_again := false;
  on_show _ s := (s, []);
  question _ := Some 200;
  answered a _ := match a with Some a => rows (default [] a) | None => [] end;
  handle _ e _ := match e with end
}.
End window.
End Activity.

(** ** Peers *)

Module Peers.
Section window.
Context (tr : string -> string) (tz : Z -> Z).

(** A peer's record: what is shown of it, and [shared], the torrents it was seen
    in. *)
Record peer := mkp { cells : obj prim; shared : list Json.dict }.
Definition cell (k : string) (p : peer) : prim := pget k (cells p).
Definition address (p : peer) : string := to_str (cell "address" p).

Definition fields : list (string * Field.ftype) :=
  [("address", Field.STRING); ("client", Field.STRING); ("sent", Field.INT); ("received", Field.INT); ("ratio", Field.FLOAT);
   ("torrents", Field.INT); ("cross_seeds", Field.INT); ("last_seen", Field.FLOAT)].

(** A row of the answer: what it gave back is -1 where it never took anything. *)
Definition amount (v : Json.json) : num := let n := to_number (Json.prim_of v) in if truthy (PNum n) then n else of_Z 0.
Definition ratio (sent received : num) : num := if num_ltb (of_Z 0) sent then num_div received sent else of_Z (-1).
Definition seen_in (p : Json.dict) : list Json.dict :=
  match Json.get "torrents" p with Json.JArr l => omap (fun t => match t with Json.JObj o => Some o | _ => None end) l | _ => [] end.
Definition row (p : Json.dict) : peer :=
  let sent := amount (Json.get "sent" p) in
  let received := amount (Json.get "received" p) in
  mkp (record fields [Json.get "address" p; Json.or (Json.get "client" p) (jstr ""); jnum sent; jnum received; jnum (ratio sent received);
                      jint (Z.of_nat (length (seen_in p))); Json.get "cross_seeds" p; Json.get "last_seen" p])
      (seen_in p).

(** The order of the store: a field and whether it descends *)
Definition sort_type (k : string) : prim -> prim :=
  match List.find (fun f => bool_decide (f.1 = k)) fields with Some f => Field.type_sortType f.2 | None => ExtSort.none end.
Definition before (k : string) (desc : bool) (a b : nat * peer) : bool :=
  let v := (Store.compare_by (sort_type k) (cell k a.2) (cell k b.2) * (if desc then -1 else 1))%Z in
  if decide (v = 0)%Z then a.1 <=? b.1 else (v <? 0)%Z.
Definition arranged (k : string) (desc : bool) (ps : list peer) : list (nat * peer) := MC.isort (before k desc) (imap pair ps).
Definition sorted (k : string) (desc : bool) (ps : list peer) : list peer := (arranged k desc ps).*2.

(** The window: the peers in the order of the store, which is selected, the
    order, what was searched for, what is said of no peers, the panel under the
    grid, the settings, and how often they are being read. *)
Record window := mk {
  peers : list peer; selected : option nat; order : string * bool; query : option string;
  emptyWithout : option string; emptyText : string; detail : string;
  enabled : Checkbox.state; ttl : NumberField.state; reading : nat
}.
Inductive call := ReadSettings | WroteSettings (enabled : bool) (ttl_days : num).
Inductive event :=
  | SelectRow (i : nat) | SortBy (k : string) (desc : bool) | SearchKey (text : string) | ViewReady
  | Checked (b : bool) | Blurred (text : string) | Spun (down : bool) | GotConfig (settings : Json.json) | ConfigFailed.

Definition with_rows (ps : list peer) (sel : option nat) (d : string) (w : window) : window :=
  mk ps sel (order w) (query w) (emptyWithout w) (emptyText w) d (enabled w) (ttl w) (reading w).
Definition with_settings (e : Checkbox.state) (t : NumberField.state) (n : nat) (w : window) : window :=
  mk (peers w) (selected w) (order w) (query w) (emptyWithout w) (emptyText w) (detail w) e t n.

(** Double quotes, written as single ones here *)
Definition q (s : string) : string := str_map (fun c => if decide (c = chr 39) then chr 34 else c) s.
Definition encode (s : string) : string := to_str (Fmt.htmlEncode (PStr s)).

(** [emptyDetail] and [onPeerSelected] *)
Definition grey (text : string) : string := q "<span style='color: #888;'>" +:+ text +:+ "</span>".
Definition emptyDetail : string := grey (encode (tr "Pick a peer to see which of your torrents it was seen in.")).
Definition line (entry : Json.dict) : string :=
  let name := Json.str (Json.or (Json.or (Json.get "name" entry) (Json.get "hash" entry)) (jstr "")) in
  let line := if Json.truthy (Json.get "name" entry) then encode name
              else grey (encode name +:+ " " +:+ encode (tr "(removed)")) in
  let line := if Json.truthy (Json.get "cross_seed" entry)
              then line +:+ " " +:+ grey (encode (tr "- also on another of your torrents")) else line in
  "<div>" +:+ line +:+ "</div>".
Definition onPeerSelected (p : peer) : string :=
  match shared p with
  | [] => emptyDetail
  | l => q "<div style='margin-bottom: 4px;'><b>" +:+ encode (address p) +:+ "</b> " +:+ encode (tr "was seen in:") +:+ "</div>" +:+
         join "" (map line l)
  end.
Definition selectRow (i : nat) (w : window) : window :=
  match peers w !! i with Some p => with_rows (peers w) (Some i) (onPeerSelected p) w | None => w end.

(** [setEmptyText] *)
Definition setEmptyText (w : window) : window :=
  match emptyWithout w with
  | Some t => mk (peers w) (selected w) (order w) (query w) (emptyWithout w)
                (match query w with
                 | Some s => if decide (s = "") then t
                             else encode (str_map (fun c => if decide (c = chr 39) then chr 34 else c)
                                            (format (tr "No peer matches '{0}'.") [s]))
                 | None => t end)
                (detail w) (enabled w) (ttl w) (reading w)
  | None => w
  end.

(** The answer to [load]: the peer that was chosen is looked for by its
    address. *)
Definition chosen (w : window) : option peer := i ← selected w; peers w !! i.
Definition find (a : string) (ps : list peer) : option nat :=
  if decide (a = "") then None else fst <$> list_find (fun p => Grid.begins a (address p) = true) ps.
Definition onPeers (answer : list Json.dict) (w : window) : window :=
  let w' := setEmptyText w in
  let w' := with_rows (sorted (order w).1 (order w).2 (row <$> answer)) None (detail w') w' in
  match p ← chosen w; find (address p) (peers w') with
  | Some i => selectRow i w'
  | None => with_rows (peers w') None emptyDetail w'
  end.
Definition onFailure (w : window) : window := with_rows [] None emptyDetail w.

(** [loadSettings], its answer, and [onSwitched] *)
Definition loadSettings (w : window) : window * list call := (with_settings (enabled w) (ttl w) (S (reading w)) w, [ReadSettings]).
Definition onGotConfig (settings : Json.json) (w : window) : option window :=
  settings ← Json.dict_of settings;
  Some (with_settings (Checkbox.setValue (PBool (Json.is_true (Json.get "enabled" settings))) (enabled w)).1
          (NumberField.setValue (PNum (Json.number (Json.get "ttl_days" settings) (of_Z 30))) (ttl w)) (reading w) w).
Definition onSwitched (w : window) : list call :=
  [WroteSettings (Checkbox.getValue (enabled w)) (Deluge.number (NumberField.getValue (ttl w)) (of_Z 30))].

(** [onSearchKey] *)
Definition onSearchKey (wanted : string) (w : window) : window * bool :=
  if decide (query w = Some wanted) then (w, false)
  else (mk (peers w) (selected w) (order w) (Some wanted) (emptyWithout w) (emptyText w) (detail w) (enabled w) (ttl w) (reading w), true).

(** A click on a header: the peer that is selected stays so. *)
Definition sortBy (k : string) (desc : bool) (w : window) : window :=
  let l := arranged k desc (peers w) in
  mk l.*2 (i ← selected w; fst <$> list_find (fun e => e.1 = i) l) (k, desc) (query w) (emptyWithout w) (emptyText w) (detail w)
     (enabled w) (ttl w) (reading w).

Definition act (e : event) (w : window) : option (window * list call * bool) :=
  match e with
  | SelectRow i => Some (selectRow i w, [], false)
  | SortBy k desc => Some (sortBy k desc w, [], false)
  | SearchKey t => let '(w, again) := onSearchKey t w in Some (w, [], again)
  | ViewReady => Some (mk (peers w) (selected w) (order w) (query w) (Some (emptyText w)) (emptyText w) (detail w) (enabled w) (ttl w) (reading w),
                       [], false)
  | Checked b =>
      let '(c, fired) := Checkbox.setValue (PBool b) (enabled w) in
      let w := with_settings c (ttl w) (reading w) w in Some (w, if fired then onSwitched w else [], false)
  | Blurred t =>
      let w := with_settings (enabled w) (NumberField.beforeBlur (NumberField.with_value (ttl w) (PStr t))) (reading w) w in
      Some (w, onSwitched w, false)
  | Spun down =>
      let w := with_settings (enabled w) (Spinner.spin down (of_Z 1) (ttl w)) (reading w) w in Some (w, onSwitched w, false)
  | GotConfig s =>
      match reading w with
      | O => None
      | S n => w ← onGotConfig s w; Some (with_settings (enabled w) (ttl w) n w, [], false)
      end
  | ConfigFailed => match reading w with O => None | S n => Some (with_settings (enabled w) (ttl w) n w, [], false) end
  end.

Definition made : window :=
  mk [] None ("sent", true) None None (tr "No peers recorded yet.") emptyDetail (Checkbox.mk false false)
     (NumberField.setValue (pint 30) (NumberField.mk 0 (of_Z 1) (of_Z 3650) PUndef false)) 0.

#[global] Instance watch : Watch window unit (Z * string) (option (list Json.dict)) event call := {
  initial := made;
  shows_again := false;
  on_show _ w := loadSettings w;
  question w := Some (500%Z, default "" (query w));
  answered a w := match a with Some a => onPeers (default [] a) w | None => onFailure w end;
  handle _ := act
}.

(** The window from when it is made *)
Definition steps (es : list (Watching.event unit (option (list Json.dict)) event)) :
    option (Watching.state window (Z * string) * list (Watching.output (Z * string) call)) :=
  Watching.steps (H0 := watch) (Watching.create (H0 := watch)) es.

(** [renderRatio] and [renderLastSeen] *)
Definition renderRatio (value : num) : string := if num_ltb value (of_Z 0) then "&ndash;" else to_fixed 3 value.
Definition renderLastSeen : num -> prim -> string := when tr tz 60.
End window.
End Peers.

(** ** The peer that is shown *)

Section peers.
Context (tr : string -> string).
Implicit Types (w : Peers.window) (p : Peers.peer).

(** The panel under the grid is about the peer that is selected. *)
Definition detail_ok w : Prop :=
  Peers.detail w = match Peers.chosen w with Some p => Peers.onPeerSelected tr p | None => Peers.emptyDetail tr end.

Lemma detail_ok_same w w' :
  Peers.peers w' = Peers.peers w -> Peers.selected w' = Peers.selected w -> Peers.detail w' = Peers.detail w -> detail_ok w -> detail_ok w'.
Proof. unfold detail_ok, Peers.chosen. by intros -> -> ->. Qed.

Lemma selectRow_detail i w : detail_ok w -> detail_ok (Peers.selectRow tr i w).
Proof.
  unfold Peers.selectRow. destruct (Peers.peers w !! i) as [p|] eqn:E; [|done]. intros _.
  unfold detail_ok, Peers.chosen. cbn. by rewrite E.
Qed.

Lemma selectRow_there i p w : Peers.peers w !! i = Some p -> detail_ok (Peers.selectRow tr i w).
Proof. intros E. unfold Peers.selectRow. rewrite E. unfold detail_ok, Peers.chosen. cbn. by rewrite E. Qed.

Lemma find_row a ps i : Peers.find a ps = Some i -> exists p, ps !! i = Some p /\ Grid.begins a (Peers.address p) = true.
Proof.
  unfold Peers.find. case_decide; [done|]. destruct (list_find _ _) as [[j p]|] eqn:E; [|done]. intros [= <-].
  apply list_find_Some in E as (? & ? & _). eauto.
Qed.

Lemma onPeers_detail answer w : detail_ok (Peers.onPeers tr answer w).
Proof.
  unfold Peers.onPeers. cbv zeta. set (w' := Peers.with_rows _ None _ _).
  destruct (_ ≫= _) as [i|] eqn:E; [|done]. destruct (Peers.chosen w) as [p|]; [|done]. apply find_row in E as (p' & Hp & _).
  by apply selectRow_there with p'.
Qed.

Lemma arranged_elem k desc ps i p : (i, p) ∈ Peers.arranged k desc ps <-> ps !! i = Some p.
Proof.
  unfold Peers.arranged. rewrite isort_perm, list_elem_of_lookup. setoid_rewrite list_lookup_imap. split.
  - intros [j Hj]. destruct (ps !! j) as [p'|] eqn:E; [|done]. by injection Hj as <- <-.
  - intros H. exists i. by rewrite H.
Qed.

Lemma sortBy_chosen k desc w : Peers.chosen (Peers.sortBy k desc w) = Peers.chosen w.
Proof.
  unfold Peers.chosen, Peers.sortBy. cbn [Peers.selected Peers.peers]. destruct (Peers.selected w) as [i|]; [|done].
  cbn [mbind option_bind]. destruct (list_find (fun e => e.1 = i) (Peers.arranged k desc (Peers.peers w))) as [[j [i' p]]|] eqn:E.
  - cbn [fmap option_fmap option_map fst mbind option_bind]. apply list_find_Some in E as (Hj & Hi & _). cbn in Hi. subst i'.
    rewrite list_lookup_fmap, Hj. cbn. symmetry. apply (arranged_elem k desc). by eapply list_elem_of_lookup_2.
  - cbn [fmap option_fmap option_map mbind option_bind]. symmetry. apply list_find_None in E.
    destruct (Peers.peers w !! i) as [p|] eqn:Hp; [|done]. apply (arranged_elem k desc) in Hp. rewrite Forall_forall in E.
    by destruct (E _ Hp).
Qed.

Lemma act_detail e w w' os again : Peers.act tr e w = Some (w', os, again) -> detail_ok w -> detail_ok w'.
Proof.
  intros He Hd. destruct e as [i|k desc|t| |b|t|down|s|]; cbn [Peers.act] in He.
  - injection He as <- <- <-. by apply selectRow_detail.
  - injection He as <- <- <-. unfold detail_ok. by rewrite sortBy_chosen.
  - unfold Peers.onSearchKey in He. case_decide; injection He as <- <- <-; [done|]. by eapply detail_ok_same, Hd.
  - injection He as <- <- <-. by eapply detail_ok_same, Hd.
  - destruct (Checkbox.setValue _ _). injection He as <- <- <-. by eapply detail_ok_same, Hd.
  - injection He as <- <- <-. by eapply detail_ok_same, Hd.
  - injection He as <- <- <-. by eapply detail_ok_same, Hd.
  - destruct (Peers.reading w) as [|n]; [done|]. unfold Peers.onGotConfig in He. destruct (Json.dict_of s); [|done].
    injection He as <- <- <-. by eapply detail_ok_same, Hd.
  - destruct (Peers.reading w) as [|n]; [done|]. injection He as <- <- <-. by eapply detail_ok_same, Hd.
Qed.

(** Whatever is clicked, searched for and answered, the panel under the
    list of peers is about the peer that is selected, and about none where none
    is. *)
Theorem detail_is_of_selected es ws os :
  Peers.steps tr es = Some (ws, os) -> detail_ok (Watching.inner ws).
Proof.
  unfold Peers.steps, Watching.steps. revert es ws os.
  refine (run_ind _ (fun ws _ _ => detail_ok (Watching.inner ws)) _ _ _); [done|].
  intros es w1 os1 e w2 os2 _ Hd Hs. destruct e as [h| |t| |i a|e]; cbn [Watching.step] in Hs.
  - injection Hs as Hs. unfold Watching.show in Hs. destruct (_ && _); [by injection Hs as <- <-|].
    cbn in Hs. injection Hs as <- <-. rewrite inner_start. by eapply detail_ok_same, Hd.
  - injection Hs as <- <-. by rewrite inner_hide.
  - case_bool_decide; [|done]. by injection Hs as <- <-.
  - destruct (Watching.visible w1); [|done]. by injection Hs as <- <-.
  - destruct (Watching.flight w1 !! i); [|done]. cbn in Hs. destruct (Watching.visible w1); injection Hs as <- <-; [|done].
    cbn. destruct a; [apply onPeers_detail|done].
  - cbn in Hs. destruct (Peers.act tr e (Watching.inner w1)) as [[[x os3] again]|] eqn:He; [|done]. cbn in Hs.
    pose proof (act_detail _ _ _ _ _ He Hd) as Hd'. destruct again; by injection Hs as <- <-.
Qed.
(** The peers are those of the answer, in the order chosen. *)
Lemma onPeers_rows answer w :
  Peers.peers (Peers.onPeers tr answer w) = Peers.sorted (Peers.order w).1 (Peers.order w).2 (Peers.row <$> answer).
Proof.
  unfold Peers.onPeers. cbv zeta. destruct (_ ≫= _) as [i|]; [|done]. unfold Peers.selectRow. by destruct (_ !! i).
Qed.

(** When the peers are read again, the one that is selected is the
    first whose address begins with the address of the one that was: another
    peer, where such a one comes before it. *)
Theorem reload_selects_first_prefix answer w p j p1 :
  Peers.chosen w = Some p -> Peers.address p <> "" ->
  let w' := Peers.onPeers tr answer w in
  Peers.peers w' !! j = Some p1 -> Grid.begins (Peers.address p) (Peers.address p1) = true ->
  (forall k p2, k < j -> Peers.peers w' !! k = Some p2 -> Grid.begins (Peers.address p) (Peers.address p2) = false) ->
  Peers.chosen w' = Some p1 /\ Peers.detail w' = Peers.onPeerSelected tr p1.
Proof.
  intros Hp Ha w' Hj Hb Hfirst.
  assert (Peers.chosen w' = Some p1) as Hc; [|split; [done|]; pose proof (onPeers_detail answer w) as H; unfold detail_ok in H; fold w' in H; by rewrite Hc in H].
  pose proof (onPeers_rows answer w) as Hr. fold w' in Hr. revert Hr Hj Hfirst. unfold w', Peers.onPeers. cbv zeta.
  set (w1 := Peers.with_rows _ None _ _). rewrite Hp. cbn [mbind option_bind]. intros _.
  assert (forall o, Peers.peers match o with Some i => Peers.selectRow tr i w1 | None => Peers.with_rows (Peers.peers w1) None (Peers.emptyDetail tr) w1 end = Peers.peers w1) as Ep.
  { intros [i|]; [|done]. unfold Peers.selectRow. by destruct (Peers.peers w1 !! i). }
  rewrite Ep. intros Hj Hfirst.
  assert (Peers.find (Peers.address p) (Peers.peers w1) = Some j) as ->.
  { unfold Peers.find. rewrite decide_False by done.
    assert (list_find (fun p0 => Grid.begins (Peers.address p) (Peers.address p0) = true) (Peers.peers w1) = Some (j, p1)) as ->; [|done].
    apply list_find_Some. split; [done|]. split; [done|]. intros k p2 Hk Hlt H. by rewrite (Hfirst k p2 Hlt Hk) in H. }
  unfold Peers.selectRow. rewrite Hj. unfold Peers.chosen. cbn. exact Hj.
Qed.

(** Leaving the box of days before the settings were read turns the
    history of peers off. *)
Theorem unread_peers_written text :
  exists ws n, Peers.steps tr [Watching.Show (); Watching.Do (Peers.Blurred text)] =
    Some (ws, [Watching.Did Peers.ReadSettings; Watching.Asked (500%Z, ""); Watching.Did (Peers.WroteSettings false n)]).
Proof. eexists _, _. reflexivity. Qed.
End peers.

(** ** Examples *)

Module LedgersExamples.
Definition tr (s : string) : string := s.
Definition peer (address : string) (sent : Z) : Json.dict := [("address", jstr address); ("sent", jint sent); ("received", jint 1)].
Definition shown : Peers.window :=
  Peers.selectRow tr 0 (Peers.onPeers tr [peer "10.0.0.1" 9] (Peers.made tr)).
Definition answer : list Json.dict := [peer "10.0.0.1" 9; peer "10.0.0.12" 20].
End LedgersExamples.

Lemma detail_is_of_selected_witness :
  exists ws os, Peers.steps LedgersExamples.tr [Watching.Show (); Watching.Answered 0 (Some (Some LedgersExamples.answer)); Watching.Do (Peers.SelectRow 1);
      Watching.Do (Peers.SortBy "sent" false)] = Some (ws, os) /\ detail_ok LedgersExamples.tr (Watching.inner ws).
Proof.
  eexists _, _. split; [reflexivity|].
  eapply (detail_is_of_selected LedgersExamples.tr [Watching.Show (); Watching.Answered 0 (Some (Some LedgersExamples.answer));
    Watching.Do (Peers.SelectRow 1); Watching.Do (Peers.SortBy "sent" false)]). reflexivity.
Defined.

Lemma reload_selects_first_prefix_witness :
  Peers.address <$> Peers.chosen LedgersExamples.shown = Some "10.0.0.1" /\
  Peers.address <$> Peers.chosen (Peers.onPeers LedgersExamples.tr LedgersExamples.answer LedgersExamples.shown) = Some "10.0.0.12".
Proof.
  split; [vm_compute; reflexivity|].
  destruct (reload_selects_first_prefix LedgersExamples.tr LedgersExamples.answer LedgersExamples.shown
    (Peers.row (LedgersExamples.peer "10.0.0.1" 9)) 0 (Peers.row (LedgersExamples.peer "10.0.0.12" 20))) as [H _].
  - vm_compute. reflexivity.
  - vm_compute. done.
  - vm_compute. reflexivity.
  - vm_compute. reflexivity.
  - intros k p2 Hk. lia.
  - rewrite H. vm_compute. reflexivity.
Defined.
