(* ===== verification/EditTrackers.v ===== *)
(** * Deluge.EditTrackersWindow

    The trackers of a torrent, with the list's headers ([Ext.list.Sorter]) and the
    two windows that add some and edit one ([AddTrackerWindow.js],
    [EditTrackerWindow.js]). *)

From stdpp Require Import base list strings sorting.
From Stdlib Require Import Lia ZArith.
From S2P Require Import Prelude JsNum JsString JsValue Collection.

Local Open Scope nat_scope.

(** ** What is taken for an address *)

Module AddTracker.

(** [trackerUrlTest]: past the first two letters of a last label, everything the
    expression looks for may be missing. *)
Definition is_word (c : Ascii.ascii) : bool :=
  is_digit c || (65 <=? code c) && (code c <=? 90) || (97 <=? code c) && (code c <=? 122) || bool_decide (c = chr 95).
Definition two_words (s : string) : bool :=
  match s with String.String a (String.String b _) => is_word a && is_word b | _ => false end.
Fixpoint labels (started : bool) (s : string) : bool :=
  match s with
  | EmptyString => false
  | String.String c s' =>
      if decide (c = chr 46) then started && (two_words s' || labels false s')
      else (is_word c || bool_decide (c = chr 45)) && labels true s'
  end.
Definition after (p s : string) : option string :=
  if String.prefix p (to_lower s) then Some (str_drop (String.length p) s) else None.
Definition trackerUrl (val : string) : bool :=
  existsb (fun p => match after p val with Some s => labels false s | None => false end) ["http://"; "https://"; "udp://"].

(** [onAddClick]: the lines that are addresses *)
Definition cleaned (text : string) : list string := List.filter trackerUrl (split_on (chr 10) text).

End AddTracker.

(** ** The window *)

Module EditTrackers.

(** A record: the fields it has, and reading one of any name *)
Record tracker := mkt { tier : Z; url : string }.
Definition get (name : string) (t : tracker) : prim :=
  if decide (name = "tier") then pint (tier t) else if decide (name = "url") then PStr (url t) else PUndef.

(** A column, which is a field of the records; and what the store was sorted by
    last, [sortInfo], with whether it was [DESC].  Of [sortToggle] only the
    direction of that field is ever read, which is the one there. *)
Inductive column := Tier | Url.
#[global] Instance column_eq_dec : EqDecision column.
Proof. solve_decision. Defined.
Notation sort_info := (option (column * bool)).

(** The window: whether it is shown, [torrentId], the records by the number they
    were made with, what they were sorted by, which is selected, whether Edit is
    enabled, the record the other window edits with its text, what is typed to be
    added, and the torrents asked about. *)
Record state := mk {
  visible : bool; torrentId : option string; store : list (nat * tracker); next : nat; sortInfo : sort_info;
  selected : option nat; editable : bool; editing : option (nat * string); adding : option string; flight : list string
}.
Definition create : state := mk false None [] 0 None None true None None [].

Definition with_store (ts : list (nat * tracker)) (sel : option nat) (w : state) : state :=
  mk (visible w) (torrentId w) ts (next w) (sortInfo w) sel (editable w) (editing w) (adding w) (flight w).
Definition with_editing (e : option (nat * string)) (w : state) : state :=
  mk (visible w) (torrentId w) (store w) (next w) (sortInfo w) (selected w) (editable w) e (adding w) (flight w).
Definition with_adding (a : option string) (w : state) : state :=
  mk (visible w) (torrentId w) (store w) (next w) (sortInfo w) (selected w) (editable w) (editing w) a (flight w).

Inductive event :=
  | Show (torrent : option string) | Cancel | Ok | Answered (i : nat) (trackers : option (list tracker))
  | Select (i : nat) | Up | Down | Remove | HeaderClick (c : column)
  | EditClick | DoubleClick (i : nat) | EditType (text : string) | EditSave | EditCancel
  | AddClick | AddType (text : string) | AddOk | AddCancel.
Inductive output := Asked (torrent : string) | Sent (torrent : option string) (trackers : list tracker).

(** [onShow], which is a listener of [show] and the method a window calls before
    it fires it: without a torrent it throws. *)
Definition onShow (torrent : option string) (w : state) : option (state * list output) :=
  id ← torrent;
  Some (mk true (Some id) (store w) (next w) (sortInfo w) (selected w) false (editing w) (adding w) (flight w ++ [id]), [Asked id]).
Definition show (torrent : option string) (w : state) : option (state * list output) :=
  if visible w then Some (w, [])
  else '(w, os) ← onShow torrent w; '(w, os') ← onShow torrent w; Some (w, os ++ os').

(** [hide], with [onHide] *)
Definition hide (w : state) : state :=
  if visible w then mk false (torrentId w) [] (next w) (sortInfo w) None (editable w) (editing w) (adding w) (flight w) else w.

(** [sortData] by a column: whether one record may stay before another *)
Definition before (c : column) (desc : bool) (a b : nat * tracker) : bool :=
  let (a, b) := if desc then (b.2, a.2) else (a.2, b.2) in
  match c with Tier => (tier a <=? tier b)%Z | Url => negb (prim_ltb (PStr (url b)) (PStr (url a))) end.
Definition sortData (c : column) (desc : bool) (ts : list (nat * tracker)) : list (nat * tracker) := MC.isort (before c desc) ts.

(** [store.sort(field, direction)], after which nothing is selected, for the list
    is drawn again *)
Definition sort (c : column) (desc : bool) (w : state) : state :=
  mk (visible w) (torrentId w) (sortData c desc (store w)) (next w) (Some (c, desc)) None (editable w) (editing w) (adding w)
     (flight w).

(** [onHdClick] of the list's sorter: [store.sort] without a direction, which is
    the other one where the list is sorted by that column. *)
Definition onHdClick (c : column) (w : state) : state :=
  sort c (match sortInfo w with Some (c', desc) => if decide (c' = c) then negb desc else false | None => false end) w.

(** [store.sort('tier', 'ASC')] *)
Definition sort_tiers (ts : list (nat * tracker)) : list (nat * tracker) := sortData Tier false ts.

(** [onRequestComplete]: what is loaded is sorted as the store was last. *)
Definition loadData (ts : list tracker) (w : state) : state :=
  let rs := zip (seq (next w) (length ts)) ts in
  mk (visible w) (torrentId w) (match sortInfo w with Some (c, desc) => sortData c desc rs | None => rs end) (next w + length ts)
     (sortInfo w) None (editable w) (editing w) (adding w) (flight w).
Definition onRequestComplete (ts : list tracker) (w : state) : state := sort Tier false (loadData ts w).

(** [onSelect] of the row selected *)
Definition select (i : nat) (w : state) : state :=
  match store w !! i with
  | Some r => mk (visible w) (torrentId w) (store w) (next w) (sortInfo w) (Some r.1) true (editing w) (adding w) (flight w)
  | None => w
  end.

(** [onUpClick] and [onDownClick]: the record is sorted to its new place and
    selected again. *)
Definition chosen (w : state) : option (nat * tracker) := i ← selected w; snd <$> list_find (fun r => r.1 = i) (store w).
Definition set_tier (i : nat) (z : Z) (ts : list (nat * tracker)) : list (nat * tracker) :=
  (fun r => if decide (r.1 = i) then (i, mkt z (url r.2)) else r) <$> ts.
Definition move (by_ : Z) (w : state) : state :=
  match chosen w with
  | Some (i, t) =>
      let w := sort Tier false (with_store (set_tier i (tier t + by_) (store w)) (selected w) w) in
      with_store (store w) (Some i) w
  | None => w
  end.
Definition onDownClick (w : state) : state := move 1 w.
Definition onUpClick (w : state) : state :=
  match chosen w with Some (_, t) => if decide (tier t = 0)%Z then w else move (-1) w | None => w end.

(** [onRemoveClick] *)
Definition onRemoveClick (w : state) : state :=
  match chosen w with Some (i, _) => with_store (filter (fun r => r.1 <> i) (store w)) None w | None => w end.

(** [onAddTrackers]: the loop over the records, left at a duplicate *)
Fixpoint look (tracker : string) (highest : Z) (ts : list (nat * EditTrackers.tracker)) : Z * bool :=
  match ts with
  | [] => (highest, false)
  | r :: ts' =>
      let highest := if (highest <? tier r.2)%Z then tier r.2 else highest in
      if loose_eq (PStr tracker) (get "tracker" r.2) then (highest, true) else look tracker highest ts'
  end.
Definition add_one (w : state) (tracker : string) : state :=
  let '(highest, duplicate) := look tracker (-1) (store w) in
  if duplicate then w
  else mk (visible w) (torrentId w) (store w ++ [(next w, mkt (highest + 1) tracker)]) (1 + next w) (sortInfo w) (selected w)
         (editable w) (editing w) (adding w) (flight w).
Definition onAddTrackers (trackers : list string) (w : state) : state := foldl add_one w trackers.

(** [onOkClick] *)
Definition onOkClick (w : state) : state * list output := (hide w, [Sent (torrentId w) (store w).*2]).

(** The window that edits a record: [show], [onSaveClick]; a record that has left
    the store is edited in vain. *)
Definition onEditClick (w : state) : state :=
  match chosen w with Some (i, t) => with_editing (Some (i, url t)) w | None => w end.
Definition onSaveClick (w : state) : state :=
  match editing w with
  | Some (i, text) =>
      with_editing None (with_store ((fun r => if decide (r.1 = i) then (i, mkt (tier r.2) text) else r) <$> store w) (selected w) w)
  | None => w
  end.

Definition step (w : state) (e : event) : option (state * list output) :=
  match e with
  | Show t => show t w
  | Cancel => Some (hide w, [])
  | Ok => Some (onOkClick w)
  | Answered i ts =>
      _ ← flight w !! i;
      let w := mk (visible w) (torrentId w) (store w) (next w) (sortInfo w) (selected w) (editable w) (editing w) (adding w)
                 (delete i (flight w)) in
      Some (match ts with Some ts => onRequestComplete ts w | None => w end, [])
  | Select i => Some (select i w, [])
  | Up => Some (onUpClick w, [])
  | Down => Some (onDownClick w, [])
  | Remove => Some (onRemoveClick w, [])
  | HeaderClick c => Some (onHdClick c w, [])
  | EditClick => Some (if editable w then onEditClick w else w, [])
  | DoubleClick i => Some (match store w !! i with Some (k, t) => with_editing (Some (k, url t)) w | None => w end, [])
  | EditType t => Some (with_editing (match editing w with Some (i, _) => Some (i, t) | None => None end) w, [])
  | EditSave => Some (onSaveClick w, [])
  | EditCancel => Some (with_editing None w, [])
  | AddClick => Some (with_adding (match adding w with Some t => Some t | None => Some "" end) w, [])
  | AddType t => Some (with_adding (match adding w with Some _ => Some t | None => None end) w, [])
  | AddOk => Some (match adding w with
                   | Some t => with_adding None (onAddTrackers (AddTracker.cleaned t) w) | None => w end, [])
  | AddCancel => Some (with_adding None w, [])
  end.
Definition steps : state -> list event -> option (state * list output) := run step.

End EditTrackers.

(** ** The order of the list *)

Section trackers.
Implicit Types (w : EditTrackers.state) (ts : list (nat * EditTrackers.tracker)).

Definition in_order ts : Prop := StronglySorted (fun a b => (EditTrackers.tier a.2 <= EditTrackers.tier b.2)%Z) ts.
Definition unique ts : Prop := NoDup ts.*1.

Lemma sort_tiers_order ts : in_order (EditTrackers.sort_tiers ts).
Proof.
  unfold in_order, EditTrackers.sort_tiers, EditTrackers.sortData.
  assert (StronglySorted (fun a b => EditTrackers.before EditTrackers.Tier false a b = true)
    (MC.isort (EditTrackers.before EditTrackers.Tier false) ts)) as H.
  { apply isort_sorted; cbn; intros; rewrite ?Z.leb_le in *; lia. }
  induction H as [|a l _ IH Ha]; constructor; [done|]. eapply Forall_impl; [exact Ha|]. cbn. intros b Hb. by apply Z.leb_le.
Qed.

Lemma sort_data_perm c desc ts : EditTrackers.sortData c desc ts ≡ₚ ts.
Proof. apply isort_perm. Qed.

Lemma sorted_filter (f : nat * EditTrackers.tracker -> Prop) `{forall r, Decision (f r)} ts : in_order ts -> in_order (filter f ts).
Proof.
  unfold in_order. induction 1 as [|a l _ IH Ha]; [constructor|]. destruct (decide (f a)).
  - rewrite filter_cons_True by done. constructor; [done|]. apply Forall_forall. intros b [_ Hb]%list_elem_of_filter.
    rewrite Forall_forall in Ha. by apply Ha.
  - by rewrite filter_cons_False.
Qed.

Lemma sorted_fmap (f : nat * EditTrackers.tracker -> nat * EditTrackers.tracker) ts :
  (forall r, EditTrackers.tier (f r).2 = EditTrackers.tier r.2) -> in_order ts -> in_order (f <$> ts).
Proof.
  intros Hf. unfold in_order. induction 1 as [|a l _ IH Ha]; constructor; [done|]. apply Forall_fmap.
  eapply Forall_impl; [exact Ha|]. intros b Hb. cbn. by rewrite !Hf.
Qed.

(** The loop finds no duplicate, for a record has no field of that name, and the
    highest tier there is. *)
Lemma look_max tracker h ts :
  (EditTrackers.look tracker h ts).2 = false /\ (h <= (EditTrackers.look tracker h ts).1)%Z /\
  Forall (fun r => EditTrackers.tier r.2 <= (EditTrackers.look tracker h ts).1)%Z ts.
Proof.
  revert h. induction ts as [|r ts IH]; intros h; [by split_and!|]. cbn [EditTrackers.look].
  change (loose_eq (PStr tracker) (EditTrackers.get "tracker" r.2)) with false.
  destruct (IH (if (h <? EditTrackers.tier r.2)%Z then EditTrackers.tier r.2 else h)) as (H1 & H2 & H3).
  split; [done|]. destruct (Z.ltb_spec h (EditTrackers.tier r.2)); (split; [lia|constructor; [lia|done]]).
Qed.

Lemma add_one_spec w tracker :
  exists h, EditTrackers.store (EditTrackers.add_one w tracker) =
      EditTrackers.store w ++ [(EditTrackers.next w, EditTrackers.mkt (h + 1) tracker)] /\
    EditTrackers.next (EditTrackers.add_one w tracker) = S (EditTrackers.next w) /\
    Forall (fun r => EditTrackers.tier r.2 <= h)%Z (EditTrackers.store w) /\ (-1 <= h)%Z /\
    EditTrackers.sortInfo (EditTrackers.add_one w tracker) = EditTrackers.sortInfo w.
Proof.
  destruct (look_max tracker (-1) (EditTrackers.store w)) as (H1 & H2 & H3).
  unfold EditTrackers.add_one. destruct (EditTrackers.look tracker (-1) (EditTrackers.store w)) as [h d]. cbn in H1, H2, H3. subst d.
  by exists h.
Qed.

(** The records are told apart, none made after the next; and the list is in order
    unless it was sorted last by a click on a header. *)
Definition by_tier w : Prop :=
  match EditTrackers.sortInfo w with Some (c, desc) => c = EditTrackers.Tier /\ desc = false | None => True end.
Definition told_apart (n : nat) ts : Prop := unique ts /\ Forall (fun r => r.1 < n) ts.
Definition list_ok w : Prop :=
  (by_tier w -> in_order (EditTrackers.store w)) /\ told_apart (EditTrackers.next w) (EditTrackers.store w).

Lemma sorted_snoc ts r : in_order ts -> Forall (fun x => EditTrackers.tier x.2 <= EditTrackers.tier r.2)%Z ts -> in_order (ts ++ [r]).
Proof.
  unfold in_order. induction 1 as [|a l _ IH Ha]; intros Hr; cbn; [repeat constructor|].
  apply Forall_cons in Hr as [Hr1 Hr2]. constructor; [by apply IH|]. apply Forall_app. split; [done|by constructor].
Qed.

Lemma add_one_ok w tracker : list_ok w -> list_ok (EditTrackers.add_one w tracker).
Proof.
  intros (Ho & Hu & Hn). destruct (add_one_spec w tracker) as (h & E1 & E2 & Hh & _ & Es).
  unfold list_ok, told_apart, by_tier. rewrite E1, E2, Es. split_and!.
  - intros Hb. apply sorted_snoc; [by apply Ho|]. cbn. eapply Forall_impl; [exact Hh|]. cbn. lia.
  - unfold unique in *. rewrite fmap_app. apply NoDup_app. split; [done|]. split; [|apply NoDup_singleton].
    intros i (r & -> & Hr)%list_elem_of_fmap Hi%list_elem_of_singleton. cbn in Hi. rewrite Forall_forall in Hn. apply Hn in Hr. lia.
  - apply Forall_app. split; [eapply Forall_impl; [exact Hn|]; cbn; lia|repeat constructor; cbn; lia].
Qed.

Lemma add_all_ok trackers w : list_ok w -> list_ok (EditTrackers.onAddTrackers trackers w).
Proof. unfold EditTrackers.onAddTrackers. revert w. induction trackers as [|t trs IH]; intros w Hw; [done|]. by apply IH, add_one_ok. Qed.

Lemma told_perm n ts ts' : ts'.*1 ≡ₚ ts.*1 -> told_apart n ts -> told_apart n ts'.
Proof.
  intros Hp [Hu Hn]. unfold told_apart, unique. rewrite Hp. split; [done|].
  apply Forall_forall. intros r Hr. apply (list_elem_of_fmap_2 fst) in Hr. rewrite Hp in Hr.
  apply list_elem_of_fmap in Hr as (r' & -> & Hr'). rewrite Forall_forall in Hn. by apply Hn.
Qed.

(** Whatever the list was, a sort leaves it told apart, and one by the tiers in
    order. *)
Lemma sorted_list_ok c desc w :
  told_apart (EditTrackers.next w) (EditTrackers.store w) -> list_ok (EditTrackers.sort c desc w).
Proof.
  intros Ht. split; cbn.
  - intros [-> ->]. apply sort_tiers_order.
  - refine (told_perm _ _ _ _ Ht). by rewrite sort_data_perm.
Qed.

Lemma set_tier_names i z ts : (EditTrackers.set_tier i z ts).*1 = ts.*1.
Proof.
  unfold EditTrackers.set_tier. rewrite <- list_fmap_compose. apply list_fmap_ext. intros _ r _. cbn. by case_decide.
Qed.

Lemma move_ok z w : list_ok w -> list_ok (EditTrackers.move z w).
Proof.
  intros Hw. unfold EditTrackers.move. destruct (EditTrackers.chosen w) as [[i t]|]; [|done].
  set (w1 := EditTrackers.with_store _ _ w). apply (sorted_list_ok EditTrackers.Tier false w1).
  refine (told_perm _ _ _ _ (proj2 Hw)). cbn. by rewrite set_tier_names.
Qed.

Lemma answer_ok trackers w : list_ok (EditTrackers.onRequestComplete trackers w).
Proof.
  apply sorted_list_ok. cbn. set (ts := zip (seq (EditTrackers.next w) (length trackers)) trackers).
  assert (told_apart (EditTrackers.next w + length trackers) ts) as Ht.
  { unfold told_apart, unique, ts. rewrite fst_zip by (by rewrite length_seq). split; [apply NoDup_seq|].
    apply Forall_forall. intros r Hr. apply (list_elem_of_fmap_2 fst) in Hr. rewrite fst_zip in Hr by (by rewrite length_seq).
    apply elem_of_seq in Hr. lia. }
  destruct (EditTrackers.sortInfo w) as [[c desc]|]; [|exact Ht]. refine (told_perm _ _ _ _ Ht). by rewrite sort_data_perm.
Qed.

Lemma list_ok_same w w' :
  EditTrackers.store w' = EditTrackers.store w -> EditTrackers.next w' = EditTrackers.next w ->
  EditTrackers.sortInfo w' = EditTrackers.sortInfo w -> list_ok w -> list_ok w'.
Proof. unfold list_ok, by_tier. by intros -> -> ->. Qed.

Lemma list_ok_empty w : EditTrackers.store w = [] -> list_ok w.
Proof. unfold list_ok, told_apart, unique, in_order. intros ->. split_and!; [intros _; constructor|apply NoDup_nil_2|constructor]. Qed.

Lemma hide_ok w : list_ok w -> list_ok (EditTrackers.hide w).
Proof. unfold EditTrackers.hide. destruct (EditTrackers.visible w); [|done]. intros _. by apply list_ok_empty. Qed.

Lemma remove_ok w : list_ok w -> list_ok (EditTrackers.onRemoveClick w).
Proof.
  intros Hw. unfold EditTrackers.onRemoveClick. destruct (EditTrackers.chosen w) as [[i t]|]; [|done].
  destruct Hw as (Ho & Hu & Hn). split; cbn; [intros Hb; by apply sorted_filter, Ho|split; [by apply NoDup_filter_fst|]].
  apply Forall_forall. intros r [_ Hr]%list_elem_of_filter. rewrite Forall_forall in Hn. by apply Hn.
Qed.

Lemma save_ok w : list_ok w -> list_ok (EditTrackers.onSaveClick w).
Proof.
  intros Hw. unfold EditTrackers.onSaveClick. destruct (EditTrackers.editing w) as [[i text]|]; [|done].
  destruct Hw as [Ho Ht]. split; cbn.
  - intros Hb. apply sorted_fmap; [|by apply Ho]. intros r. by case_decide.
  - refine (told_perm _ _ _ _ Ht). rewrite <- list_fmap_compose.
    erewrite list_fmap_ext; [reflexivity|]. intros _ r _. cbn. by case_decide.
Qed.

Lemma trackers_step w e w' os : EditTrackers.step w e = Some (w', os) -> list_ok w -> list_ok w'.
Proof.
  intros Hs Hw. destruct e; cbn in Hs;
    try (injection Hs as <- <-; first [by apply hide_ok|by apply move_ok|by apply remove_ok|by apply save_ok|by eapply list_ok_same, Hw]).
  - unfold EditTrackers.show in Hs. destruct (EditTrackers.visible w); [by injection Hs as <- <-|].
    destruct torrent; [|done]. injection Hs as <- <-. by eapply list_ok_same, Hw.
  - destruct (_ !! _); [|done]. injection Hs as <- <-. destruct trackers; [apply answer_ok|by eapply list_ok_same, Hw].
  - injection Hs as <- <-. unfold EditTrackers.select. destruct (_ !! _); [by eapply list_ok_same, Hw|done].
  - injection Hs as <- <-. unfold EditTrackers.onUpClick. destruct (EditTrackers.chosen w) as [[i t]|]; [|done].
    case_decide; [done|by apply move_ok].
  - injection Hs as <- <-. apply sorted_list_ok, Hw.
  - injection Hs as <- <-. unfold EditTrackers.onEditClick. destruct (EditTrackers.editable w); [|done].
    destruct (EditTrackers.chosen w) as [[i t]|]; [by eapply list_ok_same, Hw|done].
  - injection Hs as <- <-. destruct (_ !! _) as [[k t]|]; [by eapply list_ok_same, Hw|done].
  - injection Hs as <- <-. destruct (EditTrackers.adding w); [|done]. eapply list_ok_same; [..|by apply add_all_ok]; done.
Qed.

Lemma trackers_run es w os : EditTrackers.steps EditTrackers.create es = Some (w, os) -> list_ok w.
Proof.
  revert es w os. apply (run_ind EditTrackers.step (fun w _ _ => list_ok w)); [by apply list_ok_empty|].
  intros es w os e w' os' _ IH Hs. by eapply trackers_step.
Qed.

(** Only a click on a header sorts otherwise than by the tiers. *)
Definition no_header (e : EditTrackers.event) : bool := match e with EditTrackers.HeaderClick _ => false | _ => true end.

Lemma add_all_sorted trackers w : EditTrackers.sortInfo (EditTrackers.onAddTrackers trackers w) = EditTrackers.sortInfo w.
Proof.
  unfold EditTrackers.onAddTrackers. revert w. induction trackers as [|t trs IH]; intros w; [done|]. cbn [foldl]. rewrite IH.
  by destruct (add_one_spec w t) as (_ & _ & _ & _ & _ & E).
Qed.

Lemma by_tier_same w w' : EditTrackers.sortInfo w' = EditTrackers.sortInfo w -> by_tier w -> by_tier w'.
Proof. unfold by_tier. by intros ->. Qed.

Lemma move_by_tier z w : by_tier w -> by_tier (EditTrackers.move z w).
Proof. unfold EditTrackers.move. by destruct (EditTrackers.chosen w) as [[i t]|]. Qed.

Lemma step_by_tier w e w' os : no_header e = true -> EditTrackers.step w e = Some (w', os) -> by_tier w -> by_tier w'.
Proof.
  intros He Hs Hw. destruct e; cbn in Hs, He; try done; try (injection Hs as <- <-; by first [done|apply move_by_tier]).
  - unfold EditTrackers.show in Hs. destruct (EditTrackers.visible w); [by injection Hs as <- <-|].
    destruct torrent; [|done]. by injection Hs as <- <-.
  - injection Hs as <- <-. unfold EditTrackers.hide. by destruct (EditTrackers.visible w).
  - injection Hs as <- <-. unfold EditTrackers.hide. by destruct (EditTrackers.visible w).
  - destruct (_ !! _); [|done]. injection Hs as <- <-. by destruct trackers.
  - injection Hs as <- <-. unfold EditTrackers.select. by destruct (_ !! _).
  - injection Hs as <- <-. unfold EditTrackers.onUpClick. destruct (EditTrackers.chosen w) as [[i t]|]; [|done].
    case_decide; [done|by apply move_by_tier].
  - injection Hs as <- <-. unfold EditTrackers.onRemoveClick. by destruct (EditTrackers.chosen w) as [[i t]|].
  - injection Hs as <- <-. unfold EditTrackers.onEditClick. destruct (EditTrackers.editable w); [|done].
    by destruct (EditTrackers.chosen w) as [[i t]|].
  - injection Hs as <- <-. by destruct (_ !! _) as [[k t]|].
  - injection Hs as <- <-. unfold EditTrackers.onSaveClick. by destruct (EditTrackers.editing w) as [[i t]|].
  - injection Hs as <- <-. destruct (EditTrackers.adding w); [|done]. eapply by_tier_same; [apply add_all_sorted|done].
Qed.

(** Claim C16.  Over any events, clicks on the headers of the list included, no
    record is there twice and what OK sends is the list as it is shown,
    in that order; and that is the order of the tiers unless what sorted it last
    was a click on a header, by the addresses or from the last tier: so always,
    where no header was clicked, and again after Up or Down has moved a tracker
    or an answer filled the list. *)
Theorem trackers_in_order es w os :
  EditTrackers.steps EditTrackers.create es = Some (w, os) ->
  unique (EditTrackers.store w) /\
  (by_tier w -> in_order (EditTrackers.store w)) /\
  (forallb no_header es = true -> by_tier w) /\
  (forall z, is_Some (EditTrackers.chosen w) -> by_tier (EditTrackers.move z w)) /\
  (forall trackers, by_tier (EditTrackers.onRequestComplete trackers w)) /\
  forall w' os', EditTrackers.step w EditTrackers.Ok = Some (w', os') ->
    os' = [EditTrackers.Sent (EditTrackers.torrentId w) (EditTrackers.store w).*2].
Proof.
  intros Hs. pose proof (trackers_run es w os Hs) as (Ho & Hu & _). split_and!; [done|done| |intros z [[i t] Hc]| |].
  - clear Ho Hu. revert es w os Hs. apply (run_ind EditTrackers.step (fun w es _ => forallb no_header es = true -> by_tier w)); [done|].
    intros es w os e w' os' _ IH Hs Hn. rewrite forallb_app in Hn. apply andb_true_iff in Hn as [Hn He].
    cbn in He. rewrite andb_true_r in He. apply (step_by_tier w e w' os' He Hs), IH, Hn.
  - unfold EditTrackers.move. by rewrite Hc.
  - done.
  - by intros w' os' [= <- <-].
Qed.

(** Adding addresses appends every one of them, those that are there
    already too, each on a tier of its own below all others. *)
Theorem added_after_all trackers w :
  list_ok w ->
  exists tiers, (EditTrackers.store (EditTrackers.onAddTrackers trackers w)).*2 =
      (EditTrackers.store w).*2 ++ zip_with EditTrackers.mkt tiers trackers /\
    length tiers = length trackers /\ StronglySorted Z.lt tiers /\
    forall t r, t ∈ tiers -> r ∈ EditTrackers.store w -> (0 <= t)%Z /\ (EditTrackers.tier r.2 < t)%Z.
Proof.
  unfold EditTrackers.onAddTrackers. revert w. induction trackers as [|u trs IH]; intros w Hw.
  - exists []. cbn. rewrite app_nil_r. split_and!; [done..|constructor|]. by intros t r ?%elem_of_nil.
  - cbn [foldl]. destruct (add_one_spec w u) as (h & E1 & E2 & Hh & Hm & _).
    destruct (IH _ (add_one_ok w u Hw)) as (tiers & Et & Hl & Hs & Hb). rewrite E1 in Et, Hb.
    exists ((h + 1)%Z :: tiers). split_and!.
    + rewrite Et, fmap_app. cbn. by rewrite <- app_assoc.
    + cbn. by rewrite Hl.
    + constructor; [done|]. apply Forall_forall. intros t Ht. destruct (Hb t (EditTrackers.next w, EditTrackers.mkt (h + 1) u) Ht) as [_ H]; [|exact H].
      apply elem_of_app. right. by apply list_elem_of_singleton.
    + intros t r Ht Hr. rewrite Forall_forall in Hh. apply elem_of_cons in Ht as [->|Ht].
      * specialize (Hh r Hr). lia.
      * apply Hb; [done|]. apply elem_of_app. by left.
Qed.

(** Up and Down change the tier of the tracker that is selected by one, which
    stays selected; on the first tier Up does nothing. *)
Lemma moved_by_one z w i t :
  list_ok w -> EditTrackers.selected w = Some i -> EditTrackers.chosen w = Some (i, t) ->
  EditTrackers.selected (EditTrackers.move z w) = Some i /\
  EditTrackers.store (EditTrackers.move z w) ≡ₚ
    (fun r => if decide (r.1 = i) then (i, EditTrackers.mkt (EditTrackers.tier t + z) (EditTrackers.url r.2)) else r) <$> EditTrackers.store w.
Proof. intros Hw Hi Hc. unfold EditTrackers.move. rewrite Hc. split; [done|apply sort_data_perm]. Qed.

(** The answer for a torrent that is no longer asked about fills the
    window of another, and OK saves it there; OK before the answer leaves the
    torrent without trackers. *)
Theorem trackers_of_another a b trs :
  (exists w, EditTrackers.steps EditTrackers.create
      [EditTrackers.Show (Some a); EditTrackers.Cancel; EditTrackers.Show (Some b); EditTrackers.Answered 0 (Some trs); EditTrackers.Ok] =
    Some (w, [EditTrackers.Asked a; EditTrackers.Asked a; EditTrackers.Asked b; EditTrackers.Asked b;
              EditTrackers.Sent (Some b) (EditTrackers.sort_tiers (zip (seq 0 (length trs)) trs)).*2])) /\
  (EditTrackers.sort_tiers (zip (seq 0 (length trs)) trs)).*2 ≡ₚ trs /\
  (exists w, EditTrackers.steps EditTrackers.create [EditTrackers.Show (Some b); EditTrackers.Ok] =
    Some (w, [EditTrackers.Asked b; EditTrackers.Asked b; EditTrackers.Sent (Some b) []])).
Proof.
  split; [|split].
  - eexists. reflexivity.
  - unfold EditTrackers.sort_tiers. rewrite sort_data_perm, snd_zip; [done|]. by rewrite length_seq.
  - eexists. reflexivity.
Qed.
End trackers.

(** ** What is taken for an address *)

(** Only what begins with one of the three schemes and a name with a dot is taken;
    what is added is a line of the text. *)
Lemma cleaned_lines text u : u ∈ AddTracker.cleaned text -> AddTracker.trackerUrl u = true /\ u ∈ split_on (chr 10) text.
Proof. unfold AddTracker.cleaned. intros [H1 H2]%list_elem_of_In%List.filter_In. split; [done|]. by apply list_elem_of_In. Qed.

Example urls_taken :
  map AddTracker.trackerUrl ["http://t.example/announce"; "UDP://t.example:80"; "https://a-b.example.org/x?y"; "udp://10.0.0.12:80/announce"] =
  [true; true; true; true].
Proof. reflexivity. Qed.

(** A host without a dot, and an address whose numbers end in one digit, are
    left out without a word. *)
Example urls_left_out :
  map AddTracker.trackerUrl ["http://tracker:6969/announce"; "udp://10.0.0.1:80/announce"; " http://t.example/announce"; "ws://t.example"] =
  [false; false; false; false].
Proof. reflexivity. Qed.

(** ** Examples *)

Definition sorted_and_moved : list EditTrackers.event :=
  [EditTrackers.Show (Some "t"); EditTrackers.Answered 0 (Some [EditTrackers.mkt 1 "a"; EditTrackers.mkt 0 "b"]);
   EditTrackers.HeaderClick EditTrackers.Url; EditTrackers.Select 0; EditTrackers.Down].

(** By the addresses a is first; once it is moved down it is last again, by its
    tier. *)
Lemma trackers_in_order_witness :
  exists w os, EditTrackers.steps EditTrackers.create sorted_and_moved = Some (w, os) /\
    in_order (EditTrackers.store w) /\ EditTrackers.url <$> (EditTrackers.store w).*2 = ["b"; "a"].
Proof.
  eexists _, _. split; [reflexivity|]. split; [|reflexivity].
  eapply (trackers_in_order sorted_and_moved); [reflexivity|]. by split.
Defined.

Lemma added_after_all_witness :
  let w := EditTrackers.onRequestComplete [EditTrackers.mkt 0 "udp://t.example"] EditTrackers.create in
  exists tiers, (EditTrackers.store (EditTrackers.onAddTrackers ["udp://t.example"] w)).*2 =
    (EditTrackers.store w).*2 ++ zip_with EditTrackers.mkt tiers ["udp://t.example"] /\ length tiers = 1.
Proof.
  destruct (added_after_all ["udp://t.example"] (EditTrackers.onRequestComplete [EditTrackers.mkt 0 "udp://t.example"] EditTrackers.create))
    as (tiers & E & Hl & _); [apply answer_ok|]. exists tiers. by split.
Defined.
