(* ===== verification/StatusBar.v ===== *)
(** * The status bar

    What the bar says of a poll ([Statusbar.js]), the menus that set the limits
    from it ([StatusbarMenu.js], [OtherLimitWindow.js]), and, with [DaemonConfig],
    what the daemon does with a limit that is set. *)

From stdpp Require Import base list strings.
From Stdlib Require Import Lia ZArith.
From S2P Require Import Prelude JsNum JsString JsValue Integers ExtCore Fields Settings DaemonConfig Formatters.

Local Open Scope nat_scope.

(** ** The bar *)

Module Bar.
Section bar.
(** The translation, and the clock in seconds *)
Context (tr : string -> string).

(** A button, and the bar: the buttons once they were made, whether they were,
    and the status at its left. *)
Record item := mki { text : string; hidden : bool; disabled : bool }.
Record state := mk { items : obj item; created : bool; connected : bool }.
Definition create : state := mk [] false false.

Definition on_item (name : string) (f : item -> item) (s : state) : option state :=
  i ← oget name (items s); Some (mk (oset name (f i) (items s)) (created s) (connected s)).
Definition setText (t : string) (i : item) : item := mki t (hidden i) (disabled i).
Definition show (i : item) : item := mki (text i) false (disabled i).
Definition hide (i : item) : item := mki (text i) true (disabled i).

(** [createButtons] *)
Definition counters : list string := ["statusbar-idle"; "statusbar-lowspace"].
Definition names : list string :=
  ["statusbar-connections"; "statusbar-downspeed"; "statusbar-upspeed"; "statusbar-traffic"; "statusbar-externalip"; "statusbar-dht";
   "statusbar-idle"; "statusbar-lowspace"; "statusbar-freespace"].
Definition createButtons (s : state) : state :=
  mk (map (fun n => (n, mki " " (bool_decide (n ∈ counters)) false)) names) true (connected s).

(** [onConnect] and [onDisconnect] *)
Definition each_item (f : item -> item) (s : state) : state := mk (map (prod_map id f) (items s)) (created s) (connected s).
Definition onConnect (s : state) : state :=
  let s := mk (items s) (created s) true in
  if created s then each_item (fun i => mki (text i) false false) s else createButtons s.
Definition onDisconnect (s : state) : state :=
  each_item (fun i => mki (text i) true true) (mk (items s) (created s) false).

(** [showCount] and [updateIdleCount], given two fields of the torrents listed *)
Definition showCount (count : nat) (i : item) : item :=
  if decide (0 < count) then show (setText (num_str (of_Z (Z.of_nat count))) i) else hide i.
Definition number_or_0 (v : prim) : num := let n := to_number v in if truthy (PNum n) then n else of_Z 0.
Definition held (now : num) (torrents : list (prim * prim)) : nat :=
  length (List.filter (fun t => num_ltb now (number_or_0 t.1)) torrents).
Definition stopped (torrents : list (prim * prim)) : nat := length (List.filter (fun t => truthy t.2) torrents).
Definition updateIdleCount (now : num) (torrents : list (prim * prim)) (s : state) : state :=
  match oget "statusbar-idle" (items s), oget "statusbar-lowspace" (items s) with
  | Some _, Some _ =>
      default s (s ← on_item "statusbar-idle" (showCount (held now torrents)) s;
                 on_item "statusbar-lowspace" (showCount (stopped torrents)) s)
  | _, _ => s
  end.

(** [updateStat], with the two formatters *)
Definition addSpeed (v : prim) : string := to_str v +:+ " KiB/s".
Definition speed (v : prim) : string := Fmt.speed v true.
Definition stat_text (fmt : string) (value_fmt limit_fmt : prim -> string) (value limit : prim) : string :=
  if prim_ltb (pint 0) limit then format fmt [value_fmt value; limit_fmt limit] else value_fmt value.

(** [update]: [None] is the [TypeError] where the bar has no buttons. *)
Definition stat (k : string) (stats : Json.dict) : prim := Json.prim_of (Json.get k stats).
Definition texts (stats : Json.dict) : list (string * string) :=
  [("statusbar-connections", stat_text "{0} ({1})" to_str to_str (stat "num_connections" stats) (stat "max_num_connections" stats));
   ("statusbar-downspeed", stat_text "{0} ({1})" speed addSpeed (stat "download_rate" stats) (stat "max_download" stats));
   ("statusbar-upspeed", stat_text "{0} ({1})" speed addSpeed (stat "upload_rate" stats) (stat "max_upload" stats));
   ("statusbar-traffic", stat_text "{0}/{1}" speed speed (stat "download_protocol_rate" stats) (stat "upload_protocol_rate" stats));
   ("statusbar-dht", to_str (stat "dht_nodes" stats));
   ("statusbar-freespace", if prim_leb (pint 0) (stat "free_space" stats) then Fmt.size (stat "free_space" stats) false else tr "Error");
   ("statusbar-externalip",
    format (tr "<b>IP</b> {0}") [if truthy (stat "external_ip" stats) then to_str (stat "external_ip" stats) else tr "n/a"])].
Definition write (ts : list (string * string)) (s : state) : option state :=
  foldl (fun o t => s ← o; on_item t.1 (setText t.2) s) (Some s) ts.
Definition update (now : num) (torrents : list (prim * prim)) (stats : option Json.dict) (s : state) : option state :=
  let s := updateIdleCount now torrents s in
  match stats with
  | None => Some s
  | Some stats => write (texts stats) s
  end.
End bar.
End Bar.

(** ** The menus of limits *)

Module LimitMenu.

(** An item: its value, and whether it is checked. *)
Record item := mk { value : string; checked : bool }.

(** The window for another limit: the key it sets and its spinner. *)
Record other := mko { group : string; limit : NumberField.state; open : bool }.

(** The menu: its key, its items, [value], the window, and the calls in
    flight. *)
Record state := mks { key : string; items : list item; shown : prim; otherWin : other; flight : nat }.
Definition unchecked (values : list string) : list item := map (fun v => mk v false) values.
Definition create (key : string) (values : list string) : state :=
  mks key (unchecked values) PUndef
    (mko "" (NumberField.mk 2 (num_opp max_value) max_value PUndef false) false) 0.
Definition connections : state := create "max_connections_global" ["50"; "100"; "200"; "300"; "500"; "-1"; "other"].
Definition downspeed : state := create "max_download_speed" ["5"; "10"; "30"; "80"; "300"; "-1"; "other"].
Definition upspeed : state := create "max_upload_speed" ["5"; "10"; "30"; "80"; "300"; "-1"; "other"].

Inductive output := Sent (key : string) (value : Json.json) | Updated.

Definition with_items (l : list item) (s : state) : state := mks (key s) l (shown s) (otherWin s) (flight s).
Definition with_other (o : other) (s : state) : state := mks (key s) (items s) (shown s) o (flight s).

(** [setChecked] of an item of a group, which unchecks the others, and whether
    [checkchange] is fired. *)
Definition setChecked (i : nat) (b : bool) (l : list item) : list item * bool :=
  match l !! i with
  | None => (l, false)
  | Some it =>
      if Bool.eqb (checked it) b then (l, false)
      else (imap (fun j it => if decide (j = i) then mk (value it) b else if b then mk (value it) false else it) l, true)
  end.

(** [setValue]: the loop, then the item for other values *)
Fixpoint set_loop (v : prim) (n i : nat) (l : list item) (set : bool) : list item * bool :=
  match n with
  | O => (l, set)
  | S n =>
      let same := match l !! i with Some it => loose_eq (PStr (value it)) v | None => false end in
      set_loop v n (S i) (setChecked i same l).1 (set || same)
  end.
Definition other_at (l : list item) : option nat := fst <$> list_find (fun it => value it = "other") l.
Definition setValue (v : prim) (s : state) : state :=
  let v := if loose_eq v (pint 0) then pint (-1) else v in
  let '(l, been_set) := set_loop v (length (items s)) 0 (items s) false in
  let l := if been_set then l else match other_at l with Some i => (setChecked i true l).1 | None => l end in
  mks (key s) l v (otherWin s) (flight s).

(** [onLimitChanged], when [checkchange] is fired *)
Definition send (v : Json.json) (k : string) (s : state) : state * list output :=
  (mks (key s) (items s) (shown s) (otherWin s) (S (flight s)), [Sent k v]).
Definition onLimitChanged (it : item) (s : state) : state * list output :=
  if negb (checked it) || bool_decide (value it = "other") then (s, []) else send (jstr (value it)) (key s) s.

(** [onOtherClicked], and a click on an item: one that is checked stays so. *)
Definition onOtherClicked (s : state) : state :=
  with_other (mko (key s) (NumberField.setValue (shown s) (limit (otherWin s))) true) s.
Definition click (i : nat) (s : state) : state * list output :=
  match items s !! i with
  | None => (s, [])
  | Some it =>
      let s := if decide (value it = "other") then onOtherClicked s else s in
      if checked it then (s, [])
      else let '(l, fired) := setChecked i true (items s) in
           let s := with_items l s in
           if fired && negb (bool_decide (value it = "other")) then onLimitChanged (mk (value it) true) s else (s, [])
  end.

(** The window: what is typed, [onOkClick], which sends the text of its field,
    and [onCancelClick] *)
Definition type_other (t : string) (s : state) : state :=
  with_other (mko (group (otherWin s)) (NumberField.with_value (limit (otherWin s)) (PStr t)) (open (otherWin s))) s.
Definition onOkClick (s : state) : state * list output :=
  let o := otherWin s in
  let s := with_other (mko (group o) (limit o) false) s in
  send (jstr (to_str (NumberField.value (limit o)))) (group o) s.
Definition onCancelClick (s : state) : state :=
  let o := otherWin s in with_other (mko (group o) (NumberField.setValue PUndef (limit o)) false) s.

Inductive event := Polled (limit : prim) | Click (i : nat) | Typed (t : string) | OtherOk | OtherCancel | Answered (ok : bool).
Definition step (s : state) (e : event) : option (state * list output) :=
  match e with
  | Polled v => Some (setValue v s, [])
  | Click i => Some (click i s)
  | Typed t => if open (otherWin s) then Some (type_other t s, []) else None
  | OtherOk => if open (otherWin s) then Some (onOkClick s) else None
  | OtherCancel => if open (otherWin s) then Some (onCancelClick s, []) else None
  | Answered ok =>
      match flight s with
      | O => None
      | S n => Some (mks (key s) (items s) (shown s) (otherWin s) n, if ok then [Updated] else [])
      end
  end.
Definition steps : state -> list event -> option (state * list output) := run step.

End LimitMenu.

(** ** The buttons *)

Section bar.
Context (tr : string -> string).
Implicit Types (s : Bar.state).

Definition bar_ok s : Prop := (Bar.items s).*1 = if Bar.created s then Bar.names else [].

Lemma oset_there {A} k (v : A) o : k ∈ o.*1 -> (oset k v o).*1 = o.*1.
Proof.
  induction o as [|[k' w] o IH]; cbn; [by intros ?%elem_of_nil|]. destruct (decide (k' = k)) as [->|Hn]; cbn.
  - by rewrite decide_True.
  - rewrite decide_False by done. intros [?|Hk]%elem_of_cons; [congruence|]. cbn. by rewrite IH.
Qed.

Lemma on_item_there n f s : n ∈ (Bar.items s).*1 ->
  exists s' i, Bar.on_item n f s = Some s' /\ (Bar.items s').*1 = (Bar.items s).*1 /\ Bar.created s' = Bar.created s /\
    oget n (Bar.items s) = Some i /\ oget n (Bar.items s') = Some (f i) /\
    (forall m, m <> n -> oget m (Bar.items s') = oget m (Bar.items s)).
Proof.
  intros Hn. destruct (proj2 (oget_is_Some n (Bar.items s)) Hn) as [i Hi]. unfold Bar.on_item. rewrite Hi.
  eexists _, i. split; [reflexivity|]. cbn. split; [by apply oset_there|]. split; [done|]. split; [done|].
  split; [apply oget_oset_eq|]. intros m Hm. by apply oget_oset_ne.
Qed.

Lemma all_texts ts s : bar_ok s -> Bar.created s = true -> Forall (fun t => t.1 ∈ Bar.names) ts ->
  exists s', Bar.write ts s = Some s' /\ bar_ok s' /\ Bar.created s' = true /\
    forall m, m ∉ ts.*1 -> oget m (Bar.items s') = oget m (Bar.items s).
Proof.
  intros Hs Hc H. revert s Hs Hc. unfold Bar.write. induction H as [|t ts Ht _ IH]; intros s Hs Hc; [by exists s|]. cbn [foldl mbind option_bind].
  unfold bar_ok in Hs. rewrite Hc in Hs.
  destruct (on_item_there t.1 (Bar.setText t.2) s) as (s1 & i & -> & Hk & Hc1 & _ & _ & Ho); [by rewrite Hs|].
  destruct (IH s1) as (s2 & E & Hs2 & Hc2 & Ho2); [|by rewrite Hc1|].
  - unfold bar_ok. by rewrite Hc1, Hc, Hk.
  - exists s2. split; [done|]. split; [done|]. split; [done|]. intros m Hm. cbn in Hm. apply not_elem_of_cons in Hm as [Hm1 Hm2].
    rewrite Ho2, Ho by done. done.
Qed.

Lemma nothing_written stats s : Bar.items s = [] -> Bar.write (Bar.texts tr stats) s = None.
Proof.
  intros Hn. unfold Bar.write, Bar.texts. cbn [foldl mbind option_bind fst]. unfold Bar.on_item at 1 2 3 4 5 6 7. rewrite Hn. done.
Qed.

(** A counter that shows [n]: it is hidden where that is zero. *)
Definition counts (n : nat) (i : option Bar.item) : Prop :=
  exists i', i = Some i' /\ if decide (n = 0) then Bar.hidden i' = true else Bar.hidden i' = false /\ Bar.text i' = num_str (of_Z (Z.of_nat n)).

Lemma showCount_counts n i : counts n (Some (Bar.showCount n i)).
Proof. exists (Bar.showCount n i). split; [done|]. unfold Bar.showCount. repeat case_decide; try lia; done. Qed.

Lemma counted now ts s : bar_ok s -> Bar.created s = true ->
  let s' := Bar.updateIdleCount now ts s in
  bar_ok s' /\ Bar.created s' = true /\
  counts (Bar.held now ts) (oget "statusbar-idle" (Bar.items s')) /\ counts (Bar.stopped ts) (oget "statusbar-lowspace" (Bar.items s')).
Proof.
  intros Hs Hc. unfold bar_ok in Hs. rewrite Hc in Hs. cbv zeta. unfold Bar.updateIdleCount.
  destruct (on_item_there "statusbar-idle" (Bar.showCount (Bar.held now ts)) s) as (s1 & i & E1 & Hk1 & Hc1 & Hi & Hi1 & Ho1).
  { rewrite Hs. apply (bool_decide_unpack _). by vm_compute. }
  destruct (on_item_there "statusbar-lowspace" (Bar.showCount (Bar.stopped ts)) s1) as (s2 & j & E2 & Hk2 & Hc2 & Hj & Hj2 & Ho2).
  { rewrite Hk1, Hs. apply (bool_decide_unpack _). by vm_compute. }
  rewrite Ho1 in Hj by done. rewrite Hi, Hj, E1. cbn [mbind option_bind]. rewrite E2. cbn [default from_option].
  change (id s2) with s2. split.
  - unfold bar_ok. by rewrite Hc2, Hc1, Hc, Hk2, Hk1, Hs.
  - split; [by rewrite Hc2, Hc1|]. split; [|rewrite Hj2; apply showCount_counts].
    rewrite Ho2, Hi1 by done. apply showCount_counts.
Qed.

(** What happens to the bar: connecting, disconnecting, and polls, which come
    while it is connected. *)
Inductive bar_event := Connect | Disconnect | Poll (now : num) (torrents : list (prim * prim)) (stats : option Json.dict).
Definition bar_step s (e : bar_event) : option (Bar.state * list unit) :=
  match e with
  | Connect => Some (Bar.onConnect s, [])
  | Disconnect => Some (Bar.onDisconnect s, [])
  | Poll now ts stats => s ← Bar.update tr now ts stats s; Some (s, [])
  end.

Lemma each_names f s : (Bar.items (Bar.each_item f s)).*1 = (Bar.items s).*1.
Proof. unfold Bar.each_item. cbn. induction (Bar.items s) as [|[k i] l IH]; [done|]. cbn. by rewrite IH. Qed.

Lemma bar_kept s : bar_ok s -> bar_ok (Bar.onConnect s) /\ Bar.created (Bar.onConnect s) = true /\ bar_ok (Bar.onDisconnect s) /\
  Bar.created (Bar.onDisconnect s) = Bar.created s.
Proof.
  unfold bar_ok. intros Hs. unfold Bar.onConnect, Bar.onDisconnect. cbn [Bar.created]. split_and!; try done.
  - destruct (Bar.created s) eqn:Hc; [|done]. rewrite each_names. cbn [Bar.each_item Bar.created Bar.items]. exact Hs.
  - by destruct (Bar.created s).
  - rewrite each_names. exact Hs.
Qed.

Lemma texts_names stats : Forall (fun t => t.1 ∈ Bar.names) (Bar.texts tr stats).
Proof. unfold Bar.texts. repeat constructor; apply (bool_decide_unpack _); by vm_compute. Qed.

Lemma updated now ts stats s : bar_ok s -> Bar.created s = true ->
  exists s', Bar.update tr now ts stats s = Some s' /\ bar_ok s' /\ Bar.created s' = true /\
    counts (Bar.held now ts) (oget "statusbar-idle" (Bar.items s')) /\ counts (Bar.stopped ts) (oget "statusbar-lowspace" (Bar.items s')).
Proof.
  intros Hs Hc. destruct (counted now ts s Hs Hc) as (H1 & H2 & H3 & H4). unfold Bar.update. destruct stats as [stats|]; [|by eexists].
  destruct (all_texts (Bar.texts tr stats) _ H1 H2 (texts_names stats)) as (s' & E & H5 & H6 & H7). exists s'.
  split; [exact E|]. split; [done|]. split; [done|].
  assert (forall n, bool_decide (n ∈ Bar.counters) = true -> n ∉ (Bar.texts tr stats).*1) as Hn.
  { intros n Hn. apply bool_decide_eq_true in Hn. change ((Bar.texts tr stats).*1) with
      ["statusbar-connections"; "statusbar-downspeed"; "statusbar-upspeed"; "statusbar-traffic"; "statusbar-dht"; "statusbar-freespace"; "statusbar-externalip"].
    apply elem_of_cons in Hn as [->|Hn]; [|apply list_elem_of_singleton in Hn as ->]; by apply (bool_decide_unpack _); vm_compute. }
  rewrite !H7 by (by apply Hn). done.
Qed.

(** Once it has connected the bar can show any poll, whatever
    disconnects and connects meanwhile, and each counter then shows how many
    torrents its rule holds, and nothing where it holds none. *)
Theorem bar_shows_polls es s os now ts stats :
  run bar_step Bar.create es = Some (s, os) -> Connect ∈ es ->
  exists s', Bar.update tr now ts stats s = Some s' /\
    counts (Bar.held now ts) (oget "statusbar-idle" (Bar.items s')) /\
    counts (Bar.stopped ts) (oget "statusbar-lowspace" (Bar.items s')).
Proof.
  intros Hs He. assert (bar_ok s /\ (Connect ∈ es -> Bar.created s = true)) as [Hok Hc].
  { clear He. revert es s os Hs. refine (run_ind bar_step (fun s es _ => bar_ok s /\ (Connect ∈ es -> Bar.created s = true)) _ _ _).
    - split; [done|]. by intros ?%elem_of_nil.
    - intros es s1 os1 e s2 os2 _ [Hok Hc] Hst. rewrite elem_of_app, list_elem_of_singleton.
      destruct (bar_kept s1 Hok) as (K1 & K2 & K3 & K4). destruct e as [| |now' ts' stats']; cbn in Hst.
      + injection Hst as <- <-. by split.
      + injection Hst as <- <-. split; [done|]. rewrite K4. intros [H|H]; [by apply Hc|done].
      + destruct (Bar.created s1) eqn:Hcr.
        * destruct (updated now' ts' stats' s1 Hok Hcr) as (s3 & E & H1 & H2 & _). rewrite E in Hst. injection Hst as <- <-. by split.
        * assert (Bar.items s1 = []) as Hn.
          { unfold bar_ok in Hok. rewrite Hcr in Hok. by destruct (Bar.items s1). }
          unfold Bar.update, Bar.updateIdleCount in Hst. rewrite Hn in Hst. cbn [oget] in Hst. destruct stats' as [stats'|].
          -- by rewrite nothing_written in Hst.
          -- injection Hst as <- <-. split; [done|]. intros [H|H]; [|done]. specialize (Hc H). congruence. }
  destruct (updated now ts stats s Hok (Hc He)) as (s' & E & _ & _ & H). eauto.
Qed.
End bar.

(** ** The item that is checked *)

Section menu.
Implicit Types (l : list LimitMenu.item) (s : LimitMenu.state) (v : prim).

Definition values l : list string := LimitMenu.value <$> l.
Definition same v (it : LimitMenu.item) : bool := loose_eq (PStr (LimitMenu.value it)) v.

Lemma setChecked_values i b l : values (LimitMenu.setChecked i b l).1 = values l.
Proof.
  unfold LimitMenu.setChecked. destruct (l !! i) as [it|] eqn:E; [|done]. destruct (Bool.eqb _ _); [done|]. unfold values. cbn [fst].
  apply list_eq. intros j. rewrite !list_lookup_fmap, list_lookup_imap. destruct (l !! j) as [jt|] eqn:Ej; [|done].
  cbn. f_equal. case_decide as Hj; [subst; by rewrite E in Ej; injection Ej as ->|]. by destruct b.
Qed.

(** [setChecked] of item [i]: its own flag, and those of the others, which can
    only be taken off. *)
Lemma setChecked_flag i b l j it :
  (LimitMenu.setChecked i b l).1 !! j = Some it ->
  exists jt, l !! j = Some jt /\ LimitMenu.value it = LimitMenu.value jt /\
    (j = i -> LimitMenu.checked it = b) /\
    (j <> i -> LimitMenu.checked it = LimitMenu.checked jt \/ LimitMenu.checked it = false) /\
    (j <> i -> b = false -> LimitMenu.checked it = LimitMenu.checked jt).
Proof.
  unfold LimitMenu.setChecked. destruct (l !! i) as [ii|] eqn:E.
  - destruct (Bool.eqb (LimitMenu.checked ii) b) eqn:Eb; cbn [fst].
    + intros Hj. exists it. apply eqb_prop in Eb. split_and!; [done..| |by left|done]. intros ->. rewrite E in Hj. by injection Hj as <-.
    + rewrite list_lookup_imap. destruct (l !! j) as [jt|] eqn:Ej; [|done]. intros [= <-]. exists jt. split; [done|].
      case_decide as Hj; cbn.
      * subst. rewrite E in Ej. injection Ej as <-. by split_and!.
      * destruct b; cbn; split_and!; try done; intros _; [by right|by left].
  - cbn. intros Hj. exists it. split_and!; [done..| |by left|done]. intros ->. congruence.
Qed.

(** No two items have the value. *)
Definition told_apart v (vs : list string) : Prop :=
  forall i j a b, vs !! i = Some a -> vs !! j = Some b -> loose_eq (PStr a) v = true -> loose_eq (PStr b) v = true -> i = j.

Lemma set_loop_spec v n i l b :
  told_apart v (values l) -> i + n = length l ->
  (forall j it, j < i -> l !! j = Some it -> LimitMenu.checked it = same v it) ->
  values (LimitMenu.set_loop v n i l b).1 = values l /\
  (LimitMenu.set_loop v n i l b).2 = b || existsb (same v) (drop i l) /\
  forall j it, (LimitMenu.set_loop v n i l b).1 !! j = Some it -> LimitMenu.checked it = same v it.
Proof.
  revert i l b. induction n as [|n IH]; intros i l b Hv Hl Hi; cbn [LimitMenu.set_loop].
  - rewrite drop_ge by lia. split; [done|]. split; [by rewrite orb_false_r|]. intros j it Hj. cbn in Hj. apply (Hi j); [|done].
    apply lookup_lt_Some in Hj. lia.
  - destruct (lookup_lt_is_Some_2 l i) as [ii Hii]; [lia|]. rewrite Hii.
    set (s := loose_eq (PStr (LimitMenu.value ii)) v). set (l1 := (LimitMenu.setChecked i s l).1).
    assert (values l1 = values l) as Hv1 by apply setChecked_values.
    assert (length l1 = length l) as Hl1 by (rewrite <- (length_fmap LimitMenu.value l1), <- (length_fmap LimitMenu.value l); fold (values l1); by rewrite Hv1).
    destruct (IH (S i) l1 (b || s)) as (E1 & E2 & E3); [by rewrite Hv1|lia| |].
    + intros j it Hj Hjt. destruct (setChecked_flag i s l j it Hjt) as (jt & Ejt & Eval & H1 & H2 & H3).
      destruct (decide (j = i)) as [->|Hne].
      * rewrite H1 by done. unfold s, same. rewrite Eval. rewrite Hii in Ejt. by injection Ejt as <-.
      * assert (LimitMenu.checked jt = same v jt) as Hc by (apply (Hi j); [lia|done]).
        unfold same. rewrite Eval. fold (same v jt). destruct (same v jt) eqn:Es.
        -- destruct s eqn:Eb; [|by rewrite H3, Hc].
           exfalso. apply Hne. apply (Hv j i (LimitMenu.value jt) (LimitMenu.value ii)); [unfold values; by rewrite list_lookup_fmap, Ejt|
             unfold values; by rewrite list_lookup_fmap, Hii|done|done].
        -- destruct (H2 Hne) as [-> | ->]; done.
    + split; [by rewrite E1|]. split; [|done]. rewrite E2, (drop_S l ii i Hii). cbn [existsb].
      assert (forall a b, values a = values b -> existsb (same v) a = existsb (same v) b) as Hex.
      { induction a as [|x a IHa]; intros [|y c] Hab; try done. injection Hab as Hx Hab. cbn [existsb].
        assert (same v x = same v y) as -> by (unfold same; by rewrite Hx). by rewrite (IHa c). }
      rewrite (Hex (drop (S i) l1) (drop (S i) l)) by (unfold values in *; by rewrite !fmap_drop, Hv1).
      change (same v ii) with s. by rewrite orb_assoc.
Qed.

(** Of numbers that are neither zero nor infinite, [==] is equality. *)
Lemma eqb_finite sg m e (n : num) : num_eqb (SpecFloat.S754_finite sg m e) n = true -> n = SpecFloat.S754_finite sg m e.
Proof.
  unfold num_eqb, SpecFloat.SFeqb. destruct n as [[]|[]| |sg' m' e']; try (by destruct sg).
  cbn [SpecFloat.SFcompare]. destruct sg, sg'; try done;
    destruct (Z.compare e e') eqn:Ee; try done; destruct (Pos.compare_cont Eq m m') eqn:Em; try done; intros _;
    apply Z.compare_eq in Ee; apply Pos.compare_eq in Em; by subst.
Qed.

(** Values that are distinct, as texts and as numbers, none of them zero or
    one. *)
Definition distinct (vs : list string) : bool :=
  bool_decide (NoDup vs) &&
  forallb (fun a => match str_num a with SpecFloat.S754_nan => true | SpecFloat.S754_finite _ _ _ => negb (num_eqb (str_num a) (of_Z 1)) | _ => false end &&
    forallb (fun b => match str_num a with SpecFloat.S754_nan => true | _ => bool_decide (a = b) || negb (bool_decide (str_num a = str_num b)) end) vs) vs.

Lemma distinct_apart vs v : distinct vs = true -> told_apart v vs.
Proof.
  unfold distinct. intros [Hn%bool_decide_eq_true Hd]%andb_true_iff i j a b Hi Hj Ha Hb.
  enough (a = b) as -> by (by eapply NoDup_lookup).
  rewrite forallb_forall in Hd. pose proof (Hd a (proj1 (list_elem_of_In _ _) (list_elem_of_lookup_2 _ _ _ Hi))) as [Ha1 Ha2]%andb_true_iff.
  rewrite forallb_forall in Ha2. specialize (Ha2 b (proj1 (list_elem_of_In _ _) (list_elem_of_lookup_2 _ _ _ Hj))).
  pose proof (Hd b (proj1 (list_elem_of_In _ _) (list_elem_of_lookup_2 _ _ _ Hj))) as [Hb1 _]%andb_true_iff.
  destruct v as [| |c|n|t]; try done.
  - cbn [loose_eq to_number] in Ha, Hb. destruct c.
    + rewrite Ha in Ha1. by destruct (str_num a).
    + destruct (str_num a) as [[]|[]| |sg m e]; try done. apply eqb_finite in Ha. done.
  - cbn [loose_eq to_number] in Ha, Hb. destruct (str_num a) as [[]|[]| |sg m e]; try done. apply eqb_finite in Ha. subst n.
    destruct (str_num b) as [[]|[]| |sg' m' e'] eqn:Eb; try done. apply eqb_finite in Hb. rewrite <- Hb in Ha2.
    apply orb_true_iff in Ha2 as [H%bool_decide_eq_true|H]; [done|]. by rewrite bool_decide_true in H.
  - cbn in Ha, Hb. apply bool_decide_eq_true in Ha, Hb. congruence.
Qed.

(** The menus, in any state. *)
Definition menus : list LimitMenu.state := [LimitMenu.connections; LimitMenu.downspeed; LimitMenu.upspeed].
Lemma menus_distinct m : m ∈ menus -> distinct (values (LimitMenu.items m)) = true /\ "other" ∈ values (LimitMenu.items m).
Proof.
  intros Hm. unfold menus in Hm.
  repeat (apply elem_of_cons in Hm as [->|Hm]; [split; [by vm_compute|apply (bool_decide_unpack _); by vm_compute]|]).
  by apply elem_of_nil in Hm.
Qed.

Lemma setValue_values v s : values (LimitMenu.items (LimitMenu.setValue v s)) = values (LimitMenu.items s).
Proof.
  assert (forall n i l b, values (LimitMenu.set_loop (if loose_eq v (pint 0) then pint (-1) else v) n i l b).1 = values l) as H.
  { induction n as [|n IH]; intros i l b; [done|]. cbn [LimitMenu.set_loop]. by rewrite IH, setChecked_values. }
  unfold LimitMenu.setValue. specialize (H (length (LimitMenu.items s)) 0 (LimitMenu.items s) false).
  destruct (LimitMenu.set_loop _ _ _ _ _) as [l b]. cbn in H. cbn [LimitMenu.items]. destruct b; [done|].
  destruct (LimitMenu.other_at l); [|done]. by rewrite setChecked_values.
Qed.

Lemma step_values s e s' os : LimitMenu.step s e = Some (s', os) -> values (LimitMenu.items s') = values (LimitMenu.items s).
Proof.
  intros Hs. destruct e as [v|i|t| | |ok]; cbn in Hs.
  - injection Hs as <- <-. apply setValue_values.
  - injection Hs as Hs. unfold LimitMenu.click in Hs. destruct (LimitMenu.items s !! i) as [it|]; [|by injection Hs as <- <-].
    set (s1 := if decide _ then _ else s) in Hs. assert (values (LimitMenu.items s1) = values (LimitMenu.items s)) as E1 by (unfold s1; by case_decide).
    destruct (LimitMenu.checked it); [by injection Hs as <- <-|].
    pose proof (setChecked_values i true (LimitMenu.items s1)) as E2. destruct (LimitMenu.setChecked _ _ _) as [l fired]. cbn in E2.
    unfold LimitMenu.onLimitChanged, LimitMenu.send in Hs. destruct (fired && _); [|injection Hs as <- <-; cbn; by rewrite E2].
    destruct (_ || _); injection Hs as <- <-; cbn; by rewrite E2.
  - destruct (LimitMenu.open _); [|done]. by injection Hs as <- <-.
  - destruct (LimitMenu.open _); [|done]. by injection Hs as <- <-.
  - destruct (LimitMenu.open _); [|done]. by injection Hs as <- <-.
  - destruct (LimitMenu.flight s); [done|]. by injection Hs as <- <-.
Qed.

Lemma steps_values m es s os : LimitMenu.steps m es = Some (s, os) -> values (LimitMenu.items s) = values (LimitMenu.items m).
Proof.
  revert es s os. apply (run_ind LimitMenu.step (fun s _ _ => values (LimitMenu.items s) = values (LimitMenu.items m))); [done|].
  intros es s os e s' os' _ IH Hs. rewrite <- IH. by eapply step_values.
Qed.

(** Claim C17.  Whatever was clicked before, a poll leaves one item of a menu of
    limits checked: the one whose value is the limit, where zero is as good as
    none, and the item for other values if there is no such. *)
Theorem limit_is_checked m es s os v i it :
  m ∈ menus -> LimitMenu.steps m es = Some (s, os) ->
  let v' := if loose_eq v (pint 0) then pint (-1) else v in
  let s' := LimitMenu.setValue v s in
  LimitMenu.items s' !! i = Some it ->
  LimitMenu.checked it = if existsb (fun a => loose_eq (PStr a) v') (values (LimitMenu.items m)) then same v' it
                         else bool_decide (LimitMenu.value it = "other").
Proof.
  intros Hm Hs v' s' Hi. destruct (menus_distinct m Hm) as [Hd Ho]. rewrite <- (steps_values _ _ _ _ Hs) in *.
  pose proof (distinct_apart _ v' Hd) as Ha. unfold s', LimitMenu.setValue in Hi. fold v' in Hi.
  destruct (set_loop_spec v' (length (LimitMenu.items s)) 0 (LimitMenu.items s) false Ha eq_refl) as (E1 & E2 & E3); [by intros j jt ?%Nat.nlt_0_r|].
  destruct (LimitMenu.set_loop _ _ _ _ _) as [l b]. cbn [fst snd] in *. rewrite drop_0 in E2. cbn [orb] in E2.
  assert (existsb (fun a => loose_eq (PStr a) v') (values (LimitMenu.items s)) = b) as ->.
  { rewrite E2. unfold values. clear. induction (LimitMenu.items s) as [|x l IH]; [done|]. cbn [fmap list_fmap existsb]. by rewrite IH. }
  cbn [LimitMenu.items] in Hi. destruct b; [by apply E3 in Hi|].
  assert (forall j jt, l !! j = Some jt -> LimitMenu.checked jt = false) as Hno.
  { intros j jt Hj. rewrite (E3 j jt Hj). symmetry in E2. destruct (same v' jt) eqn:Es; [|done]. exfalso.
    assert (values (LimitMenu.items s) !! j = Some (LimitMenu.value jt)) as Hv by (rewrite <- E1; unfold values; by rewrite list_lookup_fmap, Hj).
    unfold values in Hv. rewrite list_lookup_fmap in Hv. destruct (LimitMenu.items s !! j) as [kt|] eqn:Ek; [|done]. injection Hv as Hv.
    assert (existsb (same v') (LimitMenu.items s) = true) as Hx; [|congruence].
    apply existsb_exists. exists kt. split; [by eapply list_elem_of_In, list_elem_of_lookup_2|]. unfold same in *. by rewrite Hv. }
  assert (exists o ot, LimitMenu.other_at l = Some o /\ l !! o = Some ot /\ LimitMenu.value ot = "other") as (o & ot & Eo & Hlo & Hvo).
  { rewrite <- E1 in Ho. apply list_elem_of_fmap in Ho as (ot & Hv & Hot).
    destruct (list_find_elem_of (fun it => LimitMenu.value it = "other") l ot Hot (eq_sym Hv)) as [[o ot'] Hf].
    exists o, ot'. unfold LimitMenu.other_at. rewrite Hf. apply list_find_Some in Hf as (? & ? & _). done. }
  rewrite Eo in Hi. destruct (setChecked_flag o true l i it Hi) as (jt & Ej & Ev & H1 & H2 & _).
  destruct (decide (i = o)) as [->|Hne].
  - rewrite H1 by done. rewrite Hlo in Ej. injection Ej as <-. rewrite Ev, Hvo. done.
  - assert (LimitMenu.checked it = false) as -> by (destruct (H2 Hne) as [-> | ->]; [by eapply Hno|done]).
    symmetry. apply bool_decide_eq_false. rewrite Ev. intros Hv. apply Hne.
    assert (NoDup (values l)) as Hnd by (rewrite E1; unfold distinct in Hd; by apply andb_true_iff in Hd as [Hd%bool_decide_eq_true _]).
    eapply NoDup_lookup; [exact Hnd|unfold values; rewrite list_lookup_fmap, Ej; cbn; by rewrite Hv|unfold values; rewrite list_lookup_fmap, Hlo; cbn; by rewrite Hvo].
Qed.

(** ** What a menu sets *)

Lemma sent_texts s e s' os k (x : Json.json) : LimitMenu.step s e = Some (s', os) -> LimitMenu.Sent k x ∈ os -> exists t, x = jstr t.
Proof.
  intros Hs Hin. destruct e as [w|i|t| | |ok]; cbn in Hs.
  - injection Hs as <- <-. by apply elem_of_nil in Hin.
  - injection Hs as Hs. unfold LimitMenu.click in Hs. destruct (LimitMenu.items s !! i) as [it|]; [|injection Hs as <- <-; by apply elem_of_nil in Hin].
    destruct (LimitMenu.checked it); [injection Hs as <- <-; by apply elem_of_nil in Hin|].
    destruct (LimitMenu.setChecked _ _ _) as [l fired]. unfold LimitMenu.onLimitChanged, LimitMenu.send in Hs.
    destruct (fired && _); [|injection Hs as <- <-; by apply elem_of_nil in Hin].
    destruct (_ || _); injection Hs as <- <-; [by apply elem_of_nil in Hin|]. apply list_elem_of_singleton in Hin. injection Hin as -> ->. eauto.
  - destruct (LimitMenu.open _); [|done]. injection Hs as <- <-. by apply elem_of_nil in Hin.
  - destruct (LimitMenu.open _); [|done]. injection Hs as <- <-. apply list_elem_of_singleton in Hin. injection Hin as -> ->. eauto.
  - destruct (LimitMenu.open _); [|done]. injection Hs as <- <-. by apply elem_of_nil in Hin.
  - destruct (LimitMenu.flight s); [done|]. injection Hs as <- <-. destruct ok; [|by apply elem_of_nil in Hin].
    by apply list_elem_of_singleton in Hin.
Qed.

(** Claim C38.  No limit chosen in the status bar is ever taken: whatever is
    clicked and typed, what a menu sends is a text, which the daemon refuses for
    a setting that is a number. *)
Theorem limits_refused m es s os k (x : Json.json) config n :
  LimitMenu.steps m es = Some (s, os) -> LimitMenu.Sent k x ∈ os -> oget k config = Some (jnum n) ->
  Config.set_config [(k, x)] config = config.
Proof.
  intros Hs Hin Hc. assert (exists t, x = jstr t) as [t ->].
  { revert Hs Hin. revert es s os. refine (run_ind LimitMenu.step (fun s _ os => LimitMenu.Sent k x ∈ os -> exists t, x = jstr t) _ _ _).
    - by intros ?%elem_of_nil.
    - intros es s os e s' os' _ IH Hs [H|H]%elem_of_app; [by apply IH|by eapply sent_texts]. }
  unfold Config.set_config. cbn [foldl fst snd]. unfold Config.set. by rewrite Hc.
Qed.
End menu.

(** ** Examples *)

Lemma bar_shows_polls_witness :
  exists s os s', run (bar_step (fun s => s)) Bar.create [Connect; Disconnect; Connect] = Some (s, os) /\
    Bar.update (fun s => s) (of_Z 100) [(pint 200, PUndef); (pint 50, PBool true)] None s = Some s' /\
    counts 1 (oget "statusbar-idle" (Bar.items s')).
Proof.
  destruct (run (bar_step (fun s => s)) Bar.create [Connect; Disconnect; Connect]) as [[s os]|] eqn:Hs; [|done].
  destruct (bar_shows_polls (fun s => s) [Connect; Disconnect; Connect] s os (of_Z 100) [(pint 200, PUndef); (pint 50, PBool true)] None Hs)
    as (s' & Hu & Hc & _); [by left|].
  exists s, os, s'. split; [done|]. split; [exact Hu|]. exact Hc.
Defined.

Lemma limit_is_checked_witness :
  exists s os it, LimitMenu.steps LimitMenu.downspeed [LimitMenu.Polled (pint 30); LimitMenu.Click 0] = Some (s, os) /\
    LimitMenu.items (LimitMenu.setValue (pint 30) s) !! 2 = Some it /\ LimitMenu.checked it = true.
Proof.
  destruct (LimitMenu.steps LimitMenu.downspeed [LimitMenu.Polled (pint 30); LimitMenu.Click 0]) as [[s os]|] eqn:Hs; [|by vm_compute in Hs].
  destruct (LimitMenu.items (LimitMenu.setValue (pint 30) s) !! 2) as [it|] eqn:Hi.
  - exists s, os, it. split; [done|]. split; [done|].
    rewrite (limit_is_checked LimitMenu.downspeed [LimitMenu.Polled (pint 30); LimitMenu.Click 0] s os (pint 30) 2 it).
    + vm_compute in Hs. injection Hs as <- <-. vm_compute in Hi. injection Hi as <-. vm_compute. reflexivity.
    + by right; left.
    + exact Hs.
    + exact Hi.
  - vm_compute in Hs. injection Hs as <- <-. by vm_compute in Hi.
Defined.

Lemma limits_refused_witness :
  exists s os, LimitMenu.steps LimitMenu.downspeed [LimitMenu.Polled (pint (-1)); LimitMenu.Click 2] = Some (s, os) /\
    LimitMenu.Sent "max_download_speed" (jstr "30") ∈ os /\
    Config.set_config [("max_download_speed", jstr "30")] [("max_download_speed", jint (-1))] = [("max_download_speed", jint (-1))].
Proof.
  eexists _, _. split; [vm_compute; reflexivity|]. split; [by left|].
  eapply (limits_refused LimitMenu.downspeed [LimitMenu.Polled (pint (-1)); LimitMenu.Click 2]).
  - vm_compute. reflexivity.
  - by left.
  - reflexivity.
Defined.
