(* ===== verification/Connections.v ===== *)
(** * The windows of a host

    [Deluge.AddConnectionWindow] and [Deluge.EditConnectionWindow], with what the
    server keeps of the hosts: where they are, and the certificates they are
    pinned to.  The windows, the server and the calls between them are one
    machine: a call is served at one moment and answered at a later one, or is
    lost. *)

From stdpp Require Import base list strings.
From Stdlib Require Import Lia ZArith SpecFloat.
From S2P Require Import Prelude JsNum JsString JsValue ExtCore Fields Settings Register.

Local Open Scope nat_scope.

(** ** What the server keeps *)

Module Hosts.

Record host := mkh { id : string; address : string; port : Z; username : string; password : string }.

(** [hosts] and [web_config] *)
Record state := mk { hosts : list host; web_config : Json.dict }.

(** [as_u64] of a number that was sent, and [u16::try_from] *)
Definition as_u64 (n : num) : option Z :=
  z ← match n with
      | S754_finite s m e => if (0 <=? e)%Z then Some (signed s m * 2 ^ e)%Z else num_int n
      | _ => num_int n
      end;
  if ((0 <=? z) && (z <? 2 ^ 64))%Z then Some z else None.
Definition u16 (z : Z) : option Z := if (z <? 2 ^ 16)%Z then Some z else None.
Definition port_of (n : num) : option Z := u16 (default 58846%Z (as_u64 n)).

(** [web_add_host], with the id it makes; [None] is its error. *)
Definition add_host (fresh address : string) (port : num) (username password : string) (s : state) : option state :=
  if decide (address = "") then None
  else
    p ← port_of port;
    if existsb (fun e => bool_decide (Hosts.address e = address) && (Hosts.port e =? p)%Z) (hosts s) then None
    else Some (mk (hosts s ++ [mkh fresh address p username password]) (web_config s)).

(** [web_edit_host] *)
Fixpoint edit_first (i : string) (f : host -> host) (l : list host) : option (list host) :=
  match l with
  | [] => None
  | e :: l => if decide (id e = i) then Some (f e :: l) else cons e <$> edit_first i f l
  end.
Definition edit_host (i address : string) (port : num) (username password : string) (s : state) : option state :=
  p ← port_of port;
  hs ← edit_first i (fun e => mkh (id e) address p username password) (hosts s);
  Some (mk hs (web_config s)).

(** [web_set_config], and the pins [web_get_config] answers *)
Definition REFUSED_WEB_KEYS : list string := ["interface"; "port"; "https"; "pkey"; "cert"].
Definition set_config (changes : Json.dict) (s : state) : state :=
  mk (hosts s) (foldl (fun c kv => if bool_decide (kv.1 ∈ REFUSED_WEB_KEYS) then c else oset kv.1 kv.2 c) (web_config s) changes).
Definition get_config (s : state) : Json.json := default (Json.JObj []) (oget "daemon_fingerprints" (web_config s)).

(** [pinned_fingerprint], with [hex::decode] of the [hex] crate given: [trim]
    drops one character more than the one of JavaScript. *)
Definition white (c : Ascii.ascii) : bool := is_space c || bool_decide (code c = 133).
Fixpoint trim_start (s : string) : string :=
  match s with
  | String.String c s' => if white c then trim_start s' else s
  | EmptyString => EmptyString
  end.
Definition trim (s : string) : string := str_rev (trim_start (str_rev (trim_start s))).
Definition read_pin (raw : string) : string := to_lower (str_filter (fun c => negb (bool_decide (c = chr 58))) (trim raw)).
Definition pinned_fingerprint (decode : string -> option (list Z)) (s : state) (host_id : string) : option (list Z) :=
  pins ← oget "daemon_fingerprints" (web_config s);
  raw ← match pins with Json.JObj o => oget host_id o | _ => None end;
  raw ← match raw with jstr r => Some r | _ => None end;
  bytes ← decode (read_pin raw);
  if decide (length bytes = 32) then Some bytes else None.

End Hosts.

(** ** The form of both windows *)

Module HostForm.
Section form.

(** The translation *)
Context (tr : string -> string).

Record state := mk {
  host : TextField.state; port : NumberField.state; username : TextField.state; password : TextField.state;
  fingerprint : TextField.state
}.

(** The fields, [58846] in the port; only the window that edits has the last,
    which shows a hint while it is empty. *)
Definition text_field : TextField.state := TextField.mk "" "" false.
Definition create : state :=
  mk text_field (NumberField.setValue (pint 58846) (NumberField.mk 2 (num_opp max_value) max_value PUndef false)) text_field
    text_field (TextField.mk (tr "unpinned") "" false).

(** What is typed in a field that is then left *)
Inductive field := Host | Port | Username | Password | Fingerprint.
Definition typed (t : string) (f : TextField.state) : TextField.state := TextField.setValue t f.
Definition edit (f : field) (t : string) (s : state) : state :=
  match f with
  | Host => mk (typed t (host s)) (port s) (username s) (password s) (fingerprint s)
  | Port => mk (host s) (NumberField.beforeBlur (NumberField.with_value (port s) (PStr t))) (username s) (password s) (fingerprint s)
  | Username => mk (host s) (port s) (typed t (username s)) (password s) (fingerprint s)
  | Password => mk (host s) (port s) (username s) (typed t (password s)) (fingerprint s)
  | Fingerprint => mk (host s) (port s) (username s) (password s) (typed t (fingerprint s))
  end.

(** [applyEmptyText], and [getValues], which reads the inputs as they are: the
    hint too *)
Definition input (f : TextField.state) : string :=
  if decide (TextField.text f = "") then TextField.emptyText f else TextField.text f.
Record values := mkv { v_host : string; v_port : num; v_username : string; v_password : string; v_fingerprint : string }.
Definition getValues (s : state) : values :=
  mkv (input (host s)) (to_number (NumberField.value (port s))) (input (username s)) (input (password s)) (input (fingerprint s)).

End form.
End HostForm.

Module Connections.
Section windows.

Context (tr : string -> string).

(** A row of the list of hosts, as [get_hosts] gave it *)
Record connection := mkc { c_id : string; c_host : string; c_port : prim; c_user : string }.

(** The window that edits: whether it is shown, the form, [host_id] and
    [pins]; and the one that adds. *)
Record editing := mke { shown : bool; form : HostForm.state; host_id : option string; pins : option Json.json }.
Record adding := mka { add_shown : bool; add_form : HostForm.state }.

(** The calls, what they answer, and what else the windows do *)
Inductive call :=
  | GetConfig
  | EditHost (id : string) (v : HostForm.values)
  | SetPins (pins : Json.dict)
  | AddHost (v : HostForm.values).
Inductive answer := Pins (pins : Json.json) | Done.
Inductive output := HostEdited | HostAdded.

(** [value || ''] of what a field is given *)
Definition text_of (v : Json.json) : string := Json.str (Json.or v (jstr "")).
(** [pins[id]] and [Ext.apply({}, pins)], of a dictionary: the server never
    writes another value there. *)
Definition pin_of (i : string) (pins : Json.json) : Json.json := default Json.undef (Json.prop i pins).
Definition copied (pins : Json.json) : Json.dict := match pins with Json.JObj o => o | _ => [] end.

(** [show] *)
Definition show (c : connection) (w : editing) : editing * list call :=
  let f := form w in
  let f := HostForm.mk (TextField.setValue (c_host c) (HostForm.host f)) (NumberField.setValue (c_port c) (HostForm.port f))
             (TextField.setValue (c_user c) (HostForm.username f)) (HostForm.password f)
             (TextField.setValue "" (HostForm.fingerprint f)) in
  (mke true f (Some (c_id c)) (pins w), [GetConfig]).
Definition key (w : editing) : string := default "undefined" (host_id w).
Definition onPins (answered : Json.json) (w : editing) : editing :=
  let ps := Json.or answered (Json.JObj []) in
  let f := form w in
  mke (shown w)
    (HostForm.mk (HostForm.host f) (HostForm.port f) (HostForm.username f) (HostForm.password f)
       (TextField.setValue (text_of (pin_of (key w) ps)) (HostForm.fingerprint f)))
    (host_id w) (Some ps).

(** [onEditClick], [saveFingerprint] with what follows it, and [hide] *)
Definition onEditClick (w : editing) : list call := [EditHost (key w) (HostForm.getValues (form w))].
Definition clean (value : string) : string :=
  to_lower (str_filter (fun c => negb (is_space c || bool_decide (c = chr 58))) value).
Definition saved (i value : string) (old : Json.dict) : Json.dict :=
  let pin := clean value in if decide (pin = "") then odel i old else oset i (jstr pin) old.
Definition saveFingerprint (value : string) (w : editing) : editing * list call :=
  let ps := saved (key w) value (copied (default (Json.JObj []) (pins w))) in
  (mke (shown w) (form w) (host_id w) (Some (Json.JObj ps)), [SetPins ps]).
Definition hide (w : editing) : editing :=
  if shown w then mke false (HostForm.create tr) (host_id w) (pins w) else w.

(** The window that adds *)
Definition onAddClick (w : adding) : list call := [AddHost (HostForm.getValues (add_form w))].
Definition hide_add (w : adding) : adding := if add_shown w then mka false (HostForm.create tr) else w.

(** The windows, the server, and the calls in flight with the answers of those
    that were served; a call that fails has no handler here. *)
Record world := World { edits : editing; adds : adding; server : Hosts.state; flight : list (call * option answer) }.
Definition create (s : Hosts.state) : world :=
  World (mke false (HostForm.create tr) None None) (mka false (HostForm.create tr)) s [].

(** What the server does with a call, given the id of a new host; [None] is an
    error. *)
Definition serve (fresh : string) (c : call) (s : Hosts.state) : option (Hosts.state * answer) :=
  match c with
  | GetConfig => Some (s, Pins (Hosts.get_config s))
  | EditHost i v =>
      s ← Hosts.edit_host i (HostForm.v_host v) (HostForm.v_port v) (HostForm.v_username v) (HostForm.v_password v) s;
      Some (s, Done)
  | SetPins ps => Some (Hosts.set_config [("daemon_fingerprints", Json.JObj ps)] s, Done)
  | AddHost v =>
      s ← Hosts.add_host fresh (HostForm.v_host v) (HostForm.v_port v) (HostForm.v_username v) (HostForm.v_password v) s;
      Some (s, Done)
  end.

(** What the windows do with an answer. *)
Definition onAnswer (c : call) (a : answer) (w : world) : world * list output :=
  match c, a with
  | GetConfig, Pins ps => (World (onPins ps (edits w)) (adds w) (server w) (flight w), [])
  | EditHost _ v, _ =>
      let '(e, cs) := saveFingerprint (HostForm.v_fingerprint v) (edits w) in
      (World (hide e) (adds w) (server w) (flight w ++ ((., None) <$> cs)), [HostEdited])
  | AddHost _, _ => (World (edits w) (hide_add (adds w)) (server w) (flight w), [HostAdded])
  | _, _ => (w, [])
  end.

Inductive event :=
  | Show (c : connection) | Close | Type_ (f : HostForm.field) (t : string) | Edit
  | ShowAdd | CloseAdd | TypeAdd (f : HostForm.field) (t : string) | Add
  | Serve (i : nat) (fresh : string) | Deliver (i : nat) | Lose (i : nat).
Definition step (w : world) (e : event) : option (world * list output) :=
  let asks cs fl := fl ++ ((., None) <$> (cs : list call)) in
  match e with
  | Show c => let '(x, cs) := show c (edits w) in Some (World x (adds w) (server w) (asks cs (flight w)), [])
  | Close => Some (World (hide (edits w)) (adds w) (server w) (flight w), [])
  | Type_ f t =>
      if shown (edits w) then
        let x := edits w in
        Some (World (mke true (HostForm.edit f t (form x)) (host_id x) (pins x)) (adds w) (server w) (flight w), [])
      else None
  | Edit => if shown (edits w) then Some (World (edits w) (adds w) (server w) (asks (onEditClick (edits w)) (flight w)), []) else None
  | ShowAdd => Some (World (edits w) (mka true (add_form (adds w))) (server w) (flight w), [])
  | CloseAdd => Some (World (edits w) (hide_add (adds w)) (server w) (flight w), [])
  | TypeAdd f t =>
      if add_shown (adds w) then Some (World (edits w) (mka true (HostForm.edit f t (add_form (adds w)))) (server w) (flight w), [])
      else None
  | Add => if add_shown (adds w) then Some (World (edits w) (adds w) (server w) (asks (onAddClick (adds w)) (flight w)), []) else None
  | Serve i fresh =>
      '(c, a) ← flight w !! i;
      match a with
      | Some _ => None
      | None =>
          match serve fresh c (server w) with
          | Some (s, a) => Some (World (edits w) (adds w) s (<[i := (c, Some a)]> (flight w)), [])
          | None => Some (World (edits w) (adds w) (server w) (delete i (flight w)), [])
          end
      end
  | Deliver i =>
      '(c, a) ← flight w !! i;
      a ← a;
      Some (onAnswer c a (World (edits w) (adds w) (server w) (delete i (flight w))))
  | Lose i => _ ← flight w !! i; Some (World (edits w) (adds w) (server w) (delete i (flight w)), [])
  end.
Definition steps : world -> list event -> option (world * list output) := run step.

End windows.
End Connections.

(** ** Texts *)

Lemma str_filter_length p s : String.length (str_filter p s) <= String.length s.
Proof. induction s as [|c s IH]; [done|]. cbn. destruct (p c); cbn; lia. Qed.

Lemma str_filter_filter p q s : (forall c, p c = true -> q c = true) -> str_filter p (str_filter q s) = str_filter p s.
Proof.
  intros H. induction s as [|c s IH]; [done|]. cbn [str_filter]. destruct (q c) eqn:Hq.
  - cbn [str_filter]. by rewrite IH.
  - destruct (p c) eqn:Hp; [by rewrite (H c Hp) in Hq|done].
Qed.

Lemma str_filter_filter_r p q s : (forall c, q c = true -> p c = true) -> str_filter p (str_filter q s) = str_filter q s.
Proof.
  intros H. apply str_filter_id. induction s as [|c s IH]; [done|]. cbn [str_filter]. destruct (q c) eqn:Hq; [|done].
  cbn [str_all]. by rewrite (H c Hq).
Qed.

Definition unspaced (s : string) : Prop := str_all (fun c => negb (Hosts.white c)) s = true.

Lemma unspaced_trim s : unspaced s -> Hosts.trim s = s.
Proof.
  assert (forall t, unspaced t -> Hosts.trim_start t = t) as Hl.
  { intros [|c t]; [done|]. unfold unspaced. cbn. by destruct (Hosts.white c). }
  intros H. unfold Hosts.trim. rewrite (Hl s H), Hl, str_rev_involutive; [done|]. unfold unspaced. by rewrite str_all_rev.
Qed.

Lemma str_rev_length s : String.length (str_rev s) = String.length s.
Proof.
  assert (forall a b, String.length (a +:+ b) = String.length a + String.length b) as Happ.
  { induction a as [|c a IH]; intros b; [done|]. by rewrite str_app_cons; cbn; rewrite IH. }
  induction s as [|c s IH]; [done|]. rewrite str_rev_cons, Happ, IH. cbn. lia.
Qed.

Lemma trim_length s : String.length (Hosts.trim s) <= String.length s.
Proof.
  assert (forall t, String.length (Hosts.trim_start t) <= String.length t) as Hl.
  { induction t as [|c t IH]; [done|]. cbn. destruct (Hosts.white c); cbn; lia. }
  unfold Hosts.trim. rewrite str_rev_length. etrans; [apply Hl|]. by rewrite str_rev_length.
Qed.

Lemma read_pin_length s : String.length (Hosts.read_pin s) <= String.length s.
Proof.
  unfold Hosts.read_pin, to_lower. rewrite str_map_length. etrans; [apply str_filter_length|apply trim_length].
Qed.

Lemma clean_length s : String.length (Connections.clean s) <= String.length s.
Proof. unfold Connections.clean, to_lower. rewrite str_map_length. apply str_filter_length. Qed.

Lemma lower_plain c :
  Hosts.white (lower_char c) = Hosts.white c /\ bool_decide (lower_char c = chr 58) = bool_decide (c = chr 58).
Proof.
  pose proof (all_chars_spec (fun c => Bool.eqb (Hosts.white (lower_char c)) (Hosts.white c) &&
    Bool.eqb (bool_decide (lower_char c = chr 58)) (bool_decide (c = chr 58)))) as H.
  specialize (H ltac:(by vm_compute) c). by apply andb_true_iff in H as [?%eqb_prop ?%eqb_prop].
Qed.

Lemma str_filter_lower p s : (forall c, p (lower_char c) = p c) -> str_filter p (to_lower s) = to_lower (str_filter p s).
Proof.
  intros H. unfold to_lower. induction s as [|c s IH]; [done|]. cbn [str_filter str_map]. rewrite H.
  destruct (p c); cbn [str_map]; by rewrite IH.
Qed.

(** A pin without the one space only the server drops is read as it was cleaned. *)
Lemma read_clean s : str_has (chr 133) s = false -> Hosts.read_pin (Connections.clean s) = Connections.clean s.
Proof.
  intros H. assert (unspaced (Connections.clean s)) as Hu.
  { unfold unspaced, Connections.clean. unfold str_has in H. rewrite negb_false_iff in H.
    induction s as [|c s IH]; [done|]. cbn [str_all] in H. apply andb_true_iff in H as [Hc Hs].
    cbn [str_filter]. destruct (negb (is_space c || bool_decide (c = chr 58))) eqn:Hp; [|by apply IH].
    cbn [to_lower str_map str_all]. rewrite (proj1 (lower_plain c)). apply andb_true_iff. split; [|by apply IH].
    unfold Hosts.white. apply negb_true_iff, orb_false_iff in Hp as [-> _]. cbn [orb].
    apply negb_true_iff, bool_decide_eq_false. intros Hn. apply negb_true_iff, bool_decide_eq_false in Hc. apply Hc.
    rewrite <- (Ascii.ascii_nat_embedding c). unfold chr. f_equal. exact Hn. }
  unfold Hosts.read_pin. rewrite (unspaced_trim _ Hu). unfold Connections.clean.
  rewrite str_filter_lower by (intros c; by rewrite (proj2 (lower_plain c))).
  rewrite to_lower_idemp, str_filter_filter_r; [done|]. intros c Hc. by apply negb_true_iff, orb_false_iff in Hc as [_ ->].
Qed.

(** A pin that was written down without spaces is cleaned as the server reads it. *)
Lemma clean_unspaced s : unspaced s -> Connections.clean s = Hosts.read_pin s /\ str_has (chr 133) s = false.
Proof.
  intros H. unfold Hosts.read_pin, Connections.clean. rewrite (unspaced_trim s H). split.
  - f_equal. unfold unspaced in H. induction s as [|c s IH]; [done|]. cbn [str_all] in H. apply andb_true_iff in H as [Hc Hs].
    cbn [str_filter]. unfold Hosts.white in Hc. apply negb_true_iff, orb_false_iff in Hc as [-> _]. cbn [orb].
    by rewrite IH.
  - unfold str_has. apply negb_false_iff. eapply str_all_impl; [|exact H]. intros c Hc.
    apply negb_true_iff, bool_decide_eq_false. intros ->. by vm_compute in Hc.
Qed.

(** ** What an edit does to the pins *)

Section pins.

Context (tr : string -> string) (decode : string -> option (list Z)).

(** What [pinned_fingerprint] makes of a pin, and of a dictionary of pins *)
Definition sha (raw : string) : option (list Z) :=
  bytes ← decode (Hosts.read_pin raw); if decide (length bytes = 32) then Some bytes else None.
Definition pin_in (o : Json.dict) (j : string) : option (list Z) :=
  raw ← oget j o; raw ← match raw with jstr r => Some r | _ => None end; sha raw.
Notation pinned w j := (Hosts.pinned_fingerprint decode (Connections.server w) j).

Lemma pinned_set ps s j :
  Hosts.pinned_fingerprint decode (Hosts.set_config [("daemon_fingerprints", Json.JObj ps)] s) j = pin_in ps j.
Proof.
  assert (bool_decide ("daemon_fingerprints" ∈ Hosts.REFUSED_WEB_KEYS) = false) as Hk by by vm_compute.
  unfold Hosts.pinned_fingerprint, Hosts.set_config. cbn [foldl fst snd Hosts.web_config]. by rewrite Hk, oget_oset_eq.
Qed.

Lemma pin_in_saved i v o j :
  pin_in (Connections.saved i v o) j =
  if decide (j = i) then (if decide (Connections.clean v = "") then None else sha (Connections.clean v)) else pin_in o j.
Proof.
  unfold pin_in, Connections.saved. destruct (decide (Connections.clean v = "")), (decide (j = i)) as [->|Hj].
  - by rewrite oget_odel_eq.
  - by rewrite oget_odel_ne.
  - by rewrite oget_oset_eq.
  - by rewrite oget_oset_ne.
Qed.

(** A pin is in the text of its bytes, two digits each; the hint is no pin. *)
Context (Hdec : forall s b, decode s = Some b -> String.length s = 2 * length b).
Context (Hhint : String.length (tr "unpinned") < 64).

Lemma short_pin s : String.length s < 64 -> sha s = None.
Proof.
  intros H. unfold sha. destruct (decode _) as [b|] eqn:E; [|done]. cbn. apply Hdec in E. pose proof (read_pin_length s).
  case_decide; [lia|done].
Qed.

Lemma saved_pin v :
  (if decide (Connections.clean v = "") then None else sha (Connections.clean v)) = sha (Connections.clean v).
Proof. case_decide as E; [|done]. by rewrite E, short_pin by (cbn; lia). Qed.

(** What the input of the fingerprint is read as *)
Lemma input_pin f :
  TextField.emptyText f = tr "unpinned" ->
  sha (Connections.clean (HostForm.input f)) = sha (Connections.clean (TextField.text f)).
Proof.
  intros Hf. unfold HostForm.input. case_decide as E; [|done]. rewrite Hf, E, !short_pin; [done|cbn; lia|].
  pose proof (clean_length (tr "unpinned")). lia.
Qed.

Lemma clean_one_line t : Connections.clean (TextField.one_line t) = Connections.clean t.
Proof.
  unfold Connections.clean, TextField.one_line. f_equal. apply str_filter_filter. intros c Hc.
  pose proof (all_chars_spec (fun c => (is_space c || bool_decide (c = chr 58)) ||
    negb (bool_decide (c = chr 10)) && negb (bool_decide (c = chr 13))) ltac:(by vm_compute) c) as H. cbv beta in H.
  apply negb_true_iff in Hc. by rewrite Hc in H.
Qed.

(** ** The runs *)

(** What is typed into the window that edits, and the fingerprint among it. *)
Definition typing (ts : list (HostForm.field * string)) : list Connections.event :=
  (fun p => Connections.Type_ p.1 p.2) <$> ts.
Definition fill (f : HostForm.state) (ts : list (HostForm.field * string)) : HostForm.state :=
  foldl (fun f p => HostForm.edit p.1 p.2 f) f ts.
Definition typed_pin (ts : list (HostForm.field * string)) : option string :=
  last (omap (fun p => match p.1 with HostForm.Fingerprint => Some p.2 | _ => None end) ts).

Lemma fill_fingerprint f ts :
  HostForm.fingerprint (fill f ts) =
  match typed_pin ts with Some t => TextField.setValue t (HostForm.fingerprint f) | None => HostForm.fingerprint f end.
Proof.
  unfold fill, typed_pin. induction ts as [|[x t] ts IH] using rev_ind; [done|].
  rewrite foldl_app, omap_app. destruct x; cbn; rewrite ?app_nil_r, ?last_snoc; [exact IH..|].
  rewrite IH. by destruct (last _).
Qed.

Lemma typing_run ts w :
  Connections.shown (Connections.edits w) = true ->
  run (Connections.step tr) w (typing ts) =
  Some (Connections.World (Connections.mke true (fill (Connections.form (Connections.edits w)) ts)
          (Connections.host_id (Connections.edits w)) (Connections.pins (Connections.edits w)))
          (Connections.adds w) (Connections.server w) (Connections.flight w), []).
Proof.
  revert w. induction ts as [|[x t] ts IH]; intros [[sh f h p] a s fl] Hs; cbn in Hs; subst; [done|].
  apply (run_app _ _ [Connections.Type_ x t] (typing ts)).
  pose (w := Connections.World (Connections.mke true (HostForm.edit x t f) h p) a s fl).
  exists w, [], []. split; [reflexivity|]. split; [exact (IH w eq_refl)|done].
Qed.

(** The window is opened and answered. *)
Definition opening c : list Connections.event := [Connections.Show c; Connections.Serve 0 ""; Connections.Deliver 0].
Definition opened c (w : Connections.world) : Connections.world :=
  Connections.World (Connections.onPins (Hosts.get_config (Connections.server w)) (Connections.show c (Connections.edits w)).1)
    (Connections.adds w) (Connections.server w) [].
Lemma opening_run c w :
  Connections.flight w = [] -> run (Connections.step tr) w (opening c) = Some (opened c w, []).
Proof. intros Hf. destruct w as [e a s fl]. cbn in Hf. by subst. Qed.

(** Edit is pressed, and what it asks is served in turn. *)
Definition editing : list Connections.event :=
  [Connections.Edit; Connections.Serve 0 ""; Connections.Deliver 0; Connections.Serve 0 ""].
Lemma editing_run w w' os :
  Connections.flight w = [] -> run (Connections.step tr) w editing = Some (w', os) ->
  forall j, pinned w' j =
    pin_in (Connections.saved (Connections.key (Connections.edits w))
              (HostForm.input (HostForm.fingerprint (Connections.form (Connections.edits w))))
              (Connections.copied (default (Json.JObj []) (Connections.pins (Connections.edits w))))) j.
Proof.
  intros Hf Hr j. destruct w as [[sh f h p] a s fl]. cbn in Hf. subst fl. unfold run, editing in Hr.
  cbn in Hr. destruct sh; [|done]. cbn in Hr. destruct (Hosts.edit_host _ _ _ _ _ _) as [s'|]; [|done].
  cbn in Hr. injection Hr as <- _. cbn [Connections.server]. apply pinned_set.
Qed.

(** ** The theorems *)

(** The hint stays the hint. *)
Definition hint_of (w : Connections.world) : string :=
  TextField.emptyText (HostForm.fingerprint (Connections.form (Connections.edits w))).

Lemma answer_hint c an w : hint_of w = tr "unpinned" -> hint_of (Connections.onAnswer tr c an w).1 = tr "unpinned".
Proof.
  destruct w as [[sh f h p] a s fl]. unfold hint_of. cbn [Connections.edits Connections.form]. intros H.
  destruct c, an; cbn; try exact H; by destruct sh.
Qed.

Lemma hint_kept es s0 w os : Connections.steps tr (Connections.create tr s0) es = Some (w, os) -> hint_of w = tr "unpinned".
Proof.
  apply (run_ind (Connections.step tr) (fun w _ _ => hint_of w = tr "unpinned")); [done|].
  clear. intros _ w _ e w' os _ H Hs. pose proof (fun c an w => answer_hint c an w) as Ha.
  destruct w as [[sh f h p] a s fl]. unfold hint_of in H. cbn [Connections.edits Connections.form] in H.
  destruct e as [c| |x t| | | |x t| |i fresh|i|i]; cbn [Connections.step Connections.edits Connections.flight] in Hs.
  3: destruct sh; [|done]; injection Hs as <- _; by destruct x.
  1-7: cbn in Hs; try match type of Hs with (if ?b then _ else _) = _ => destruct b; [|done] end; injection Hs as <- _; first [exact H | done | by destruct sh].
  all: destruct (fl !! i) as [[c [an|]]|]; cbn in Hs; try done.
  - destruct (Connections.serve fresh c s) as [[s' an]|]; by injection Hs as <- _.
  - specialize (Ha c an (Connections.World (Connections.mke sh f h p) a s (delete i fl)) H).
    destruct (Connections.onAnswer _ _ _ _) as [w1 os1]. by injection Hs as <- _.
  - by injection Hs as <- _.
  - by injection Hs as <- _.
Qed.

(** What [web.conf] holds of a host is a pin as the server reads one, or
    nothing. *)
Definition pin_written (i : string) (s : Hosts.state) : Prop :=
  match oget "daemon_fingerprints" (Hosts.web_config s) with
  | Some (Json.JObj o) => match oget i o with Some (jstr r) => unspaced r | Some _ => False | None => True end
  | Some _ => False
  | None => True
  end.

(** What the window shows of a pin is the pin. *)
Lemma shown_pin f i w :
  TextField.emptyText f = tr "unpinned" -> pin_written i (Connections.server w) ->
  sha (Connections.clean (HostForm.input
    (TextField.setValue (Connections.text_of (Connections.pin_of i (Json.or (Hosts.get_config (Connections.server w)) (Json.JObj [])))) f)))
  = pinned w i.
Proof.
  intros Hf Hw. rewrite input_pin by done. cbn [TextField.setValue TextField.text]. rewrite clean_one_line.
  unfold pin_written, Hosts.get_config, Hosts.pinned_fingerprint in *.
  destruct (oget "daemon_fingerprints" _) as [[| |o]|]; try done; [|change (sha "" = None); by apply short_pin; cbn; lia].
  change (Connections.pin_of i (Json.or (default (Json.JObj []) (Some (Json.JObj o))) (Json.JObj []))) with (default Json.undef (oget i o)).
  cbn [mbind option_bind].
  destruct (oget i o) as [[[| | | |r]| |]|]; try done; [|change (sha "" = None); by apply short_pin; cbn; lia].
  change (default Json.undef (Some (jstr r))) with (jstr r). cbn [mbind option_bind].
  assert (Connections.text_of (jstr r) = r) as ->.
  { unfold Connections.text_of, Json.or. destruct r; done. }
  destruct (clean_unspaced r Hw) as [-> H1]. unfold sha. f_equal. f_equal.
  rewrite <- (proj1 (clean_unspaced r Hw)). by apply read_clean.
Qed.

Lemma copied_pins s j :
  pin_in (Connections.copied (Json.or (Hosts.get_config s) (Json.JObj []))) j = Hosts.pinned_fingerprint decode s j.
Proof.
  unfold Hosts.get_config, Hosts.pinned_fingerprint. destruct (oget _ _) as [[p| |]|]; try done.
  cbn [default mbind option_bind]. unfold Json.or. change (default _ (Some (Json.JPrim p))) with (Json.JPrim p).
  by destruct (Json.truthy _).
Qed.

(** A host is edited: the window is opened and answered, fields are filled, and
    Edit is pressed and served. *)
Definition saving c ts : list Connections.event := opening c ++ typing ts ++ editing.

(** Claim C9.  Whatever was done before, once no call is in flight and the
    configuration holds of the host a pin as the server reads one or none: opening
    the window on a host, having the question about the pins answered, typing and
    pressing Edit, the two calls of which are served and answered in order, pins
    the host to the fingerprint that was typed last, without its spaces and colons
    and in lower case, and to the one it was pinned to if none was typed; every
    other host stays pinned as it was.  Without the answer, or with the window
    opened on another host meanwhile, it is otherwise (below). *)
Theorem edits_keep_pins es s0 w os c ts w' os' j :
  Connections.steps tr (Connections.create tr s0) es = Some (w, os) -> Connections.flight w = [] ->
  pin_written (Connections.c_id c) (Connections.server w) ->
  Connections.steps tr w (saving c ts) = Some (w', os') ->
  pinned w' j = match typed_pin ts with
                | Some t => if decide (j = Connections.c_id c) then sha (Connections.clean t) else pinned w j
                | None => pinned w j
                end.
Proof.
  intros Hh%hint_kept Hf Hp Hr. apply run_app in Hr as (w1 & os1 & os2 & Ho & Hr & _).
  rewrite opening_run in Ho by done. injection Ho as <- _.
  apply run_app in Hr as (w2 & os3 & os4 & Ht & Hr & _). rewrite typing_run in Ht by done. injection Ht as <- _.
  eapply editing_run in Hr; [|done]. rewrite Hr. cbn [Connections.edits Connections.form Connections.pins Connections.key].
  rewrite fill_fingerprint. destruct w as [[sh f h p] a s fl]. cbn in Hh, Hf, Hp. subst fl.
  rewrite pin_in_saved, saved_pin. cbn. rewrite copied_pins.
  destruct (typed_pin ts) as [t|].
  - rewrite input_pin by done. cbn [TextField.setValue TextField.text]. by rewrite clean_one_line.
  - case_decide as Hj; [subst j|done]. by apply (shown_pin _ _ (Connections.World (Connections.mke sh f h p) a s [])).
Qed.

(** Claim C37.  A host that is edited before the answer to the first question about
    the pins is there leaves no other host pinned to anything. *)
Theorem first_edit_unpins s0 c ts w os j :
  Connections.steps tr (Connections.create tr s0)
    ([Connections.Show c] ++ typing ts ++
     [Connections.Edit; Connections.Serve 1 ""; Connections.Deliver 1; Connections.Serve 1 ""]) = Some (w, os) ->
  j <> Connections.c_id c -> pinned w j = None.
Proof.
  intros Hr Hj. apply run_app in Hr as (w1 & os1 & os2 & Ho & Hr & _). injection Ho as <- _.
  apply run_app in Hr as (w2 & os3 & os4 & Ht & Hr & _). rewrite typing_run in Ht by done. injection Ht as <- _.
  unfold run in Hr. cbn in Hr. destruct (Hosts.edit_host _ _ _ _ _ _) as [s'|]; [|done].
  cbn in Hr. injection Hr as <- _. cbn [Connections.server]. rewrite pinned_set, pin_in_saved. by rewrite decide_False.
Qed.

(** When another host is opened before an edit is answered, it is pinned
    to the fingerprint of the first, which stays as it was. *)
Theorem pin_of_another w c c' t w' os j :
  Connections.flight w = [] -> hint_of w = tr "unpinned" ->
  Connections.steps tr w
    (opening c ++ typing [(HostForm.Fingerprint, t)] ++
     [Connections.Edit; Connections.Serve 0 ""; Connections.Show c'; Connections.Deliver 0; Connections.Serve 1 ""]) = Some (w', os) ->
  pinned w' j = if decide (j = Connections.c_id c') then sha (Connections.clean t) else pinned w j.
Proof.
  intros Hf Hh Hr. apply run_app in Hr as (w1 & os1 & os2 & Ho & Hr & _).
  rewrite opening_run in Ho by done. injection Ho as <- _.
  apply run_app in Hr as (w2 & os3 & os4 & Ht & Hr & _). rewrite typing_run in Ht by done.
  apply (inj Some), (f_equal fst) in Ht. cbn [fst] in Ht. subst w2.
  remember (fill _ _) as f1 eqn:Hf1 in Hr. destruct w as [[sh f h p] a s fl]. cbn in Hf, Hh. subst fl.
  unfold run in Hr. cbn in Hr. destruct (Hosts.edit_host _ _ _ _ _ _) as [s'|] eqn:He; [|done].
  cbn in Hr. injection Hr as <- _. cbn [Connections.server]. rewrite pinned_set, pin_in_saved, saved_pin, copied_pins.
  rewrite input_pin by (by rewrite Hf1, fill_fingerprint). rewrite Hf1, fill_fingerprint.
  cbn [typed_pin omap list_omap fst snd last TextField.setValue TextField.text]. rewrite clean_one_line.
  case_decide; [done|].
  unfold Hosts.edit_host in He. destruct (Hosts.port_of _); [|done]. cbn in He.
  destruct (Hosts.edit_first _ _ _); [|done]. by injection He as <-.
Qed.

End pins.

(** ** What else an edit and an addition do *)

Lemma edit_first_elem i f l l' :
  Hosts.edit_first i f l = Some l' -> exists e, e ∈ l /\ Hosts.id e = i /\ f e ∈ l'.
Proof.
  revert l'. induction l as [|e l IH]; intros l' H; [done|]. cbn in H. case_decide as He.
  - injection H as <-. exists e. split_and!; [left|done|left].
  - destruct (Hosts.edit_first i f l) as [l1|]; [|done]. injection H as <-.
    destruct (IH _ eq_refl) as (e1 & ? & ? & ?). exists e1. split_and!; [by right|done|by right].
Qed.

(** The password of a host is not among what the list has of it: an edit that
    does not type it again drops it. *)
Theorem password_dropped tr s0 c w os :
  Connections.steps tr (Connections.create tr s0) (saving c []) = Some (w, os) ->
  exists e, e ∈ Hosts.hosts (Connections.server w) /\ Hosts.id e = Connections.c_id c /\ Hosts.password e = "".
Proof.
  intros Hr. unfold Connections.steps, run in Hr. cbn in Hr. unfold Hosts.edit_host in Hr.
  destruct (Hosts.port_of _) as [p|]; [|done]. cbn in Hr. destruct (Hosts.edit_first _ _ _) as [l|] eqn:He; [|done].
  cbn in Hr. injection Hr as <- _. apply edit_first_elem in He as (e & _ & Hi & He). eexists. by split_and!; [exact He| |].
Qed.

(** A host the server refuses to add leaves the window open, and says nothing. *)
Theorem refused_in_silence tr fresh w :
  let v := HostForm.getValues (Connections.add_form (Connections.adds w)) in
  Connections.add_shown (Connections.adds w) = true -> Connections.flight w = [] ->
  Hosts.add_host fresh (HostForm.v_host v) (HostForm.v_port v) (HostForm.v_username v) (HostForm.v_password v)
    (Connections.server w) = None ->
  Connections.steps tr w [Connections.Add; Connections.Serve 0 fresh] = Some (w, []).
Proof.
  intros v Hs Hf Ha. subst v. destruct w as [x [sh f] s fl]. cbn in Hs, Hf, Ha. subst. unfold Connections.steps, run. cbn.
  by rewrite Ha.
Qed.

(** ** Concrete hosts *)

Fixpoint sample_decode (s : string) : option (list Z) :=
  match s with
  | EmptyString => Some []
  | String.String a (String.String b s') => cons (Z.of_nat (16 * code a + code b)) <$> sample_decode s'
  | _ => None
  end.
Lemma sample_decode_length s b : sample_decode s = Some b -> String.length s = 2 * length b.
Proof.
  revert s b. fix IH 1. intros [|c [|d s]] b H; [by injection H as <-|done|]. cbn in H.
  destruct (sample_decode s) as [b1|] eqn:E; [|done]. injection H as <-. apply IH in E. cbn. lia.
Qed.

Definition digits32 : string := "0123456789abcdef0123456789abcdef".
Definition sample_pin : string := digits32 +:+ digits32.
Definition sample_hosts : Hosts.state :=
  Hosts.mk [Hosts.mkh "a" "10.0.0.1" 58846 "me" "secret"; Hosts.mkh "b" "10.0.0.2" 58846 "me" "secret"]
    [("daemon_fingerprints", Json.JObj [("b", jstr sample_pin)])].
Definition sample_row i : Connections.connection := Connections.mkc i "10.0.0.1" (pint 58846) "me".
Definition typed_text : string := "0123456789ABCDEF:0123456789ABCDEF " +:+ digits32.
Definition pins_after (r : option (Connections.world * list Connections.output)) : option (list (option (list Z))) :=
  (fun x => Hosts.pinned_fingerprint sample_decode (Connections.server x.1) <$> ["a"; "b"]) <$> r.

Lemma edits_keep_pins_witness :
  pins_after (Connections.steps id (Connections.create id sample_hosts)
                (saving (sample_row "a") [(HostForm.Fingerprint, typed_text)])) =
  Some [sha sample_decode (Connections.clean typed_text); sha sample_decode sample_pin].
Proof.
  set (r := Connections.steps _ _ _). destruct r as [[w os]|] eqn:E; [|by vm_compute in E].
  pose proof (edits_keep_pins id sample_decode sample_decode_length ltac:(vm_compute; lia) [] sample_hosts (Connections.create id sample_hosts) []
    (sample_row "a") [(HostForm.Fingerprint, typed_text)] w os) as H.
  unfold pins_after. cbn [fmap option_fmap option_map list_fmap fst]. rewrite (H "a"), (H "b"); [|done..]. done.
Defined.

Lemma first_edit_unpins_witness :
  pins_after (Connections.steps id (Connections.create id sample_hosts)
    [Connections.Show (sample_row "a"); Connections.Edit; Connections.Serve 1 ""; Connections.Deliver 1; Connections.Serve 1 ""])
  = Some [None; None].
Proof.
  set (r := Connections.steps _ _ _). destruct r as [[w os]|] eqn:E; [|by vm_compute in E].
  pose proof (first_edit_unpins id sample_decode sample_hosts (sample_row "a") [] w os "b" E) as H.
  unfold pins_after. cbn [fmap option_fmap option_map list_fmap fst]. rewrite H by done.
  vm_compute in E. injection E as <- _. by vm_compute.
Defined.

Lemma pin_of_another_witness :
  pins_after (Connections.steps id (Connections.create id sample_hosts)
    (opening (sample_row "a") ++ typing [(HostForm.Fingerprint, "00")] ++
     [Connections.Edit; Connections.Serve 0 ""; Connections.Show (sample_row "b"); Connections.Deliver 0; Connections.Serve 1 ""]))
  = Some [None; None].
Proof.
  set (r := Connections.steps _ _ _). destruct r as [[w os]|] eqn:E; [|by vm_compute in E].
  pose proof (pin_of_another id sample_decode sample_decode_length ltac:(vm_compute; lia) (Connections.create id sample_hosts)
    (sample_row "a") (sample_row "b") "00" w os) as H.
  unfold pins_after. cbn [fmap option_fmap option_map list_fmap fst]. rewrite (H "a"), (H "b"); [|done..]. by vm_compute.
Defined.

Lemma password_dropped_witness :
  exists w os, Connections.steps id (Connections.create id sample_hosts) (saving (sample_row "a") []) = Some (w, os) /\
    exists e, e ∈ Hosts.hosts (Connections.server w) /\ Hosts.id e = "a" /\ Hosts.password e = "".
Proof.
  destruct (Connections.steps id (Connections.create id sample_hosts) (saving (sample_row "a") [])) as [[w os]|] eqn:E;
    [|by vm_compute in E].
  exists w, os. split; [done|]. exact (password_dropped id sample_hosts (sample_row "a") w os E).
Defined.
