(* ===== verification/DetailsPanel.v ===== *)
(** * The panel of details, and the tab of the status

    [details/DetailsPanel.js], which tells its five tabs what to show as the
    selection of the list changes ([Ext.grid.RowSelectionModel], several rows at
    a time), and [details/StatusTab.js], the first of them. *)

From stdpp Require Import base list strings.
From Stdlib Require Import Lia ZArith.
From S2P Require Import Prelude JsNum JsString JsValue ExtCore MultiOptionsManager Formatters GridColumns Details StatusBar.

Local Open Scope nat_scope.

Module Panel.

(** What a tab is told *)
Inductive command := Clear | Update (id : string).

(** The rows that are selected, which tabs are greyed, the one that is open, and
    the tabs a [clear] was put off for. *)
Record state := mk { selections : list string; disabled : list bool; active : nat; pending : list nat }.
Definition tabs : nat := 5.
Definition create : state := mk [] (replicate tabs false) 0 [].
Definition with_selections (l : list string) (s : state) : state := mk l (disabled s) (active s) (pending s).

(** [clear]: every tab has one. *)
Definition clear (s : state) : state :=
  mk (selections s) ((fun _ => true) <$> disabled s) (active s) (pending s ++ seq 0 (length (disabled s))).

(** [update], of the tab given or of the one that is open; [getSelected] is the
    first record selected. *)
Definition update (tab : nat) (s : state) : state * list (nat * command) :=
  match selections s with
  | [] => (clear s, [])
  | id :: _ => (mk (selections s) ((fun _ => false) <$> disabled s) (active s) (pending s), [(tab, Update id)])
  end.

(** The listener of [selectionchange] *)
Definition onSelectionChange (s : state) : state := match selections s with [] => clear s | _ => s end.

(** [deselectRow], [clearSelections] and [selectRow] of the selection model; and
    [onRemove], when a row leaves the store *)
Definition deselectRow (id : string) (s : state) : state :=
  onSelectionChange (with_selections (filter (fun i => i <> id) (selections s)) s).
Definition clearSelections (s : state) : state := foldl (fun s id => deselectRow id s) s (selections s).
Definition selectRow (keepExisting : bool) (id : string) (s : state) : state :=
  if keepExisting && bool_decide (id ∈ selections s) then s
  else
    let s := if keepExisting then s else clearSelections s in
    onSelectionChange (with_selections (selections s ++ [id]) s).
Definition onRemove (id : string) (s : state) : state :=
  if decide (id ∈ selections s) then deselectRow id s else s.

(** [handleMouseDown] without shift, and [rowclick] after it *)
Definition handleMouseDown (ctrl : bool) (id : string) (s : state) : state :=
  if ctrl && bool_decide (id ∈ selections s) then deselectRow id s
  else if negb (bool_decide (id ∈ selections s)) || bool_decide (1 < length (selections s)) then selectRow ctrl id s
  else s.
Definition onTorrentsClick (s : state) : state * list (nat * command) := update (active s) s.

(** [onTabChange]: a tab that is greyed cannot be opened. *)
Definition onTabChange (tab : nat) (s : state) : state * list (nat * command) :=
  update tab (mk (selections s) (disabled s) tab (pending s)).

(** A row is clicked, or selected by a key or the menu, or is gone; a tab is
    opened; the list was polled; the daemon is gone; and the time of the first
    [clear] that was put off has come. *)
Inductive event :=
  | Click (ctrl : bool) (id : string) | Select (id : string) | Removed (id : string)
  | TabChange (tab : nat) | Polled | Disconnected | Fire.
Definition step (s : state) (e : event) : option (state * list (nat * command)) :=
  match e with
  | Click ctrl id => Some (onTorrentsClick (handleMouseDown ctrl id s))
  | Select id => Some (selectRow false id s, [])
  | Removed id => Some (onRemove id s, [])
  | TabChange tab => if decide (disabled s !! tab = Some false) then Some (onTabChange tab s) else None
  | Polled => Some (update (active s) s)
  | Disconnected => Some (clear s, [])
  | Fire => match pending s with
            | t :: l => Some (mk (selections s) (disabled s) (active s) l, [(t, Clear)])
            | [] => None
            end
  end.
Definition steps : state -> list event -> option (state * list (nat * command)) := run step.

(** What one tab is told *)
Definition told (tab : nat) (os : list (nat * command)) : list command :=
  omap (fun o => if decide (o.1 = tab) then Some o.2 else None) os.

End Panel.

Module Status.
Section status.

(** The translation, the time zone, and the clock in seconds *)
Context (tr : string -> string) (tz : Z -> Z) (now : num).

(** The fields of the template, once it is loaded, and the value and the text of
    the bar *)
Record state := mk { fields : option (obj string); bar : num * string }.
Definition create : state := mk None (of_Z 0, "").

(** The elements [dd] of [render/tab_status.html], by their class *)
Definition template : list string :=
  ["downloaded"; "uploaded"; "share"; "announce"; "tracker_status"; "downspeed"; "upspeed"; "eta"; "pieces";
   "time_since_transfer"; "seeds"; "peers"; "avail"; "auto_managed"; "last_seen_complete"; "active_time"; "seeding_time";
   "seed_rank"; "time_added"; "completed_time"; "idle_state"; "disk_state"].
Definition onPanelUpdate (s : state) : state := mk (Some ((., "") <$> template)) (bar s).

(** [clear], and [update]: whether it asks; there is no [getFields], so that it
    throws before the template is there. *)
Definition clear (s : state) : state := mk (map (fun p => (p.1, "")) <$> fields s) (of_Z 0, " ").
Definition update (s : state) : bool := match fields s with Some _ => true | None => false end.

(** [idleState]: which of its four sentences, and the sentence *)
Inductive idle := Resumes (secs : num) | Pauses (secs : num) | Waits | NotIdle.
Definition idle_of (resume_at pause_at : prim) : idle :=
  let resumeAt := Bar.number_or_0 resume_at in
  if num_ltb now resumeAt then Resumes (num_round (num_sub resumeAt now))
  else
    let pauseAt := Bar.number_or_0 pause_at in
    if num_ltb now pauseAt then Pauses (num_round (num_sub pauseAt now))
    else if num_ltb (of_Z 0) pauseAt then Waits else NotIdle.
Definition idleState (status : obj prim) : option string :=
  match idle_of (pget "idle_resume_at" status) (pget "idle_pause_at" status) with
  | Resumes n => t ← Fmt.timeRemaining (PNum n); Some (format (tr "Paused, resumes in {0}") [t])
  | Pauses n => t ← Fmt.timeRemaining (PNum n); Some (format (tr "Idle, pauses in {0} if a torrent is waiting") [t])
  | Waits => Some (tr "Idle, pauses as soon as a torrent is waiting")
  | NotIdle => Some (tr "Not idle")
  end.
Definition diskState (status : obj prim) : string :=
  if truthy (pget "space_paused" status) then tr "Waiting for room" else tr "Not held".

(** [v.toFixed(d)] and [v.indexOf]: [None] is the [TypeError] of any other value *)
Definition toFixed (d : nat) (v : prim) : option string := match v with PNum n => Some (to_fixed d n) | _ => None end.
Definition as_text (v : prim) : option string := match v with PStr s => Some s | _ => None end.

Definition gt (v : prim) (z : Z) : bool := num_ltb (of_Z z) (to_number v).
Definition of_total (num total : prim) : prim :=
  if gt total (-1) then PStr (to_str num +:+ " (" +:+ to_str total +:+ ")") else num.
Definition rate (v : prim) : string := if truthy v then Fmt.speed v false else "0.0 KiB/s".
Definition payload (v : prim) : string := " (" +:+ (if truthy v then Fmt.size v false else "0.0 KiB") +:+ ")".

(** What is translated of a tracker's status: the first of these that is in it *)
Definition translated : list string := ["Error"; "Warning"; "Announce OK"; "Announce Sent"].
Definition tracker_text (s : string) : string :=
  match List.find (fun k => str_contains k s) translated with Some k => replace_first k (tr k) s | None => s end.

(** [data] of [onRequestComplete] *)
Definition data (status : obj prim) : option (obj prim) :=
  let get k := pget k status in
  share ← (if loose_eq (get "ratio") (pint (-1)) then Some "&infin;" else toFixed 3 (get "ratio"));
  announce ← Fmt.timeRemaining (get "next_announce");
  eta ← (if num_ltb (to_number (get "eta")) (of_Z 0) then Some "&infin;" else Fmt.timeRemaining (get "eta"));
  avail ← toFixed 3 (get "distributed_copies");
  active ← Fmt.timeRemaining (get "active_time");
  seeding ← Fmt.timeRemaining (get "seeding_time");
  transfer ← Fmt.timeRemaining (get "time_since_transfer");
  idle ← idleState status;
  tracker ← as_text (get "tracker_status");
  Some [("downloaded", PStr (Fmt.size (get "total_done") true +:+ payload (get "total_payload_download")));
        ("uploaded", PStr (Fmt.size (get "total_uploaded") true +:+ payload (get "total_payload_upload")));
        ("share", PStr share); ("announce", PStr announce); ("tracker_status", PStr (tracker_text tracker));
        ("downspeed", PStr (rate (get "download_payload_rate"))); ("upspeed", PStr (rate (get "upload_payload_rate")));
        ("eta", PStr eta);
        ("pieces", PStr (to_str (get "num_pieces") +:+ " (" +:+ Fmt.size (get "piece_length") false +:+ ")"));
        ("seeds", of_total (get "num_seeds") (get "total_seeds")); ("peers", of_total (get "num_peers") (get "total_peers"));
        ("avail", PStr avail); ("active_time", PStr active); ("seeding_time", PStr seeding); ("seed_rank", get "seed_rank");
        ("time_added", PStr (Fmt.date tz (get "time_added")));
        ("last_seen_complete", PStr (if gt (get "last_seen_complete") 0 then Fmt.date tz (get "last_seen_complete") else "Never"));
        ("completed_time", PStr (if gt (get "completed_time") 0 then Fmt.date tz (get "completed_time") else ""));
        ("time_since_transfer", PStr transfer);
        ("auto_managed", PStr (tr (if truthy (get "is_auto_managed") then "True" else "False")));
        ("idle_state", PStr idle); ("disk_state", PStr (diskState status))].

(** What is set as [innerHTML], and [onRequestComplete]: whether it threw, which
    it can after the fields are written. *)
Definition html (v : prim) : string := match v with PNull => "" | v => to_str v end.
Definition write (d : obj prim) (o : obj string) : obj string := map (fun p => (p.1, html (pget p.1 d))) o.
Definition onRequestComplete (status : obj prim) (s : state) : state * bool :=
  match data status with
  | None => (s, true)
  | Some d =>
      let f := write d <$> fields s in
      match toFixed 2 (pget "progress" status) with
      | None => (mk f (bar s), true)
      | Some p =>
          let v := num_div (to_number (pget "progress" status)) (of_Z 100) in
          (mk f (if truthy (PNum v) then v else of_Z 0, to_str (pget "state" status) +:+ " " +:+ p +:+ "%"), false)
      end
  end.

End status.
End Status.

(** ** The tab of the status *)

Lemma prefix_drop k s : String.prefix k s = true -> k +:+ str_drop (String.length k) s = s.
Proof.
  revert s. induction k as [|c k IH]; intros s H; [done|]. destruct s as [|d s]; [done|]. cbn in H.
  destruct (Ascii.ascii_dec c d) as [->|]; [|done]. cbn [String.length str_drop]. rewrite str_app_cons. by rewrite IH.
Qed.

Lemma replace_same k s : replace_first k k s = s.
Proof.
  unfold replace_first. destruct (str_find k s) as [n|] eqn:E; [|done]. revert n E.
  induction s as [|c s IH]; intros n E.
  - cbn in E. destruct k; [|done]. by injection E as <-.
  - cbn [str_find] in E. destruct (String.prefix k (String.String c s)) eqn:Hp.
    + injection E as <-. by apply prefix_drop.
    + destruct (str_find k s) as [m|]; [|done]. injection E as <-.
      cbn [Nat.add String.substring str_drop]. by rewrite str_app_cons, IH.
Qed.

(** Every field of the template is filled from what the tab asks for,
    and nothing else is looked at. *)
Theorem status_asked_and_filled tr tz now status status' s :
  (forall k, k ∈ Keys.Status -> pget k status = pget k status') ->
  Status.onRequestComplete tr tz now status s = Status.onRequestComplete tr tz now status' s /\
  forall d k, Status.data tr tz now status = Some d -> k ∈ Status.template -> is_Some (oget k d).
Proof.
  intros H. split.
  - unfold Status.onRequestComplete, Status.data, Status.idleState, Status.diskState.
    repeat match goal with |- context [pget ?k status] =>
      rewrite (H k) by (apply (bool_decide_unpack _); by vm_compute) end.
    reflexivity.
  - intros d k Hd Hk. unfold Status.data in Hd.
    repeat match type of Hd with (?x ≫= _) = _ => destruct x; [|done]; cbn [mbind option_bind] in Hd end.
    injection Hd as <-. apply oget_is_Some. revert k Hk. apply Forall_forall.
    repeat constructor; apply (bool_decide_unpack _); by vm_compute.
Qed.

Lemma tracker_text_same tr t : Forall (fun k => tr k = k) Status.translated -> Status.tracker_text tr t = t.
Proof.
  intros H. unfold Status.tracker_text. destruct (List.find _ _) as [k|] eqn:E; [|done].
  apply List.find_some in E as [Hk _]. apply list_elem_of_In in Hk. rewrite Forall_forall in H. rewrite (H k Hk).
  apply replace_same.
Qed.

(** What the tracker said is written into the page as it came, markup
    and all. *)
Theorem tracker_text_is_markup tr tz now status s t :
  Forall (fun k => tr k = k) Status.translated ->
  pget "tracker_status" status = PStr t -> is_Some (Status.data tr tz now status) ->
  exists o, Status.fields (Status.onRequestComplete tr tz now status (Status.onPanelUpdate s)).1 = Some o /\
    oget "tracker_status" o = Some t.
Proof.
  intros Htr Ht [d Hd]. exists (Status.write d ((., "") <$> Status.template)). split.
  - unfold Status.onRequestComplete. rewrite Hd. by destruct (Status.toFixed 2 _).
  - unfold Status.data in Hd. rewrite Ht in Hd.
    repeat match type of Hd with (?x ≫= _) = _ => destruct x eqn:?; [|done]; cbn [mbind option_bind] in Hd end.
    injection Hd as <-. cbn in *. simplify_eq. f_equal. by apply tracker_text_same.
Qed.

(** The tab says of a torrent that it resumes by itself exactly when the status
    bar counts it as held. *)
Lemma idle_is_counted now resume_at pause_at space :
  Bar.held now [(resume_at, space)] = 1 <-> exists n, Status.idle_of now resume_at pause_at = Status.Resumes n.
Proof.
  unfold Bar.held, Status.idle_of. cbn. destruct (num_ltb now (Bar.number_or_0 resume_at)); cbn; [naive_solver|].
  split; [done|]. intros [n Hn]. by repeat case_match.
Qed.

Definition sample_state : obj prim :=
  [("ratio", pint 1); ("distributed_copies", pint 2); ("progress", pint 50); ("state", PStr "Seeding");
   ("tracker_status", PStr "Error: <img src=x>")].

Lemma tracker_text_is_markup_witness :
  exists o, Status.fields (Status.onRequestComplete id (fun _ => 0%Z) (of_Z 0) sample_state
              (Status.onPanelUpdate Status.create)).1 = Some o /\
    oget "tracker_status" o = Some "Error: <img src=x>".
Proof.
  apply (tracker_text_is_markup id (fun _ => 0%Z) (of_Z 0) sample_state Status.create).
  - repeat constructor.
  - reflexivity.
  - eexists. vm_compute. reflexivity.
Defined.

Lemma status_asked_and_filled_witness :
  Status.onRequestComplete id (fun _ => 0%Z) (of_Z 0) sample_state Status.create =
  Status.onRequestComplete id (fun _ => 0%Z) (of_Z 0) (("comment", PStr "unasked") :: sample_state) Status.create.
Proof.
  refine (proj1 (status_asked_and_filled id (fun _ => 0%Z) (of_Z 0) sample_state _ Status.create _)).
  apply Forall_forall. repeat constructor.
Defined.

(** ** The panel *)

Section panel.
Implicit Types (s : Panel.state) (os : list (nat * Panel.command)).

Definition framed s : Prop := length (Panel.disabled s) = Panel.tabs /\ Panel.active s < Panel.tabs.

(** Where nothing is selected a tab is blank, or a [clear] of it was put off;
    what it is for a tab to be blank is for who has the tabs to say. *)
Definition panel_ok (blank : nat -> Prop) s : Prop :=
  framed s /\ (Panel.selections s = [] -> forall t, t < Panel.tabs -> t ∈ Panel.pending s \/ blank t).

Lemma panel_clear_ok blank s : framed s -> panel_ok blank (Panel.clear s).
Proof.
  intros [Hl Ha]. split; [split; [by cbn; rewrite length_fmap|done]|]. intros _ t Ht. left. cbn [Panel.clear Panel.pending].
  apply elem_of_app. right. apply elem_of_seq. lia.
Qed.

Lemma selected_ok blank s : framed s -> Panel.selections s <> [] -> panel_ok blank s.
Proof. intros Hf Hs. by split; [|intros ?]. Qed.

Lemma change_ok blank s : framed s -> panel_ok blank (Panel.onSelectionChange s).
Proof.
  intros Hf. unfold Panel.onSelectionChange. destruct (Panel.selections s) eqn:E; [by apply panel_clear_ok|].
  apply selected_ok; [done|]. by rewrite E.
Qed.

Lemma deselect_ok blank id s : framed s -> panel_ok blank (Panel.deselectRow id s).
Proof. intros Hf. by apply change_ok. Qed.

Lemma clear_selections_ok blank s : panel_ok blank s -> panel_ok blank (Panel.clearSelections s).
Proof.
  unfold Panel.clearSelections. generalize (Panel.selections s) at 1. intros l. revert s.
  induction l as [|id l IH]; intros s Hs; [done|]. apply IH, deselect_ok, Hs.
Qed.

Lemma panel_select_ok blank keep id s : panel_ok blank s -> panel_ok blank (Panel.selectRow keep id s).
Proof.
  intros Hs. unfold Panel.selectRow. destruct (keep && _); [done|]. apply change_ok.
  destruct keep; [apply Hs|]. apply (clear_selections_ok blank s Hs).
Qed.

Lemma mouse_ok blank ctrl id s : panel_ok blank s -> panel_ok blank (Panel.handleMouseDown ctrl id s).
Proof.
  intros Hs. unfold Panel.handleMouseDown. repeat case_match; [apply deselect_ok, Hs|by apply panel_select_ok|done].
Qed.

(** What an event of the panel tells the tabs: nothing, and then what is blank
    is as it was; one tab to clear; or one to show a torrent, and one is
    selected. *)
Inductive tells (blank : nat -> Prop) (s : Panel.state) : list (nat * Panel.command) -> Prop :=
  | tells_nothing : panel_ok blank s -> tells blank s []
  | tells_clear t : panel_ok (fun u => u = t \/ blank u) s -> tells blank s [(t, Panel.Clear)]
  | tells_update t id : framed s -> Panel.selections s <> [] -> tells blank s [(t, Panel.Update id)].

Lemma update_tells blank tab s : framed s -> tells blank (Panel.update tab s).1 (Panel.update tab s).2.
Proof.
  intros Hf. unfold Panel.update. destruct (Panel.selections s) eqn:E.
  - by apply tells_nothing, panel_clear_ok.
  - apply tells_update; [|done]. destruct Hf as [Hl Ha]. split; [by cbn; rewrite length_fmap|done].
Qed.

Lemma panel_step_tells blank s e s' os : panel_ok blank s -> Panel.step s e = Some (s', os) -> tells blank s' os.
Proof.
  intros Hok Hs. pose proof (proj1 Hok) as Hf.
  assert (Hu : forall tab s0, framed s0 -> Panel.update tab s0 = (s', os) -> tells blank s' os).
  { intros tab s0 H0 E. pose proof (update_tells blank tab s0 H0) as H. by rewrite E in H. }
  destruct e as [ctrl id|id|id|tab| | |]; cbn [Panel.step] in Hs.
  - injection Hs as Hs. apply (Hu _ _ (proj1 (mouse_ok blank ctrl id s Hok)) Hs).
  - injection Hs as <- <-. by apply tells_nothing, panel_select_ok.
  - injection Hs as <- <-. apply tells_nothing. unfold Panel.onRemove. case_decide; [by apply deselect_ok|done].
  - case_decide as Hd; [|done]. injection Hs as Hs. refine (Hu _ _ _ Hs). split; [apply Hf|]. cbn.
    apply lookup_lt_Some in Hd. destruct Hf as [<- _]. done.
  - injection Hs as Hs. apply (Hu _ _ Hf Hs).
  - injection Hs as <- <-. by apply tells_nothing, panel_clear_ok.
  - destruct (Panel.pending s) as [|u l] eqn:E; [done|]. injection Hs as <- <-. apply tells_clear. split; [done|].
    intros Hsel t Ht. destruct (proj2 Hok Hsel t Ht) as [Hin|]; [|by right; right]. rewrite E in Hin.
    apply elem_of_cons in Hin as [->|]; [by right; left|by left].
Qed.

(** What the tab of the options makes of what it is told *)
Definition told_options (c : Panel.command) : Options.event :=
  match c with Panel.Clear => Options.Clear | Panel.Update id => Options.Update id end.

Lemma update_torrent b w : Options.torrentId (Options.update b w).1 = Some b.
Proof.
  unfold Options.update, Options.changeId. case_decide as H; [done|].
  by destruct (MOM.changeId ∅ (Options.om w) (Some b) false) as [[o es] ?].
Qed.

Lemma options_forget b w :
  b <> "" ->
  exists w' fs, Options.steps w [Options.Update b; Options.Clear] = Some (w', fs) /\
    Options.torrentId w' = None /\ Options.sent (Options.onApply w').2 = [(None, MOM.getDirty (Options.om w'))].
Proof.
  intros Hb. pose proof (update_torrent b w) as Hu. unfold Options.steps, run.
  cbn [foldl mbind option_bind Options.step]. rewrite decide_False by done. cbn [mbind option_bind].
  destruct (Options.update b w) as [w1 os1]. cbn in Hu. cbn [mbind option_bind app].
  unfold Options.clear, Options.changeId. rewrite Hu.
  destruct (MOM.changeId ∅ (Options.om w1) None false) as [[o es] ?]. cbn [mbind option_bind].
  eexists _, _. split_and!; [reflexivity|done|done].
Qed.

(** Claim C40.  A click on another torrent tells the open tab to show it and then,
    a tenth of a second later, to show nothing: until the next poll the tab of the
    options is of no torrent while the list has one selected, and Apply sends its
    options for none. *)
Theorem click_forgets_torrent a b s :
  Panel.selections s = [a] -> a <> b -> b <> "" -> Panel.pending s = [] -> framed s ->
  exists s' os, Panel.steps s (Panel.Click false b :: replicate Panel.tabs Panel.Fire) = Some (s', os) /\
    Panel.selections s' = [b] /\ Panel.disabled s' = replicate Panel.tabs false /\
    Panel.told (Panel.active s) os = [Panel.Update b; Panel.Clear] /\
    forall w, exists w' fs, Options.steps w (told_options <$> Panel.told (Panel.active s) os) = Some (w', fs) /\
      Options.torrentId w' = None /\ Options.sent (Options.onApply w').2 = [(None, MOM.getDirty (Options.om w'))].
Proof.
  intros Hs Hab Hb Hp [Hl Ha]. destruct s as [sel dis act pend]. cbn in Hs, Hp, Hl, Ha. subst sel pend.
  destruct dis as [|d0 [|d1 [|d2 [|d3 [|d4 [|]]]]]]; try done. clear Hl. unfold Panel.steps, run.
  cbn [foldl replicate Panel.tabs mbind option_bind Panel.step].
  unfold Panel.handleMouseDown. cbn [Panel.selections andb]. rewrite (bool_decide_eq_false_2 (b ∈ [a])) by (by rewrite list_elem_of_singleton).
  cbn [negb orb]. unfold Panel.selectRow, Panel.clearSelections, Panel.deselectRow.
  cbn [andb Panel.selections foldl Panel.with_selections filter list_filter].
  rewrite decide_False by (intros H; by apply H). cbn.
  eexists _, _. split; [reflexivity|]. split; [done|]. split; [done|].
  assert (Panel.told act [(act, Panel.Update b); (0, Panel.Clear); (1, Panel.Clear); (2, Panel.Clear); (3, Panel.Clear); (4, Panel.Clear)]
    = [Panel.Update b; Panel.Clear]) as Ht.
  { unfold Panel.tabs in Ha. destruct act as [|[|[|[|[|]]]]]; [done..|lia]. }
  split; [exact Ht|]. intros w. rewrite Ht. by apply options_forget.
Qed.

End panel.

Definition one_selected : Panel.state := Panel.mk ["a"] (replicate Panel.tabs false) 4 [].

Lemma click_forgets_torrent_witness :
  exists s os, Panel.steps one_selected (Panel.Click false "b" :: replicate Panel.tabs Panel.Fire) = Some (s, os) /\
    Panel.selections s = ["b"] /\ Panel.told 4 os = [Panel.Update "b"; Panel.Clear].
Proof.
  destruct (click_forgets_torrent "a" "b" one_selected) as (s & os & Hr & Hs & _ & Ht & _); try done.
  { split; [done|]. unfold Panel.tabs. cbn. lia. }
  exists s, os. by split_and!.
Defined.
