(* ===== verification/DetailsScreen.v ===== *)
(** * The panel of details and its five tabs

    What [details/DetailsPanel.js] tells the tabs, done by them: [StatusTab],
    [DetailsTab], [FilesTab], [PeersTab] and [OptionsTab], each with the calls
    it waits for.  An answer is drawn whatever was cleared since it was asked
    for. *)

From stdpp Require Import base list strings gmap.
From Stdlib Require Import Lia ZArith.
From S2P Require Import Prelude JsNum JsString JsValue ExtCore OptionsManager MultiOptionsManager SortTypes Collection Store TorrentGrid Files Details DetailsPanel.

Local Open Scope nat_scope.

(** ** An answer written over the tree, where reading a node throws *)

Module Walk.

(** [updateFileTree] of [FilesTab], node after node: the tree, and whether it
    went through.  What was written before a node is missed stays. *)
Fixpoint write_node (file : string) (it : Files.item) (cs : list Files.node) : list Files.node * bool :=
  match Tree.findChildBy (Files.is_named file) cs with
  | None => (cs, false)
  | Some i =>
      match cs !! i with
      | None => (cs, false)
      | Some n =>
          let '(ch, went) :=
            match it with
            | Files.File _ _ _ _ => (Tree.childNodes n, true)
            | Files.Dir _ _ _ c =>
                (fix walk (c : list (string * Files.item)) (ch : list Files.node) : list Files.node * bool :=
                   match c with
                   | [] => (ch, true)
                   | (f, it') :: c' => let '(ch', went) := write_node f it' ch in if went then walk c' ch' else (ch', false)
                   end) c (Tree.childNodes n)
            end in
          (<[i := Tree.Node (Files.refreshed it (Tree.attributes n)) ch]> cs, went)
      end
  end.
Fixpoint updateFileTree (c : list (string * Files.item)) (cs : list Files.node) : list Files.node * bool :=
  match c with
  | [] => (cs, true)
  | (f, it) :: c' => let '(cs', went) := write_node f it cs in if went then updateFileTree c' cs' else (cs', false)
  end.

(** [onRequestComplete] of [FilesTab], throwing or not *)
Definition onRequestComplete (files : list (string * Files.item)) (t : Files.tab) : Files.tab :=
  Files.mk (Files.torrentId t)
    (if length (Files.root t) =? 0 then Files.root t ++ Files.create_nodes files
     else (updateFileTree files (Files.root t)).1)
    (Files.flight t).

End Walk.

Module Screen.
Section screen.

(** The translation, the time zone, and the fields of a peer *)
Context (tr : string -> string) (tz : Z -> Z) (fields : list Field.field).

(** The panel; each tab; and how many answers the tab of the status and that of
    the peers wait for, which do not say of which torrent they are. *)
Record state := mk {
  panel : Panel.state; status : Status.state; status_asked : nat; details : Details.state; files : Files.tab;
  peers : Peers.state; peers_asked : nat; options : Options.state
}.
Definition create (bound : obj (list field)) : state :=
  mk Panel.create Status.create 0 Details.create Files.create Peers.create 0 (Options.create bound).

Definition with_panel (p : Panel.state) s :=
  mk p (status s) (status_asked s) (details s) (files s) (peers s) (peers_asked s) (options s).
Definition with_status (t : Status.state) (n : nat) s :=
  mk (panel s) t n (details s) (files s) (peers s) (peers_asked s) (options s).
Definition with_details (d : Details.state) s :=
  mk (panel s) (status s) (status_asked s) d (files s) (peers s) (peers_asked s) (options s).
Definition with_files (t : Files.tab) s :=
  mk (panel s) (status s) (status_asked s) (details s) t (peers s) (peers_asked s) (options s).
Definition with_peers (p : Peers.state) (n : nat) s :=
  mk (panel s) (status s) (status_asked s) (details s) (files s) p n (options s).
Definition with_options (w : Options.state) s :=
  mk (panel s) (status s) (status_asked s) (details s) (files s) (peers s) (peers_asked s) w.

(** [clear] and [update] of the tab of that number *)
Definition clear (tab : nat) (s : state) : state :=
  match tab with
  | 0 => with_status (Status.clear (status s)) (status_asked s) s
  | 1 => with_details (Details.clear (details s)) s
  | 2 => with_files (Files.mk (Files.torrentId (files s)) (Files.clear (Files.root (files s))).1 (Files.flight (files s))) s
  | 3 => with_peers (Peers.clear (peers s)) (peers_asked s) s
  | 4 => with_options (Options.clear (options s)).1 s
  | _ => s
  end.
Definition update (tab : nat) (id : string) (s : state) : state :=
  match tab with
  | 0 => if Status.update (status s) then with_status (status s) (S (status_asked s)) s else s
  | 1 => with_details (Details.update id (details s)) s
  | 2 => with_files (Files.update id (files s)).1 s
  | 3 => with_peers (peers s) (S (peers_asked s)) s
  | 4 => if decide (id = "") then s else with_options (Options.update id (options s)).1 s
  | _ => s
  end.
Definition tell (s : state) (o : nat * Panel.command) : state :=
  match o.2 with Panel.Clear => clear o.1 s | Panel.Update id => update o.1 id s end.

(** An event of the panel; the template of the status is loaded; a call of each
    of the tabs is answered, at a time, for the status; or an option is edited. *)
Inductive event :=
  | OfPanel (e : Panel.event) | Loaded
  | StatusAnswered (now : num) (torrent : obj prim) | DetailsAnswered (i : nat) (torrent : obj prim)
  | FilesAnswered (i : nat) (files : list (string * Files.item)) | PeersAnswered (torrent : option (list (string * object)))
  | OfOptions (e : Options.event).

(** The tab of those that show what is answered, and not the form of the options,
    an answer is drawn in *)
Definition drawn_in (e : event) : option nat :=
  match e with
  | StatusAnswered _ _ => Some 0 | DetailsAnswered _ _ => Some 1 | FilesAnswered _ _ => Some 2 | PeersAnswered _ => Some 3
  | _ => None
  end.

(** Only the panel tells the tab of the options which torrent it is of. *)
Definition of_user (e : Options.event) : bool :=
  match e with Options.Update _ | Options.Clear => false | _ => true end.

Definition step (s : state) (e : event) : option state :=
  match e with
  | OfPanel e => '(p, os) ← Panel.step (panel s) e; Some (foldl tell (with_panel p s) os)
  | Loaded => Some (with_status (Status.onPanelUpdate (status s)) (status_asked s) s)
  | StatusAnswered now t =>
      match status_asked s with
      | S n => Some (with_status (Status.onRequestComplete tr tz now t (status s)).1 n s)
      | O => None
      end
  | DetailsAnswered i t => d ← Details.step (details s) (Details.Answered i t); Some (with_details d s)
  | FilesAnswered i fs =>
      _ ← Files.flight (files s) !! i;
      Some (with_files (Walk.onRequestComplete fs
              (Files.mk (Files.torrentId (files s)) (Files.root (files s)) (delete i (Files.flight (files s))))) s)
  | PeersAnswered t =>
      match peers_asked s with
      | S n => p ← Peers.step fields (peers s) (Peers.Answer t); Some (with_peers p n s)
      | O => None
      end
  | OfOptions e => if of_user e then '(w, _) ← Options.step (options s) e; Some (with_options w s) else None
  end.
Definition steps (s : state) (es : list event) : option state := foldl (fun s e => s ← s; step s e) (Some s) es.

(** What a tab is when it shows no torrent: its fields and its bar are empty, it
    has no file, it has no peer, its options are of no torrent. *)
Definition blank (s : state) (tab : nat) : Prop :=
  match tab with
  | 0 => (forall o, Status.fields (status s) = Some o -> Forall (fun p => p.2 = "") o) /\
         (Status.bar (status s)).1 = of_Z 0 /\ trim (Status.bar (status s)).2 = ""
  | 1 => Forall (fun p => p.2 = "") (Details.html (details s))
  | 2 => Files.root (files s) = []
  | 3 => forall ip, Store.getById (Peers.store (peers s)) ip = None
  | _ => Options.torrentId (options s) = None
  end.

(** A tab is to show a torrent: one is selected, or its [clear] is still to
    come. *)
Definition wanted (s : state) (tab : nat) : Prop := Panel.selections (panel s) <> [] \/ tab ∈ Panel.pending (panel s).

(** What the server answers: files under one entry, and no address twice. *)
Definition served (e : event) : Prop :=
  match e with
  | FilesAnswered _ fs => length fs <= 1
  | PeersAnswered (Some ps) => obj_ok ps
  | _ => True
  end.

End screen.
End Screen.

(** ** The trees that are written over *)

Lemma write_node_length f it cs : length (Walk.write_node f it cs).1 = length cs.
Proof.
  destruct it; cbn [Walk.write_node]; destruct (Tree.findChildBy _ cs) as [i|]; [|done| |done];
    (destruct (cs !! i); [|done]).
  - cbn [fst]. apply length_insert.
  - match goal with |- context [let '(_, _) := ?x in _] => destruct x end. cbn [fst]. apply length_insert.
Qed.

Lemma write_tree_length c cs : length (Walk.updateFileTree c cs).1 = length cs.
Proof.
  revert cs. induction c as [|[f it] c IH]; intros cs; [done|]. cbn [Walk.updateFileTree].
  pose proof (write_node_length f it cs) as H. destruct (Walk.write_node f it cs) as [cs' []]; cbn [fst] in *; [|done].
  by rewrite IH.
Qed.

Definition write_children (c : list (string * Files.item)) (ch : list Files.node) : list Files.node * bool :=
  (fix walk (c : list (string * Files.item)) (ch : list Files.node) : list Files.node * bool :=
     match c with
     | [] => (ch, true)
     | (f, it') :: c' => let '(ch', went) := Walk.write_node f it' ch in if went then walk c' ch' else (ch', false)
     end) c ch.

Lemma write_children_tree c ch : write_children c ch = Walk.updateFileTree c ch.
Proof.
  revert ch. induction c as [|[f it] c IH]; intros ch; [done|]. cbn [write_children Walk.updateFileTree].
  destruct (Walk.write_node f it ch) as [ch' []]; [apply IH|done].
Qed.

(** Where it goes through it is what [Files.updateFileTree] says. *)
Lemma write_node_goes it : forall f cs cs', Walk.write_node f it cs = (cs', true) <-> Files.update_node f it cs = Some cs'.
Proof.
  induction it as [ix sz pg pr|sz pg pr c IH] using item_nested_ind; intros f cs cs'.
  - cbn [Walk.write_node Files.update_node]. destruct (Tree.findChildBy _ cs) as [i|]; cbn; [|done].
    destruct (cs !! i); cbn; [|done]. split; congruence.
  - rewrite update_node_dir. cbn [Walk.write_node]. destruct (Tree.findChildBy _ cs) as [i|]; cbn [mbind option_bind]; [|done].
    destruct (cs !! i) as [n|]; cbn [mbind option_bind]; [|done].
    fold (write_children c (Tree.childNodes n)). rewrite write_children_tree.
    assert (H : forall ch ch', Walk.updateFileTree c ch = (ch', true) <-> Files.updateFileTree c ch = Some ch').
    { induction IH as [|[g it] c Hit _ IHc]; intros ch ch'; cbn [Walk.updateFileTree Files.updateFileTree]; [split; congruence|].
      specialize (Hit g ch). cbn [snd] in Hit.
      destruct (Walk.write_node g it ch) as [ch1 b], (Files.update_node g it ch) as [ch2|]; cbn [mbind option_bind].
      - pose proof (proj2 (Hit ch2) eq_refl) as [= -> ->]. apply IHc.
      - destruct b; [|done]. by pose proof (proj1 (Hit ch1) eq_refl). }
    specialize (H (Tree.childNodes n)).
    destruct (Walk.updateFileTree c (Tree.childNodes n)) as [ch b], (Files.updateFileTree c (Tree.childNodes n)) as [ch2|];
      cbn [mbind option_bind].
    + pose proof (proj2 (H ch2) eq_refl) as [= -> ->]. split; congruence.
    + destruct b; [|split; congruence]. by pose proof (proj1 (H ch) eq_refl).
Qed.

Lemma write_tree_goes c cs cs' : Walk.updateFileTree c cs = (cs', true) <-> Files.updateFileTree c cs = Some cs'.
Proof.
  revert cs. induction c as [|[f it] c IH]; intros cs; cbn [Walk.updateFileTree Files.updateFileTree]; [split; congruence|].
  pose proof (write_node_goes it f cs) as H.
  destruct (Walk.write_node f it cs) as [cs1 b], (Files.update_node f it cs) as [cs2|]; cbn [mbind option_bind].
  - pose proof (proj2 (H cs2) eq_refl) as [= -> ->]. apply IH.
  - destruct b; [|done]. by pose proof (proj1 (H cs1) eq_refl).
Qed.

(** ** What is blank stays blank *)

Section screen.
Context (tr : string -> string) (tz : Z -> Z) (fields : list Field.field) (bound : obj (list field)).
Implicit Types (s : Screen.state) (t : nat).

Local Notation step := (Screen.step tr tz fields).
Local Notation steps := (Screen.steps tr tz fields).

(** What the tabs keep, whatever is told and answered: the rows of the peers are
    their records, and the tree has one entry at most. *)
Definition tabs_ok s : Prop :=
  (exists own, grid_ok own (as_grid (Screen.peers s))) /\ length (Files.root (Screen.files s)) <= 1.

Lemma steps_snoc s es e : steps s (es ++ [e]) = steps s es ≫= fun s' => step s' e.
Proof. unfold Screen.steps. by rewrite foldl_app. Qed.

(** The invariant, for one tab. *)
Definition screen_ok t s : Prop := tabs_ok s /\ panel_ok (fun u => u = t -> Screen.blank s u) (Screen.panel s).

Lemma clear_one (cs : list Files.node) : length cs <= 1 -> (Files.clear cs).1 = [].
Proof. destruct cs as [|c [|]]; cbn; [done|done|lia]. Qed.

Lemma all_empty {B} (o : obj B) : Forall (fun p : string * string => p.2 = "") (map (fun p => (p.1, "")) o).
Proof. apply List.Forall_map, Forall_true. done. Qed.

Lemma screen_clear_ok t s : tabs_ok s -> tabs_ok (Screen.clear t s).
Proof.
  intros [[own Hp] Hf]. destruct t as [|[|[|[|[|t]]]]]; split; cbn; try done; try by exists own.
  - by rewrite clear_one by done; cbn; lia.
  - exists own. exact (wiped_ok own _ Hp).
Qed.

Lemma cleared_blank t s : tabs_ok s -> t < Panel.tabs -> Screen.blank (Screen.clear t s) t.
Proof.
  intros [[own Hp] Hf] Ht. destruct t as [|[|[|[|[|t]]]]]; cbn; [| | | | |unfold Panel.tabs in Ht; lia].
  - split; [|done]. intros o. destruct (Status.fields _); cbn; [|done]. intros [= <-]. apply all_empty.
  - apply all_empty.
  - by apply clear_one.
  - destruct (removeAll_spec (Peers.store (Screen.peers s))) as (_ & _ & H & _); [apply Hp|exact H].
  - unfold Options.clear. destruct (Options.torrentId (Screen.options s)) eqn:E; [|done].
    unfold Options.changeId. by destruct (MOM.changeId ∅ _ None false) as [[o es] ?].
Qed.

Lemma clear_elsewhere t u s : t <> u -> t < Panel.tabs -> Screen.blank s t -> Screen.blank (Screen.clear u s) t.
Proof. unfold Panel.tabs. intros Htu Ht H. destruct u as [|[|[|[|[|u]]]]], t as [|[|[|[|[|t]]]]]; try done; lia. Qed.

Lemma clear_panel t s : Screen.panel (Screen.clear t s) = Screen.panel s.
Proof. by destruct t as [|[|[|[|[|t]]]]]. Qed.

Lemma screen_update_ok t i s : tabs_ok s -> tabs_ok (Screen.update t i s) /\ Screen.panel (Screen.update t i s) = Screen.panel s.
Proof.
  intros [[own Hp] Hf]. assert (H : tabs_ok s) by (split; [by exists own|done]).
  destruct t as [|[|[|[|[|t]]]]]; cbn; try (by repeat split; try done; exists own).
  - destruct (Status.update _); [|done]. repeat split; [by exists own|done].
  - split; [|done]. split; [by exists own|]. cbn. unfold Files.update. case_decide; [done|].
    pose proof (clear_one _ Hf) as Hc. destruct (Files.clear _) as [cs []]; cbn in *; subst; cbn; lia.
  - case_decide; [done|]. repeat split; [by exists own|done].
Qed.

Lemma panel_event_ok t s e s' : screen_ok t s -> step s (Screen.OfPanel e) = Some s' -> screen_ok t s'.
Proof.
  intros [Ht Hok] Hs. cbn [Screen.step] in Hs. destruct (Panel.step (Screen.panel s) e) as [[p os]|] eqn:E; [|done].
  cbn [mbind option_bind] in Hs. injection Hs as <-. apply (panel_step_tells _ _ _ _ _ Hok) in E.
  assert (H1 : tabs_ok (Screen.with_panel p s)) by exact Ht.
  destruct E as [Hp|u [Hf Hp]|u i Hf Hsel]; cbn [foldl]; unfold Screen.tell; cbn [fst snd].
  - split; [done|]. destruct Hp as [Hf Hp]. by split.
  - split; [by apply screen_clear_ok|]. rewrite clear_panel. split; [done|]. intros Hsel v Hv.
    destruct (Hp Hsel v Hv) as [|Hb]; [by left|right]. intros ->. destruct (decide (t = u)) as [->|Htu].
    + by apply cleared_blank.
    + destruct Hb as [|Hb]; [done|]. by apply clear_elsewhere, Hb.
  - destruct (screen_update_ok u i _ H1) as [H2 H3]. split; [done|]. rewrite H3. by apply selected_ok.
Qed.

(** An event that leaves the panel, and that leaves the tab unless it is one that
    is to show a torrent. *)
Lemma tab_event_ok t s s' :
  screen_ok t s -> tabs_ok s' -> Screen.panel s' = Screen.panel s ->
  (Screen.wanted s t \/ (Screen.blank s t -> Screen.blank s' t)) -> screen_ok t s'.
Proof.
  intros [_ [Hf Hp]] Ht E Hb. split; [done|]. rewrite E. split; [done|]. intros Hsel u Hu.
  destruct (Hp Hsel u Hu) as [|Hbl]; [by left|]. destruct (decide (u = t)) as [->|]; [|by right].
  destruct Hb as [[|]|Hb]; [done|by left|]. right. intros _. by apply Hb, Hbl.
Qed.

Lemma files_answered_length fs f :
  length fs <= 1 -> length (Files.root f) <= 1 -> length (Files.root (Walk.onRequestComplete fs f)) <= 1.
Proof.
  intros H1 H2. unfold Walk.onRequestComplete. cbn [Files.root]. destruct (Nat.eqb_spec (length (Files.root f)) 0) as [E|E].
  - rewrite length_app, E. unfold Files.create_nodes. by rewrite length_map.
  - by rewrite write_tree_length.
Qed.

Lemma user_keeps_torrent e w w' os :
  Screen.of_user e = true -> Options.step w e = Some (w', os) -> Options.torrentId w' = Options.torrentId w.
Proof.
  destruct e as [i| | |k v|i r|i]; cbn [Screen.of_user Options.step]; intros He; [done|done| | | |].
  - by intros [= <- <-].
  - unfold Options.edit. destruct (MOM.update ∅ _ _ _) as [o es]. by intros [= <- <-].
  - destruct (Options.flight w !! i) as [a|]; [|done]. cbn [mbind option_bind]. destruct a, r; cbn [Options.onAnswer]; try done.
    + unfold Options.onRequestComplete. destruct (MOM.setDefault ∅ _ _ _) as [o es]. by intros [= <- <-].
    + by intros [= <- <-].
  - destruct (Options.flight w !! i) as [a|]; [|done]. cbn [mbind option_bind]. by intros [= <- <-].
Qed.

Lemma screen_step_ok t s e s' :
  screen_ok t s -> Screen.served e -> (Screen.drawn_in e = Some t -> Screen.wanted s t) -> step s e = Some s' ->
  screen_ok t s'.
Proof.
  intros Hok Hsv Hw Hs. pose proof Hok as [[[own Hp] Hf] _].
  assert (Hd : forall u, Screen.drawn_in e = Some u ->
      (forall v, v <> u -> Screen.blank s v -> Screen.blank s' v) ->
      Screen.wanted s t \/ (Screen.blank s t -> Screen.blank s' t)).
  { intros u Hu Hv. destruct (decide (t = u)) as [->|]; [left; by apply Hw|right; by apply Hv]. }
  destruct e as [e| |now d|i d|i fs|ps|e]; [by apply (panel_event_ok t s e)|..]; cbn [Screen.step] in Hs.
  - injection Hs as <-. apply (tab_event_ok t s); [done|split; [by exists own|done]|done|]. right.
    destruct t as [|[|[|[|[|t]]]]]; try done. cbn. intros (_ & Hb). split; [|done]. intros o [= <-].
    unfold Status.template. repeat constructor.
  - destruct (Screen.status_asked s) as [|n] eqn:En; [done|]. injection Hs as <-.
    apply (tab_event_ok t s); [done|split; [by exists own|done]|done|]. apply (Hd 0); [done|].
    intros [|[|[|[|[|v]]]]]; done.
  - cbn [Details.step] in Hs. destruct (Details.flight _ !! i) as [j|]; [|done]. cbn [mbind option_bind] in Hs. injection Hs as <-.
    apply (tab_event_ok t s); [done|split; [by exists own|done]|done|]. apply (Hd 1); [done|].
    intros [|[|[|[|[|v]]]]]; done.
  - destruct (Files.flight _ !! i) as [j|]; [|done]. cbn [mbind option_bind] in Hs. injection Hs as <-.
    apply (tab_event_ok t s); [done| |done|].
    + split; [by exists own|]. by apply files_answered_length.
    + apply (Hd 2); [done|]. intros [|[|[|[|[|v]]]]]; done.
  - destruct (Screen.peers_asked s) as [|n] eqn:En; [done|].
    destruct (Peers.step fields _ _) as [p|] eqn:Ep; [|done]. cbn [mbind option_bind] in Hs. injection Hs as <-.
    apply (tab_event_ok t s); [done| |done|].
    + split; [|done]. destruct ps as [ps|]; cbn [Screen.served] in Hsv; [|injection Ep as <-; by exists own].
      destruct (answer_shown fields own _ ps Hp Hsv) as (own' & p' & E & Hg & _). exists own'. cbn. congruence.
    + apply (Hd 3); [done|]. intros [|[|[|[|[|v]]]]]; done.
  - destruct (Screen.of_user e) eqn:Eu; [|done]. destruct (Options.step _ e) as [[w os]|] eqn:Ew; [|done].
    cbn [mbind option_bind] in Hs. injection Hs as <-.
    apply (tab_event_ok t s); [done|split; [by exists own|done]|done|]. right.
    pose proof (user_keeps_torrent e _ w os Eu Ew) as Hi. destruct t as [|[|[|[|[|t]]]]]; try done; cbn; by rewrite Hi.
Qed.

(** In a run, each answer came as the server sends it, and none that is drawn in
    the tab came once the tab had been cleared with nothing selected. *)
Definition answered_in_time t (es : list Screen.event) : Prop :=
  forall es1 e es2 s, es = es1 ++ e :: es2 -> steps (Screen.create bound) es1 = Some s ->
    Screen.served e /\ (Screen.drawn_in e = Some t -> Screen.wanted s t).

(** Claim C14.  Over any events of the panel and of its tabs, answers
    included: while no torrent is selected, a tab none of whose clears is still
    put off shows none, its fields empty, its tree without a file, its list
    without a peer, its options of no torrent, provided no answer came to it
    after its clear, each list of files has one entry at its top, and no address
    comes twice among the peers. *)
Theorem nothing_selected_nothing_shown t es s :
  steps (Screen.create bound) es = Some s -> answered_in_time t es ->
  Panel.selections (Screen.panel s) = [] -> t < Panel.tabs -> t ∉ Panel.pending (Screen.panel s) ->
  Screen.blank s t.
Proof.
  intros Hr Ha Hsel Ht Hn. enough (screen_ok t s) as [_ [_ Hp]] by (by destruct (Hp Hsel t Ht) as [|Hb]; [|apply Hb]).
  clear Hsel Ht Hn. revert s Hr. induction es as [|e es IH] using rev_ind; intros s Hr.
  - injection Hr as <-. split.
    + split; [|by cbn; lia]. exists (fun _ => ""). split; [|by intros u; split; intros []|by intros k r|by intros m].
      split; simpl; [apply empty_ok|apply NoDup_nil_2| |by intros k r|]; intros r Hr; by apply elem_of_nil in Hr.
    + split; [by split; [|unfold Panel.tabs; cbn; lia]|]. intros _ u Hu. right. intros _.
      destruct u as [|[|[|[|[|u]]]]]; cbn; try done. repeat constructor.
  - rewrite steps_snoc in Hr. destruct (steps (Screen.create bound) es) as [s1|] eqn:E; [|done]. cbn [mbind option_bind] in Hr.
    destruct (Ha es e [] s1 eq_refl E) as [Hsv Hw]. apply (screen_step_ok t s1 e); [|done..]. apply IH; [|done].
    intros es1 e1 es2 s2 E1. apply (Ha es1 e1 (es2 ++ [e])). by rewrite E1, <- app_assoc.
Qed.

(** ** Answers that come too late *)

(** The same, one event after the other. *)
Fixpoint in_time t s (es : list Screen.event) : Prop :=
  match es with
  | [] => True
  | e :: es' => Screen.served e /\ (Screen.drawn_in e = Some t -> Screen.wanted s t) /\
      match step s e with Some s' => in_time t s' es' | None => True end
  end.

Lemma in_time_answered t es : in_time t (Screen.create bound) es -> answered_in_time t es.
Proof.
  unfold answered_in_time. generalize (Screen.create bound) as s0. intros s0 H es1. revert s0 es H.
  induction es1 as [|e1 es1 IH]; intros s0 es H e es2 s -> Hs; cbn [app in_time] in H.
  - injection Hs as <-. destruct H as (H1 & H2 & _). by split.
  - destruct H as (_ & _ & H). unfold Screen.steps in Hs. cbn [foldl mbind option_bind] in Hs.
    destruct (step s0 e1) as [s1|]; [by apply (IH s1 _ H e es2)|].
    exfalso. clear -Hs. induction es1 as [|e es1 IH]; [done|]. by apply IH.
Qed.

(** A torrent is selected and leaves the list, and the tabs are cleared. *)
Definition removed : list Screen.event :=
  [Screen.Loaded; Screen.OfPanel (Panel.Click false "a"); Screen.OfPanel (Panel.Removed "a")] ++
  replicate Panel.tabs (Screen.OfPanel Panel.Fire).

(** The status that was asked for before comes then: it is written into the tab,
    where nothing is selected any more. *)
Definition cleared_state : Screen.state :=
  Screen.mk (Panel.mk [] (replicate Panel.tabs true) 0 []) (Status.mk (Some ((., "") <$> Status.template)) (of_Z 0, " "))
    1 Details.create Files.create Peers.create 0 (Options.create bound).

Lemma removed_cleared : steps (Screen.create bound) removed = Some cleared_state.
Proof. vm_compute. reflexivity. Qed.

Lemma answer_drawn now torrent d n s o :
  Screen.status_asked s = S n -> Status.fields (Screen.status s) = Some o -> Status.data tr tz now torrent = Some d ->
  exists s', step s (Screen.StatusAnswered now torrent) = Some s' /\ Screen.panel s' = Screen.panel s /\
    Status.fields (Screen.status s') = Some (Status.write d o).
Proof.
  intros Hn Ho Hd. cbn [Screen.step]. rewrite Hn. eexists. split; [reflexivity|]. split; [done|].
  cbn [Screen.with_status Screen.status]. unfold Status.onRequestComplete. rewrite Hd, Ho.
  by destruct (Status.toFixed 2 _).
Qed.

Lemma late_status_drawn now torrent d :
  Status.data tr tz now torrent = Some d ->
  exists s, steps (Screen.create bound) (removed ++ [Screen.StatusAnswered now torrent]) = Some s /\
    Panel.selections (Screen.panel s) = [] /\ Panel.pending (Screen.panel s) = [] /\
    Status.fields (Screen.status s) = Some (Status.write d ((., "") <$> Status.template)).
Proof.
  intros Hd. destruct (answer_drawn now torrent d 0 cleared_state _ eq_refl eq_refl Hd) as (s & E & Hp & Hf).
  exists s. rewrite steps_snoc, removed_cleared. cbn [mbind option_bind]. by rewrite Hp.
Qed.

End screen.

(** One event of a concrete run: it is served, in time, and the next state is
    computed. *)
Ltac in_time_next :=
  split; [exact I|split; [try done; intros _; by left|]];
  match goal with |- context [Screen.step ?tr ?tz ?fs ?s ?e] =>
    let r := eval vm_compute in (Screen.step tr tz fs s e) in
    replace (Screen.step tr tz fs s e) with r by (vm_compute; reflexivity)
  end; cbn [in_time].

Lemma nothing_selected_nothing_shown_witness :
  let es := [Screen.Loaded; Screen.OfPanel (Panel.Click false "a"); Screen.StatusAnswered (of_Z 0) sample_state;
             Screen.OfPanel (Panel.Removed "a")] ++ replicate Panel.tabs (Screen.OfPanel Panel.Fire) in
  exists s, Screen.steps (fun k => k) (fun _ => 0%Z) [] (Screen.create []) es = Some s /\ Screen.blank s 0.
Proof.
  intros es. eexists. split; [vm_compute; reflexivity|].
  apply (nothing_selected_nothing_shown (fun k => k) (fun _ => 0%Z) [] [] 0 es).
  - vm_compute. reflexivity.
  - apply in_time_answered. unfold es. cbn [in_time app replicate Panel.tabs]. repeat in_time_next. exact I.
  - reflexivity.
  - unfold Panel.tabs. lia.
  - apply not_elem_of_nil.
Defined.
