(* ===== verification/Menus.v ===== *)
(** * The menus of a torrent, and the toolbar

    [Menus.js]: what each item of the menu of a torrent asks, and the submenu of
    labels, as one machine with the daemon's register of labels; [Toolbar.js];
    and [RemoveWindow.js] and [MoveStorage.js], which the menu opens. *)

From stdpp Require Import base list sorting strings gmap.
From Stdlib Require Import Lia ZArith.
From S2P Require Import Prelude JsNum JsString JsValue Settings Register Collection.

Local Open Scope nat_scope.

Module TorrentMenu.

(** An item, separators apart: the method it calls, the option it sets, or the
    window it opens; a menu of its own, or the menu of labels. *)
Inductive entry :=
  | Method (name : string) | SetOpt (option : string) (value : prim) | Window (name : string)
  | Sub (items : list entry) | LabelMenu.

Definition limits (option : string) (values : list Z) : entry := Sub ((fun v => SetOpt option (pint v)) <$> values).
Definition items : list entry :=
  [Method "pause_torrent"; Method "resume_torrent";
   Sub [limits "max_download_speed" [5; 10; 30; 80; 300; -1]%Z;
        limits "max_upload_speed" [5; 10; 30; 80; 300; -1]%Z;
        limits "max_connections" [50; 100; 200; 300; 500; -1]%Z;
        limits "max_upload_slots" [0; 1; 2; 3; 5; -1]%Z;
        Sub [SetOpt "auto_managed" (PBool true); SetOpt "auto_managed" (PBool false)]];
   Sub [Method "queue_top"; Method "queue_up"; Method "queue_down"; Method "queue_bottom"];
   Window "copy_magnet"; Method "force_reannounce"; Window "edit_trackers"; Window "remove"; Method "force_recheck";
   Window "move"; LabelMenu].

(** What an item asks of the daemon for the torrents selected, and whether the
    list is polled once it is answered; or the window that is opened, with the
    torrents it is given. *)
Inductive action :=
  | Call (method : string) (ids : list string) (updates : bool)
  | SetOptions (ids : list string) (option : string) (value : prim)
  | Open (window : string) (ids : option (list string)).
Definition onTorrentActionMethod (m : string) (ids : list string) : action := Call m ids true.
Definition onTorrentActionSetOpt (k : string) (v : prim) (ids : list string) : action := SetOptions ids k v.
Definition onTorrentActionShow (w : string) (ids : list string) : option action :=
  if bool_decide (w ∈ ["copy_magnet"; "edit_trackers"]) then Some (Open w None)
  else if bool_decide (w ∈ ["remove"; "move"]) then Some (Open w (Some ids)) else None.
Definition click (e : entry) (ids : list string) : option action :=
  match e with
  | Method m => Some (onTorrentActionMethod m ids)
  | SetOpt k v => Some (onTorrentActionSetOpt k v ids)
  | Window w => onTorrentActionShow w ids
  | Sub _ | LabelMenu => None
  end.

End TorrentMenu.

Module LabelMenu.
Section menu.

(** The translation, and the settings of a new label *)
Context (tr : string -> string) (default_options : Json.dict).

Inductive call := GetLabels | SetTorrent (pick : nat) (id label : string).
Inductive answer := Names (labels : list string) | Reply (r : Register.reply).

(** An item that puts the torrents in [name], a line, or an item that is greyed *)
Inductive item := Label (text name : string) (checked : bool) | Separator | Note (text : string).

(** The records that are selected, by their ids, with their label; the items; for
    each time a label was picked, how many of its calls are not answered; the
    calls in flight, with the answers of those that were served; and the daemon. *)
Record world := World {
  selected : list (string * prim); items : list item; left : list nat; flight : list (call * option answer);
  daemon : Register.state
}.

(** [onLabelPicked], of the item's [labelName] *)
Definition onLabelPicked (label : string) (w : world) : world :=
  match (selected w).*1 with
  | [] => w
  | ids =>
      let pick := length (left w) in
      World (selected w) (items w) (left w ++ [length ids])
        (flight w ++ ((fun id => (SetTorrent pick id label, None)) <$> ids)) (daemon w)
  end.

(** Its [success] and its [failure]: how often the list is asked for *)
Definition onPicked (pick : nat) (w : world) : world * list unit :=
  let n := pred (default 1 (left w !! pick)) in
  (World (selected w) (items w) (<[pick := n]> (left w)) (flight w) (daemon w), if decide (n = 0) then [tt] else []).

(** [refreshLabelMenu] asks; the answer, and its failure *)
Definition current (w : world) : prim :=
  match selected w with [(_, v)] => if truthy v then v else PStr "" | _ => PNull end.
Definition marked (w : world) (name : string) : bool := strict_eq (current w) (PStr name).
Definition items_of (labels : list string) (w : world) : list item :=
  Label (tr "No Label") "" (marked w "") :: Separator ::
  match labels with
  | [] => [Note (tr "No labels yet, add one in Preferences")]
  | _ => (fun name => Label name name (marked w name)) <$> labels
  end.
Definition with_items (l : list item) (w : world) : world := World (selected w) l (left w) (flight w) (daemon w).
Definition onLabels (labels : option (list string)) (w : world) : world :=
  with_items (match labels with Some l => items_of l w | None => [Note (tr "Labels are unavailable")] end) w.

(** What is done with an answer, or with a failure. *)
Definition onReply (c : call) (a : option answer) (w : world) : world * list unit :=
  match c, a with
  | SetTorrent pick _ _, _ => onPicked pick w
  | GetLabels, Some (Names l) => (onLabels (Some l) w, [])
  | GetLabels, _ => (onLabels None w, [])
  end.

(** What the daemon does with a call; [names] are in order. *)
Definition serve (c : call) (r : Register.state) : Register.state * answer :=
  match c with
  | GetLabels => (r, Names (MC.isort (fun a b => negb (str_ltb b a)) (map_to_list (Register.labels r)).*1))
  | SetTorrent _ id label => let ra := Register.set_torrent default_options id label r in (ra.1, Reply ra.2)
  end.

Inductive event :=
  | Selected (records : list (string * prim)) | Opened | Picked (i : nat)
  | Serve (i : nat) | Deliver (i : nat) | Fail (i : nat) | Outside (c : call).
Definition step (w : world) (e : event) : option (world * list unit) :=
  let at_flight fl := World (selected w) (items w) (left w) fl in
  match e with
  | Selected l => Some (World l (items w) (left w) (flight w) (daemon w), [])
  | Opened => Some (at_flight (flight w ++ [(GetLabels, None)]) (daemon w), [])
  | Picked i => match items w !! i with Some (Label _ name _) => Some (onLabelPicked name w, []) | _ => None end
  | Serve i =>
      '(c, a) ← flight w !! i;
      match a with
      | None => let ra := serve c (daemon w) in Some (at_flight (<[i := (c, Some ra.2)]> (flight w)) ra.1, [])
      | Some _ => None
      end
  | Deliver i => '(c, a) ← flight w !! i; a ← a; Some (onReply c (Some a) (at_flight (delete i (flight w)) (daemon w)))
  | Fail i => '(c, a) ← flight w !! i; Some (onReply c None (at_flight (delete i (flight w)) (daemon w)))
  | Outside c => Some (at_flight (flight w) (serve c (daemon w)).1, [])
  end.
Definition steps : world -> list event -> option (world * list unit) := run step.

Definition create (r : Register.state) : world := World [] [] [] [] r.

End menu.
End LabelMenu.

Module Removal.

(** Whether the window is shown, [torrentIds], and the calls in flight, by what
    they were asked to remove. *)
Record state := mk { visible : bool; torrentIds : option (list string); flight : list (option (list string)) }.
Definition create : state := mk false None [].
Inductive output := Asked (ids : option (list string)) (data : bool) | RowsRemoved (ids : option (list string)) | Polled.

(** [show], [onCancel], the window's own [hide], [remove] and [onRemoved]: what
    is announced is what the window is about when the answer comes. *)
Definition show (ids : list string) (s : state) : state := mk true (Some ids) (flight s).
Definition onCancel (s : state) : state := mk false None (flight s).
Definition hide (s : state) : state := mk false (torrentIds s) (flight s).
Definition remove (data : bool) (s : state) : state * list output :=
  (mk (visible s) (torrentIds s) (flight s ++ [torrentIds s]), [Asked (torrentIds s) data]).
Definition onRemoved (s : state) : state * list output :=
  (hide s, [RowsRemoved (torrentIds s); Polled]).

Inductive event := Show (ids : list string) | Cancel | Close | Remove (data : bool) | Answered (i : nat) | Failed (i : nat).
Definition step (s : state) (e : event) : option (state * list output) :=
  match e with
  | Show ids => Some (show ids s, [])
  | Cancel => if visible s then Some (onCancel s, []) else None
  | Close => Some (hide s, [])
  | Remove data => if visible s then Some (remove data s) else None
  | Answered i => _ ← flight s !! i; Some (onRemoved (mk (visible s) (torrentIds s) (delete i (flight s))))
  | Failed i => _ ← flight s !! i; Some (mk (visible s) (torrentIds s) (delete i (flight s)), [])
  end.
Definition steps : state -> list event -> option (state * list output) := run step.

End Removal.

Module MoveStorage.

(** [torrentIds] and the folder; [hide] drops the first only. *)
Record state := mk { torrentIds : option (list string); location : string }.
Definition show (ids : list string) (s : state) : state := mk (Some ids) (location s).
Definition hide (s : state) : state := mk None (location s).
Definition onMove (s : state) : state * (option (list string) * string) := (hide s, (torrentIds s, location s)).

End MoveStorage.

Module Toolbar.

(** The buttons, by whether they can be pressed, and what is in the search box. *)
Record state := mk { enabled : obj bool; search : string }.
Definition connectedButtons : list string := ["add"; "remove"; "create"; "pause"; "resume"; "activity"; "peers"].
Definition create : state :=
  mk (((., false) <$> connectedButtons) ++ [("preferences", true); ("connectionman", true); ("help", true); ("logout", false)]) "".

Definition set_all (b : bool) (ks : list string) (s : state) : state :=
  mk (foldl (fun o k => oset k b o) (enabled s) ks) (search s).
Definition onConnect : state -> state := set_all true connectedButtons.
Definition onDisconnect : state -> state := set_all false connectedButtons.
Definition onLogin : state -> state := set_all true ["logout"].
Definition onLogout : state -> state := set_all false ["logout"].
Definition getSearch (s : state) : string := trim (search s).

(** What [initComponent] listens to: nothing calls [onDisconnect]. *)
Inductive event := Connected | Disconnected | LoggedIn | LoggedOut | Typed (t : string) | Escaped.
Definition step (s : state) (e : event) : state :=
  match e with
  | Connected => onConnect s
  | Disconnected => s
  | LoggedIn => onLogin s
  | LoggedOut => onLogout s
  | Typed t => mk (enabled s) t
  | Escaped => mk (enabled s) ""
  end.
Definition steps : state -> list event -> state := foldl step.

(** [onTorrentAction] of the buttons that act on the torrents selected *)
Definition onTorrentAction (button : string) (ids : list string) : option TorrentMenu.action :=
  if decide (button = "remove") then Some (TorrentMenu.Open "remove" (Some ids))
  else if bool_decide (button ∈ ["pause"; "resume"]) then Some (TorrentMenu.Call (button +:+ "_torrent") ids true)
  else None.

End Toolbar.

(** ** Lists *)

Lemma insert_perm {A} (l : list A) i x y : l !! i = Some x -> <[i := y]> l ≡ₚ y :: delete i l.
Proof.
  revert i. induction l as [|z l IH]; intros [|i] H; [done..|]. cbn in *. rewrite (IH i H). apply Permutation_swap.
Qed.

Lemma filter_ext_in {A} (P Q : A -> Prop) `{forall x, Decision (P x)} `{forall x, Decision (Q x)} (l : list A) :
  (forall x, x ∈ l -> P x <-> Q x) -> filter P l = filter Q l.
Proof.
  induction l as [|x l IH]; intros Hl; [done|]. rewrite !filter_cons, IH by (intros y Hy; apply Hl; by right).
  apply decide_ext, Hl. by left.
Qed.

(** ** What picking a label does *)

Section labels.
Context (tr : string -> string) (dft : Json.dict).
Import LabelMenu.
Implicit Types (w : world) (os : list unit).

(** The calls of one pick that are not answered *)
Definition of_pick (p : nat) (c : call) : bool := match c with SetTorrent q _ _ => bool_decide (q = p) | GetLabels => false end.
Definition awaited (p : nat) (fl : list (call * option answer)) : list call := filter (fun c => of_pick p c = true) fl.*1.

Definition zeros (l : list nat) : nat := length (filter (fun n => n = 0) l).

Definition counted w os : Prop :=
  (forall p, default 0 (left w !! p) = length (awaited p (flight w))) /\ length os = zeros (left w).

Lemma awaited_delete p fl i c a :
  fl !! i = Some (c, a) -> length (awaited p fl) = (if of_pick p c then 1 else 0) + length (awaited p (delete i fl)).
Proof.
  intros H. unfold awaited.
  assert (length (filter (fun c => of_pick p c = true) fl.*1) = length (filter (fun c => of_pick p c = true) ((c, a) :: delete i fl).*1)) as ->.
  { by rewrite <- (delete_Permutation fl i (c, a) H). }
  rewrite fmap_cons, filter_cons. cbn [fst]. by destruct (of_pick p c).
Qed.

Lemma awaited_serve p fl i c a b : fl !! i = Some (c, a) -> awaited p (<[i := (c, b)]> fl) = awaited p fl.
Proof.
  intros H. unfold awaited. rewrite list_fmap_insert. cbn [fst]. rewrite list_insert_id; [done|].
  by rewrite list_lookup_fmap, H.
Qed.

Lemma awaited_new p q label ids fl :
  length (awaited p (fl ++ ((fun id => (SetTorrent q id label, None)) <$> ids))) =
  length (awaited p fl) + (if decide (q = p) then length ids else 0).
Proof.
  unfold awaited. rewrite fmap_app, filter_app, length_app. f_equal. induction ids as [|id ids IH]; [by case_decide|].
  rewrite !fmap_cons, filter_cons. cbn [fst of_pick].
  destruct (decide (q = p)) as [Hq|Hq].
  - rewrite decide_True by (by apply bool_decide_eq_true). cbn [length]. by rewrite IH.
  - rewrite decide_False by (by rewrite bool_decide_eq_true). by rewrite IH.
Qed.

Lemma zeros_insert l i k n : l !! i = Some k -> k <> 0 -> zeros (<[i := n]> l) = (if decide (n = 0) then 1 else 0) + zeros l.
Proof.
  intros H Hk. unfold zeros. rewrite (insert_perm l i k n H).
  assert (length (filter (fun n => n = 0) l) = length (filter (fun n => n = 0) (k :: delete i l))) as ->.
  { by rewrite <- (delete_Permutation l i k H). }
  rewrite !filter_cons. rewrite (decide_False (P := k = 0)) by done. by case_decide.
Qed.

Lemma zeros_seq l : zeros l = length (filter (fun p => default 0 (l !! p) = 0) (seq 0 (length l))).
Proof.
  unfold zeros. induction l as [|n l IH] using rev_ind; [done|].
  rewrite length_app, Nat.add_comm. cbn [length Nat.add]. rewrite seq_S, !filter_app, !length_app. f_equal.
  - rewrite IH. f_equal. apply filter_ext_in. intros p Hp%elem_of_seq. by rewrite lookup_app_l by lia.
  - assert ((l ++ [n]) !! length l = Some n) as Hn by (by rewrite lookup_app_r, Nat.sub_diag by lia).
    rewrite !filter_cons. cbn [Nat.add]. destruct (decide (n = 0)).
    + by rewrite decide_True by (by rewrite Hn).
    + by rewrite decide_False by (by rewrite Hn).
Qed.

Lemma onReply_counted c a an w os w' os' :
  flight w !! a = Some (c, an) -> counted w os -> forall an',
  onReply tr c an' (World (selected w) (items w) (left w) (delete a (flight w)) (daemon w)) = (w', os') ->
  counted w' (os ++ os').
Proof.
  intros Hi [Hl Ho] an' Hr. pose proof (fun p => awaited_delete p _ _ _ _ Hi) as Hd.
  destruct c as [|pick t label].
  - assert (counted (World (selected w) (items w) (left w) (delete a (flight w)) (daemon w)) os) as [Hc _].
    { split; [|done]. intros p. cbn [left flight]. rewrite Hl, Hd. done. }
    destruct an' as [[]|]; injection Hr as <- <-; rewrite app_nil_r; by split.
  - injection Hr as <- <-. pose proof (Hl pick) as Hp. rewrite Hd in Hp. cbn [of_pick] in Hp.
    rewrite bool_decide_eq_true_2 in Hp by done. destruct (left w !! pick) as [k|] eqn:Ek; [|done]. cbn in Hp. subst k.
    cbn [left flight]. change (pred (default 1 (Some _))) with (length (awaited pick (delete a (flight w)))).
    split.
    + intros p. cbn [left flight]. destruct (decide (p = pick)) as [->|Hn].
      * rewrite list_lookup_insert_eq by (by eapply lookup_lt_Some). done.
      * rewrite list_lookup_insert_ne, Hl, Hd by done. cbn [of_pick]. by rewrite bool_decide_eq_false_2 by congruence.
    + cbn [left]. rewrite length_app, Ho, (zeros_insert _ _ _ _ Ek) by done. rewrite Nat.add_comm. f_equal. by case_decide.
Qed.

(** The list is polled once for each time a label was picked, when the
    last of its calls is answered or has failed and not before. *)
Theorem picks_update_once es r w os :
  steps tr dft (create r) es = Some (w, os) ->
  length os = length (filter (fun p => length (awaited p (flight w)) = 0) (seq 0 (length (left w)))).
Proof.
  intros Hr. enough (counted w os) as [Hl Ho].
  { rewrite Ho, zeros_seq. f_equal. apply filter_ext_in. intros p _. by rewrite Hl. }
  revert es w os Hr. apply (run_ind (step tr dft) (fun w _ os => counted w os)).
  { split; [|done]. intros p. by cbn. }
  intros _ w os e w' os' _ Hc Hs. destruct e as [l| |i|i|i|i|c]; cbn [step] in Hs.
  - injection Hs as <- <-. by rewrite app_nil_r.
  - injection Hs as <- <-. rewrite app_nil_r. destruct Hc as [Hl Ho]. split; [|done]. intros p. cbn [left flight].
    rewrite Hl. unfold awaited. by rewrite fmap_app, filter_app, app_nil_r.
  - destruct (items w !! i) as [[t name b| |]|]; try done. injection Hs as <- <-. rewrite app_nil_r.
    unfold onLabelPicked. destruct (selected w).*1 as [|id ids] eqn:Ei; [done|]. destruct Hc as [Hl Ho]. split.
    + intros p. cbn [left flight]. rewrite awaited_new. destruct (decide (length (left w) = p)) as [<-|Hp].
      * rewrite lookup_app_r, Nat.sub_diag by lia. cbn. rewrite <- Hl, lookup_ge_None_2 by lia. done.
      * rewrite <- Hl. destruct (decide (p < length (left w))); [by rewrite lookup_app_l by lia|].
        rewrite (lookup_ge_None_2 (left w ++ _)), (lookup_ge_None_2 (left w)) by (rewrite ?length_app; cbn; lia). done.
    + cbn [left]. unfold zeros. rewrite filter_app, length_app, Ho. cbn. by rewrite Nat.add_0_r.
  - destruct (flight w !! i) as [[c [a|]]|] eqn:Ei; cbn [mbind option_bind] in Hs; try done. injection Hs as <- <-.
    rewrite app_nil_r. destruct Hc as [Hl Ho]. split; [|done]. intros p. cbn [left flight]. by erewrite awaited_serve.
  - destruct (flight w !! i) as [[c [a|]]|] eqn:Ei; cbn [mbind option_bind] in Hs; try done. injection Hs as Hs.
    by apply (onReply_counted c i (Some a) w os w' os' Ei Hc (Some a)).
  - destruct (flight w !! i) as [[c a]|] eqn:Ei; cbn [mbind option_bind] in Hs; try done. injection Hs as Hs.
    by apply (onReply_counted c i a w os w' os' Ei Hc None).
  - injection Hs as <- <-. by rewrite app_nil_r.
Qed.

(** The torrents whose call is not served yet *)
Definition unserved (fl : list (call * option answer)) : list string :=
  omap (fun x => match x with (SetTorrent _ id _, None) => Some id | _ => None end) fl.

Lemma unserved_delete fl i x :
  fl !! i = Some x ->
  unserved fl ≡ₚ (match x with (SetTorrent _ id _, None) => [id] | _ => [] end) ++ unserved (delete i fl).
Proof.
  intros H. unfold unserved. etrans; [by apply omap_Permutation, (delete_Permutation fl i x H)|].
  destruct x as [[|? ? ?] [|]]; done.
Qed.

Lemma unserved_serve fl i c a :
  fl !! i = Some (c, None) ->
  unserved fl ≡ₚ (match c with SetTorrent _ id _ => [id] | _ => [] end) ++ unserved (<[i := (c, Some a)]> fl).
Proof.
  intros H. rewrite (unserved_delete _ _ _ H).
  assert (unserved (<[i := (c, Some a)]> fl) ≡ₚ unserved (delete i fl)) as ->.
  { unfold unserved. etrans; [by apply omap_Permutation, (insert_perm fl i _ _ H)|]. by destruct c. }
  by destruct c.
Qed.

(** The labels once one was made sure of *)
Definition with_label (l : string) (ls : gmap string Json.dict) : gmap string Json.dict :=
  if decide (l = "") then ls else <[l := default dft (ls !! l)]> ls.

Lemma with_label_idemp l ls : with_label l (with_label l ls) = with_label l ls.
Proof.
  unfold with_label. case_decide; [done|]. rewrite lookup_insert_eq. cbn. by rewrite insert_insert_eq.
Qed.

Lemma set_torrent_labels id raw r :
  Register.labels (Register.set_torrent dft id raw r).1 = with_label (Register.normalise_label raw) (Register.labels r).
Proof.
  unfold Register.set_torrent, with_label, Register.add_label. case_decide as Hl; cbn.
  - by destruct (Register.torrents r !! id).
  - destruct (Register.labels r !! _) eqn:E; cbn; destruct (Register.torrents _ !! id); cbn; try done; by rewrite insert_id.
Qed.

Lemma set_torrent_torrents id raw r i :
  Register.torrents (Register.set_torrent dft id raw r).1 !! i =
  (fun l => if decide (i = id) then Register.normalise_label raw else l) <$> Register.torrents r !! i.
Proof.
  assert (forall r', Register.torrents r' = Register.torrents r ->
    Register.torrents (match Register.torrents r' !! id with
      | Some _ => (Register.mk (Register.labels r') (<[id := Register.normalise_label raw]> (Register.torrents r')), Register.Value Json.undef)
      | None => (r', Register.Error) end).1 !! i =
    (fun l => if decide (i = id) then Register.normalise_label raw else l) <$> Register.torrents r !! i) as H.
  { intros r' Hr. rewrite Hr. destruct (Register.torrents r !! id) eqn:E; cbn [fst Register.torrents].
    - destruct (decide (i = id)) as [->|Hi]; [by rewrite lookup_insert_eq, E|].
      rewrite lookup_insert_ne by done. by destruct (Register.torrents r !! i).
    - rewrite Hr. destruct (decide (i = id)) as [->|Hi]; [by rewrite E|]. by destruct (Register.torrents r !! i). }
  apply H. clear H. unfold Register.add_label. case_decide; [done|]. by destruct (Register.labels r !! _).
Qed.

(** While the calls of one pick go on: what is served has its label, what is not
    has the one it had. *)
Record picking (ids : list string) (name : string) (r0 : Register.state) (w : world) : Prop := {
  pick_calls : Forall (fun x => match x.1 with SetTorrent _ _ l => l = name | GetLabels => True end) (flight w);
  pick_nodup : NoDup (unserved (flight w));
  pick_in : unserved (flight w) ⊆ ids;
  pick_torrents i : Register.torrents (daemon w) !! i =
    (fun l => if decide (i ∈ ids /\ i ∉ unserved (flight w)) then Register.normalise_label name else l) <$>
      Register.torrents r0 !! i;
  pick_labels : Register.labels (daemon w) =
    if decide (ids ⊆ unserved (flight w)) then Register.labels r0 else with_label (Register.normalise_label name) (Register.labels r0)
}.

(** Nothing else is asked of the daemon, and no call fails. *)
Definition carried (e : event) : bool := match e with Selected _ | Opened | Serve _ | Deliver _ => true | _ => false end.

Lemma picking_unserved ids name r0 w w' :
  picking ids name r0 w -> unserved (flight w') ≡ₚ unserved (flight w) -> daemon w' = daemon w ->
  Forall (fun x => match x.1 with SetTorrent _ _ l => l = name | GetLabels => True end) (flight w') ->
  picking ids name r0 w'.
Proof.
  intros [Hc Hn Hi Ht Hl] Hu Hd Hf. split; [done|by rewrite Hu|by rewrite Hu| |].
  - intros i. rewrite Hd, Ht. destruct (Register.torrents r0 !! i); [|done]. cbn. f_equal. apply decide_ext. by rewrite Hu.
  - rewrite Hd, Hl. apply decide_ext. by rewrite Hu.
Qed.

Lemma picking_step ids name r0 w e w' os :
  picking ids name r0 w -> carried e = true -> step tr dft w e = Some (w', os) -> picking ids name r0 w'.
Proof.
  intros Hp He Hs. pose proof (pick_calls _ _ _ _ Hp) as Hc. destruct e as [l| |i|i|i|i|c]; try done; cbn [step] in Hs.
  - injection Hs as <- <-. by eapply picking_unserved.
  - injection Hs as <- <-. eapply picking_unserved; [done| |done|]; cbn [flight].
    + unfold unserved. by rewrite omap_app, app_nil_r.
    + apply Forall_app. by split; [|repeat constructor].
  - destruct (flight w !! i) as [[c [a|]]|] eqn:Ei; cbn [mbind option_bind] in Hs; try done. injection Hs as <- <-.
    pose proof (Forall_lookup_1 _ _ _ _ Hc Ei) as Hcl. cbn [fst] in Hcl.
    destruct c as [|pick id l]; cbn [serve fst snd].
    + eapply picking_unserved; [done| |done|]; cbn [flight].
      * symmetry. apply (unserved_serve _ _ _ _ Ei).
      * by apply Forall_insert.
    + subst l. destruct Hp as [_ Hn Hin Ht Hl].
      pose proof (unserved_serve _ _ _ (Reply (Register.set_torrent dft id name (daemon w)).2) Ei) as Hu. cbn [app] in Hu.
      rewrite Hu in Hn. apply NoDup_cons in Hn as [Hid Hn]. split; cbn [flight daemon].
      * by apply Forall_insert.
      * done.
      * intros i' Hi'. apply Hin. rewrite Hu. by right.
      * intros i'. rewrite set_torrent_torrents, Ht. destruct (Register.torrents r0 !! i') as [l|]; [|done]. cbn. f_equal.
        assert (id ∈ ids) as Hidin by (apply Hin; rewrite Hu; by left).
        destruct (decide (i' = id)) as [->|Hne]; [by rewrite decide_True by (by split)|].
        apply decide_ext. rewrite Hu, elem_of_cons.
        naive_solver.
      * rewrite set_torrent_labels, Hl. rewrite (decide_False (P := ids ⊆ unserved (<[_ := _]> _))).
        -- case_decide; [done|]. by rewrite with_label_idemp.
        -- intros Hsub. apply Hid, Hsub, Hin. rewrite Hu. by left.
  - destruct (flight w !! i) as [[c [a|]]|] eqn:Ei; cbn [mbind option_bind] in Hs; try done. injection Hs as Hs.
    assert (flight w' = delete i (flight w) /\ daemon w' = daemon w) as [Hf Hd].
    { destruct c as [|pick id l], a as [ls|r]; by injection Hs as <- _. }
    eapply picking_unserved; [done| |done|]; rewrite Hf.
    + rewrite (unserved_delete _ _ _ Ei). by destruct c.
    + by apply Forall_delete.
Qed.

Lemma picked_world name w :
  selected w <> [] ->
  onLabelPicked name w =
  World (selected w) (items w) (left w ++ [length (selected w).*1])
    (flight w ++ ((fun id => (SetTorrent (length (left w)) id name, None)) <$> (selected w).*1)) (daemon w).
Proof. intros H. unfold onLabelPicked. by destruct (selected w). Qed.

(** Claim C12.  A label that is picked reaches every torrent that is selected and
    no other, in whatever order the daemon serves and answers the calls; it is
    made if there is none, and no other label changes. *)
Theorem label_reaches_all w i text name b es w' os :
  items w !! i = Some (Label text name b) -> flight w = [] -> NoDup (selected w).*1 -> selected w <> [] ->
  forallb carried es = true -> steps tr dft w (Picked i :: es) = Some (w', os) -> flight w' = [] ->
  let l := Register.normalise_label name in
  (forall id, Register.torrents (daemon w') !! id =
     (fun old => if decide (id ∈ (selected w).*1) then l else old) <$> Register.torrents (daemon w) !! id) /\
  Register.labels (daemon w') = with_label l (Register.labels (daemon w)).
Proof.
  intros Hi Hf Hnd Hsel Hes Hr Hf' l.
  assert (picking (selected w).*1 name (daemon w) w') as [_ _ _ Ht Hl].
  { apply (run_app (step tr dft) w [Picked i] es) in Hr as (w1 & os1 & os2 & H1 & Hr & _).
    assert (w1 = onLabelPicked name w) as ->.
    { unfold run in H1. cbn [foldl mbind option_bind step] in H1. rewrite Hi in H1. by injection H1 as <- _. }
    assert (picking (selected w).*1 name (daemon w) (onLabelPicked name w)) as H0.
    { rewrite (picked_world _ _ Hsel). set (ids := (selected w).*1) in *.
      assert (forall k, unserved ((fun id => (SetTorrent k id name, None)) <$> ids) = ids) as Hu.
      { intros k. generalize ids. intros l0. unfold unserved. induction l0 as [|x l0 IH]; [done|]. cbn. by f_equal. }
      split; cbn [flight daemon]; rewrite Hf, app_nil_l, ?Hu.
      - apply Forall_fmap, Forall_forall. done.
      - exact Hnd.
      - done.
      - intros i0. destruct (Register.torrents (daemon w) !! i0); [|done]. cbn. by rewrite decide_False by naive_solver.
      - by rewrite decide_True. }
    clear Hi Hsel Hf'. revert Hes w' os2 Hr. induction es as [|e es IH] using rev_ind; intros Hes w' os2 Hr.
    - by injection Hr as <- _.
    - rewrite forallb_app in Hes. apply andb_true_iff in Hes as [Hes He]. cbn in He. rewrite andb_true_r in He.
      apply run_snoc in Hr as (w2 & os3 & os4 & Hr & Hs & _). eapply picking_step; [|done|done]. by eapply IH. }
  rewrite Hf' in Ht, Hl. cbn in Ht, Hl. split.
  - intros id. rewrite Ht. destruct (Register.torrents _ !! id); [|done]. cbn. f_equal. apply decide_ext.
    split; [by intros [? _]|]. intros H. split; [done|]. apply not_elem_of_nil.
  - rewrite Hl, decide_False; [done|]. intros Hsub. destruct (selected w) as [|rec recs]; [done|].
    by apply (not_elem_of_nil rec.1), Hsub; left.
Qed.

End labels.

(** The label of the one torrent that is selected is marked, and no other. *)
Lemma labels_marked tr names w text name c :
  LabelMenu.Label text name c ∈ LabelMenu.items_of tr names w ->
  c = true <-> exists id v, LabelMenu.selected w = [(id, v)] /\ (if truthy v then v else PStr "") = PStr name.
Proof.
  intros H. assert (c = LabelMenu.marked w name) as ->.
  { unfold LabelMenu.items_of in H. apply elem_of_cons in H as [[= -> -> ->]|H]; [done|].
    apply elem_of_cons in H as [|H]; [done|]. destruct names as [|n names].
    - by apply list_elem_of_singleton in H.
    - by apply list_elem_of_fmap in H as (m & [= -> -> ->] & _). }
  unfold LabelMenu.marked, LabelMenu.current. destruct (LabelMenu.selected w) as [|[id v] [|]]; cbn.
  - split; [done|naive_solver].
  - destruct (truthy v) eqn:Ev.
    + split.
      * intros Hs. exists id, v. split; [done|]. rewrite Ev. destruct v; try done. cbn in Hs. by apply bool_decide_eq_true in Hs as ->.
      * intros (? & ? & [= <- <-] & Hv). rewrite Ev in Hv. subst v. cbn. by apply bool_decide_eq_true.
    + split.
      * intros Hs. exists id, v. split; [done|]. rewrite Ev. by apply bool_decide_eq_true in Hs as ->.
      * intros (? & ? & [= <- <-] & Hv). rewrite Ev in Hv. injection Hv as <-. by apply bool_decide_eq_true.
  - split; [done|naive_solver].
Qed.

(** ** The window that removes, and the toolbar *)

(** When other torrents are chosen before a removal is answered, it is their rows
    that are taken from the list, and their question that is closed. *)
Theorem rows_of_another_removed a b data :
  exists s, Removal.steps Removal.create [Removal.Show a; Removal.Remove data; Removal.Show b; Removal.Answered 0] =
    Some (s, [Removal.Asked (Some a) data; Removal.RowsRemoved (Some b); Removal.Polled]) /\ Removal.visible s = false.
Proof. by eexists. Qed.

Lemma set_all_enabled b ks s k :
  oget k (Toolbar.enabled (Toolbar.set_all b ks s)) = if decide (k ∈ ks) then Some b else oget k (Toolbar.enabled s).
Proof.
  unfold Toolbar.set_all. cbn [Toolbar.enabled]. induction ks as [|x ks IH] using rev_ind.
  - by rewrite decide_False by apply not_elem_of_nil.
  - rewrite foldl_app. cbn [foldl]. destruct (decide (k = x)) as [->|Hx].
    + rewrite oget_oset_eq, decide_True; [done|]. apply elem_of_app. right. by apply list_elem_of_singleton.
    + rewrite oget_oset_ne, IH by done. apply decide_ext. rewrite elem_of_app, list_elem_of_singleton. naive_solver.
Qed.

(** The buttons that need a daemon can be pressed for ever after the first
    connection. *)
Theorem buttons_stay_enabled es k :
  Toolbar.Connected ∈ es -> k ∈ Toolbar.connectedButtons ->
  oget k (Toolbar.enabled (Toolbar.steps Toolbar.create es)) = Some true.
Proof.
  intros He Hk. assert (k <> "logout") as Hl.
  { intros ->. revert Hk. apply (bool_decide_unpack _). by vm_compute. }
  unfold Toolbar.steps. induction es as [|e es IH] using rev_ind; [by apply not_elem_of_nil in He|].
  rewrite foldl_app. cbn [foldl]. set (s := foldl _ _ _) in *.
  assert (Toolbar.Connected ∈ es -> oget k (Toolbar.enabled s) = Some true) as IH' by exact IH.
  assert (e = Toolbar.Connected \/ oget k (Toolbar.enabled s) = Some true) as [->|Hs].
  { apply elem_of_app in He as [He%IH'|He%list_elem_of_singleton]; [by right|by left]. }
  - cbn [Toolbar.step]. unfold Toolbar.onConnect. rewrite set_all_enabled. by rewrite decide_True.
  - destruct e; cbn [Toolbar.step Toolbar.enabled]; unfold Toolbar.onConnect, Toolbar.onLogin, Toolbar.onLogout; try exact Hs;
      rewrite set_all_enabled; case_decide as Hd; try done. all: by apply list_elem_of_singleton in Hd.
Qed.

(** ** A label picked for two torrents *)

Definition no_options : Json.dict := [].
Definition a_register : Register.state :=
  Register.mk {[ "tv" := no_options ]} (<["a" := ""]> (<["b" := "tv"]> (<["c" := ""]> ∅))).
Definition a_menu : LabelMenu.world :=
  LabelMenu.World [("a", PStr ""); ("c", PStr "")] [LabelMenu.Label "Films" "films" false] [] [] a_register.
Definition crossing : list LabelMenu.event :=
  [LabelMenu.Serve 1; LabelMenu.Serve 0; LabelMenu.Deliver 1; LabelMenu.Deliver 0].

Lemma label_reaches_all_witness :
  exists w os, LabelMenu.steps id no_options a_menu (LabelMenu.Picked 0 :: crossing) = Some (w, os) /\
    (fun t => Register.torrents (LabelMenu.daemon w) !! t) <$> ["a"; "b"; "c"] = [Some "films"; Some "tv"; Some "films"].
Proof.
  destruct (LabelMenu.steps id no_options a_menu (LabelMenu.Picked 0 :: crossing)) as [[w os]|] eqn:E; [|by vm_compute in E].
  exists w, os. split; [done|].
  destruct (label_reaches_all id no_options a_menu 0 "Films" "films" false crossing w os) as [H _]; try done.
  - apply (bool_decide_unpack _). by vm_compute.
  - vm_compute in E. by injection E as <- _.
  - cbn [fmap list_fmap]. by rewrite !H.
Defined.

Definition one_pick : list LabelMenu.event :=
  [LabelMenu.Selected [("a", PStr ""); ("c", PStr "")]; LabelMenu.Opened; LabelMenu.Serve 0; LabelMenu.Deliver 0;
   LabelMenu.Picked 2; LabelMenu.Serve 0; LabelMenu.Fail 1; LabelMenu.Deliver 0].

Lemma picks_update_once_witness :
  exists w os, LabelMenu.steps id no_options (LabelMenu.create a_register) one_pick = Some (w, os) /\ length os = 1.
Proof.
  destruct (LabelMenu.steps id no_options (LabelMenu.create a_register) one_pick) as [[w os]|] eqn:E; [|by vm_compute in E].
  exists w, os. split; [done|]. rewrite (picks_update_once id no_options one_pick a_register w os E).
  vm_compute in E. by injection E as <- _.
Defined.
