(* ===== verification/InterfacePage.v ===== *)
(** * The pages of the interface and of the identity

    [preferences/InterfacePage.js], which keeps the interface's own settings with
    the web server, with what the server answers and puts into the page it
    serves; and [preferences/IdentityPage.js], a composite field of the daemon's
    settings: what the swarm is told. *)

From stdpp Require Import base list strings gmap.
From Stdlib Require Import Lia ZArith.
From S2P Require Import Prelude JsNum JsString JsValue ExtCore OptionsManager Fields Connections.

Local Open Scope nat_scope.

(** ** The web server *)

Module Web.

(** [boolean], and [web_get_config] of the settings saved, with the answers that
    do not depend on them given *)
Definition boolean (k : string) (d : bool) (settings : obj val) : val :=
  match oget k settings with Some (VPrim (PBool b)) => VPrim (PBool b) | _ => VPrim (PBool d) end.
Definition get_config (fixed : obj val) (settings : obj val) : obj val :=
  [("sidebar_show_zero", boolean "sidebar_show_zero" false settings);
   ("sidebar_multiple_filters", boolean "sidebar_multiple_filters" true settings);
   ("show_session_speed", boolean "show_session_speed" false settings);
   ("show_sidebar", boolean "show_sidebar" true settings);
   ("delta_updates", boolean "delta_updates" true settings);
   ("first_login", VPrim (PBool false)); ("language", VPrim (PStr "")); ("https", VPrim (PBool false))] ++ fixed.

(** [web_set_config], of settings whose values are the interface's *)
Definition set_config (changes settings : obj val) : obj val :=
  foldl (fun s kv => if bool_decide (kv.1 ∈ Hosts.REFUSED_WEB_KEYS) then s else oset kv.1 kv.2 s) settings changes.

(** [js_config] of the page that is served: [deluge.config] *)
Definition js_config (theme base version poll_interval : val) : obj val :=
  [("theme", theme); ("sidebar_show_zero", VPrim (PBool false)); ("sidebar_multiple_filters", VPrim (PBool true));
   ("show_session_speed", VPrim (PBool false)); ("base", base); ("redeluge_version", version);
   ("first_login", VPrim (PBool false)); ("poll_interval", poll_interval)].

End Web.

(** ** The page of the interface *)

Module Interface.

Inductive ask := GetConfig | SetConfig (changed : obj val) | ChangePassword (old new : string).
Inductive output := Called (a : ask) | SetTheme (v : val) | Schedule | Box (title : string) | Field (e : effect).

(** The page's own manager, the three boxes of the password, [deluge.config], and
    the calls in flight; no setting is an array. *)
Record state := mk {
  om : OM.state; oldPassword : string; newPassword : string; confirmPassword : string; config : obj val; flight : list ask
}.
Definition create (o : OM.state) (config : obj val) : state := mk o "" "" "" config [].
Definition with_om (o : OM.state) (p : state) : state :=
  mk o (oldPassword p) (newPassword p) (confirmPassword p) (config p) (flight p).
Definition call (a : ask) (p : state) : state * list output :=
  (mk (om p) (oldPassword p) (newPassword p) (confirmPassword p) (config p) (flight p ++ [a]), [Called a]).

(** [onPageShow], but for the list of themes; [onGotConfig] and [onSetConfig] *)
Definition onPageShow : state -> state * list output := call GetConfig.
Definition onGotConfig (c : obj val) (p : state) : state * list output :=
  let '(o, es) := OM.set (om p) (OObj c) undef in (with_om o p, map Field es).
Definition onSetConfig (p : state) : state := with_om (OM.commit (om p)) p.

(** [onPasswordChange], and what its answer does *)
Definition onPasswordChange (p : state) : state * list output :=
  if decide (newPassword p = confirmPassword p) then call (ChangePassword (oldPassword p) (newPassword p)) p
  else (p, [Box "Invalid Password"]).
Definition onChanged (result : bool) (p : state) : state * list output :=
  if result then (mk (om p) "" "" "" (config p) (flight p), [Box "Change Successful"])
  else (mk (om p) "" (newPassword p) (confirmPassword p) (config p) (flight p), [Box "Password"]).

(** [onApply], which [onOk] is too: the loop over [deluge.config] gives every key
    it has what the manager has for it. *)
Definition copy_config (o : OM.state) (c : obj val) : obj val := map (fun kv => (kv.1, OM.get ∅ o kv.1)) c.
Definition onApply (p : state) : state * list output :=
  let changed := OM.getDirty (om p) in
  let '(p, os) :=
    if Ext.isObjectEmpty changed then (p, [])
    else
      let '(p, os) := call (SetConfig changed) p in
      (mk (om p) (oldPassword p) (newPassword p) (confirmPassword p) (copy_config (om p) (config p)) (flight p),
       os ++ (if oget "poll_interval" changed then [Schedule] else []) ++
       (match oget "theme" changed with Some v => [SetTheme v; Box "WebUI Theme Changed"] | None => [] end)) in
  if bool_decide (oldPassword p = "") && bool_decide (newPassword p = "") then (p, os)
  else let '(p, os') := onPasswordChange p in (p, os ++ os').

(** A field that is edited *)
Definition edit (k : string) (v : val) (p : state) : state * list output :=
  let '(o, es) := OM.update ∅ (om p) (OKey k) v in (with_om o p, map Field es).

Inductive answer := Config (c : obj val) | Done | Changed (result : bool).
Inductive event :=
  | Show | Apply | Edit (k : string) (v : val) | Passwords (old new confirm : string) | Answered (i : nat) (r : answer) | Lost (i : nat).
Definition onAnswer (a : ask) (r : answer) (p : state) : option (state * list output) :=
  match a, r with
  | GetConfig, Config c => Some (onGotConfig c p)
  | SetConfig _, Done => Some (onSetConfig p, [])
  | ChangePassword _ _, Changed b => Some (onChanged b p)
  | _, _ => None
  end.
Definition step (p : state) (e : event) : option (state * list output) :=
  let without i := mk (om p) (oldPassword p) (newPassword p) (confirmPassword p) (config p) (delete i (flight p)) in
  match e with
  | Show => Some (onPageShow p)
  | Apply => Some (onApply p)
  | Edit k v => Some (edit k v p)
  | Passwords a b c => Some (mk (om p) a b c (config p) (flight p), [])
  | Answered i r => a ← flight p !! i; onAnswer a r (without i)
  | Lost i => _ ← flight p !! i; Some (without i, [])
  end.
Definition steps : state -> list event -> option (state * list output) := run step.

End Interface.

(** ** The page of the identity *)

Module Identity.

(** The keys of [MODES], in order *)
Definition MODES : list string := ["show"; "hide"; "rotate"; "custom"].

(** The radios that are on, the two texts, and whether the boxes of the custom
    identity are greyed. *)
Record state := mk { modes : obj bool; userAgent : TextField.state; peerId : TextField.state; greyed : bool }.
Definition create : state := mk ((., false) <$> MODES) (TextField.mk "" "" false) (TextField.mk "" "" false) false.
Definition with_modes (m : obj bool) (f : state) : state := mk m (userAgent f) (peerId f) (greyed f).

(** [mode] *)
Definition mode (f : state) : string := default "show" (fst <$> List.find (fun p => p.2) (modes f)).

(** [getValue] *)
Record identity := { i_mode : string; i_user_agent : string; i_peer_id : string }.
Definition getValue (f : state) : identity :=
  {| i_mode := mode f; i_user_agent := TextField.getValue (userAgent f); i_peer_id := TextField.getValue (peerId f) |}.

(** [onModeChanged], and [onModeCheck] of a radio that goes on, with what
    [onFieldChange] fires unless a value is being set *)
Definition onModeChanged (f : state) : state :=
  mk (modes f) (userAgent f) (peerId f) (negb (bool_decide (mode f = "custom"))).
Definition onFieldChange (setting : bool) (f : state) : list identity := if setting then [] else [getValue f].
Definition onModeCheck (setting : bool) (f : state) : state * list identity :=
  let f := onModeChanged f in (f, onFieldChange setting f).

(** [Radio.setValue] of a radio that is drawn: the browser turns the others off
    as one goes on, before its [check] is fired, and the loop over the others
    then finds them off. *)
Definition only (k : string) (m : obj bool) : obj bool := map (fun p => (p.1, bool_decide (p.1 = k))) m.
Definition setRadio (setting : bool) (k : string) (b : bool) (f : state) : state * list identity :=
  let was := default false (oget k (modes f)) in
  let f := with_modes (if b then only k (modes f) else oset k false (modes f)) f in
  if b && negb was then onModeCheck setting f else (f, []).

(** [setValue] of the setting read; the names every object inherits are not
    modes the daemon has. *)
Definition text_or_empty (v : prim) : string := if truthy v then to_str v else "".
Definition setValue (value : obj prim) (f : state) : state :=
  let m := to_str (pget "mode" value) in
  let m := if decide (m ∈ MODES) then m else "show" in
  let f := foldl (fun f k => (setRadio true k (bool_decide (k = m)) f).1) f MODES in
  onModeChanged
    (mk (modes f) (TextField.setValue (text_or_empty (pget "user_agent" value)) (userAgent f))
       (TextField.setValue (text_or_empty (pget "peer_id" value)) (peerId f)) (greyed f)).

(** A radio that is clicked, the client that is copied from, and what is typed *)
Definition click (k : string) (f : state) : state * list identity :=
  if default true (oget k (modes f)) then (f, []) else setRadio false k true f.
Definition onKnownClient (user_agent peer_id : string) (f : state) : state * list identity :=
  let f := mk (modes f) (TextField.setValue user_agent (userAgent f)) (TextField.setValue peer_id (peerId f)) (greyed f) in
  (f, onFieldChange false f).
Definition typed (agent : bool) (t : string) (f : state) : state * list identity :=
  let old := if agent then userAgent f else peerId f in
  if decide (TextField.text old = TextField.text (TextField.setValue t old)) then (f, [])
  else
    let f := if agent then mk (modes f) (TextField.setValue t (userAgent f)) (peerId f) (greyed f)
             else mk (modes f) (userAgent f) (TextField.setValue t (peerId f)) (greyed f) in
    (f, onFieldChange false f).

Inductive event := Set_ (value : obj prim) | Click (k : string) | Copied (user_agent peer_id : string) | Typed (agent : bool) (t : string).
Definition step (f : state) (e : event) : option (state * list identity) :=
  match e with
  | Set_ v => Some (setValue v f, [])
  | Click k => Some (click k f)
  | Copied a b => if greyed f then None else Some (onKnownClient a b f)
  | Typed a t => if greyed f then None else Some (typed a t f)
  end.
Definition steps : state -> list event -> option (state * list identity) := run step.

End Identity.

(** ** What the swarm is told *)

Section identity.
Import Identity.
Implicit Types (f : state) (m k : string).

(** One radio is on. *)
Definition one_on m : obj bool := (fun k => (k, bool_decide (k = m))) <$> MODES.
Definition none_on : obj bool := (., false) <$> MODES.

Lemma mode_cases m : m ∈ MODES -> m = "show" \/ m = "hide" \/ m = "rotate" \/ m = "custom".
Proof. unfold MODES. rewrite !elem_of_cons, elem_of_nil. tauto. Qed.

Lemma mode_one_on m f : m ∈ MODES -> modes f = one_on m -> mode f = m.
Proof. intros Hm Hf. unfold mode. rewrite Hf. destruct (mode_cases m Hm) as [->|[->|[->| ->]]]; reflexivity. Qed.

Lemma only_one_on m (o : obj bool) : o.*1 = MODES -> only m o = one_on m.
Proof.
  intros H. unfold only, one_on. rewrite <- H. clear H. induction o as [|p o IH]; [done|]. cbn. by f_equal.
Qed.

Definition known f : Prop := (modes f).*1 = MODES.

Lemma one_on_known m f : modes f = one_on m -> known f.
Proof. intros H. unfold known. by rewrite H. Qed.

Lemma radio_modes b k m f :
  known f -> m ∈ MODES -> modes (setRadio b k true f).1 = only k (modes f) /\
  greyed (setRadio b k true f).1 =
    if default false (oget k (modes f)) then greyed f else negb (bool_decide (mode (with_modes (only k (modes f)) f) = "custom")).
Proof. intros _ _. unfold setRadio. cbn [andb]. by destruct (default false _). Qed.

Lemma texts_radio setting b k f :
  userAgent (setRadio setting k b f).1 = userAgent f /\ peerId (setRadio setting k b f).1 = peerId f.
Proof. unfold setRadio. destruct (b && negb _); by destruct b. Qed.

Lemma radios_set m f :
  known f -> m ∈ MODES -> modes (foldl (fun f k => (setRadio true k (bool_decide (k = m)) f).1) f MODES) = one_on m.
Proof.
  intros Hf Hm. destruct f as [[|[k1 a] [|[k2 b] [|[k3 c] [|[k4 d] [|]]]]] u p g]; try done.
  unfold known in Hf. cbn in Hf. injection Hf as -> -> -> ->.
  destruct (mode_cases m Hm) as [->|[->|[->| ->]]]; destruct a, b, c, d; reflexivity.
Qed.

Lemma radios_texts m f ks :
  let f' := foldl (fun f k => (setRadio true k (bool_decide (k = m)) f).1) f ks in
  userAgent f' = userAgent f /\ peerId f' = peerId f.
Proof.
  cbn. revert f. induction ks as [|k ks IH]; intros f; [done|]. cbn [foldl]. destruct (IH (setRadio true k (bool_decide (k = m)) f).1) as [-> ->].
  apply texts_radio.
Qed.

(** The page never invents an identity: what it was given is what it
    answers, and a mode it does not know is the one that shows what this client
    is. *)
Theorem identity_kept value f :
  known f -> TextField.emptyText (userAgent f) = "" -> TextField.emptyText (peerId f) = "" ->
  let m := to_str (pget "mode" value) in
  let ua := text_or_empty (pget "user_agent" value) in
  let pid := text_or_empty (pget "peer_id" value) in
  line ua -> line pid ->
  getValue (setValue value f) =
    {| i_mode := if decide (m ∈ MODES) then m else "show"; i_user_agent := ua; i_peer_id := pid |} /\
  greyed (setValue value f) = negb (bool_decide (m = "custom")).
Proof.
  intros Hf Hu Hp m ua pid Hua Hpid. unfold setValue. fold m. set (m' := if decide (m ∈ MODES) then m else "show").
  assert (m' ∈ MODES) as Hm by (unfold m'; case_decide; [done|by left]).
  set (g := foldl _ f MODES). pose proof (radios_set m' f Hf Hm : modes g = one_on m') as Hg.
  destruct (radios_texts m' f MODES) as [Hgu Hgp]. fold g in Hgu, Hgp.
  unfold getValue, onModeChanged. cbn [modes userAgent peerId greyed mode]. split.
  - f_equal.
    + by apply mode_one_on.
    + apply text_field_roundtrip; [done|]. rewrite Hgu, Hu. destruct (decide (ua = "")); [by right|by left].
    + apply text_field_roundtrip; [done|]. rewrite Hgp, Hp. destruct (decide (pid = "")); [by right|by left].
  - f_equal. rewrite (mode_one_on m') by done. unfold m'. case_decide as Hd; [done|].
    rewrite bool_decide_eq_false_2 by done. symmetry. apply bool_decide_eq_false. intros ->. apply Hd. apply (bool_decide_unpack _). by vm_compute.
Qed.

(** Whatever is read, clicked and typed, at most one mode is chosen, and once one
    is, the boxes of the custom identity can be used under it and under no
    other. *)
Definition mode_ok f : Prop :=
  modes f = none_on \/ exists m, m ∈ MODES /\ modes f = one_on m /\ greyed f = negb (bool_decide (m = "custom")).

Lemma set_mode_ok value f : known f -> exists m, m ∈ MODES /\ modes (setValue value f) = one_on m /\
  greyed (setValue value f) = negb (bool_decide (m = "custom")).
Proof.
  intros Hf. unfold setValue. set (m' := if decide (to_str (pget "mode" value) ∈ MODES) then to_str (pget "mode" value) else "show").
  assert (m' ∈ MODES) as Hm by (unfold m'; case_decide; [done|by left]).
  exists m'. split; [done|]. pose proof (radios_set m' f Hf Hm) as Hg. unfold onModeChanged. cbn [modes greyed].
  split; [done|]. by rewrite (mode_one_on m').
Qed.

Lemma mode_ok_known f : mode_ok f -> known f.
Proof. unfold known. intros [->|(m & _ & -> & _)]; done. Qed.

Theorem one_mode es f os : steps create es = Some (f, os) -> mode_ok f.
Proof.
  apply (run_ind step (fun f _ _ => mode_ok f)); [by left|].
  intros _ f1 _ e f2 os2 _ Hf Hs. pose proof (mode_ok_known f1 Hf) as Hk. destruct e as [v|k|a b|a t]; cbn [step] in Hs.
  - injection Hs as <- _. right. by apply set_mode_ok.
  - injection Hs as Hs. unfold click in Hs. destruct (oget k (modes f1)) as [b|] eqn:Ek; [|by injection Hs as <- _].
    cbn [default] in Hs. destruct b; [by injection Hs as <- _|]. cbn in Hs. unfold setRadio in Hs. rewrite Ek in Hs.
    cbn in Hs. injection Hs as <- _. right. exists k.
    assert (k ∈ MODES) as Hm by (rewrite <- Hk; apply oget_is_Some; by eexists).
    unfold onModeChanged. cbn [modes with_modes greyed]. rewrite (only_one_on k _ Hk). split; [done|]. split; [done|].
    by rewrite (mode_one_on k) by done.
  - destruct (greyed f1) eqn:Eg; [done|]. by injection Hs as <- _.
  - destruct (greyed f1) eqn:Eg; [done|]. injection Hs as Hs. unfold typed in Hs.
    case_decide; injection Hs as <- _; [done|]. by destruct a.
Qed.

(** What was read is answered as it was read. *)
Lemma identity_kept_witness :
  getValue (setValue [("mode", PStr "custom"); ("user_agent", PStr "qBittorrent/4.6.5"); ("peer_id", PStr "-qB4650-")] create) =
    {| i_mode := "custom"; i_user_agent := "qBittorrent/4.6.5"; i_peer_id := "-qB4650-" |} /\
  greyed (setValue [("mode", PStr "custom"); ("user_agent", PStr "qBittorrent/4.6.5"); ("peer_id", PStr "-qB4650-")] create) = false.
Proof.
  refine (identity_kept [("mode", PStr "custom"); ("user_agent", PStr "qBittorrent/4.6.5"); ("peer_id", PStr "-qB4650-")] create
            eq_refl eq_refl eq_refl _ _); split; reflexivity.
Defined.

Lemma one_mode_witness :
  exists f os, steps create [Set_ []; Click "custom"; Copied "a" "b"; Click "hide"] = Some (f, os) /\ mode_ok f.
Proof.
  eexists _, _. split; [reflexivity|].
  by refine (one_mode [Set_ []; Click "custom"; Copied "a" "b"; Click "hide"] _ _ eq_refl).
Defined.

End identity.

(** ** The interface's settings and [deluge.config] *)

Section interface.
Import Interface.
Implicit Types (p : state) (k : string).

(** Whether the settings were ever sent *)
Definition sends (o : output) : bool := match o with Called (SetConfig _) => true | _ => false end.
Definition sent (os : list output) : bool := existsb sends os.

Lemma sends_app os os' : sent (os ++ os') = sent os || sent os'.
Proof. apply existsb_app. Qed.

Lemma sends_fields es : sent (map Field es) = false.
Proof. by induction es. Qed.

(** [Ext.apply] leaves what the other object does not have. *)
Lemma apply_without {A} (o c : obj A) k : oget k c = None -> oget k (Ext.apply o c) = oget k o.
Proof.
  intros Hk. unfold Ext.apply. generalize (okeys c). intros ks. revert o.
  induction ks as [|j ks IH]; intros o; [done|]. cbn [foldl]. rewrite IH. destruct (oget j c) as [v|] eqn:E; [|done].
  apply oget_oset_ne. congruence.
Qed.

Lemma oget_copy o k (c : obj val) : oget k (copy_config o c) = (fun _ => OM.get ∅ o k) <$> oget k c.
Proof.
  induction c as [|[j v] c IH]; [done|]. cbn. case_decide; [by subst|apply IH].
Qed.

(** What an [Apply] does to the page *)
Lemma onApply_config p :
  config (onApply p).1 = (if Ext.isObjectEmpty (OM.changed (om p)) then config p else copy_config (om p) (config p)) /\
  om (onApply p).1 = om p /\ sent (onApply p).2 = negb (Ext.isObjectEmpty (OM.changed (om p))).
Proof.
  unfold onApply, OM.getDirty, call, onPasswordChange. destruct (Ext.isObjectEmpty (OM.changed (om p))); cbn.
  - destruct (_ && _); [done|]. by case_decide.
  - destruct (oget "poll_interval" (OM.changed (om p))), (oget "theme" (OM.changed (om p))); cbn;
      (destruct (_ && _); [done|]); by case_decide.
Qed.

(** A manager that has nothing for an option *)
Definition unknown k (o : OM.state) : Prop := oget k (OM.options o) = None /\ oget k (OM.changed o) = None.

Lemma unknown_get k o : unknown k o -> OM.get ∅ o k = undef.
Proof. intros [H1 H2]. unfold OM.get, OM.isDirty, vget. by rewrite H1, H2. Qed.

Lemma unknown_commit k o : unknown k o -> unknown k (OM.commit o).
Proof. intros [H1 H2]. split; [|done]. cbn. by rewrite apply_without. Qed.

Lemma unknown_set k o c : unknown k o -> oget k c = None -> unknown k (OM.set o (OObj c) undef).1.
Proof. intros [H1 H2] Hc. split; [|done]. cbn. by rewrite apply_without. Qed.

Lemma unknown_update k o j v : unknown k o -> k <> j -> v <> undef -> unknown k (OM.update ∅ o (OKey j) v).1.
Proof.
  intros [H1 H2] Hj Hv. cbn. unfold OM.update_key. rewrite decide_False by done. unfold OM.update1, unknown.
  repeat case_match; cbn; by rewrite ?oget_odel_ne, ?oget_oset_ne by done.
Qed.

(** What the server never answers and no field is bound to *)
Definition never k (e : event) : Prop :=
  match e with
  | Edit j v => k <> j /\ v <> undef
  | Answered _ (Config c) => oget k c = None
  | _ => True
  end.

(** [deluge.config] is written by nothing but an [Apply] with something changed:
    what [web.get_config] answers is shown on the page and goes no further.  And
    that [Apply] takes away every key that the manager does not know, the version
    of the program among them. *)
Theorem config_of_page es p os k config0 :
  steps (create (OM.create None) config0) es = Some (p, os) -> Forall (never k) es ->
  oget k (config p) = if sent os then (fun _ => undef) <$> oget k config0 else oget k config0.
Proof.
  intros Hs Hes. enough (unknown k (om p) /\ oget k (config p) = if sent os then (fun _ => undef) <$> oget k config0 else oget k config0) by tauto.
  revert Hes. revert es p os Hs.
  apply (run_ind step (fun p es os => Forall (never k) es -> unknown k (om p) /\
    oget k (config p) = if sent os then (fun _ => undef) <$> oget k config0 else oget k config0)); [done|].
  intros es p1 os1 e p2 os2 _ IH Hs Hes. rewrite Forall_app, Forall_singleton in Hes. destruct Hes as [Hes He].
  destruct (IH Hes) as [Hu Hc]. clear IH Hes. rewrite sends_app. destruct e as [| |j v|a b c|i r|i]; cbn [step] in Hs.
  - injection Hs as <- <-. cbn. by rewrite orb_false_r.
  - injection Hs as Hs. destruct (onApply_config p1) as (H1 & H2 & H3). rewrite Hs in H1, H2, H3. cbn [fst snd] in *.
    rewrite H1, H2, H3. split; [done|]. destruct (Ext.isObjectEmpty _); cbn [negb]; [by rewrite orb_false_r|].
    rewrite orb_true_r, oget_copy, unknown_get, Hc by done. by destruct (sent os1), (oget k config0).
  - destruct He as [Hj Hv]. injection Hs as Hs. unfold edit in Hs. pose proof (unknown_update k (om p1) j v Hu Hj Hv) as Hn.
    destruct (OM.update ∅ (om p1) (OKey j) v) as [o fs] eqn:Eu. injection Hs as <- <-. rewrite sends_fields, orb_false_r. done.
  - injection Hs as <- <-. cbn. by rewrite orb_false_r.
  - destruct (flight p1 !! i) as [q|]; [|done]. cbn in Hs. destruct q, r as [c| |[]]; try done; cbn in Hs; injection Hs as <- <-.
    + rewrite sends_fields, orb_false_r. split; [|done]. by apply (unknown_set k (om p1)).
    + cbn. rewrite orb_false_r. split; [by apply unknown_commit|done].
    + cbn. by rewrite orb_false_r.
    + cbn. by rewrite orb_false_r.
  - destruct (flight p1 !! i) as [q|]; [|done]. injection Hs as <- <-. cbn. by rewrite orb_false_r.
Qed.

(** The page as it is served, the settings saved with several filters turned off,
    and what is done: they are read, shown, and one other setting is applied. *)
Definition served : obj val :=
  Web.js_config (VPrim (PStr "gray")) (VPrim (PStr "/")) (VPrim (PStr "1.7.0")) (VPrim (pint 2000)).
Definition saved : obj val := Web.set_config [("sidebar_multiple_filters", VPrim (PBool false)); ("port", VPrim (pint 1))] [].
Definition answered : obj val := Web.get_config [("theme", VPrim (PStr "gray")); ("base", VPrim (PStr "/")); ("poll_interval", VPrim (pint 2000))] saved.
Definition reads : list event := [Show; Answered 0 (Config answered)].
Definition applies : list event := reads ++ [Edit "show_session_speed" (VPrim (PBool true)); Apply; Answered 0 Done].

Lemma config_of_page_witness :
  oget "sidebar_multiple_filters" answered = Some (VPrim (PBool false)) /\
  (exists p os, steps (create (OM.create None) served) reads = Some (p, os) /\
     vget "sidebar_multiple_filters" (OM.options (om p)) = VPrim (PBool false) /\
     oget "sidebar_multiple_filters" (config p) = Some (VPrim (PBool true))) /\
  (exists p os, steps (create (OM.create None) served) applies = Some (p, os) /\
     oget "sidebar_multiple_filters" (config p) = Some (VPrim (PBool false)) /\
     oget "redeluge_version" (config p) = Some undef).
Proof.
  split; [reflexivity|]. split.
  - eexists _, _. split; [reflexivity|]. split; reflexivity.
  - eexists _, _. split; [reflexivity|]. split; [reflexivity|].
    refine (config_of_page applies _ _ "redeluge_version" served eq_refl _). repeat constructor; discriminate.
Defined.

End interface.
