(* ===== verification/Login.v ===== *)
(** * Logging in

    The sessions and the password of the web server ([auth.rs], and the calls of
    [auth] in [json_api.rs]), [LoginWindow.js], and the browser between them: it
    keeps one cookie, which every answer may replace. *)

From stdpp Require Import base list strings gmap.
From Stdlib Require Import Lia ZArith.
From S2P Require Import Prelude JsNum JsString Integers.

Local Open Scope nat_scope.

(** ** What the server keeps *)

Module Sessions.

Record session := mk { login : string; level : Z; expires : Z }.
Notation sessions := (gmap string session).

(** [create], given what the random bytes came to; [touch], [remove] and [sweep] *)
Definition create (id login : string) (level now timeout : Z) (s : sessions) : sessions :=
  <[id := mk login level (now + timeout)]> s.
Definition touch (id : string) (now timeout : Z) (s : sessions) : sessions * option session :=
  match s !! id with
  | Some x =>
      if (expires x <=? now)%Z then (delete id s, None)
      else let x := mk (login x) (level x) (now + timeout) in (<[id := x]> s, Some x)
  | None => (s, None)
  end.
Definition remove (id : string) (s : sessions) : sessions * bool := (delete id s, bool_decide (is_Some (s !! id))).
Definition sweep (now : Z) (s : sessions) : sessions := filter (fun kv => (now < expires kv.2)%Z) s.

End Sessions.

Module Cookie.

(** [checksum_of], of a text that is ASCII *)
Fixpoint checksum_of (s : string) : Z :=
  match s with EmptyString => 0 | String.String c s' => Z.of_nat (code c) + checksum_of s' end.

(** [format!("{:04}")] of a number below 10000 *)
Definition digit (n : Z) : Ascii.ascii := digit_char (n mod 10).
Definition padded (n : Z) : string :=
  String.String (digit (n / 1000)) (String.String (digit (n / 100)) (String.String (digit (n / 10)) (String.String (digit n) ""))).

(** [session_cookie] *)
Definition session_cookie (id : string) : string := id +:+ padded (checksum_of id mod 10000).

(** [str::parse] of a [u32]; four characters never exceed it. *)
Definition parse_u32 (s : string) : option Z :=
  let s := match s with String.String c (String.String _ _ as s') => if decide (c = chr 43) then s' else s | _ => s end in
  if negb (bool_decide (s = "")) && str_all is_digit s then Some (digits_Z 0 s) else None.

(** [strip_checksum] *)
Definition strip_checksum (cookie : string) : option string :=
  if String.length cookie <? 5 then None
  else
    let n := String.length cookie - 4 in
    let id := String.substring 0 n cookie in
    checksum ← parse_u32 (str_drop n cookie);
    if (checksum =? checksum_of id)%Z then Some id else None.

End Cookie.

Module Auth.

Definition AUTH_LEVEL_NONE : Z := 0.
Definition AUTH_LEVEL_ADMIN : Z := 10.

(** The calls: those of [auth], the list of methods, which is open too, and any
    other. *)
Inductive call := Login (password : string) | CheckSession | DeleteSession | ChangePassword (old new : string) | ListMethods | Other.
Inductive reply := Bool (b : bool) | Answer | Error (code : Z).

(** What is asked of the outside while a call is served: whether the throttle
    lets the client try, and what the random bytes come to. *)
Record chance := { throttled : bool; random : option string }.

Section auth.

(** A stored password, [verify], [needs_upgrade] and [hash_password] (scrypt, of
    a crate), and [session_timeout] *)
Context {P : Type} (verify : P -> string -> bool) (needs_upgrade : P -> bool) (hash_password : string -> option P) (timeout : Z).

Record state := mk { sessions : Sessions.sessions; password : P }.

(** [current_session] *)
Definition current_session (now : Z) (cookie : option string) (s : state) : state * option (string * Z) :=
  match id ← cookie; Cookie.strip_checksum id with
  | Some id =>
      let '(ss, x) := Sessions.touch id now timeout (sessions s) in
      (mk ss (password s), x ← x; Some (id, Sessions.level x))
  | None => (s, None)
  end.

(** [auth_login], with the session it made *)
Definition auth_login (c : chance) (now : Z) (pw : string) (s : state) : state * (reply * option string) :=
  if throttled c then (s, (Error 3, None))
  else if negb (verify (password s) pw) then (s, (Bool false, None))
  else
    let s := mk (sessions s) (if needs_upgrade (password s) then default (password s) (hash_password pw) else password s) in
    match random c with
    | None => (s, (Error 3, None))
    | Some id => (mk (Sessions.create id "admin" AUTH_LEVEL_ADMIN now timeout (sessions s)) (password s), (Bool true, Some id))
    end.

(** [auth_delete_session] and [auth_change_password] *)
Definition auth_delete_session (cookie : option string) (s : state) : state * reply :=
  match id ← cookie; Cookie.strip_checksum id with
  | Some id => let '(ss, b) := Sessions.remove id (sessions s) in (mk ss (password s), Bool b)
  | None => (s, Bool false)
  end.
Definition auth_change_password (now : Z) (old new : string) (s : state) : state * reply :=
  if negb (verify (password s) old) then (s, Bool false)
  else if decide (new = "") then (s, Error 3)
  else match hash_password new with
       | Some h => (mk (Sessions.sweep now (sessions s)) h, Bool true)
       | None => (s, Error 3)
       end.

(** [dispatch]: what the rest of the server does with a call is no concern of
    the sessions. *)
Definition is_open (k : call) : bool := match k with Login _ | CheckSession | ListMethods => true | _ => false end.
Definition dispatch (c : chance) (now level : Z) (cookie : option string) (k : call) (s : state) : state * (reply * option string) :=
  if negb (is_open k) && (level <? AUTH_LEVEL_ADMIN)%Z then (s, (Error 1, None))
  else
    let plain r := (fst r, (snd r, None)) in
    match k with
    | Login pw => auth_login c now pw s
    | CheckSession => (s, (Bool (AUTH_LEVEL_ADMIN <=? level)%Z, None))
    | DeleteSession => plain (auth_delete_session cookie s)
    | ChangePassword old new => plain (auth_change_password now old new s)
    | ListMethods | Other => (s, (Answer, None))
    end.

(** [handle]: the answer, and the cookie that goes with it *)
Definition handle (c : chance) (now : Z) (cookie : option string) (k : call) (s : state) : state * (reply * option string) :=
  let '(s, session) := current_session now cookie s in
  let level := default AUTH_LEVEL_NONE (snd <$> session) in
  let '(s, (r, new_session)) := dispatch c now level cookie k s in
  (s, (r, Cookie.session_cookie <$> (match new_session with Some id => Some id | None => fst <$> session end))).

(** A run of the server: requests of whatever clients, each at its time *)
Record request := { r_chance : chance; r_now : Z; r_cookie : option string; r_call : call }.
Definition serve (s : state) (r : request) : state * (reply * option string) :=
  handle (r_chance r) (r_now r) (r_cookie r) (r_call r) s.
Definition served : state -> list request -> state := foldl (fun s r => (serve s r).1).

End auth.
Arguments state P : clear implicits.

End Auth.

(** ** The window, the browser and the server *)

Module Window.
Import Auth.

(** [firstShow], whether the window is on the screen, and the password field *)
Record window := mkw { firstShow : bool; shown : bool; text : string }.
Definition create : window := mkw true false "".

(** What the window does outside: an event fired, a call, a box. *)
Inductive output := Fired (name : string) | Called (k : call) | Box.

(** [show] *)
Definition show (skipCheck : bool) (w : window) : window * list output :=
  if skipCheck then (mkw false true (text w), []) else (mkw false (shown w) (text w), [Called CheckSession]).

(** [logout], [onLogin] and [onClientError], which listens once [show] was called *)
Definition logout : list output := [Fired "logout"; Called DeleteSession].
Definition onLogin (w : window) : list output := [Called (Login (text w))].
Definition onClientError (code : Z) (w : window) : window * list output :=
  if firstShow w then (w, [])
  else if (code =? 1)%Z then let '(w, os) := show true w in (w, Fired "logout" :: os) else (w, []).

(** What the calls of the window do with an answer, and with a failure *)
Definition onSuccess (k : call) (result : bool) (w : window) : window * list output :=
  match k with
  | CheckSession => if result then (w, [Fired "login"]) else show true w
  | DeleteSession => show true w
  | Login _ => if result then (mkw (firstShow w) false "", [Fired "login"]) else (w, [Box])
  | _ => (w, [])
  end.
Definition onFailure (k : call) (w : window) : window * list output :=
  match k with CheckSession => show true w | _ => (w, []) end.

(** The client's [error], and the call's own handler *)
Definition onReply (k : call) (r : reply) (w : window) : window * list output :=
  match r with
  | Bool b => onSuccess k b w
  | Answer => onSuccess k true w
  | Error code =>
      let '(w, os) := onClientError code w in let '(w, os') := onFailure k w in (w, os ++ os')
  end.

Section world.

Context {P : Type} (verify : P -> string -> bool) (needs_upgrade : P -> bool) (hash_password : string -> option P) (timeout : Z).
(** Which calls the network may lose *)
Context (lossy : call -> bool).

(** The window, whether the toolbar's button is enabled, the browser's cookie,
    the server and its clock, and the calls that are out, each with its answer
    once it was served *)
Record world := World {
  window_ : window; button : bool; cookie : option string; server : Auth.state P; now : Z;
  flight : list (call * option string * option (reply * option string))
}.
Definition load (s : Auth.state P) (now : Z) (cookie : option string) : world := World create false cookie s now [].

(** What outputs do: [Toolbar.onLogin], and the calls sent *)
Definition calls (os : list output) : list call := omap (fun o => match o with Called k => Some k | _ => None end) os.
Definition logs_in (o : output) : bool := match o with Fired n => bool_decide (n = "login") | _ => false end.
Definition after (w : window) (os : list output) (x : world) : world :=
  World w (button x || existsb logs_in os) (cookie x) (server x) (now x)
    (flight x ++ ((fun k => (k, cookie x, None)) <$> calls os)).
Definition without (i : nat) (x : world) : world :=
  World (window_ x) (button x) (cookie x) (server x) (now x) (delete i (flight x)).
Definition with_cookie (c : option string) (x : world) : world :=
  World (window_ x) (button x) (match c with Some _ => c | None => cookie x end) (server x) (now x) (flight x).

(** The client is ready; a password is typed and [Enter] or the button pressed;
    the toolbar's button, which a modal window covers; another part of the
    interface calls; a call is served, answered, lost; time goes by. *)
Inductive event :=
  | Connected | Type_ (t : string) | Press | Logout | Ask
  | Serve (i : nat) (c : chance) | Deliver (i : nat) | Lose (i : nat) | Tick (d : Z).
Definition step (x : world) (e : event) : option (world * list output) :=
  let does r := let '(w, os) := (r : window * list output) in Some (after w os x, os) in
  match e with
  | Connected => if firstShow (window_ x) then does (show false (window_ x)) else None
  | Type_ t => if shown (window_ x) then does (mkw (firstShow (window_ x)) true t, []) else None
  | Press => if shown (window_ x) then does (window_ x, onLogin (window_ x)) else None
  | Logout =>
      if button x && negb (shown (window_ x)) then
        Some (after (window_ x) logout (World (window_ x) false (cookie x) (server x) (now x) (flight x)), logout)
      else None
  | Ask => does (window_ x, [Called Other])
  | Serve i c =>
      '(k, ck, a) ← flight x !! i;
      match a with
      | Some _ => None
      | None =>
          let '(s, a) := handle verify needs_upgrade hash_password timeout c (now x) ck k (server x) in
          Some (World (window_ x) (button x) (cookie x) s (now x) (<[i := (k, ck, Some a)]> (flight x)), [])
      end
  | Deliver i =>
      '(k, _, a) ← flight x !! i;
      '(r, c) ← a;
      let x := with_cookie c (without i x) in
      let '(w, os) := onReply k r (window_ x) in Some (after w os x, os)
  | Lose i =>
      '(k, _, _) ← flight x !! i;
      if lossy k then
        let x := without i x in
        let '(w, os) := onReply k (Error 255) (window_ x) in Some (after w os x, os)
      else None
  | Tick d => if (0 <=? d)%Z then Some (World (window_ x) (button x) (cookie x) (server x) (now x + d) (flight x), []) else None
  end.
Definition steps : world -> list event -> option (world * list output) := run step.

End world.
Arguments world P : clear implicits.

End Window.

(** ** The cookie *)

Lemma substring_app a b : String.substring 0 (String.length a) (a +:+ b) = a.
Proof. induction a as [|c a IH]; [by destruct b|]. exact (f_equal (String.String c) IH). Qed.

Lemma str_drop_app a b : str_drop (String.length a) (a +:+ b) = b.
Proof. induction a as [|c a IH]; [by destruct b|]. exact IH. Qed.

Lemma str_length_app a b : String.length (a +:+ b) = String.length a + String.length b.
Proof. induction a as [|c a IH]; [done|]. exact (f_equal S IH). Qed.

Lemma cookie_digit_code n : is_digit (Cookie.digit n) = true /\ (Z.of_nat (code (Cookie.digit n)) - 48 = n mod 10)%Z.
Proof. apply digit_char_code. by apply Z.mod_pos_bound. Qed.

Lemma parse_padded n : (0 <= n < 10000)%Z -> Cookie.parse_u32 (Cookie.padded n) = Some n.
Proof.
  intros Hn. unfold Cookie.parse_u32, Cookie.padded.
  destruct (cookie_digit_code (n / 1000)) as [D1 E1], (cookie_digit_code (n / 100)) as [D2 E2], (cookie_digit_code (n / 10)) as [D3 E3],
    (cookie_digit_code n) as [D4 E4].
  rewrite decide_False by (intros H; by rewrite H in D1). cbn [str_all]. rewrite D1, D2, D3, D4.
  cbn [bool_decide negb andb digits_Z]. rewrite E1, E2, E3, E4. cbn. f_equal. Z.div_mod_to_equations. lia.
Qed.

(** The cookie of a session is read as the session, whatever its name, as long
    as the codes of its characters add up to less than 10000; those of 64
    hexadecimal digits do. *)
Lemma cookie_roundtrip id :
  id <> "" -> (Cookie.checksum_of id < 10000)%Z -> Cookie.strip_checksum (Cookie.session_cookie id) = Some id.
Proof.
  intros Hi Hc. assert (0 <= Cookie.checksum_of id)%Z as H0 by (clear; induction id; cbn; lia).
  unfold Cookie.session_cookie. rewrite Z.mod_small by lia. set (p := Cookie.padded _).
  assert (String.length p = 4) as Hp by done. unfold Cookie.strip_checksum. rewrite str_length_app, Hp.
  assert (String.length id <> 0) as Hl by (by destruct id).
  rewrite (proj2 (Nat.ltb_ge _ _)) by lia. rewrite Nat.add_sub, str_drop_app, substring_app. unfold p.
  rewrite parse_padded by lia. cbn. by rewrite Z.eqb_refl.
Qed.

(** A name that is made of hexadecimal digits *)
Definition is_hex (c : Ascii.ascii) : bool := is_digit c || ((97 <=? code c) && (code c <=? 102)).
Lemma hex_checksum id : str_all is_hex id = true -> (Cookie.checksum_of id <= 102 * Z.of_nat (String.length id))%Z.
Proof.
  induction id as [|c id IH]; [done|]. cbn [str_all]. intros [Hc Hi]%andb_true_iff. cbn [Cookie.checksum_of String.length].
  specialize (IH Hi). assert (code c <= 102); [|lia].
  unfold is_hex, is_digit in Hc. apply orb_true_iff in Hc as [[_ H%Nat.leb_le]%andb_true_iff|[_ H%Nat.leb_le]%andb_true_iff]; lia.
Qed.

(** ** Who gets in *)

Section auth.
Import Auth.
Context {P : Type} (verify : P -> string -> bool) (needs_upgrade : P -> bool) (hash_password : string -> option P) (timeout : Z).
Implicit Types (s : Auth.state P) (r : request) (rs : list request).
Notation serve := (serve verify needs_upgrade hash_password timeout).
Notation served := (served verify needs_upgrade hash_password timeout).

(** The session a request names, one that ends a session, and one that opens
    one: a login with the password there is. *)
Definition names r (id : string) : Prop := r_cookie r ≫= Cookie.strip_checksum = Some id.
Definition ends r (id : string) : Prop := r_call r = DeleteSession /\ names r id.
Definition admits s r (id : string) : Prop :=
  exists pw, r_call r = Login pw /\ verify (password s) pw = true /\ random (r_chance r) = Some id.

(** What a session becomes, and what asking for the one that is named does *)
Definition kept r (id : string) (y y' : Sessions.session) : Prop :=
  Sessions.level y' = Sessions.level y /\
  (Sessions.expires y' = Sessions.expires y \/ names r id /\ Sessions.expires y' = (r_now r + timeout)%Z).

Lemma current_session_names r s :
  let '(s', x) := current_session timeout (r_now r) (r_cookie r) s in
  password s' = password s /\
  (forall id y', sessions s' !! id = Some y' -> exists y, sessions s !! id = Some y /\ kept r id y y') /\
  (forall id l, x = Some (id, l) -> names r id /\ exists y, sessions s !! id = Some y /\ (r_now r < Sessions.expires y)%Z) /\
  (forall id y', names r id -> sessions s' !! id = Some y' -> x = Some (id, Sessions.level y')).
Proof.
  unfold current_session, names. destruct (r_cookie r ≫= Cookie.strip_checksum) as [k|] eqn:Ek.
  2: { split_and!; try done. intros id y' H. exists y'. split; [done|]. split; [done|by left]. }
  assert (forall id y', sessions s !! id = Some y' -> exists y, sessions s !! id = Some y /\ kept r id y y') as Hsame.
  { intros id y' H. exists y'. split; [done|]. split; [done|by left]. }
  unfold Sessions.touch. destruct (sessions s !! k) as [x|] eqn:Ex.
  2: { split_and!; try done. cbn [sessions]. intros id y' [= <-] H. by rewrite Ex in H. }
  destruct (Z.leb_spec (Sessions.expires x) (r_now r)) as [Hle|Hlt]; (split; [done|]); cbn [sessions mbind option_bind]; split_and!.
  - intros id y' [_ H]%lookup_delete_Some. eauto.
  - done.
  - intros id y' Hk [H _]%lookup_delete_Some. congruence.
  - intros id y'. rewrite lookup_insert_Some. intros [[<- <-]|[_ H]]; [|by eauto]. exists x. split; [done|].
    split; [done|]. by right.
  - intros id l [= <- _]. split; [done|]. by exists x.
  - intros id y' Hk. rewrite lookup_insert_Some. intros [[<- <-]|[H _]]; [done|congruence].
Qed.

(** Sessions are an administrator's. *)
Definition admins s : Prop := forall id y, sessions s !! id = Some y -> Sessions.level y = AUTH_LEVEL_ADMIN.

(** Where a session that is held after a request comes from *)
Lemma serve_entries s r id y' :
  admins s -> sessions (serve s r).1 !! id = Some y' -> Sessions.level y' = AUTH_LEVEL_ADMIN /\
  (admits s r id /\ Sessions.expires y' = (r_now r + timeout)%Z \/
   ~ ends r id /\ exists y, sessions s !! id = Some y /\ kept r id y y').
Proof.
  intros Ha. unfold Auth.serve, handle. pose proof (current_session_names r s) as Hc.
  destruct (current_session _ _ _ s) as [s1 x]. destruct Hc as (Hp & Hs & _ & Hx).
  assert (forall y', sessions s1 !! id = Some y' -> ~ ends r id -> Sessions.level y' = AUTH_LEVEL_ADMIN /\
     (admits s r id /\ Sessions.expires y' = (r_now r + timeout)%Z \/
      ~ ends r id /\ exists y, sessions s !! id = Some y /\ kept r id y y')) as Hkeep.
  { intros y1 H1 Hn. destruct (Hs id y1 H1) as (y & Hy & Hk). split; [rewrite (proj1 Hk); by apply (Ha id)|]. right. eauto. }
  unfold dispatch. destruct (negb (is_open (r_call r)) && _) eqn:Eo; cbn [fst].
  { intros Hy. apply Hkeep; [done|]. intros [Hd Hn]. rewrite (Hx id y' Hn Hy) in Eo. cbn [fmap option_fmap option_map default snd] in Eo.
    destruct (Hs id y' Hy) as (y & Hy1 & Hk & _). by rewrite Hk, (Ha id y Hy1), Hd in Eo. }
  destruct (r_call r) as [pw| | |old new| |] eqn:Ec; cbn [fst snd].
  - unfold auth_login. destruct (throttled _); [by intros Hy; apply Hkeep; [|intros []; congruence]|].
    destruct (verify (password s1) pw) eqn:Ev; cbn [negb];
      [|by intros Hy; apply Hkeep; [|intros []; congruence]].
    destruct (random (r_chance r)) as [k|] eqn:Er; cbn [fst sessions]; [|by intros Hy; apply Hkeep; [|intros []; congruence]].
    unfold Sessions.create. rewrite lookup_insert_Some. intros [[<- <-]|[_ Hy]]; [|by apply Hkeep; [|intros []; congruence]].
    split; [done|]. left. split; [|done]. exists pw. by rewrite <- Hp.
  - intros Hy. apply Hkeep; [done|intros []; congruence].
  - unfold auth_delete_session. destruct (r_cookie r ≫= Cookie.strip_checksum) as [k|] eqn:Ek; cbn [fst sessions Sessions.remove].
    + intros [Hk Hy]%lookup_delete_Some. apply Hkeep; [done|]. intros [_ Hn]. unfold names in Hn. congruence.
    + intros Hy. apply Hkeep; [done|]. intros [_ Hn]. unfold names in Hn. congruence.
  - unfold auth_change_password. destruct (negb (verify _ old)); [by intros Hy; apply Hkeep; [|intros []; congruence]|].
    destruct (decide (new = "")); [by intros Hy; apply Hkeep; [|intros []; congruence]|].
    destruct (hash_password new); cbn [fst sessions]; [|by intros Hy; apply Hkeep; [|intros []; congruence]].
    unfold Sessions.sweep. intros [Hy _]%map_lookup_filter_Some. apply Hkeep; [done|intros []; congruence].
  - intros Hy. apply Hkeep; [done|intros []; congruence].
  - intros Hy. apply Hkeep; [done|intros []; congruence].
Qed.

(** A session that a run has opened: the login that opened it, with the password
    there was, nothing since that ended it, and a request that it was last
    used by. *)
Definition opened s0 rs (id : string) (until : Z) : Prop :=
  exists before r after, rs = before ++ r :: after /\ admits (served s0 before) r id /\
    Forall (fun r' => ~ ends r' id) after /\
    exists used, used ∈ r :: after /\ (used = r \/ names used id) /\ until = (r_now used + timeout)%Z.

Lemma opened_later s0 rs id until r : opened s0 rs id until -> ~ ends r id -> opened s0 (rs ++ [r]) id until.
Proof.
  intros (b & r1 & a & -> & Ha & Hf & u & Hu & Hn & He) Hr. exists b, r1, (a ++ [r]).
  split; [by rewrite <- app_assoc|]. split; [done|]. split; [by apply Forall_app_2; [|apply Forall_singleton]|].
  exists u. split; [|done]. rewrite app_comm_cons. apply elem_of_app. by left.
Qed.

Lemma opened_used s0 rs id until r :
  opened s0 rs id until -> ~ ends r id -> names r id -> opened s0 (rs ++ [r]) id (r_now r + timeout).
Proof.
  intros (b & r1 & a & -> & Ha & Hf & _) Hr Hn. exists b, r1, (a ++ [r]).
  split; [by rewrite <- app_assoc|]. split; [done|]. split; [by apply Forall_app_2; [|apply Forall_singleton]|].
  exists r. split; [|by split; [right|]]. rewrite app_comm_cons. apply elem_of_app. right. by left.
Qed.

Lemma sessions_opened s0 rs :
  sessions s0 = ∅ -> admins (served s0 rs) /\
  forall id y, sessions (served s0 rs) !! id = Some y -> opened s0 rs id (Sessions.expires y).
Proof.
  intros H0. induction rs as [|r rs [IHa IHo]] using rev_ind.
  { split; intros id y Hy; cbn in Hy; by rewrite H0 in Hy. }
  unfold Auth.served. rewrite foldl_snoc. fold (served s0 rs).
  assert (forall id y, sessions (serve (served s0 rs) r).1 !! id = Some y ->
    Sessions.level y = AUTH_LEVEL_ADMIN /\ opened s0 (rs ++ [r]) id (Sessions.expires y)) as H.
  { intros id y Hy. destruct (serve_entries _ r id y IHa Hy) as [Hl Hc]. split; [done|].
    destruct Hc as [[Had He]|(Hn & x & Hx & _ & [He|[Hnm He]])]; rewrite He.
    - exists rs, r, []. split_and!; [done|done|constructor|]. exists r. split; [by left|]. split; [by left|done].
    - apply opened_later; [by apply IHo|done].
    - eapply opened_used; [by apply IHo|done|done]. }
  split; intros id y Hy; by apply (H id y).
Qed.

(** Claim C8.  Nobody gets in without the password: whatever requests whatever
    clients have sent, a call other than those three that need no session is
    carried out only for a session that some login with the password of its time
    was given, that has not been ended since, and that was used less than the
    timeout ago. *)
Theorem no_entry_without_password s0 rs r :
  sessions s0 = ∅ -> is_open (r_call r) = false -> (serve (served s0 rs) r).2.1 <> Error 1 ->
  exists id until, names r id /\ opened s0 rs id until /\ (r_now r < until)%Z.
Proof.
  intros H0 Ho. destruct (sessions_opened s0 rs H0) as [_ Hs]. unfold Auth.serve, handle.
  pose proof (current_session_names r (served s0 rs)) as Hc. destruct (current_session _ _ _ _) as [s1 [[id l]|]].
  - intros _. destruct Hc as (_ & _ & Hx & _). destruct (Hx id l eq_refl) as (Hn & y & Hy & Hlt).
    exists id, (Sessions.expires y). split; [done|]. split; [by apply Hs|done].
  - unfold dispatch. rewrite Ho. by cbn.
Qed.

(** A change of the password ends no session: the sweep that is meant to drops
    those that have expired. *)
Theorem change_keeps_sessions s r old new id y :
  r_call r = ChangePassword old new -> (serve s r).2.1 = Bool true ->
  sessions s !! id = Some y -> (r_now r < Sessions.expires y)%Z -> ~ names r id ->
  sessions (serve s r).1 !! id = Some y.
Proof.
  intros Hc Hr Hy Hlt Hn. revert Hr. unfold Auth.serve, handle.
  assert (sessions (current_session timeout (r_now r) (r_cookie r) s).1 !! id = Some y) as Hs.
  { unfold current_session. unfold names in Hn. destruct (r_cookie r ≫= Cookie.strip_checksum) as [k|]; [|done].
    assert (k <> id) by congruence. unfold Sessions.touch. destruct (sessions s !! k) as [x|]; [|done].
    destruct (Sessions.expires x <=? r_now r)%Z; cbn [fst sessions]; by rewrite ?lookup_delete_ne, ?lookup_insert_ne. }
  destruct (current_session _ _ _ s) as [s1 x]. cbn [fst] in Hs. unfold dispatch. rewrite Hc. cbn [is_open negb andb].
  destruct (_ <? _)%Z; [done|]. unfold auth_change_password. destruct (negb _); [done|]. destruct (decide _); [done|].
  destruct (hash_password new) as [h|]; [|done]. intros _. cbn [fst snd sessions]. unfold Sessions.sweep.
  by rewrite map_lookup_filter_Some.
Qed.

End auth.

(** ** The window *)

Section window.
Import Auth Window.
Context {P : Type} (verify : P -> string -> bool) (needs_upgrade : P -> bool) (hash_password : string -> option P) (timeout : Z).
Context (lossy : call -> bool).
Implicit Types (x : world P) (w : window) (os : list output).
Notation steps := (steps verify needs_upgrade hash_password timeout lossy).
Notation step := (step verify needs_upgrade hash_password timeout lossy).

(** Whether the event of a login is the last of the two that was fired *)
Definition say (b : bool) os : bool :=
  foldl (fun b o => match o with Fired n => bool_decide (n = "login") | _ => b end) b os.

(** A call whose answer shows the window or logs in *)
Definition waiting (k : call) : bool := match k with CheckSession | DeleteSession => true | _ => false end.
Definition awaited x : Prop := Exists (fun c => waiting c.1.1 = true) (flight x).

(** What the server never answers to the end of a session *)
Definition fits (k : call) (r : reply) : Prop := match k, r with DeleteSession, Error c => c = 1%Z | _, _ => True end.

Lemma onReply_shows k r w b : fits k r ->
  let '(w', os) := onReply k r w in firstShow w' = false ->
  shown w' = true \/ say b os = true \/ firstShow w = false /\ waiting k = false /\ shown w' = shown w /\ say b os = b.
Proof.
  intros Hf. destruct w as [f sh t]. destruct r as [[]| |c], k; cbn in Hf; try subst c;
    unfold onReply, onSuccess, onFailure, onClientError, show; cbn [firstShow shown text];
    try (destruct f; cbn; tauto); destruct f; cbn; try tauto; destruct (c =? 1)%Z; cbn; tauto.
Qed.

Lemma handle_fits c t ck k s : fits k (handle verify needs_upgrade hash_password timeout c t ck k s).2.1.
Proof.
  destruct k; try done. unfold handle. destruct (current_session _ _ _ s) as [s1 y]. unfold dispatch.
  destruct (_ && _); [done|]. unfold auth_delete_session. by destruct (ck ≫= _).
Qed.

Definition fitting x : Prop :=
  Forall (fun c => match c.2 with Some (r, _) => fits c.1.1 r | None => True end) (flight x).
Definition reachable x (said : bool) : Prop :=
  fitting x /\ (firstShow (window_ x) = false -> shown (window_ x) = true \/ said = true \/ awaited x).

Lemma say_app b os os' : say b (os ++ os') = say (say b os) os'.
Proof. apply foldl_app. Qed.

Lemma fitting_after w os x : fitting x -> fitting (after w os x).
Proof.
  intros H. apply Forall_app_2; [done|]. apply Forall_fmap, Forall_true. done.
Qed.

(** A reply that comes, or that never will *)
Lemma reachable_reply b i k ck a r c x :
  flight x !! i = Some (k, ck, a) -> fits k r -> reachable x b ->
  let y := with_cookie c (without i x) in
  let '(w, os) := onReply k r (window_ x) in reachable (after w os y) (say b os).
Proof.
  intros Hi Hr [Hf Hs] y. pose proof (onReply_shows k r (window_ x) b Hr) as Ho.
  destruct (onReply k r (window_ x)) as [w os]. split.
  - apply fitting_after. unfold fitting, y. cbn. by apply Forall_delete.
  - intros Hw. destruct (Ho Hw) as [H|[H|(H1 & H2 & H3 & H4)]]; [by left|right; by left|].
    unfold after. cbn [window_]. rewrite H3, H4. destruct (Hs H1) as [H|[H|H]]; [by left|right; by left|].
    right. right. unfold awaited. cbn [flight with_cookie without y]. apply Exists_app. left.
    apply Exists_exists in H as ([[k' ck'] a'] & Hin & Hk'). apply Exists_exists. exists (k', ck', a'). split; [|done].
    apply list_elem_of_lookup in Hin as [j Hj]. assert (j <> i) as Hne by (intros ->; cbn in Hk'; congruence).
    apply list_elem_of_lookup. destruct (decide (j < i)) as [Hl|Hl].
    + exists j. by rewrite list_lookup_delete_lt.
    + exists (pred j). rewrite list_lookup_delete_ge by lia. by replace (S (pred j)) with j by lia.
Qed.

Lemma reachable_step b x e x' os :
  lossy DeleteSession = false -> reachable x b -> step x e = Some (x', os) -> reachable x' (say b os).
Proof.
  intros Hl Hx Hs. pose proof Hx as [Hf Hr]. destruct e as [|t| | | |i c|i|i|d]; cbn [step] in Hs.
  - destruct (firstShow (window_ x)) eqn:E; [|done]. injection Hs as <- <-. split; [by apply fitting_after|].
    intros _. right. right. unfold awaited, after. cbn. apply Exists_app. right. by left.
  - destruct (shown (window_ x)) eqn:E; [|done]. injection Hs as <- <-. split; [by apply fitting_after|]. by left.
  - destruct (shown (window_ x)) eqn:E; [|done]. injection Hs as <- <-. split; [by apply fitting_after|]. by left.
  - destruct (button x && _); [|done]. injection Hs as <- <-. split; [by apply (fitting_after _ _ (World _ _ _ _ _ _))|].
    intros _. right. right. unfold awaited, after. cbn. apply Exists_app. right. by left.
  - injection Hs as <- <-. split; [by apply fitting_after|]. intros Hw. cbn in Hw. destruct (Hr Hw) as [H|[H|H]]; [by left|by right; left|].
    right. right. apply Exists_app. by left.
  - destruct (flight x !! i) as [[[k ck] [a|]]|] eqn:Ei; cbn [mbind option_bind] in Hs; try done.
    pose proof (handle_fits c (now x) ck k (server x)) as Hk.
    destruct (handle _ _ _ _ _ _ _ _ _) as [s' [r ck']]. injection Hs as <- <-. split.
    + apply Forall_insert; done.
    + cbn. intros Hw. destruct (Hr Hw) as [H|[H|H]]; [by left|by right; left|]. right. right. unfold awaited in *. cbn [flight].
      apply Exists_exists in H as ([[k' ck2] a'] & Hin & Hk'). apply list_elem_of_lookup in Hin as [j Hj].
      apply Exists_exists. destruct (decide (j = i)) as [->|Hne].
      * exists (k, ck, Some (r, ck')). split; [|by simplify_eq]. apply list_elem_of_lookup. exists i.
        apply list_lookup_insert_eq. by eapply lookup_lt_Some.
      * exists (k', ck2, a'). split; [|done]. apply list_elem_of_lookup. exists j. by rewrite list_lookup_insert_ne.
  - destruct (flight x !! i) as [[[k ck] [[r c]|]]|] eqn:Ei; cbn [mbind option_bind] in Hs; try done.
    assert (fits k r) as Hk by apply (proj1 (Forall_lookup _ _) Hf i _ Ei).
    pose proof (reachable_reply b i k ck _ r c x Ei Hk Hx) as H. cbn zeta in H. cbn [window_ with_cookie without] in Hs.
    destruct (onReply k r (window_ x)). by injection Hs as <- <-.
  - destruct (flight x !! i) as [[[k ck] a]|] eqn:Ei; cbn [mbind option_bind] in Hs; [|done].
    destruct (lossy k) eqn:El; [|done].
    assert (fits k (Error 255)) as Hk by (destruct k; try done; congruence).
    pose proof (reachable_reply b i k ck _ (Error 255) None x Ei Hk Hx) as H. cbn zeta in H. cbn [window_ without] in Hs.
    destruct (onReply k (Error 255) (window_ x)). by injection Hs as <- <-.
  - destruct (0 <=? d)%Z; [|done]. by injection Hs as <- <-.
Qed.

(** Claim C15.  Nobody is left outside: once the window was asked for, unless the
    call that ends a session is lost, it is on the screen, or a login was the
    last thing announced, or the answer to a call is awaited that will bring one
    or the other. *)
Theorem never_stranded s t ck es x os :
  lossy DeleteSession = false -> steps (load s t ck) es = Some (x, os) -> firstShow (window_ x) = false ->
  shown (window_ x) = true \/ say false os = true \/ awaited x.
Proof.
  intros Hl Hs. enough (reachable x (say false os)) as [_ H] by done. revert es x os Hs.
  apply (run_ind step (fun x _ os => reachable x (say false os))); [by split; [constructor|]|].
  intros es x1 os1 e x2 os2 _ Hx Hs. rewrite say_app. by eapply reachable_step.
Qed.


(** *** Staying logged in *)

Section stays.
Context (id : string) (Hid : Cookie.strip_checksum (Cookie.session_cookie id) = Some id).
Notation its_cookie := (Some (Cookie.session_cookie id)).

Definition alive (t : Z) (s : Auth.state P) : Prop :=
  exists y, sessions s !! id = Some y /\ (t + timeout <= Sessions.expires y)%Z /\ (AUTH_LEVEL_ADMIN <= Sessions.level y)%Z.

Lemma handle_alive c t0 t s :
  alive t0 s -> (t0 <= t < t0 + timeout)%Z ->
  exists s', handle verify needs_upgrade hash_password timeout c t its_cookie Other s = (s', (Answer, its_cookie)) /\ alive t0 s'.
Proof.
  intros (y & Hy & He & Hl) Ht. unfold handle, current_session. cbn [mbind option_bind]. rewrite Hid. unfold Sessions.touch.
  rewrite Hy. rewrite (proj2 (Z.leb_gt _ _)) by lia. cbn [default fmap option_fmap option_map snd Sessions.level]. unfold dispatch.
  rewrite (proj2 (Z.ltb_ge _ _)) by done. cbn. eexists. split; [done|]. eexists. split; [apply lookup_insert_eq|].
  cbn. split; [lia|done].
Qed.

Lemma handle_login c t ck pw s :
  verify (password s) pw = true -> throttled c = false -> random c = Some id ->
  exists s', handle verify needs_upgrade hash_password timeout c t ck (Login pw) s = (s', (Bool true, its_cookie)) /\ alive t s'.
Proof.
  intros Hv Hc Hr. unfold handle. destruct (current_session _ _ _ s) as [s1 z] eqn:Es.
  assert (password s1 = password s) as Hp.
  { revert Es. unfold current_session. destruct (ck ≫= _); [|by intros [= <- _]].
    destruct (Sessions.touch _ _ _ _). by intros [= <- _]. }
  unfold dispatch. cbn [is_open negb andb]. unfold auth_login. rewrite Hc, Hp, Hv, Hr. cbn. eexists. split; [done|].
  eexists. split; [apply lookup_insert_eq|]. cbn. lia.
Qed.

(** Logged in, with nothing out but calls of this session *)
Record staying (t0 : Z) x : Prop := {
  st_shown : shown (window_ x) = false;
  st_cookie : cookie x = its_cookie;
  st_alive : alive t0 (server x);
  st_now : (t0 <= now x)%Z;
  st_flight : Forall (fun c => c.1 = (Other, its_cookie) /\ (c.2 = None \/ c.2 = Some (Answer, its_cookie))) (flight x)
}.

(** What is done without logging out, and the time it takes *)
Definition takes (e : event) : Z := match e with Tick d => d | _ => 0 end.
Definition elapsed (es : list event) : Z := foldr (fun e t => (takes e + t)%Z) 0%Z es.
Definition quiet (e : event) : bool := match e with Ask | Serve _ _ | Deliver _ | Lose _ | Tick _ => true | _ => false end.

Lemma staying_step t0 x e x' os :
  staying t0 x -> quiet e = true -> (now x < t0 + timeout)%Z -> step x e = Some (x', os) ->
  staying t0 x' /\ now x' = (now x + takes e)%Z /\ Fired "logout" ∉ os.
Proof.
  intros [H1 H2 H3 H4 H5] Hq Ht Hs. destruct e as [|t| | | |i c|i|i|d]; try done; cbn [step takes] in *.
  - injection Hs as <- <-. split; [|split; [cbn; lia|by intros H%list_elem_of_singleton]].
    split; try done. apply Forall_app_2; [done|]. cbn. rewrite H2. repeat constructor.
  - destruct (flight x !! i) as [[[k ck] [a|]]|] eqn:Ei; cbn [mbind option_bind] in Hs; try done.
    destruct (proj1 (Forall_lookup _ _) H5 i _ Ei) as [[= -> ->] _].
    destruct (handle_alive c t0 (now x) (server x) H3 ltac:(lia)) as (s' & E & Ha). rewrite E in Hs. injection Hs as <- <-.
    split; [|split; [cbn; lia|by apply not_elem_of_nil]]. split; try done. apply Forall_insert; [done|]. split; [done|by right].
  - destruct (flight x !! i) as [[[k ck] [[r c]|]]|] eqn:Ei; cbn [mbind option_bind] in Hs; try done.
    destruct (proj1 (Forall_lookup _ _) H5 i _ Ei) as [[= -> ->] [?|[= -> ->]]]; [done|]. cbn in Hs. injection Hs as <- <-.
    split; [|split; [cbn; lia|by apply not_elem_of_nil]]. split; try done. cbn. rewrite app_nil_r. by apply Forall_delete.
  - destruct (flight x !! i) as [[[k ck] a]|] eqn:Ei; cbn [mbind option_bind] in Hs; [|done].
    destruct (proj1 (Forall_lookup _ _) H5 i _ Ei) as [[= -> ->] _]. destruct (lossy Other); [|done].
    unfold onReply, onClientError in Hs. destruct (firstShow (window_ (without i x))); cbn in Hs; injection Hs as <- <-;
      (split; [|split; [cbn; lia|by apply not_elem_of_nil]]); split; try done; cbn; rewrite app_nil_r; by apply Forall_delete.
  - destruct (Z.leb_spec 0 d); [|done]. injection Hs as <- <-. split; [|split; [done|by apply not_elem_of_nil]]. split; try done. cbn. lia.
Qed.

Lemma elapsed_snoc es e : elapsed (es ++ [e]) = (elapsed es + takes e)%Z.
Proof. unfold elapsed. induction es as [|e' es IH]; cbn in *; lia. Qed.

Lemma takes_pos x e x' os : step x e = Some (x', os) -> (0 <= takes e)%Z.
Proof. destruct e; try done. cbn. by destruct (Z.leb_spec 0 d). Qed.

Lemma staying_run x es x' os :
  staying (now x) x -> steps x es = Some (x', os) -> Forall (fun e => quiet e = true) es -> (elapsed es < timeout)%Z ->
  staying (now x) x' /\ now x' = (now x + elapsed es)%Z /\ Fired "logout" ∉ os.
Proof.
  intros Hx Hs. revert es x' os Hs.
  apply (run_ind step (fun x' es os => Forall (fun e => quiet e = true) es -> (elapsed es < timeout)%Z ->
    staying (now x) x' /\ now x' = (now x + elapsed es)%Z /\ Fired "logout" ∉ os)).
  { intros _ _. split; [done|]. split; [cbn; lia|by apply not_elem_of_nil]. }
  intros es x1 os1 e x2 os2 _ IH Hs [Hq Hqe]%Forall_app Ht. rewrite elapsed_snoc in Ht. pose proof (takes_pos _ _ _ _ Hs) as Hp.
  destruct (IH Hq ltac:(lia)) as (H1 & H2 & H3). apply Forall_cons_1 in Hqe as [Hqe _].
  destruct (staying_step (now x) x1 e x2 os2 H1 Hqe ltac:(lia) Hs) as (H4 & H5 & H6).
  split; [done|]. split; [rewrite elapsed_snoc; lia|]. rewrite elem_of_app. tauto.
Qed.

End stays.

(** Claim C10.  With nothing else on the way, and the throttle letting the try
    through, the right password lets one in, and
    one stays in until one asks to leave or the timeout has gone by, whatever the
    rest of the interface asks and the network loses. *)
Theorem login_lasts id c x es x' os :
  id <> "" -> (Cookie.checksum_of id < 10000)%Z ->
  shown (window_ x) = true -> flight x = [] -> verify (password (server x)) (text (window_ x)) = true ->
  throttled c = false -> random c = Some id ->
  Forall (fun e => quiet e = true) es -> (elapsed es < timeout)%Z ->
  steps x (Press :: Serve 0 c :: Deliver 0 :: es) = Some (x', os) ->
  shown (window_ x') = false /\ cookie x' = Some (Cookie.session_cookie id) /\ Fired "login" ∈ os /\ Fired "logout" ∉ os.
Proof.
  intros Hi Hc Hs Hf Hv Ht Hr Hq He Hrun. pose proof (cookie_roundtrip id Hi Hc) as Hid.
  change (steps x ([Press; Serve 0 c; Deliver 0] ++ es) = Some (x', os)) in Hrun.
  apply run_app in Hrun as (x1 & os1 & os2 & H1 & H2 & ->).
  assert (now x1 = now x /\ staying id (now x) x1 /\ Fired "login" ∈ os1 /\ Fired "logout" ∉ os1) as (Hn & Hst & Hin & Hout).
  { revert H1. unfold run. cbn [foldl step mbind option_bind]. rewrite Hs. unfold after. cbn [flight]. rewrite Hf. cbn.
    destruct (handle_login id c (now x) (cookie x) (text (window_ x)) (server x) Hv Ht Hr) as (s' & E & Ha). rewrite E. cbn.
    intros [= <- <-]. split; [done|]. split; [split; try done; cbn; lia|]. split; [by right; left|].
    intros H. repeat (apply elem_of_cons in H as [H|H]; [discriminate H|]). by apply elem_of_nil in H. }
  rewrite <- Hn in Hst. destruct (staying_run id Hid x1 es x' os2 Hst H2 Hq He) as ([] & _ & Hno).
  split; [done|]. split; [done|]. rewrite !elem_of_app. tauto.
Qed.

(** *** What goes wrong *)

Lemma handle_stranger id c t ck s :
  Cookie.strip_checksum ck = Some id -> sessions s !! id = None ->
  handle verify needs_upgrade hash_password timeout c t (Some ck) Other s = (s, (Error 1, None)).
Proof.
  intros Hid Hs. unfold handle, current_session. cbn [mbind option_bind]. rewrite Hid. unfold Sessions.touch. rewrite Hs.
  by destruct s.
Qed.

(** Claim C39.  A call that was served for a session brings that session's cookie
    back when it is answered, even if the session was ended and another one was
    opened meanwhile: the next call is refused, and whoever has just logged in is
    logged out. *)
Theorem late_answer_logs_out x i ck old c :
  flight x !! i = Some (Other, ck, Some (Answer, Some (Cookie.session_cookie old))) ->
  Cookie.strip_checksum (Cookie.session_cookie old) = Some old -> sessions (server x) !! old = None ->
  firstShow (window_ x) = false ->
  let n := length (delete i (flight x)) in
  exists x' os, steps x [Deliver i; Ask; Serve n c; Deliver n] = Some (x', os) /\
    Fired "logout" ∈ os /\ shown (window_ x') = true /\ cookie x' = Some (Cookie.session_cookie old).
Proof.
  intros Hi Hold Hs Hf n. unfold Window.steps, run. cbn [foldl mbind option_bind Window.step]. rewrite Hi. cbn [mbind option_bind onReply onSuccess].
  cbn [mbind option_bind after with_cookie without cookie server now button flight window_ calls omap list_omap fmap list_fmap app]. rewrite app_nil_r.
  set (l := delete i (flight x)) in *. rewrite list_lookup_middle by done. cbn [mbind option_bind after with_cookie without cookie server now button flight window_ calls omap list_omap fmap list_fmap app].
  rewrite (handle_stranger old) by done.
  cbn [mbind option_bind after with_cookie without cookie server now button flight window_ calls omap list_omap fmap list_fmap app].
  assert (<[n := (Other, Some (Cookie.session_cookie old), Some (Error 1, None : option string))]>
            (l ++ [(Other, Some (Cookie.session_cookie old), None)]) !! n =
          Some (Other, Some (Cookie.session_cookie old), Some (Error 1, None))) as Hn.
  { apply list_lookup_insert_eq. rewrite length_app. cbn. lia. }
  rewrite Hn. cbn [mbind option_bind after with_cookie without cookie server now button flight window_ calls omap list_omap fmap list_fmap app]. unfold onReply, onClientError. cbn [with_cookie without window_]. rewrite Hf. cbn.
  eexists _, _. split; [done|]. split; [right; by left|done].
Qed.

(** When the call that ends the session is lost, the interface is logged out and
    shows nothing to log in with. *)
Theorem lost_logout_strands x :
  lossy DeleteSession = true -> button x = true -> shown (window_ x) = false -> ~ awaited x ->
  let n := length (flight x) in
  exists x' os, steps x [Logout; Lose n] = Some (x', os) /\
    say true os = false /\ shown (window_ x') = false /\ ~ awaited x' /\ button x' = false.
Proof.
  intros Hl Hb Hs Ha n. subst n. unfold Window.steps, run. cbn [foldl mbind option_bind Window.step]. rewrite Hb, Hs. cbn [negb andb mbind option_bind after with_cookie without cookie server now button flight window_ logout calls omap list_omap fmap list_fmap app].
  rewrite list_lookup_middle by done. cbn [mbind option_bind]. rewrite Hl. unfold onReply, onClientError.
  assert (delete (length (flight x)) (flight x ++ [(DeleteSession, cookie x, None)]) = flight x) as Hd by (by rewrite delete_middle, app_nil_r).
  destruct (firstShow (window_ x)); (eexists _, _; split; [reflexivity|]; split_and!; [done|done| |done]; unfold awaited;
    match goal with |- ~ Exists _ ?f => replace f with (flight x); [done|] end;
    change (flight x = delete (length (flight x)) (flight x ++ [(DeleteSession, cookie x, None)]) ++ []);
    by rewrite app_nil_r).
Qed.

End window.

(** ** Runs *)

(** A server whose password is kept as it is, and a session's name drawn *)
Definition plain (t : Z) : Auth.state string -> Auth.request -> Auth.state string * (Auth.reply * option string) :=
  Auth.serve String.eqb (fun _ => false) Some t.
Definition fresh_server : Auth.state string := Auth.mk ∅ "secret".
Definition luck (id : string) : Auth.chance := {| Auth.throttled := false; Auth.random := Some id |}.
Definition request (id : string) (t : Z) (cookie : option string) (k : Auth.call) : Auth.request :=
  {| Auth.r_chance := luck id; Auth.r_now := t; Auth.r_cookie := cookie; Auth.r_call := k |}.
Definition as_session (id : string) : option string := Some (Cookie.session_cookie id).

Definition one_login : list Auth.request := [request "a1b2" 0 None (Auth.Login "secret")].
Lemma no_entry_without_password_witness :
  (plain 60 (Auth.served String.eqb (fun _ => false) Some 60 fresh_server one_login)
     (request "" 59 (as_session "a1b2") Auth.Other)).2.1 = Auth.Answer /\
  exists id until, names (request "" 59 (as_session "a1b2") Auth.Other) id /\
    opened String.eqb (fun _ => false) Some 60 fresh_server one_login id until /\ (59 < until)%Z.
Proof.
  split; [vm_compute; reflexivity|].
  apply (no_entry_without_password String.eqb (fun _ => false) Some 60 fresh_server one_login
           (request "" 59 (as_session "a1b2") Auth.Other) eq_refl eq_refl).
  vm_compute. discriminate.
Defined.

Lemma change_keeps_sessions_witness :
  let s : Auth.state string := Auth.mk (<["a1b2" := Sessions.mk "admin" 10 60]> (<["c3d4" := Sessions.mk "admin" 10 60]> ∅)) "secret" in
  let r := request "" 30 (as_session "c3d4") (Auth.ChangePassword "secret" "new") in
  (plain 60 s r).2.1 = Auth.Bool true /\
  Auth.sessions (plain 60 s r).1 !! "a1b2" = Some (Sessions.mk "admin" 10 60).
Proof.
  cbv zeta. split; [vm_compute; reflexivity|].
  apply (change_keeps_sessions String.eqb (fun _ => false) Some 60 _ _ "secret" "new"); try by vm_compute.
Defined.

(** The browser of that server: the window is asked for, one logs in, and another
    part of the interface asks for something that is held. *)
Definition browser := Window.steps String.eqb (fun _ => false) Some 3600.
Definition entering (id : string) (i : nat) : list Window.event :=
  [Window.Type_ "secret"; Window.Press; Window.Serve i (luck id); Window.Deliver i].
Definition opening : list Window.event := [Window.Connected; Window.Serve 0 (luck ""); Window.Deliver 0].
Definition again : list Window.event :=
  opening ++ entering "a1b2" 0 ++ [Window.Ask; Window.Serve 0 (luck ""); Window.Logout; Window.Serve 1 (luck ""); Window.Deliver 1] ++
  entering "c3d4" 1.
Definition blank : Window.world string := Window.load fresh_server 0 None.
Definition at_end (r : option (Window.world string * list Window.output)) : Window.world string := default blank (fst <$> r).

Lemma never_stranded_witness :
  exists x os, browser (fun _ => false) blank again = Some (x, os) /\
    (Window.shown (Window.window_ x) = true \/ say false os = true \/ awaited x).
Proof.
  eexists _, _. split; [vm_compute; reflexivity|].
  refine (never_stranded String.eqb (fun _ => false) Some 3600 (fun _ => false) fresh_server 0 None again _ _ eq_refl _ _);
    vm_compute; reflexivity.
Defined.

Definition working : list Window.event := [Window.Ask; Window.Tick 1800; Window.Serve 0 (luck ""); Window.Deliver 0; Window.Tick 1799].
Lemma login_lasts_witness :
  exists x' os, browser (fun _ => true) (at_end (browser (fun _ => true) blank (opening ++ [Window.Type_ "secret"])))
    (Window.Press :: Window.Serve 0 (luck "a1b2") :: Window.Deliver 0 :: working) = Some (x', os) /\
    Window.shown (Window.window_ x') = false /\ Window.cookie x' = as_session "a1b2" /\
    Window.Fired "login" ∈ os /\ Window.Fired "logout" ∉ os.
Proof.
  eexists _, _. split; [vm_compute; reflexivity|].
  refine (login_lasts String.eqb (fun _ => false) Some 3600 (fun _ => true) "a1b2" (luck "a1b2")
            (at_end (browser (fun _ => true) blank (opening ++ [Window.Type_ "secret"]))) working _ _ _ _ _ _ _ eq_refl eq_refl _ _ _);
    try (vm_compute; reflexivity); [discriminate|repeat constructor].
Defined.

Lemma late_answer_logs_out_witness :
  let x := at_end (browser (fun _ => false) blank again) in
  Window.cookie x = as_session "c3d4" /\ Window.shown (Window.window_ x) = false /\
  exists x' os, browser (fun _ => false) x [Window.Deliver 0; Window.Ask; Window.Serve 0 (luck ""); Window.Deliver 0] = Some (x', os) /\
    Window.Fired "logout" ∈ os /\ Window.shown (Window.window_ x') = true /\ Window.cookie x' = as_session "a1b2".
Proof.
  cbv zeta. split; [vm_compute; reflexivity|]. split; [vm_compute; reflexivity|].
  refine (late_answer_logs_out String.eqb (fun _ => false) Some 3600 (fun _ => false)
            (at_end (browser (fun _ => false) blank again)) 0 (as_session "a1b2") "a1b2" (luck "") _ _ _ _);
    vm_compute; reflexivity.
Defined.
